(** * parkmonitor forecast service: a shallow embedding and its properties

    The Python sources under [forecast/src] (data_loader.py, features.py,
    models.py, server.py, predict.py) are embedded function by function.

    Conventions of the embedding.
    - A pandas [DataFrame] is a list of labelled columns, in column order;
      a column is a list of cells.  Labels are unique in every frame the
      program builds (SQL tables have unique column names, [merge] refuses
      to create duplicates, item assignment replaces an existing label).
    - Numbers (int64 and float64 alike) are rationals with exact
      arithmetic; a division by zero yields an infinity or NaN cell as in
      IEEE arithmetic.  Library functions on floats that have no rational
      counterpart (sin, cos, sqrt, the constant pi) and the parsers of
      pandas are fields of the class [PyLib].
    - Exceptions are values of [exn]; fallible code returns [result].
    - Objects that the code mutates in place live in a heap of frames;
      [df.copy()] allocates. *)

From stdpp Require Import base option list gmap strings pretty sorting.
From Stdlib Require Import QArith Qminmax Qround Qabs Lqa ZArith Lia.

Open Scope string_scope.
Open Scope Z_scope.
Open Scope list_scope.

(** ** Exceptions and results *)

Inductive exn :=
| KeyError (label : string)
| ValueError (msg : string)
| TypeError (msg : string)
| AttributeError (msg : string)
| IndexError
| RuntimeError (msg : string)
| FileNotFoundError (path : string)
| DatabaseError (msg : string)
| HTTPException (status_code : Z) (detail : string).

Inductive result (A : Type) :=
| Ok (a : A)
| Err (e : exn).
Arguments Ok {A} a.
Arguments Err {A} e.

#[export] Instance result_ret : MRet result := fun _ a => Ok a.
#[export] Instance result_bind : MBind result := fun _ _ f m =>
  match m with
  | Ok a => f a
  | Err e => Err e
  end.
#[export] Instance result_fmap : FMap result := fun _ _ f m =>
  match m with
  | Ok a => Ok (f a)
  | Err e => Err e
  end.

Definition is_Ok {A} (m : result A) : Prop := ∃ a, m = Ok a.

Fixpoint mapR {A B} (f : A → result B) (l : list A) : result (list B) :=
  match l with
  | [] => Ok []
  | x :: l' => y ← f x; ys ← mapR f l'; Ok (y :: ys)
  end.

Definition from_option {A} (e : exn) (o : option A) : result A :=
  match o with
  | Some a => Ok a
  | None => Err e
  end.

(** ** Library functions of Python, numpy and pandas that are used as
    black boxes. *)

(** A float as [pd.to_numeric] reads it from text: a number, an infinity
    or NaN. *)
Inductive float64 :=
| FNum (q : Q)
| FInf (negative : bool)
| FNaN.

Class PyLib := {
  np_pi : Q;
  np_sin : Q → Q;
  np_cos : Q → Q;
  np_sqrt : Q → Q;
  (* pandas [.dt] accessors of a datetime64[ns] value (nanoseconds) *)
  dt_hour : Z → Z;
  dt_dayofweek : Z → Z;
  dt_day : Z → Z;
  dt_month : Z → Z;
  dt_year : Z → Z;
  dt_isoweek : Z → Z;
  (* [pd.to_datetime] and [pd.to_numeric] on one string; the latter
     reads the empty string as NaN and [inf] as infinity *)
  parse_datetime : string → option Z;
  parse_numeric : string → option float64;
  (* [Timestamp.isoformat] *)
  isoformat : Z → string;
}.

(** ** Cells, columns and frames *)

Module Pandas.

Inductive cell :=
| CNum (q : Q)
| CInf (negative : bool)
| CStr (s : string)
| CTime (ns : Z)
| CNaN.

#[export] Instance Q_eq_dec : EqDecision Q.
Proof. solve_decision. Defined.
#[export] Instance cell_eq_dec : EqDecision cell.
Proof. solve_decision. Defined.

Abbreviation column := (list cell).
Abbreviation frame := (list (string * list cell)).

Definition isna (c : cell) : bool :=
  match c with
  | CNaN => true
  | _ => false
  end.

(** [df.columns] *)
Definition columns (df : frame) : list string := map fst df.

(** [len(df)] *)
Definition nrows (df : frame) : nat :=
  match df with
  | [] => 0%nat
  | (_, c) :: _ => length c
  end.

(** [df.empty] *)
Definition empty (df : frame) : bool := bool_decide (nrows df = 0%nat).

(** [df[label]] *)
Fixpoint getitem (df : frame) (label : string) : result column :=
  match df with
  | [] => Err (KeyError label)
  | (l, c) :: df' => if decide (l = label) then Ok c else getitem df' label
  end.

(** [df[label] = c]: replaces the column in place when the label exists,
    appends it otherwise. *)
Fixpoint setitem (df : frame) (label : string) (c : column) : frame :=
  match df with
  | [] => [(label, c)]
  | (l, c') :: df' =>
      if decide (l = label) then (l, c) :: df'
      else (l, c') :: setitem df' label c
  end.

(** [df[[l1; ...; ln]]] *)
Definition select (df : frame) (labels : list string) : result frame :=
  mapR (fun l => c ← getitem df l; Ok (l, c)) labels.

(** [df.drop(columns=[label])] *)
Definition drop_column (df : frame) (label : string) : frame :=
  filter (fun lc => lc.1 ≠ label) df.

(** Positional row selection, [df.iloc[idxs]]. *)
Definition gather {A} (idxs : list nat) (c : list A) : list A :=
  omap (fun i => c !! i) idxs.

Definition map_columns (f : column → column) (df : frame) : frame :=
  map (fun lc => (lc.1, f lc.2)) df.

Definition take_rows (idxs : list nat) (df : frame) : frame :=
  map_columns (gather idxs) df.

(** Row [i] as the list of its cells, in column order. *)
Definition row (df : frame) (i : nat) : list cell :=
  omap (fun lc => lc.2 !! i) df.

Definition row_indices (df : frame) : list nat := seq 0 (nrows df).

(** [df.dropna()]: keeps the rows without a missing cell. *)
Definition dropna (df : frame) : frame :=
  take_rows (filter (fun i => forallb (fun c => negb (isna c)) (row df i) = true)
                    (row_indices df)) df.

(** [df.fillna(0)] *)
Definition fillna0 (df : frame) : frame :=
  map_columns (map (fun c => if isna c then CNum 0%Q else c)) df.

(** [df.iloc[-1:]] *)
Definition iloc_last (df : frame) : frame :=
  take_rows (match nrows df with O => [] | S n => [n] end) df.

(** [series.iloc[0]] *)
Definition iloc0 (c : column) : result cell := from_option IndexError (c !! 0%nat).

(** *** Element-wise arithmetic of series

    float64 semantics with exact rationals for the finite values. *)

Definition Qltb (a b : Q) : bool := negb (Qle_bool b a).

Definition cell_sub (a b : cell) : result cell :=
  match a, b with
  | CNum x, CNum y => Ok (CNum (x - y))
  | CNaN, (CNum _ | CInf _ | CNaN) | (CNum _ | CInf _), CNaN => Ok CNaN
  | CInf s, CNum _ => Ok (CInf s)
  | CNum _, CInf s => Ok (CInf (negb s))
  | CInf s, CInf s' => Ok (if bool_decide (s = s') then CNaN else CInf s)
  | _, _ => Err (TypeError "unsupported operand type(s) for -")
  end.

Definition cell_div (a b : cell) : result cell :=
  match a, b with
  | CNum x, CNum y =>
      if Qeq_bool y 0 then
        Ok (if Qeq_bool x 0 then CNaN else CInf (Qltb x 0))
      else Ok (CNum (x / y))
  | CNaN, (CNum _ | CInf _ | CNaN) | (CNum _ | CInf _), CNaN => Ok CNaN
  | CInf s, CNum y => Ok (CInf (xorb s (Qltb y 0)))
  | CNum _, CInf _ => Ok (CNum 0)
  | CInf _, CInf _ => Ok CNaN
  | _, _ => Err (TypeError "unsupported operand type(s) for /")
  end.

(** [k * c] for a float scalar [k] *)
Definition cell_scale (k : Q) (c : cell) : result cell :=
  match c with
  | CNum x => Ok (CNum (k * x))
  | CInf s => Ok (if Qeq_bool k 0 then CNaN else CInf (xorb s (Qltb k 0)))
  | CNaN => Ok CNaN
  | _ => Err (TypeError "unsupported operand type(s) for *")
  end.

(** [c * k] for a scalar [k] *)
Definition cell_mul_scalar (c : cell) (k : Q) : result cell :=
  match c with
  | CNum x => Ok (CNum (x * k))
  | CInf s => Ok (if Qeq_bool k 0 then CNaN else CInf (xorb s (Qltb k 0)))
  | CNaN => Ok CNaN
  | _ => Err (TypeError "unsupported operand type(s) for *")
  end.

(** [a - b], [a / b] on two series of one frame *)
Definition series_sub (a b : column) : result column :=
  mapR (fun ab => cell_sub ab.1 ab.2) (zip a b).
Definition series_div (a b : column) : result column :=
  mapR (fun ab => cell_div ab.1 ab.2) (zip a b).
(** [k * a], [a * k] and [a / k] for a scalar [k] *)
Definition series_scale (k : Q) (a : column) : result column :=
  mapR (cell_scale k) a.
Definition series_mul_scalar (a : column) (k : Q) : result column :=
  mapR (fun c => cell_mul_scalar c k) a.
Definition series_div_scalar (a : column) (k : Q) : result column :=
  mapR (fun c => cell_div c (CNum k)) a.

(** Comparisons with a scalar give boolean series; NaN compares false. *)
Definition cell_ge (c : cell) (k : Q) : result bool :=
  match c with
  | CNum x => Ok (Qle_bool k x)
  | CInf s => Ok (negb s)
  | CNaN => Ok false
  | _ => Err (TypeError "'>=' not supported")
  end.
Definition cell_le (c : cell) (k : Q) : result bool :=
  match c with
  | CNum x => Ok (Qle_bool x k)
  | CInf s => Ok s
  | CNaN => Ok false
  | _ => Err (TypeError "'<=' not supported")
  end.
Definition series_ge (a : column) (k : Q) : result (list bool) :=
  mapR (fun c => cell_ge c k) a.
Definition series_le (a : column) (k : Q) : result (list bool) :=
  mapR (fun c => cell_le c k) a.
Definition series_and (a b : list bool) : list bool :=
  map (fun ab => andb ab.1 ab.2) (zip a b).
Definition series_or (a b : list bool) : list bool :=
  map (fun ab => orb ab.1 ab.2) (zip a b).

(** [series.isin(values)] for numeric values *)
Definition isin (a : column) (values : list Q) : list bool :=
  map (fun c => match c with
                | CNum x => existsb (Qeq_bool x) values
                | _ => false
                end) a.

(** [mask.astype(int)] *)
Definition astype_int (mask : list bool) : column :=
  map (fun b : bool => CNum (if b then 1 else 0)) mask.

Section Lib.
Context `{PyLib}.

(** [np.sin(series)], [np.cos(series)] *)
Definition np_apply (f : Q → Q) (a : column) : result column :=
  mapR (fun c => match c with
                 | CNum x => Ok (CNum (f x))
                 | CInf _ | CNaN => Ok CNaN
                 | _ => Err (TypeError "loop of ufunc does not support argument")
                 end) a.

(** [pd.api.types.is_datetime64_any_dtype]: the dtype of a column is
    read off its cells; a missing cell is NaT in a datetime column. *)
Definition is_datetime64_any_dtype (a : column) : bool :=
  forallb (fun c => match c with CTime _ | CNaN => true | _ => false end) a.

(** [pd.to_datetime(series)] *)
Definition to_datetime (a : column) : result column :=
  mapR (fun c => match c with
                 | CTime t => Ok (CTime t)
                 | CNaN => Ok CNaN
                 | CStr s => from_option (ValueError "Unknown datetime string format")
                               (CTime <$> parse_datetime s)
                 | CNum x => Ok (CTime (Qfloor x))
                 | CInf _ => Err (ValueError "cannot convert input with unit 'ns'")
                 end) a.

(** [series.dt.<field>] *)
Definition dt (field : Z → Z) (a : column) : result column :=
  if is_datetime64_any_dtype a then
    Ok (map (fun c => match c with
                      | CTime t => CNum (inject_Z (field t))
                      | _ => CNaN
                      end) a)
  else Err (AttributeError "Can only use .dt accessor with datetimelike values").

(** The cell that holds a float. *)
Definition cell_of_float (x : float64) : cell :=
  match x with
  | FNum q => CNum q
  | FInf negative => CInf negative
  | FNaN => CNaN
  end.

(** [pd.to_numeric(series)]: a string that is read as NaN, such as the
    empty string, gives a missing value and raises nothing. *)
Definition to_numeric (a : column) : result column :=
  mapR (fun c => match c with
                 | CStr s => from_option (ValueError "Unable to parse string")
                               (cell_of_float <$> parse_numeric s)
                 | CTime _ => Err (TypeError "Invalid object type")
                 | _ => Ok c
                 end) a.

(** [series.dtype == 'object'] *)
Definition is_object_dtype (a : column) : bool :=
  existsb (fun c => match c with CStr _ => true | _ => false end) a.

End Lib.

(** *** shift *)

(** [series.shift(n)] *)
Definition shift (n : Z) (a : column) : column :=
  if 0 <=? n then take (length a) (replicate (Z.to_nat n) CNaN ++ a)
  else drop (Z.to_nat (- n)) a
         ++ replicate (Nat.min (Z.to_nat (- n)) (length a)) CNaN.

(** *** rolling windows *)

Definition Qsum (xs : list Q) : Q := foldr Qplus 0%Q xs.
Definition Qlen (xs : list Q) : Q := inject_Z (Z.of_nat (length xs)).
Definition Qmean (xs : list Q) : Q := (Qsum xs / Qlen xs)%Q.
(** sample variance, one delta degree of freedom (the pandas default) *)
Definition Qvar (xs : list Q) : Q :=
  (Qsum (map (fun x => (x - Qmean xs) * (x - Qmean xs)) xs) / (Qlen xs - 1))%Q.

Section Aggregates.
Context `{PyLib}.

(** The aggregates of a window, on the valid observations it holds:
    with [min_periods=1] one observation is enough for a value, and the
    standard deviation needs two. *)
Definition agg_mean (xs : list Q) : cell :=
  match xs with
  | [] => CNaN
  | _ => CNum (Qmean xs)
  end.
Definition agg_std (xs : list Q) : cell :=
  match xs with
  | [] | [_] => CNaN
  | _ => CNum (np_sqrt (Qvar xs))
  end.
Definition agg_max (xs : list Q) : cell :=
  match xs with
  | [] => CNaN
  | x :: xs' => CNum (foldl Qmax x xs')
  end.
Definition agg_min (xs : list Q) : cell :=
  match xs with
  | [] => CNaN
  | x :: xs' => CNum (foldl Qmin x xs')
  end.

End Aggregates.

(** The float64 view that [rolling] takes of a cell: infinities are
    turned into NaN, a non-numeric column is refused. *)
Definition observation (c : cell) : result (option Q) :=
  match c with
  | CNum x => Ok (Some x)
  | CInf _ | CNaN => Ok None
  | _ => Err (TypeError "No numeric types to aggregate")
  end.

(** [l[lo:hi]] *)
Definition slice {A} (lo hi : nat) (l : list A) : list A :=
  take (hi - lo) (drop lo l).

(** [series.rolling(window, min_periods=1).agg()]: the window of row [i]
    is [i - window + 1 .. i], cut at the start of the series. *)
Definition rolling (window : Z) (agg : list Q → cell) (a : column) : result column :=
  if window <? 1 then Err (ValueError "min_periods 1 must be <= window")
  else
    xs ← mapR observation a;
    Ok (map (fun i => agg (omap id (slice (i + 1 - Z.to_nat window) (i + 1) xs)))
            (seq 0 (length xs))).

(** *** groupby *)

(** Keys are compared as values: equal numbers are one key. *)
Definition norm_key (c : cell) : cell :=
  match c with
  | CNum x => CNum (Qred x)
  | _ => c
  end.

(** The group labels, in order of first appearance; rows with a missing
    key belong to no group ([dropna=True]). *)
Definition group_keys (keys : column) : list cell :=
  remove_dups (filter (fun k => k ≠ CNaN) (map norm_key keys)).

(** The row positions of group [g], ascending. *)
Definition group_indices (keys : column) (g : cell) : list nat :=
  filter (fun i => norm_key <$> keys !! i = Some g) (seq 0 (length keys)).

(** Writing the values of one group back at its rows. *)
Fixpoint scatter (idxs : list nat) (out : column) (acc : column) : column :=
  match idxs, out with
  | i :: idxs', v :: out' => scatter idxs' out' (<[i := v]> acc)
  | _, _ => acc
  end.

Fixpoint transform_groups (f : column → result column) (keys vals : column)
    (gs : list cell) (acc : column) : result column :=
  match gs with
  | [] => Ok acc
  | g :: gs' =>
      let idxs := group_indices keys g in
      out ← f (gather idxs vals);
      transform_groups f keys vals gs' (scatter idxs out acc)
  end.

(** [df.groupby(key)[val].transform(f)]: split, apply, combine.  Rows of
    no group stay missing. *)
Definition groupby_transform (keys vals : column) (f : column → result column)
    : result column :=
  transform_groups f keys vals (group_keys keys) (replicate (length keys) CNaN).

(** [df.groupby(key)[val].shift(n)] *)
Definition groupby_shift (keys vals : column) (n : Z) : result column :=
  groupby_transform keys vals (fun a => Ok (shift n a)).

(** [df.groupby(key).tail(1)]: the positions of the last row of each
    group, in row order. *)
Definition is_group_tail (keys : column) (i : nat) : bool :=
  match norm_key <$> keys !! i with
  | Some g => bool_decide (g ≠ CNaN)
              && bool_decide (last (group_indices keys g) = Some i)
  | None => false
  end.
Definition groupby_tail1 (keys : column) : list nat :=
  filter (fun i => is_group_tail keys i = true) (seq 0 (length keys)).

(** *** sort_values *)

(** The order of [sort_values] on one column: numbers, times and strings
    by their value, missing cells last.  (Mixed columns, which pandas
    refuses to sort, are ordered by kind.) *)
Definition cell_rank (c : cell) : Z :=
  match c with
  | CInf true => 0
  | CNum _ => 1
  | CInf false => 2
  | CTime _ => 3
  | CStr _ => 4
  | CNaN => 5
  end.
Definition cell_leb (a b : cell) : bool :=
  match a, b with
  | CNum x, CNum y => Qle_bool x y
  | CTime x, CTime y => x <=? y
  | CStr x, CStr y => String.leb x y
  | _, _ => cell_rank a <=? cell_rank b
  end.

Definition sort_positions (a : column) : list nat :=
  merge_sort (fun i j => Is_true (cell_leb (default CNaN (a !! i)) (default CNaN (a !! j))))
             (seq 0 (length a)).

(** [df.sort_values(label)] *)
Definition sort_values (df : frame) (label : string) : result frame :=
  a ← getitem df label;
  Ok (take_rows (sort_positions a) df).

(** *** merge *)

(** Key equality of [merge]: values are compared, and missing keys
    match each other. *)
Definition key_match (a b : option cell) : bool :=
  match a, b with
  | Some x, Some y => bool_decide (norm_key x = norm_key y)
  | _, _ => false
  end.

(** The pairs (left row, right row) of an inner join, in the order of
    the left rows. *)
Definition join_pairs (lk rk : column) : list (nat * nat) :=
  flat_map (fun i => map (fun j => (i, j))
                       (filter (fun j => key_match (lk !! i) (rk !! j) = true)
                               (seq 0 (length rk))))
           (seq 0 (length lk)).

Definition suffixed (other : list string) (suffix : string) (label : string) : string :=
  if bool_decide (label ∈ other) then label +:+ suffix else label.

(** [left.merge(right, left_on=.., right_on=.., suffixes=..)] for two
    differently named keys (the only use in the program): an inner
    join; a label present on both sides gets the side's suffix; a
    result with a duplicated label is refused. *)
Definition merge (left right : frame) (left_on right_on : string)
    (suffixes : string * string) : result frame :=
  lk ← getitem left left_on;
  rk ← getitem right right_on;
  let pairs := join_pairs lk rk in
  let lcols := map (fun lc => (suffixed (columns right) suffixes.1 lc.1,
                               gather (map fst pairs) lc.2)) left in
  let rcols := map (fun lc => (suffixed (columns left) suffixes.2 lc.1,
                               gather (map snd pairs) lc.2)) right in
  if bool_decide (NoDup (map fst (lcols ++ rcols))) then Ok (lcols ++ rcols)
  else Err (ValueError "MergeError: suffixes cause duplicate columns").

(** *** Reductions and slices *)

(** [np.abs(series)] *)
Definition cell_abs (c : cell) : result cell :=
  match c with
  | CNum x => Ok (CNum (Qabs x))
  | CInf _ => Ok (CInf false)
  | CNaN => Ok CNaN
  | _ => Err (TypeError "bad operand type for abs()")
  end.
Definition np_abs (a : column) : result column := mapR cell_abs a.

(** [series.mean()], which is what [np.mean(series)] calls: missing
    values are skipped; an infinity among the others is the result
    (NaN when both infinities occur); a series without values has the
    mean NaN. *)
Definition series_mean (a : column) : result cell :=
  xs ← mapR (fun c => match c with
                      | CNum _ | CInf _ | CNaN => Ok c
                      | _ => Err (TypeError "Could not convert to numeric")
                      end) a;
  let present := filter (fun c => isna c = false) xs in
  if bool_decide (CInf false ∈ present) then
    Ok (if bool_decide (CInf true ∈ present) then CNaN else CInf false)
  else if bool_decide (CInf true ∈ present) then Ok (CInf true)
  else Ok (agg_mean (omap (fun c => match c with CNum x => Some x | _ => None end)
                          present)).

(** [l[:n]], the slice of [df.head(n)]: a negative [n] leaves out the
    last [-n] elements. *)
Definition head {A} (n : Z) (l : list A) : list A :=
  if 0 <=? n then take (Z.to_nat n) l
  else take (length l - Z.to_nat (- n)) l.

(** The row positions of [sort_values(ascending=False)] on a column of
    finite numbers: non-increasing values.  (The order that pandas
    leaves equal values in is not specified; they are left in row order
    here.) *)
Definition argsort_desc (xs : list Q) : list nat :=
  merge_sort (fun i j => Is_true (Qle_bool (default 0%Q (xs !! j)) (default 0%Q (xs !! i))))
             (seq 0 (length xs)).

(** A well-formed frame: all columns have the same length. *)
Definition wf_frame (df : frame) : Prop :=
  Forall (fun lc => length lc.2 = nrows df) df.

End Pandas.

(** ** features.py *)

Module Features.
Import Pandas.

(** The heap of DataFrame objects; a Python variable holds a location. *)
Definition loc := nat.
Abbreviation heap := (gmap nat frame).

Definition M (A : Type) : Type := heap → result (A * heap).

#[export] Instance M_ret : MRet M := fun _ a h => Ok (a, h).
#[export] Instance M_bind : MBind M := fun _ _ f m h =>
  match m h with
  | Ok (a, h') => f a h'
  | Err e => Err e
  end.

Definition lift {A} (r : result A) : M A := fun h =>
  match r with
  | Ok a => Ok (a, h)
  | Err e => Err e
  end.

(** [df.copy()]: a new object with the same contents. *)
Definition copy (df : loc) : M loc := fun h =>
  match h !! df with
  | Some d => let l := fresh (dom h) in Ok (l, <[l := d]> h)
  | None => Err (RuntimeError "dangling reference")
  end.

(** [df[label]] *)
Definition get (df : loc) (label : string) : M column := fun h =>
  match h !! df with
  | Some d => c ← getitem d label; Ok (c, h)
  | None => Err (RuntimeError "dangling reference")
  end.

(** [df[label] = c]: mutates the object in place. *)
Definition set (df : loc) (label : string) (c : column) : M unit := fun h =>
  match h !! df with
  | Some d => Ok (tt, <[df := setitem d label c]> h)
  | None => Err (RuntimeError "dangling reference")
  end.

(** [for x in xs: body] *)
Fixpoint for_each {A} (xs : list A) (body : A → M unit) : M unit :=
  match xs with
  | [] => mret tt
  | x :: xs' => body x;; for_each xs' body
  end.

(** Truthiness of an optional string: [None] and [""] are false. *)
Definition truthy (o : option string) : option string :=
  match o with
  | Some "" => None
  | _ => o
  end.

Definition lag_label (target_col : string) (lag : Z) : string :=
  target_col +:+ "_lag_" +:+ pretty lag.
Definition rolling_label (target_col stat : string) (window : Z) : string :=
  target_col +:+ "_rolling_" +:+ stat +:+ "_" +:+ pretty window.

Section WithLib.
Context `{PyLib}.

(** [f(2 * np.pi * series / period)] for [f] one of [np.sin], [np.cos] *)
Definition cyclical (f : Q → Q) (period : Q) (a : column) : result column :=
  x ← series_scale (2 * np_pi) a;
  y ← series_div_scalar x period;
  np_apply f y.

Definition add_temporal_features (df : loc) (timestamp_col : string) : M loc :=
  df ← copy df;
  (* Ensure timestamp is datetime *)
  ts ← get df timestamp_col;
  (if negb (is_datetime64_any_dtype ts)
   then c ← lift (to_datetime ts); set df timestamp_col c
   else mret tt);;
  (* Extract temporal components *)
  ts ← get df timestamp_col; c ← lift (dt dt_hour ts); set df "hour" c;;
  ts ← get df timestamp_col; c ← lift (dt dt_dayofweek ts); set df "day_of_week" c;;
  ts ← get df timestamp_col; c ← lift (dt dt_day ts); set df "day_of_month" c;;
  ts ← get df timestamp_col; c ← lift (dt dt_month ts); set df "month" c;;
  ts ← get df timestamp_col; c ← lift (dt dt_year ts); set df "year" c;;
  ts ← get df timestamp_col; c ← lift (dt dt_isoweek ts); set df "week_of_year" c;;
  (* Cyclical encoding for periodic features *)
  a ← get df "hour";
  c ← lift (cyclical np_sin 24 a);
  set df "hour_sin" c;;
  a ← get df "hour";
  c ← lift (cyclical np_cos 24 a);
  set df "hour_cos" c;;
  a ← get df "day_of_week";
  c ← lift (cyclical np_sin 7 a);
  set df "day_sin" c;;
  a ← get df "day_of_week";
  c ← lift (cyclical np_cos 7 a);
  set df "day_cos" c;;
  a ← get df "month";
  c ← lift (cyclical np_sin 12 a);
  set df "month_sin" c;;
  a ← get df "month";
  c ← lift (cyclical np_cos 12 a);
  set df "month_cos" c;;
  (* Boolean features *)
  a ← get df "day_of_week";
  set df "is_weekend" (astype_int (isin a [5%Q; 6%Q]));;
  a ← get df "hour"; ge ← lift (series_ge a 8);
  a ← get df "hour"; le ← lift (series_le a 18);
  set df "is_business_hours" (astype_int (series_and ge le));;
  a ← get df "hour"; ge7 ← lift (series_ge a 7);
  a ← get df "hour"; le9 ← lift (series_le a 9);
  a ← get df "hour"; ge16 ← lift (series_ge a 16);
  a ← get df "hour"; le19 ← lift (series_le a 19);
  set df "is_rush_hour"
      (astype_int (series_or (series_and ge7 le9) (series_and ge16 le19)));;
  mret df.

Definition add_lag_features (df : loc) (target_col : string) (lags : list Z)
    (group_col : option string) : M loc :=
  df ← copy df;
  for_each lags (fun lag =>
    let col_name := lag_label target_col lag in
    match truthy group_col with
    | Some g =>
        keys ← get df g; vals ← get df target_col;
        c ← lift (groupby_shift keys vals lag);
        set df col_name c
    | None =>
        vals ← get df target_col;
        set df col_name (shift lag vals)
    end);;
  mret df.

Definition add_rolling_features (df : loc) (target_col : string) (windows : list Z)
    (group_col : option string) : M loc :=
  df ← copy df;
  for_each windows (fun window =>
    match truthy group_col with
    | Some g =>
        keys ← get df g; vals ← get df target_col;
        c ← lift (groupby_transform keys vals (rolling window agg_mean));
        set df (rolling_label target_col "mean" window) c;;
        c ← lift (groupby_transform keys vals (rolling window agg_std));
        set df (rolling_label target_col "std" window) c;;
        c ← lift (groupby_transform keys vals (rolling window agg_max));
        set df (rolling_label target_col "max" window) c;;
        c ← lift (groupby_transform keys vals (rolling window agg_min));
        set df (rolling_label target_col "min" window) c
    | None =>
        vals ← get df target_col; c ← lift (rolling window agg_mean vals);
        set df (rolling_label target_col "mean" window) c;;
        vals ← get df target_col; c ← lift (rolling window agg_std vals);
        set df (rolling_label target_col "std" window) c;;
        vals ← get df target_col; c ← lift (rolling window agg_max vals);
        set df (rolling_label target_col "max" window) c;;
        vals ← get df target_col; c ← lift (rolling window agg_min vals);
        set df (rolling_label target_col "min" window) c
    end);;
  mret df.

(** The default arguments of the three functions. *)
Definition default_lags : list Z := [1; 2; 3; 6; 12; 24].
Definition default_windows : list Z := [3; 6; 12; 24].

Definition create_all_features (df : loc) (target_col timestamp_col : string)
    (group_col : option string) : M loc :=
  df ← copy df;
  (* Temporal features *)
  df ← add_temporal_features df timestamp_col;
  (* Lag features *)
  df ← add_lag_features df target_col default_lags group_col;
  (* Rolling features *)
  df ← add_rolling_features df target_col default_windows group_col;
  mret df.

End WithLib.

End Features.

(** ** data_loader.py *)

Module DataLoader.
Import Pandas.

(** The SQLite database: two tables, each a list of column names and a
    list of rows.  A cell of a table is a number, a text or NULL
    ([CNaN]). *)
Record table := {
  t_columns : list string;
  t_rows : list (list cell);
}.

Record database := {
  parking_lots : table;
  parking_readings : table;
}.

(** A [ParkingDataLoader] holds the path of its database; every method
    opens a connection to the database found there. *)
Record ParkingDataLoader := { db_path : string }.

(** [ParkingDataLoader(db_path)]; [None] stands for a call without the
    argument. *)
Definition ParkingDataLoader_init (dbs : gmap string database)
    (path : option string) : result ParkingDataLoader :=
  match path with
  | None => Err (TypeError "__init__() missing 1 required positional argument: 'db_path'")
  | Some p =>
      match dbs !! p with
      | Some _ => Ok {| db_path := p |}
      | None => Err (FileNotFoundError p)
      end
  end.

(** [sqlite3.connect(self.db_path)] *)
Definition connect (dbs : gmap string database) (self : ParkingDataLoader)
    : result database :=
  from_option (DatabaseError "no such table") (dbs !! db_path self).

Inductive table_name := ParkingLots | ParkingReadings.

Definition table_of (db : database) (t : table_name) : table :=
  match t with
  | ParkingLots => parking_lots db
  | ParkingReadings => parking_readings db
  end.

(** The statements the loader sends: [SELECT * FROM t WHERE 1=1] followed
    by [AND] clauses, each with its bound parameters, and an optional
    [ORDER BY]. *)
Inductive clause :=
| GeParam (col : string) (param : cell)       (* AND col >= ? *)
| LeParam (col : string) (param : cell)       (* AND col <= ? *)
| InParams (col : string) (params : list cell). (* AND col IN (?,...,?) *)

Record query := {
  q_from : table_name;
  q_where : list clause;
  q_order_by : option string;
}.

(** SQLite's order of values: NULL, then numbers, then text. *)
Definition sql_leb (a b : cell) : bool :=
  match a, b with
  | CNaN, _ => true
  | _, CNaN => false
  | CNum x, CNum y => Qle_bool x y
  | CNum _, _ => true
  | _, CNum _ => false
  | CStr x, CStr y => String.leb x y
  | CStr _, _ => true
  | _, CStr _ => false
  | _, _ => cell_leb a b
  end.

Definition sql_eqb (a b : cell) : bool :=
  negb (isna a) && negb (isna b) && bool_decide (norm_key a = norm_key b).

Fixpoint index_of (cols : list string) (col : string) : option nat :=
  match cols with
  | [] => None
  | c :: cols' => if decide (c = col) then Some 0%nat else S <$> index_of cols' col
  end.

Definition field (i : nat) (r : list cell) : cell := default CNaN (r !! i).

Definition column_index (t : table) (col : string) : result nat :=
  from_option (DatabaseError ("no such column: " +:+ col)) (index_of (t_columns t) col).

(** A comparison with NULL is not true. *)
Definition clause_holds (t : table) (c : clause) : result (list cell → bool) :=
  match c with
  | GeParam col p =>
      i ← column_index t col;
      Ok (fun r => negb (isna (field i r)) && negb (isna p) && sql_leb p (field i r))
  | LeParam col p =>
      i ← column_index t col;
      Ok (fun r => negb (isna (field i r)) && negb (isna p) && sql_leb (field i r) p)
  | InParams col ps =>
      i ← column_index t col;
      Ok (fun r => existsb (sql_eqb (field i r)) ps)
  end.

Definition order_rows (i : nat) (rows : list (list cell)) : list (list cell) :=
  merge_sort (fun r1 r2 => Is_true (sql_leb (field i r1) (field i r2))) rows.

Definition frame_of_rows (cols : list string) (rows : list (list cell)) : frame :=
  imap (fun j l => (l, map (field j) rows)) cols.

(** [pd.read_sql_query(query, conn, params)] *)
Definition read_sql_query (q : query) (db : database) : result frame :=
  let t := table_of db (q_from q) in
  tests ← mapR (clause_holds t) (q_where q);
  let rows := filter (fun r => forallb (fun test => test r) tests = true) (t_rows t) in
  rows ← match q_order_by q with
         | None => Ok rows
         | Some col => i ← column_index t col; Ok (order_rows i rows)
         end;
  Ok (frame_of_rows (t_columns t) rows).

(** The two assignments that follow every merge of readings with lots:
    [df['occupied'] = df['total'] - df['free']] and
    [df['occupancy_rate'] = (df['occupied'] / df['total']) * 100]. *)
Definition derive_occupancy (df : frame) : result frame :=
  total ← getitem df "total";
  free ← getitem df "free";
  occupied ← series_sub total free;
  let df := setitem df "occupied" occupied in
  occupied ← getitem df "occupied";
  total ← getitem df "total";
  ratio ← series_div occupied total;
  rate ← series_mul_scalar ratio 100;
  Ok (setitem df "occupancy_rate" rate).

Section WithLib.
Context `{PyLib}.

Definition load_parking_lots (db : database) : result frame :=
  read_sql_query {| q_from := ParkingLots; q_where := []; q_order_by := None |} db.

(** Truthiness of the optional arguments: [None], [""] and [[]] are
    false. *)
Definition truthy_list {A} (o : option (list A)) : option (list A) :=
  match o with
  | Some [] => None
  | _ => o
  end.

Definition load_readings (db : database) (start_date end_date : option string)
    (lot_ids : option (list cell)) : result frame :=
  let params := [] in
  let params := match Features.truthy start_date with
                | Some d => params ++ [GeParam "timestamp" (CStr d)]
                | None => params
                end in
  let params := match Features.truthy end_date with
                | Some d => params ++ [LeParam "timestamp" (CStr d)]
                | None => params
                end in
  let params := match truthy_list lot_ids with
                | Some ids => params ++ [InParams "lot_id" ids]
                | None => params
                end in
  df ← read_sql_query {| q_from := ParkingReadings; q_where := params;
                         q_order_by := Some "timestamp" |} db;
  (* Convert timestamp to datetime *)
  ts ← getitem df "timestamp";
  c ← to_datetime ts;
  Ok (setitem df "timestamp" c).

Definition lot_columns : list string :=
  ["id"; "name"; "total"; "lot_type"; "latitude"; "longitude"].

Definition load_combined_data (db : database) : result frame :=
  lots ← load_parking_lots db;
  readings ← load_readings db None None None;
  right ← select lots lot_columns;
  merged ← merge readings right "lot_id" "id" ("", "_lot");
  (* Calculate derived features *)
  derive_occupancy merged.

(** [get_time_series(lot_id)]: the readings of the lot with the
    timestamps as the index, in the order of the index.  The result is
    the index and the frame of the other columns.  ([sort_index] leaves
    a sorted index as it is; rows with equal timestamps keep their
    order here.) *)
Definition get_time_series (db : database) (lot_id : string)
    : result (column * frame) :=
  df ← load_readings db None None (Some [CStr lot_id]);
  (* df.set_index("timestamp") *)
  index ← getitem df "timestamp";
  let df := drop_column df "timestamp" in
  (* .sort_index() *)
  let positions := sort_positions index in
  Ok (gather positions index, take_rows positions df).

End WithLib.

End DataLoader.

(** ** models.py *)

Module Models.
Import Pandas.

(** A regressor of one of the three libraries: the embedding keeps its
    prediction function only. *)
Record estimator := { est_predict : frame → result (list Q) }.

Definition unfitted : estimator :=
  {| est_predict := fun _ => Err (RuntimeError "NotFittedError") |}.

Record ParkingForecaster := {
  model_type : string;
  model : option estimator;
  feature_columns : option (list string);
  target_column : option string;
}.

(** What [joblib.dump] writes and [joblib.load] reads. *)
Record model_data := {
  md_model : option estimator;
  md_model_type : string;
  md_feature_columns : option (list string);
  md_target_column : option string;
}.

(** A file: its modification time and, when it is a pickle written by
    [save], the data in it. *)
Record file := {
  st_mtime : Q;
  pickle : option model_data;
}.

(** [ParkingForecaster(model_type)] with [_init_model] *)
Definition ParkingForecaster_init (mt : string) : result ParkingForecaster :=
  if bool_decide (mt ∈ ["random_forest"; "xgboost"; "lightgbm"]) then
    Ok {| model_type := mt; model := Some unfitted;
          feature_columns := None; target_column := None |}
  else Err (ValueError ("Unknown model type: " +:+ mt)).

Definition default_exclude (target_col : string) : list string :=
  ["id"; "lot_id"; "city"; "timestamp"; "name"; "address"; "region";
   "created_at"; "updated_at"; "state"; "free"; "occupied"; "lot_type";
   "id_lot"; "latitude"; "longitude"; target_col].

Section WithLib.
Context `{PyLib}.

(** The loop that makes the training matrix numeric: an object column is
    converted, or dropped when the conversion fails. *)
Fixpoint ensure_numeric (cols : list string) (X : frame) : result frame :=
  match cols with
  | [] => Ok X
  | col :: cols' =>
      c ← getitem X col;
      if is_object_dtype c then
        match to_numeric c with
        | Ok c' => ensure_numeric cols' (setitem X col c')
        | Err (ValueError _) | Err (TypeError _) =>
            ensure_numeric cols' (drop_column X col)
        | Err e => Err e
        end
      else ensure_numeric cols' X
  end.

Definition prepare_data (self : ParkingForecaster) (df : frame)
    (target_col : string) (exclude_cols : option (list string))
    : result (ParkingForecaster * frame * column) :=
  let exclude_cols := default (default_exclude target_col) exclude_cols in
  (* Select feature columns *)
  let feature_cols := filter (fun col => col ∉ exclude_cols) (columns df) in
  (* Remove rows with missing target *)
  target ← getitem df target_col;
  let df_clean :=
    take_rows (filter (fun i => default true (isna <$> target !! i) = false)
                      (row_indices df)) df in
  (* Fill missing feature values *)
  X ← fillna0 <$> select df_clean feature_cols;
  y ← getitem df_clean target_col;
  (* Ensure all columns are numeric *)
  X ← ensure_numeric (columns X) X;
  Ok ({| model_type := model_type self; model := model self;
         feature_columns := Some feature_cols;
         target_column := Some target_col |}, X, y).

End WithLib.

(** [self.predict(X)] *)
Definition predict (self : ParkingForecaster) (X : frame) : result (list Q) :=
  match model self with
  | None => Err (ValueError "Model not trained yet")
  | Some m => est_predict m X
  end.

(** [self.save(filepath)]: the file is written with modification time
    [mtime]. *)
Definition save (self : ParkingForecaster) (filepath : string) (mtime : Q)
    (files : gmap string file) : result (gmap string file) :=
  match model self with
  | None => Err (ValueError "Model not trained yet")
  | Some _ =>
      Ok (<[filepath := {| st_mtime := mtime;
                           pickle := Some {| md_model := model self;
                                             md_model_type := model_type self;
                                             md_feature_columns := feature_columns self;
                                             md_target_column := target_column self |} |}]>
            files)
  end.

(** [self.load(filepath)] *)
Definition load (self : ParkingForecaster) (filepath : string)
    (files : gmap string file) : result ParkingForecaster :=
  f ← from_option (FileNotFoundError filepath) (files !! filepath);
  d ← from_option (ValueError "unpickling error") (pickle f);
  Ok {| model := md_model d; model_type := md_model_type d;
        feature_columns := md_feature_columns d;
        target_column := md_target_column d |}.

(** *** Evaluation *)

(** The metrics of [sklearn.metrics], used as black boxes: each checks
    its two arguments and returns a float. *)
Class Metrics := {
  mean_absolute_error : column → list Q → result Q;
  mean_squared_error : column → list Q → result Q;
  r2_score : column → list Q → result Q;
}.

(** The dictionary that [evaluate] returns. *)
Record evaluation := {
  mae : Q;
  rmse : Q;
  r2 : Q;
  mape : cell;
}.

Section Evaluate.
Context `{PyLib} `{Metrics}.

(** [series - array]: element by element, for equal lengths. *)
Definition series_sub_array (a : column) (b : list Q) : result column :=
  if bool_decide (length a = length b) then series_sub a (CNum <$> b)
  else Err (ValueError "operands could not be broadcast together").

(** [np.mean(np.abs((y_test - y_pred) / y_test)) * 100] for a series
    [y_test] and an array [y_pred]. *)
Definition mean_absolute_percentage (y_test : column) (y_pred : list Q)
    : result cell :=
  diff ← series_sub_array y_test y_pred;
  ratio ← series_div diff y_test;
  a ← np_abs ratio;
  m ← series_mean a;
  cell_mul_scalar m 100.

(** [self.evaluate(X_test, y_test)] *)
Definition evaluate (self : ParkingForecaster) (X_test : frame) (y_test : column)
    : result evaluation :=
  y_pred ← predict self X_test;
  mae ← mean_absolute_error y_test y_pred;
  mse ← mean_squared_error y_test y_pred;
  r2 ← r2_score y_test y_pred;
  mape ← mean_absolute_percentage y_test y_pred;
  Ok {| mae := mae; rmse := np_sqrt mse; r2 := r2; mape := mape |}.

End Evaluate.

(** *** Feature importance *)

(** [self.get_feature_importance(top_n)].  The second argument is
    [self.model.feature_importances_], [None] when the regressor has no
    such attribute.  The result has the columns [feature] and
    [importance]. *)
Definition get_feature_importance (self : ParkingForecaster)
    (feature_importances_ : option (list Q)) (top_n : Z) : result frame :=
  match model self with
  | None => Err (ValueError "Model not trained yet")
  | Some _ =>
      match feature_importances_ with
      | None =>
          Err (ValueError ("Model " +:+ model_type self
                           +:+ " does not support feature importance"))
      | Some importances =>
          (* pd.DataFrame({"feature": ..., "importance": ...}) *)
          feature ← match feature_columns self with
                    | None => Ok (replicate (length importances) CNaN)
                    | Some cols =>
                        if bool_decide (length cols = length importances)
                        then Ok (CStr <$> cols)
                        else Err (ValueError "All arrays must be of the same length")
                    end;
          let df := [("feature", feature); ("importance", CNum <$> importances)] in
          (* .sort_values("importance", ascending=False) *)
          let df := take_rows (argsort_desc importances) df in
          (* .head(top_n) *)
          Ok (take_rows (head top_n (row_indices df)) df)
      end
  end.

End Models.

(** ** server.py *)

Module Server.
Import Pandas DataLoader Models.

(** What a request finds outside the process: the files, the databases
    and the reading of the clock, [datetime.now().isoformat()]. *)
Record world := {
  files : gmap string file;
  databases : gmap string database;
  clock : string;
}.

(** The global variables of the module. *)
Record state := {
  forecaster : option ParkingForecaster;
  data_loader : option ParkingDataLoader;
  model_path : option string;
  model_last_modified : option Q;
}.

Definition MODEL_PATH : string := "forecast/models/parking_forecaster_xgboost.pkl".

(** The run of a function that assigns globals: the globals it leaves,
    the exception it raised if any, and the files it unpickled. *)
Record outcome := {
  final : state;
  raised : option exn;
  unpickled : list string;
}.

Definition load_model (w : world) (st : state) : outcome :=
  let st := {| forecaster := forecaster st; data_loader := data_loader st;
               model_path := Some MODEL_PATH;
               model_last_modified := model_last_modified st |} in
  match files w !! MODEL_PATH with
  | None =>
      {| final := st; raised := Some (RuntimeError "Model not found"); unpickled := [] |}
  | Some f =>
      match ParkingForecaster_init "xgboost" with
      | Err e => {| final := st; raised := Some e; unpickled := [] |}
      | Ok fresh_forecaster =>
          let st := {| forecaster := Some fresh_forecaster;
                       data_loader := data_loader st;
                       model_path := model_path st;
                       model_last_modified := model_last_modified st |} in
          match load fresh_forecaster MODEL_PATH (files w) with
          | Err e => {| final := st; raised := Some e; unpickled := [MODEL_PATH] |}
          | Ok loaded =>
              {| final := {| forecaster := Some loaded;
                             data_loader := data_loader st;
                             model_path := model_path st;
                             model_last_modified := Some (st_mtime f) |};
                 raised := None; unpickled := [MODEL_PATH] |}
          end
      end
  end.

Definition check_and_reload_model (w : world) (st : state) : outcome :=
  let unchanged := {| final := st; raised := None; unpickled := [] |} in
  match model_path st with
  | None => unchanged
  | Some p =>
      match files w !! p with
      | None => unchanged
      | Some f =>
          let current_mtime := st_mtime f in
          if match model_last_modified st with
             | None => true
             | Some last => Qltb last current_mtime
             end
          then
            let o := load_model w st in
            (* the exception of a failed reload is caught and printed *)
            {| final := final o; raised := None; unpickled := unpickled o |}
          else unchanged
      end
  end.

(** *** Response models *)

Record CurrentStatus := {
  cs_lot_id : string;
  cs_name : string;
  cs_total : Z;
  cs_free : Z;
  cs_occupied : Z;
  cs_occupancy_rate : cell;
  cs_timestamp : string;
}.

Record Forecast := {
  f_lot_id : string;
  f_name : string;
  predicted_occupancy_rate : Q;
  confidence_low : option Q;
  confidence_high : option Q;
  forecast_time : string;
}.

(** Field conversions: [str] fields are validated, [int(..)] truncates,
    [float(..)] keeps the float. *)
Definition as_str (c : cell) : result string :=
  match c with
  | CStr s => Ok s
  | _ => Err (ValueError "validation error: str type expected")
  end.
Definition py_int (c : cell) : result Z :=
  match c with
  | CNum x => Ok (Z.quot (Qnum x) (Zpos (Qden x)))
  | CNaN => Err (ValueError "cannot convert float NaN to integer")
  | CInf _ => Err (ValueError "cannot convert float infinity to integer")
  | _ => Err (TypeError "int() argument")
  end.
Definition py_float (c : cell) : result cell :=
  match c with
  | CNum _ | CInf _ | CNaN => Ok c
  | _ => Err (TypeError "float() argument")
  end.

(** Python's [max(a, b)] and [min(a, b)] return [a] unless [b] beats it. *)
Definition py_max (a b : Q) : Q := if Qltb a b then b else a.
Definition py_min (a b : Q) : Q := if Qltb b a then b else a.

Definition exn_str (e : exn) : string :=
  match e with
  | KeyError s | ValueError s | TypeError s | AttributeError s
  | RuntimeError s | FileNotFoundError s | DatabaseError s => s
  | IndexError => "index out of bounds"
  | HTTPException _ d => d
  end.

(** [except Exception as e: raise HTTPException(500, ...)] *)
Definition except_500 {A} (msg : string) (r : result A) : result A :=
  match r with
  | Ok a => Ok a
  | Err e => Err (HTTPException 500 (msg +:+ exn_str e))
  end.
(** The same after [except HTTPException: raise]. *)
Definition except_http_500 {A} (msg : string) (r : result A) : result A :=
  match r with
  | Err (HTTPException c d) => Err (HTTPException c d)
  | _ => except_500 msg r
  end.

(** [row[label]] of row [i] *)
Definition at_row (df : frame) (i : nat) (label : string) : result cell :=
  c ← getitem df label;
  from_option IndexError (c !! i).

Section WithLib.
Context `{PyLib}.

(** A handler owns the frames it builds: it runs a feature function on
    a heap that holds its frame only and reads the result back. *)
Definition call (f : Features.loc → Features.M Features.loc) (df : frame)
    : result frame :=
  match f 0%nat {[ 0%nat := df ]} with
  | Ok (l, h) => from_option (RuntimeError "dangling reference") (h !! l)
  | Err e => Err e
  end.

Definition isoformat_cell (c : cell) : result string :=
  match c with
  | CTime t => Ok (isoformat t)
  | CNaN => Ok "NaT"
  | _ => Err (AttributeError "object has no attribute 'isoformat'")
  end.

Definition current_status_of_row (merged : frame) (i : nat) : result CurrentStatus :=
  lot_id ← at_row merged i "lot_id" ≫= as_str;
  name ← at_row merged i "name" ≫= as_str;
  total ← at_row merged i "total" ≫= py_int;
  free ← at_row merged i "free" ≫= py_int;
  occupied ← at_row merged i "occupied" ≫= py_int;
  occupancy_rate ← at_row merged i "occupancy_rate" ≫= py_float;
  timestamp ← at_row merged i "timestamp" ≫= isoformat_cell;
  Ok {| cs_lot_id := lot_id; cs_name := name; cs_total := total; cs_free := free;
        cs_occupied := occupied; cs_occupancy_rate := occupancy_rate;
        cs_timestamp := timestamp |}.

(** [GET /current]: the latest reading of every lot ([None] when there
    is no reading at all). *)
Definition latest_readings (db : database) (lot_id : option string)
    : result (option frame) :=
  df ← match Features.truthy lot_id with
       | Some l => load_readings db None None (Some [CStr l])
       | None => load_readings db None None None
       end;
  if empty df then Ok None
  else
    (* Get the most recent reading for each lot *)
    df ← sort_values df "timestamp";
    keys ← getitem df "lot_id";
    Ok (Some (take_rows (groupby_tail1 keys) df)).

(** [GET /current]: the latest readings merged with the name and the
    capacity of their lots, and the derived columns. *)
Definition current_frame (db : database) (lot_id : option string)
    : result (option frame) :=
  latest ← latest_readings db lot_id;
  match latest with
  | None => Ok None
  | Some df =>
      (* Merge with lot information *)
      lots_df ← load_parking_lots db;
      right ← select lots_df ["id"; "name"; "total"];
      merged ← merge df right "lot_id" "id" ("_x", "_y");
      Some <$> derive_occupancy merged
  end.

Definition get_current_status (w : world) (st : state) (lot_id : option string)
    : result (list CurrentStatus) :=
  match data_loader st with
  | None => Err (HTTPException 503 "Data loader not initialized")
  | Some loader =>
      except_500 "Error fetching current status: "
        (db ← connect (databases w) loader;
         merged ← current_frame db lot_id;
         match merged with
         | None => Ok []
         | Some merged => mapR (current_status_of_row merged) (row_indices merged)
         end)
  end.

(** The feature pipeline that both forecast handlers run. *)
Definition engineer_features (df : frame) : result frame :=
  df ← call (fun l => Features.add_temporal_features l "timestamp") df;
  df ← call (fun l => Features.add_lag_features l "occupancy_rate" [1; 2; 3]
                        (Some "lot_id")) df;
  call (fun l => Features.add_rolling_features l "occupancy_rate" [3]
                   (Some "lot_id")) df.

(** [latest[forecaster.feature_columns].fillna(0)] *)
Definition feature_matrix (fc : ParkingForecaster) (df : frame) : result frame :=
  cols ← from_option (KeyError "None") (feature_columns fc);
  fillna0 <$> select df cols.

(** [GET /forecast/{lot_id}]: the name of the lot and its readings
    merged with the lot and the derived columns. *)
Definition lot_history (db : database) (lot_id : string) : result (cell * frame) :=
  (* Load recent data for the lot *)
  df ← load_readings db None None (Some [CStr lot_id]);
  if empty df then Err (HTTPException 404 ("No data found for lot " +:+ lot_id))
  else
    (* Get lot info *)
    lots_df ← load_parking_lots db;
    ids ← getitem lots_df "id";
    let lot_info :=
      take_rows (filter (fun i => ids !! i = Some (CStr lot_id)) (row_indices lots_df))
                lots_df in
    if empty lot_info then Err (HTTPException 404 ("Lot " +:+ lot_id +:+ " not found"))
    else
      lot_name ← getitem lot_info "name" ≫= iloc0;
      (* Merge with lot information *)
      right ← select lots_df lot_columns;
      df ← merge df right "lot_id" "id" ("_x", "_y");
      df ← derive_occupancy df;
      Ok (lot_name, df).

(** [GET /forecast/{lot_id}] up to the call of [predict]: the name of
    the lot and the feature matrix [X]. *)
Definition forecast_input (db : database) (fc : ParkingForecaster) (lot_id : string)
    : result (cell * frame) :=
  '(lot_name, df) ← lot_history db lot_id;
  (* Engineer features *)
  df ← engineer_features df;
  (* Get the most recent complete row *)
  let df := dropna df in
  if empty df then
    Err (HTTPException 400 ("Insufficient historical data for lot " +:+ lot_id))
  else
    let latest := iloc_last df in
    (* Prepare features *)
    X ← feature_matrix fc latest;
    Ok (lot_name, X).

Definition get_forecast (w : world) (st : state) (lot_id : string)
    : state * result Forecast :=
  let st := final (check_and_reload_model w st) in
  (st,
   match forecaster st, data_loader st with
   | None, _ => Err (HTTPException 503 "Model not loaded")
   | Some _, None => Err (HTTPException 503 "Data loader not initialized")
   | Some fc, Some loader =>
       except_http_500 "Error generating forecast: "
         (db ← connect (databases w) loader;
          '(lot_name, X) ← forecast_input db fc lot_id;
          (* Make prediction *)
          predictions ← predict fc X;
          prediction ← from_option IndexError (predictions !! 0%nat);
          (* Simple confidence interval *)
          let low := py_max 0 (prediction - 10) in
          let high := py_min 100 (prediction + 10) in
          name ← as_str lot_name;
          Ok {| f_lot_id := lot_id; f_name := name;
                predicted_occupancy_rate := prediction;
                confidence_low := Some low; confidence_high := Some high;
                forecast_time := clock w |})
   end).

(** [GET /forecast] up to the call of [predict]: the latest complete
    row of every lot and the feature matrix; [None] when the handler
    returns the empty list early. *)
Definition all_forecasts_input (db : database) (fc : ParkingForecaster)
    : result (option (frame * frame)) :=
  (* Load all data *)
  df ← load_combined_data db;
  if empty df then Ok None
  else
    df ← engineer_features df;
    (* Drop rows with NaN *)
    let df := dropna df in
    if empty df then Ok None
    else
      (* Get the most recent reading for each lot *)
      df ← sort_values df "timestamp";
      keys ← getitem df "lot_id";
      let latest_per_lot := take_rows (groupby_tail1 keys) df in
      (* Prepare features *)
      X ← feature_matrix fc latest_per_lot;
      Ok (Some (latest_per_lot, X)).

Definition forecast_of_row (w : world) (latest_per_lot : frame)
    (predictions : list Q) (idx : nat) : result Forecast :=
  prediction ← from_option IndexError (predictions !! idx);
  lot_id ← at_row latest_per_lot idx "lot_id" ≫= as_str;
  name ← at_row latest_per_lot idx "name" ≫= as_str;
  Ok {| f_lot_id := lot_id; f_name := name;
        predicted_occupancy_rate := prediction;
        confidence_low := Some (py_max 0 (prediction - 10));
        confidence_high := Some (py_min 100 (prediction + 10));
        forecast_time := clock w |}.

Definition get_all_forecasts (w : world) (st : state)
    : state * result (list Forecast) :=
  (* Check if model needs reloading *)
  let st := final (check_and_reload_model w st) in
  (st,
   match forecaster st, data_loader st with
   | None, _ => Err (HTTPException 503 "Model not loaded")
   | Some _, None => Err (HTTPException 503 "Data loader not initialized")
   | Some fc, Some loader =>
       except_500 "Error generating forecasts: "
         (db ← connect (databases w) loader;
          input ← all_forecasts_input db fc;
          match input with
          | None => Ok []
          | Some (latest_per_lot, X) =>
              (* Make predictions *)
              predictions ← predict fc X;
              (* Build response *)
              mapR (forecast_of_row w latest_per_lot predictions)
                   (row_indices latest_per_lot)
          end)
   end).

(** *** Startup *)

(** The path of the database, [<repository>/data/parking.db]. *)
Definition DATABASE_PATH : string := "data/parking.db".

Definition initialize_data_loader (w : world) (st : state) : outcome :=
  match databases w !! DATABASE_PATH with
  | None =>
      {| final := st; raised := Some (RuntimeError "Database not found");
         unpickled := [] |}
  | Some _ =>
      match ParkingDataLoader_init (databases w) (Some DATABASE_PATH) with
      | Err e => {| final := st; raised := Some e; unpickled := [] |}
      | Ok loader =>
          {| final := {| forecaster := forecaster st; data_loader := Some loader;
                         model_path := model_path st;
                         model_last_modified := model_last_modified st |};
             raised := None; unpickled := [] |}
      end
  end.

(** [startup_event]: the data loader first, then the model. *)
Definition startup_event (w : world) (st : state) : outcome :=
  let o := initialize_data_loader w st in
  match raised o with
  | Some _ => o
  | None => load_model w (final o)
  end.

(** *** The endpoints without a model *)

Record HealthResponse := {
  hr_status : string;
  hr_model_loaded : bool;
  hr_model_type : option string;
  hr_total_lots : nat;
}.

(** [GET /health]; there is no [try]: an exception of the loader is
    raised as it is. *)
Definition health_check (w : world) (st : state) : result HealthResponse :=
  match data_loader st with
  | None => Err (HTTPException 503 "Data loader not initialized")
  | Some loader =>
      db ← connect (databases w) loader;
      lots ← load_parking_lots db;
      Ok {| hr_status := "healthy";
            hr_model_loaded := match forecaster st with Some _ => true | None => false end;
            hr_model_type := model_type <$> forecaster st;
            hr_total_lots := nrows lots |}
  end.

Record ParkingLot := {
  pl_id : string;
  pl_name : string;
  pl_total : Z;
  pl_lot_type : string;
  pl_latitude : cell;
  pl_longitude : cell;
}.

(** The arguments are evaluated in their order, then the model
    validates its [str] fields. *)
Definition parking_lot_of_row (lots_df : frame) (i : nat) : result ParkingLot :=
  id ← at_row lots_df i "id";
  name ← at_row lots_df i "name";
  total ← at_row lots_df i "total" ≫= py_int;
  lot_type ← at_row lots_df i "lot_type";
  latitude ← at_row lots_df i "latitude" ≫= py_float;
  longitude ← at_row lots_df i "longitude" ≫= py_float;
  id ← as_str id;
  name ← as_str name;
  lot_type ← as_str lot_type;
  Ok {| pl_id := id; pl_name := name; pl_total := total; pl_lot_type := lot_type;
        pl_latitude := latitude; pl_longitude := longitude |}.

(** [GET /lots] *)
Definition get_parking_lots (w : world) (st : state) : result (list ParkingLot) :=
  match data_loader st with
  | None => Err (HTTPException 503 "Data loader not initialized")
  | Some loader =>
      db ← connect (databases w) loader;
      lots_df ← load_parking_lots db;
      mapR (parking_lot_of_row lots_df) (row_indices lots_df)
  end.

End WithLib.

End Server.

(** ** predict.py *)

Module Predict.
Import Pandas DataLoader Models Server.

Section WithLib.
Context `{PyLib}.

(** [make_predictions] from the loading of the data to the feature
    matrix [X], for a loader connected to [db]: the frame of complete
    rows and [X]. *)
Definition prediction_input (db : database) (forecaster : ParkingForecaster)
    (lot_id : option string) : result (frame * frame) :=
  df ← match Features.truthy lot_id with
       | Some l =>
           df ← load_readings db None None (Some [CStr l]);
           lots ← load_parking_lots db;
           right ← select lots ["id"; "name"; "total"];
           df ← merge df right "lot_id" "id" ("_x", "_y");
           derive_occupancy df
       | None => load_combined_data db
       end;
  (* Engineer features *)
  df ← call (fun l => Features.create_all_features l "occupancy_rate" "timestamp"
                        (Some "lot_id")) df;
  let df := dropna df in
  (* Prepare features *)
  X ← feature_matrix forecaster df;
  Ok (df, X).

(** [make_predictions(model_path, lot_id)]; the result is the frame it
    returns, [None] when it returns early.  The loader is constructed
    without its argument, as in the source. *)
Definition make_predictions (w : world) (model_path lot_id : option string)
    : result (option frame) :=
  (* Determine model path *)
  let model_path := default MODEL_PATH model_path in
  match files w !! model_path with
  | None => Ok None
  | Some _ =>
      (* Load model *)
      forecaster ← ParkingForecaster_init "xgboost";
      forecaster ← load forecaster model_path (files w);
      (* Load latest data *)
      loader ← ParkingDataLoader_init (databases w) None;
      db ← connect (databases w) loader;
      '(df, X) ← prediction_input db forecaster lot_id;
      (* Make predictions *)
      predictions ← predict forecaster X;
      (* Add predictions to dataframe *)
      (if bool_decide (length predictions = nrows df) then Ok tt
       else Err (ValueError "Length of values does not match length of index"));;
      let predicted := map CNum predictions in
      let df := setitem df "predicted_occupancy" predicted in
      target ← from_option (KeyError "None") (target_column forecaster);
      actual ← getitem df target;
      let df := setitem df "actual_occupancy" actual in
      error ← series_sub actual predicted;
      let df := setitem df "prediction_error" error in
      (* Display results *)
      match Features.truthy lot_id with
      | Some _ =>
          getitem df "name" ≫= iloc0;;
          getitem df "total" ≫= iloc0;;
          Ok (Some df)
      | None =>
          getitem df "name";;
          Ok (Some df)
      end
  end.

End WithLib.

End Predict.

(** ** train.py *)

Module Train.
Import Pandas DataLoader Models Server.

(** The file that [train_model] saves the model to. *)
Definition model_file (model_type : string) : string :=
  "forecast/models/parking_forecaster_" +:+ model_type +:+ ".pkl".

Section WithLib.
Context `{PyLib}.

(** [train_model], steps 1 and 2: the merged readings with their
    features, the rows with a missing value dropped. *)
Definition training_frame (w : world) : result frame :=
  (* Load data *)
  loader ← ParkingDataLoader_init (databases w) (Some DATABASE_PATH);
  db ← connect (databases w) loader;
  df ← load_combined_data db;
  (* Engineer features *)
  df ← call (fun l => Features.add_temporal_features l "timestamp") df;
  df ← call (fun l => Features.add_lag_features l "occupancy_rate" [1; 2; 3]
                        (Some "lot_id")) df;
  df ← call (fun l => Features.add_rolling_features l "occupancy_rate" [3]
                        (Some "lot_id")) df;
  (* Drop rows with NaN values from lag/rolling features *)
  Ok (dropna df).

(** [train_model] up to step 3: the forecaster with the feature columns
    recorded, the training matrix and the target; [None] when no row is
    left and the function returns [(None, None)]. *)
Definition training_data (w : world) (model_type : string)
    : result (option (ParkingForecaster * frame * column)) :=
  df ← training_frame w;
  if bool_decide (nrows df = 0%nat) then Ok None
  else
    (* Prepare data *)
    forecaster ← ParkingForecaster_init model_type;
    Some <$> prepare_data forecaster df "occupancy_rate" None.

End WithLib.

End Train.

(** ** A small instance of the libraries and a small database, for
    evaluating the embedding on examples *)

Module Example.
Import Pandas DataLoader Models Server.

Definition ns_per_second : Z := 1000000000.
Definition ns_per_day : Z := 86400 * ns_per_second.

(** Days since 1970-01-01 to (year, month, day) and back, proleptic
    Gregorian calendar. *)
Definition civil_from_days (days : Z) : Z * Z * Z :=
  let z := days + 719468 in
  let era := z / 146097 in
  let doe := z - era * 146097 in
  let yoe := (doe - doe / 1460 + doe / 36524 - doe / 146096) / 365 in
  let doy := doe - (365 * yoe + yoe / 4 - yoe / 100) in
  let mp := (5 * doy + 2) / 153 in
  let d := doy - (153 * mp + 2) / 5 + 1 in
  let m := if mp <? 10 then mp + 3 else mp - 9 in
  (yoe + era * 400 + (if m <=? 2 then 1 else 0), m, d).

Definition days_from_civil (y m d : Z) : Z :=
  let y := if m <=? 2 then y - 1 else y in
  let era := y / 400 in
  let yoe := y - era * 400 in
  let doy := (153 * (if 2 <? m then m - 3 else m + 9) + 2) / 5 + d - 1 in
  let doe := yoe * 365 + yoe / 4 - yoe / 100 + doy in
  era * 146097 + doe - 719468.

Definition weekday_of_days (days : Z) : Z := (days + 3) mod 7.

(** The ISO week is the week of the year of its Thursday. *)
Definition isoweek_of_days (days : Z) : Z :=
  let thursday := days - weekday_of_days days + 3 in
  let '(y, _, _) := civil_from_days thursday in
  (thursday - days_from_civil y 1 1) / 7 + 1.

Definition digit_of (a : Ascii.ascii) : option Z :=
  let n := Z.of_nat (Ascii.nat_of_ascii a) - 48 in
  if (0 <=? n) && (n <=? 9) then Some n else None.

Fixpoint number_of (s : string) (acc : Z) : option Z :=
  match s with
  | EmptyString => Some acc
  | String a s' => d ← digit_of a; number_of s' (10 * acc + d)
  end.

Definition digits (s : string) (start len : nat) : option Z :=
  let t := String.substring start len s in
  if bool_decide (String.length t = len) then number_of t 0 else None.

(** Timestamps of the form [YYYY-MM-DD hh:mm:ss] (any separators). *)
Definition parse_iso (s : string) : option Z :=
  y ← digits s 0 4; m ← digits s 5 2; d ← digits s 8 2;
  hh ← digits s 11 2; mm ← digits s 14 2; ss ← digits s 17 2;
  Some ((days_from_civil y m d * 86400 + hh * 3600 + mm * 60 + ss) * ns_per_second).

Definition two (n : Z) : string :=
  if n <? 10 then "0" +:+ pretty n else pretty n.

Definition format_iso (ns : Z) : string :=
  let '(y, m, d) := civil_from_days (ns / ns_per_day) in
  let s := (ns mod ns_per_day) / ns_per_second in
  pretty y +:+ "-" +:+ two m +:+ "-" +:+ two d +:+ "T" +:+ two (s / 3600)
    +:+ ":" +:+ two (s / 60 mod 60) +:+ ":" +:+ two (s mod 60).

(** The trigonometric functions and the square root are replaced by
    rational stand-ins; no property below depends on them. *)
#[export] Instance toy_lib : PyLib := {|
  np_pi := 355 # 113;
  np_sin := fun x => Qred (x - x * x * x / 6);
  np_cos := fun x => Qred (1 - x * x / 2);
  np_sqrt := fun x => Qred ((x + 1) / 2);
  dt_hour := fun ns => (ns mod ns_per_day) / (3600 * ns_per_second);
  dt_dayofweek := fun ns => weekday_of_days (ns / ns_per_day);
  dt_day := fun ns => (civil_from_days (ns / ns_per_day)).2;
  dt_month := fun ns => (civil_from_days (ns / ns_per_day)).1.2;
  dt_year := fun ns => (civil_from_days (ns / ns_per_day)).1.1;
  dt_isoweek := fun ns => isoweek_of_days (ns / ns_per_day);
  parse_datetime := parse_iso;
  parse_numeric := fun s =>
    if decide (s = "") then Some FNaN
    else if decide (s = "inf") then Some (FInf false)
    else FNum ∘ inject_Z <$> number_of s 0;
  isoformat := format_iso;
|}.

(** Two lots and nine readings. *)
Definition lots_table : table := {|
  t_columns := ["id"; "name"; "total"; "lot_type"; "latitude"; "longitude"];
  t_rows := [
    [CStr "A"; CStr "Altstadt"; CNum 100; CStr "garage"; CNum 49; CNum 8];
    [CStr "B"; CStr "Bahnhof"; CNum 50; CStr "street"; CNum 49; CNum 8] ];
|}.

Definition readings_table : table := {|
  t_columns := ["id"; "lot_id"; "timestamp"; "free"];
  t_rows := [
    [CNum 1; CStr "A"; CStr "2024-01-01 08:00:00"; CNum 80];
    [CNum 2; CStr "B"; CStr "2024-01-01 08:00:00"; CNum 10];
    [CNum 4; CStr "B"; CStr "2024-01-01 09:00:00"; CNum 20];
    [CNum 3; CStr "A"; CStr "2024-01-01 09:00:00"; CNum 60];
    [CNum 5; CStr "A"; CStr "2024-01-01 10:00:00"; CNum 40];
    [CNum 6; CStr "B"; CStr "2024-01-01 10:00:00"; CNum 2];
    [CNum 7; CStr "A"; CStr "2024-01-01 11:00:00"; CNum 50];
    [CNum 8; CStr "B"; CStr "2024-01-01 11:00:00"; CNum 1];
    [CNum 9; CStr "A"; CStr "2024-01-01 12:00:00"; CNum 55] ];
|}.

Definition db : database :=
  {| parking_lots := lots_table; parking_readings := readings_table |}.

Definition DB_PATH : string := "data/parking.db".

(** A regressor that predicts the last observed rate. *)
Definition persistence : estimator :=
  {| est_predict := fun X =>
       c ← getitem X "occupancy_rate_lag_1";
       mapR (fun v => match v with
                      | CNum x => Ok (Qred x)
                      | _ => Err (ValueError "Input contains NaN")
                      end) c |}.

(** The forecaster that training on [db] records: the frame of
    train.py, [prepare_data], and the regressor above as the fitted
    model. *)
Definition training_frame : result frame :=
  df ← load_combined_data db;
  dropna <$> engineer_features df.

Definition trained : result ParkingForecaster :=
  df ← training_frame;
  self ← ParkingForecaster_init "xgboost";
  '(self, _, _) ← prepare_data self df "occupancy_rate" None;
  Ok {| model_type := model_type self; model := Some persistence;
        feature_columns := feature_columns self;
        target_column := target_column self |}.

Definition model_files : gmap string file :=
  match trained ≫= (fun self => save self MODEL_PATH 1000 ∅) with
  | Ok files => files
  | Err _ => ∅
  end.

Definition world0 : world :=
  {| files := model_files; databases := {[ DB_PATH := db ]};
     clock := "2024-01-01T12:30:00" |}.

(** The globals before and after the startup event. *)
Definition startup_state : state :=
  {| forecaster := None; data_loader := Some {| db_path := DB_PATH |};
     model_path := None; model_last_modified := None |}.

Definition serving_state : state := final (load_model world0 startup_state).

(** The forecasts that the example world serves for its two lots. *)
Definition forecast_A : Forecast :=
  {| f_lot_id := "A"; f_name := "Altstadt"; predicted_occupancy_rate := 50;
     confidence_low := Some 40%Q; confidence_high := Some 60%Q;
     forecast_time := "2024-01-01T12:30:00" |}.
Definition forecast_B : Forecast :=
  {| f_lot_id := "B"; f_name := "Bahnhof"; predicted_occupancy_rate := 96;
     confidence_low := Some 86%Q; confidence_high := Some 100%Q;
     forecast_time := "2024-01-01T12:30:00" |}.

(** The same world after an older model file was put in place. *)
Definition older_file : file := {| st_mtime := 500; pickle := None |}.
Definition older_world : world :=
  {| files := <[MODEL_PATH := older_file]> model_files;
     databases := databases world0; clock := clock world0 |}.

(** A frame that already has a column labelled [hour]. *)
Definition frame_with_hour : frame :=
  [("timestamp", [CTime 1704096000000000000]); ("hour", [CNum 99])].

(** A frame whose timestamps are text. *)
Definition frame_with_text_timestamp : frame :=
  [("timestamp", [CStr "2024-01-01 08:00:00"])].

(** The readings of [db] merged with their lots, as [load_combined_data]
    leaves them. *)
Definition occupancy_frame : frame :=
  [("lot_id", [CStr "A"; CStr "B"; CStr "B"; CStr "A"; CStr "A"]);
   ("occupancy_rate", [CNum 20; CNum 80; CNum 60; CNum 40; CNum 60])].

(** Two readings of one lot, an hour apart, with datetime timestamps. *)
Definition readings_frame : frame :=
  [("timestamp", [CTime 1704096000000000000; CTime 1704099600000000000]);
   ("lot_id", [CStr "A"; CStr "A"]);
   ("occupancy_rate", [CNum 20; CNum 40])].

(** The globals before the startup event. *)
Definition cold_state : state :=
  {| forecaster := None; data_loader := None;
     model_path := None; model_last_modified := None |}.

(** Globals that record an older modification time than the one of
    the model file. *)
Definition stale_state : state :=
  {| forecaster := None; data_loader := Some {| db_path := DB_PATH |};
     model_path := Some MODEL_PATH; model_last_modified := Some 10%Q |}.

(** The same world after a file that is no pickle was put in the place
    of the model. *)
Definition corrupt_file : file := {| st_mtime := 2000; pickle := None |}.
Definition corrupt_world : world :=
  {| files := <[MODEL_PATH := corrupt_file]> model_files;
     databases := databases world0; clock := clock world0 |}.

(** The database with the first three readings of each lot only. *)
Definition short_db : database :=
  {| parking_lots := lots_table;
     parking_readings := {| t_columns := t_columns readings_table;
                            t_rows := take 6 (t_rows readings_table) |} |}.
Definition short_world : world :=
  {| files := model_files; databases := {[ DB_PATH := short_db ]};
     clock := clock world0 |}.

(** A frame for training with a column of text and a missing target. *)
Definition weather_frame : frame :=
  [("lot_id", [CStr "A"; CStr "A"; CStr "B"]);
   ("hour", [CNum 8; CNaN; CNum 10]);
   ("weather", [CStr "rain"; CStr "sun"; CStr "7"]);
   ("occupancy_rate", [CNum 20; CNum 40; CNaN])].

(** The same with a column of text that [pd.to_numeric] reads: the
    empty string is read as NaN. *)
Definition blank_frame : frame :=
  [("lot_id", [CStr "A"; CStr "A"; CStr "B"]);
   ("hour", [CNum 8; CNaN; CNum 10]);
   ("weather", [CStr "7"; CStr ""; CStr "3"]);
   ("occupancy_rate", [CNum 20; CNum 40; CNaN])].

(** A fitted forecaster of three features and the importances of its
    regressor. *)
Definition small_forecaster : ParkingForecaster :=
  {| model_type := "xgboost"; model := Some persistence;
     feature_columns := Some ["hour"; "occupancy_rate_lag_1"; "is_weekend"];
     target_column := Some "occupancy_rate" |}.
Definition small_importances : list Q := [2 # 10; 7 # 10; 1 # 10].

(** A test set of two rows. *)
Definition test_frame : frame :=
  [("hour", [CNum 8; CNum 9]); ("occupancy_rate_lag_1", [CNum 50; CNum 40]);
   ("is_weekend", [CNum 0; CNum 0])].
Definition test_target : list Q := [40%Q; 50%Q].

(** The metrics of sklearn on exact numbers; a missing or textual
    target is refused. *)
Definition numbers (y : column) : result (list Q) :=
  mapR (fun v => match v with
                 | CNum x => Ok x
                 | _ => Err (ValueError "Input contains NaN")
                 end) y.
Definition sum_Q (l : list Q) : Q := foldr Qplus 0%Q l.
Definition mean_of (f : Q → Q → Q) (y : column) (p : list Q) : result Q :=
  ys ← numbers y;
  if bool_decide (length ys = length p) then
    Ok (Qred (sum_Q (zip_with f ys p) / inject_Z (Z.of_nat (length ys))))
  else Err (ValueError "Found input variables with inconsistent numbers of samples").

#[export] Instance toy_metrics : Metrics := {|
  mean_absolute_error := mean_of (fun y p => Qabs (y - p)%Q);
  mean_squared_error := mean_of (fun y p => ((y - p) * (y - p))%Q);
  r2_score := fun y p =>
    ys ← numbers y;
    sq ← mean_of (fun y p => ((y - p) * (y - p))%Q) y p;
    let m := (sum_Q ys / inject_Z (Z.of_nat (length ys)))%Q in
    var ← mean_of (fun y _ => ((y - m) * (y - m))%Q) y p;
    Ok (Qred (1 - sq / var)%Q);
|}.

(** A world without files and databases. *)
Definition empty_world : world := {| files := ∅; databases := ∅; clock := "" |}.

End Example.

(** * Vocabulary of the statements *)

Module Spec.
Import Pandas DataLoader Models Server Features.

(** The only path ever assigned to [model_path] is [MODEL_PATH]. *)
Definition wf_state (st : state) : Prop :=
  model_path st = None ∨ model_path st = Some MODEL_PATH.

(** The test of [check_and_reload_model]. *)
Definition newer_on_disk (w : world) (st : state) : Prop :=
  ∃ p f, model_path st = Some p ∧ files w !! p = Some f
         ∧ match model_last_modified st with
           | None => True
           | Some last => (last < st_mtime f)%Q
           end.

(** A command that runs on the object at [l] only: started in a heap
    where [l] holds a frame satisfying [P], it fails or it returns a
    value and leaves a frame at [l] that satisfy [Q]; the rest of the
    heap is untouched. *)
Definition hoare (l : loc) (P : frame → Prop) {A} (m : M A) (Q : A → frame → Prop)
    : Prop :=
  ∀ (h : heap) d, h !! l = Some d → P d →
    match m h with
    | Ok (a, h') => ∃ d', h' = <[l := d']> h ∧ Q a d'
    | Err _ => True
    end.

(** A function that copies its argument and works on the copy: the
    heap it was given is a part of the heap it leaves, the result is a
    new object. *)
Definition on_copy (f : loc → M loc) (R : frame → frame → Prop) : Prop :=
  ∀ (l : loc) (h : heap) d, h !! l = Some d →
    match f l h with
    | Ok (l', h') => h ⊆ h' ∧ h !! l' = None ∧ ∃ d', h' !! l' = Some d' ∧ R d d'
    | Err _ => True
    end.

(** *** Frames *)

(** [d'] has the columns of [d] where they were, and the same cells in
    all of them but those labelled in [W]. *)
Definition keeps (W : list string) (d d' : frame) : Prop :=
  columns d `prefix_of` columns d'
  ∧ ∀ lab, lab ∉ W → getitem d' lab = getitem d lab.

(** *** Temporal features *)

(** The labels that [add_temporal_features] assigns. *)
Definition temporal_labels : list string :=
  ["hour"; "day_of_week"; "day_of_month"; "month"; "year"; "week_of_year";
   "hour_sin"; "hour_cos"; "day_sin"; "day_cos"; "month_sin"; "month_cos";
   "is_weekend"; "is_business_hours"; "is_rush_hour"].

Section Cyclical.
Context `{PyLib}.

(** [f(2π·v/period)] on one cell; a missing field has no encoding. *)
Definition cyclical_cell (f : Q → Q) (period : Q) (v : cell) : cell :=
  match v with
  | CNum x => CNum (f (2 * np_pi * x / period)%Q)
  | _ => CNaN
  end.

(** Row by row, column [enc] is the encoding of column [field]. *)
Definition encodes (d : frame) (f : Q → Q) (period : Q) (field enc : string) : Prop :=
  ∃ a c, getitem d field = Ok a ∧ getitem d enc = Ok c
         ∧ length c = length a
         ∧ ∀ i v, a !! i = Some v → c !! i = Some (cyclical_cell f period v).

Definition cyclically_encoded (d : frame) : Prop :=
  encodes d np_sin 24 "hour" "hour_sin" ∧ encodes d np_cos 24 "hour" "hour_cos"
  ∧ encodes d np_sin 7 "day_of_week" "day_sin"
  ∧ encodes d np_cos 7 "day_of_week" "day_cos"
  ∧ encodes d np_sin 12 "month" "month_sin"
  ∧ encodes d np_cos 12 "month" "month_cos".

(** What [add_temporal_features] makes of a frame [d]: the timestamp
    column is converted first when it is not a datetime column, then
    the fifteen features are assigned. *)
Definition temporal_result (timestamp_col : string) (d d' : frame) : Prop :=
  ∃ d1 ts,
    getitem d timestamp_col = Ok ts
    ∧ (if is_datetime64_any_dtype ts then d1 = d
       else ∃ c, to_datetime ts = Ok c ∧ d1 = setitem d timestamp_col c)
    ∧ keeps temporal_labels d1 d'
    ∧ cyclically_encoded d'.

End Cyclical.

(** *** Lag and rolling features, in the words of the glossary *)

(** The parking lot of row [i]: its key, as a value. *)
Definition lot_of (keys : column) (i : nat) : option cell :=
  norm_key <$> keys !! i.

(** The rows of lot [g] before row [i] and after it, in row order. *)
Definition earlier_rows (keys : column) (g : cell) (i : nat) : list nat :=
  filter (fun j => lot_of keys j = Some g) (seq 0 i).
Definition later_rows (keys : column) (g : cell) (i : nat) : list nat :=
  filter (fun j => lot_of keys j = Some g) (seq (S i) (length keys - S i)).

(** The row that lies [n] time-steps in the past of row [i] within lot
    [g] (in its future, for a negative [n]), if the lot has one. *)
Definition lagged_row (keys : column) (g : cell) (i : nat) (n : Z) : option nat :=
  match n with
  | Z0 => Some i
  | Zpos p => reverse (earlier_rows keys g i) !! (Pos.to_nat p - 1)%nat
  | Zneg p => later_rows keys g i !! (Pos.to_nat p - 1)%nat
  end.

(** The lag feature of row [i]: the target at that row, missing when
    there is no such row. *)
Definition lag_value (keys vals : column) (g : cell) (i : nat) (n : Z) : option cell :=
  match lagged_row keys g i n with
  | Some j => vals !! j
  | None => Some CNaN
  end.

(** The last [n] elements of a list. *)
Definition last_n {A} (n : nat) (l : list A) : list A := drop (length l - n) l.

(** The last [n] observations of lot [g] at row [i]: the rows of the
    lot up to row [i], the most recent [n] of them. *)
Definition window_rows (keys : column) (g : cell) (i : nat) (n : nat) : list nat :=
  last_n n (earlier_rows keys g i ++ [i]).

(** The finite values among the cells of a window. *)
Definition finite (c : cell) : option Q :=
  match c with
  | CNum x => Some x
  | _ => None
  end.
Definition window_values (keys vals : column) (g : cell) (i : nat) (n : nat) : list Q :=
  omap (fun j => vals !! j ≫= finite) (window_rows keys g i n).

(** What [add_lag_features] with a grouping column makes of a frame:
    one new column per lag, the grouped shift of the target. *)
Definition lag_result (target_col group_col : string) (lags : list Z)
    (d d' : frame) : Prop :=
  keeps (lag_label target_col <$> lags) d d'
  ∧ ∀ n, n ∈ lags →
      ∃ keys vals c,
        getitem d group_col = Ok keys ∧ getitem d target_col = Ok vals
        ∧ getitem d' (lag_label target_col n) = Ok c
        ∧ groupby_shift keys vals n = Ok c.

(** The four statistics of a rolling window. *)
Inductive stat := Mean | Std | Max | Min.

Definition stat_name (s : stat) : string :=
  match s with
  | Mean => "mean"
  | Std => "std"
  | Max => "max"
  | Min => "min"
  end.

(** The labels that [add_rolling_features] assigns for one window. *)
Definition window_labels (target_col : string) (w : Z) : list string :=
  s ← [Mean; Std; Max; Min]; [rolling_label target_col (stat_name s) w].

Section Rolling.
Context `{PyLib}.

(** The statistic of the finite observations of a window: mean,
    sample standard deviation, maximum, minimum. *)
Definition stat_agg (s : stat) : list Q → cell :=
  match s with
  | Mean => agg_mean
  | Std => agg_std
  | Max => agg_max
  | Min => agg_min
  end.

(** What [add_rolling_features] with a grouping column makes of a
    frame: four new columns per window, the grouped rolling statistics
    of the target. *)
Definition rolling_result (target_col group_col : string) (windows : list Z)
    (d d' : frame) : Prop :=
  keeps (w ← windows; window_labels target_col w) d d'
  ∧ ∀ w, w ∈ windows →
      ∃ keys vals,
        getitem d group_col = Ok keys ∧ getitem d target_col = Ok vals
        ∧ ∀ s, ∃ c,
            getitem d' (rolling_label target_col (stat_name s) w) = Ok c
            ∧ groupby_transform keys vals (rolling w (stat_agg s)) = Ok c.

End Rolling.

(** *** Occupancy *)

(** The occupancy rate of the glossary. *)
Definition occupancy_rate (total free : Q) : Q := ((total - free) / total * 100)%Q.

(** [merged] joins the readings with their lots and carries the
    occupancy rate: row [k] of [merged] is reading [i] with lot [j],
    the two have the same lot identifier, and the rate of the row is
    computed from the capacity of the lot and the free spaces of the
    reading. *)
Definition merged_with_occupancy (readings lots merged : frame) : Prop :=
  ∃ lot_id id free total rate,
    getitem readings "lot_id" = Ok lot_id ∧ getitem lots "id" = Ok id
    ∧ getitem readings "free" = Ok free ∧ getitem lots "total" = Ok total
    ∧ getitem merged "occupancy_rate" = Ok rate
    ∧ length rate = length (join_pairs lot_id id)
    ∧ ∀ k i j, join_pairs lot_id id !! k = Some (i, j) →
        key_match (lot_id !! i) (id !! j) = true
        ∧ ∀ t f, total !! j = Some (CNum t) → free !! i = Some (CNum f) →
            ¬ (t == 0)%Q → rate !! k = Some (CNum (occupancy_rate t f)).

(** *** Filters of [load_readings] *)

(** The cell of a stored row under a column name (NULL when the table
    has no such column). *)
Definition stored (t : table) (r : list cell) (col : string) : cell :=
  match index_of (t_columns t) col with
  | Some j => field j r
  | None => CNaN
  end.

(** [ts >= d], [ts <= d] and [lot IN ids] as SQLite evaluates them. *)
Definition stored_ge (ts : cell) (d : string) : bool :=
  negb (isna ts) && sql_leb (CStr d) ts.
Definition stored_le (ts : cell) (d : string) : bool :=
  negb (isna ts) && sql_leb ts (CStr d).
Definition stored_in (lot : cell) (ids : list cell) : bool :=
  existsb (sql_eqb lot) ids.

(** A row satisfies the three filters; an absent filter is satisfied. *)
Definition row_matches (t : table) (start_date end_date : option string)
    (lot_ids : option (list cell)) (r : list cell) : bool :=
  match start_date with
  | Some d => stored_ge (stored t r "timestamp") d
  | None => true
  end
  && match end_date with
     | Some d => stored_le (stored t r "timestamp") d
     | None => true
     end
  && match lot_ids with
     | Some ids => stored_in (stored t r "lot_id") ids
     | None => true
     end.

(** Rows in non-decreasing order of their stored timestamps. *)
Definition by_timestamp (t : table) (r1 r2 : list cell) : Prop :=
  Is_true (sql_leb (stored t r1 "timestamp") (stored t r2 "timestamp")).

(** The frame that pandas builds from the rows of a query on [t], with
    the timestamps parsed. *)
Definition frame_of_readings `{PyLib} (t : table) (rows : list (list cell))
    (df : frame) : Prop :=
  columns df = t_columns t
  ∧ ∀ col c, getitem df col = Ok c →
      if decide (col = "timestamp")
      then to_datetime (map (fun r => stored t r col) rows) = Ok c
      else c = map (fun r => stored t r col) rows.

(** The clauses that [load_readings] builds from its arguments. *)
Definition clauses_of (start_date end_date : option string)
    (lot_ids : option (list cell)) : list clause :=
  match start_date with Some d => [GeParam "timestamp" (CStr d)] | None => [] end
  ++ match end_date with Some d => [LeParam "timestamp" (CStr d)] | None => [] end
  ++ match lot_ids with Some ids => [InParams "lot_id" ids] | None => [] end.

(** [int(x)] of a float. *)
Definition truncate (x : Q) : Z := Z.quot (Qnum x) (Zpos (Qden x)).

(** *** Confidence band *)

(** The band of a forecast: its width and twice its midpoint. *)
Definition band_width (f : Forecast) : Q :=
  (default 0 (confidence_high f) - default 0 (confidence_low f))%Q.
Definition band_ends_sum (f : Forecast) : Q :=
  (default 0 (confidence_low f) + default 0 (confidence_high f))%Q.

(** [f] is one of the forecasts that the REST interface serves in world
    [w] with globals [st]. *)
Definition served `{PyLib} (w : world) (st : state) (f : Forecast) : Prop :=
  (∃ lot_id, (get_forecast w st lot_id).2 = Ok f)
  ∨ (∃ fs, (get_all_forecasts w st).2 = Ok fs ∧ f ∈ fs).

(** *** The feature functions as sequences of item assignments *)

(** The frame after a sequence of item assignments. *)
Definition assign (d : frame) (cols : list (string * column)) : frame :=
  foldl (fun d lc => setitem d lc.1 lc.2) d cols.

Section AssignedColumns.
Context `{PyLib}.

(** The datetime column that [add_temporal_features] reads the
    calendar fields from. *)
Definition datetimes (ts : column) : result column :=
  if is_datetime64_any_dtype ts then Ok ts else to_datetime ts.

(** The fifteen columns that [add_temporal_features] assigns, from the
    datetime column. *)
Definition temporal_columns (ts : column) : result (list (string * column)) :=
  hour ← dt dt_hour ts;
  day_of_week ← dt dt_dayofweek ts;
  day_of_month ← dt dt_day ts;
  month ← dt dt_month ts;
  year ← dt dt_year ts;
  week_of_year ← dt dt_isoweek ts;
  hour_sin ← cyclical np_sin 24 hour;
  hour_cos ← cyclical np_cos 24 hour;
  day_sin ← cyclical np_sin 7 day_of_week;
  day_cos ← cyclical np_cos 7 day_of_week;
  month_sin ← cyclical np_sin 12 month;
  month_cos ← cyclical np_cos 12 month;
  ge8 ← series_ge hour 8; le18 ← series_le hour 18;
  ge7 ← series_ge hour 7; le9 ← series_le hour 9;
  ge16 ← series_ge hour 16; le19 ← series_le hour 19;
  Ok [("hour", hour); ("day_of_week", day_of_week); ("day_of_month", day_of_month);
      ("month", month); ("year", year); ("week_of_year", week_of_year);
      ("hour_sin", hour_sin); ("hour_cos", hour_cos);
      ("day_sin", day_sin); ("day_cos", day_cos);
      ("month_sin", month_sin); ("month_cos", month_cos);
      ("is_weekend", astype_int (isin day_of_week [5%Q; 6%Q]));
      ("is_business_hours", astype_int (series_and ge8 le18));
      ("is_rush_hour",
       astype_int (series_or (series_and ge7 le9) (series_and ge16 le19)))].

(** The six calendar columns and their accessors. *)
Definition calendar_fields : list (string * (Z → Z)) :=
  [("hour", dt_hour); ("day_of_week", dt_dayofweek); ("day_of_month", dt_day);
   ("month", dt_month); ("year", dt_year); ("week_of_year", dt_isoweek)].

(** The column that [add_rolling_features] computes for the window [w]
    and the statistic [s] from the frame [d]. *)
Definition rolling_column (d : frame) (target_col : string)
    (group_col : option string) (w : Z) (s : stat) : result column :=
  match truthy group_col with
  | Some g =>
      keys ← getitem d g; vals ← getitem d target_col;
      groupby_transform keys vals (rolling w (stat_agg s))
  | None => vals ← getitem d target_col; rolling w (stat_agg s) vals
  end.

Definition rolling_columns (d : frame) (target_col : string)
    (group_col : option string) (windows : list Z)
    : result (list (string * column)) :=
  mapR (fun ws => c ← rolling_column d target_col group_col ws.1 ws.2;
                  Ok (rolling_label target_col (stat_name ws.2) ws.1, c))
       (w ← windows; [(w, Mean); (w, Std); (w, Max); (w, Min)]).

End AssignedColumns.

(** The column that [add_lag_features] computes for the lag [n] from
    the frame [d]. *)
Definition lag_column (d : frame) (target_col : string) (group_col : option string)
    (n : Z) : result column :=
  match truthy group_col with
  | Some g => keys ← getitem d g; vals ← getitem d target_col; groupby_shift keys vals n
  | None => vals ← getitem d target_col; Ok (shift n vals)
  end.

Definition lag_columns (d : frame) (target_col : string) (group_col : option string)
    (lags : list Z) : result (list (string * column)) :=
  mapR (fun n => c ← lag_column d target_col group_col n;
                 Ok (lag_label target_col n, c)) lags.

(** A boolean as [astype(int)] leaves it. *)
Definition flag (b : bool) : cell := CNum (if b then 1 else 0).

(** [lo <= c <= hi] for a cell of a calendar field. *)
Definition within (lo hi : Q) (c : cell) : bool :=
  match c with
  | CNum x => Qle_bool lo x && Qle_bool x hi
  | _ => false
  end.

(** Saturday or Sunday, for a cell of [day_of_week] (Monday is 0). *)
Definition weekend_day (c : cell) : bool :=
  match c with
  | CNum x => Qeq_bool x 5 || Qeq_bool x 6
  | _ => false
  end.

(** The calendar field of a datetime cell; NaT has none. *)
Definition field_of (accessor : Z → Z) (c : cell) : cell :=
  match c with
  | CTime t => CNum (inject_Z (accessor t))
  | _ => CNaN
  end.

(** *** Rows *)

(** [d'] is a well-formed frame with the rows of [d]. *)
Definition same_rows (d d' : frame) : Prop :=
  wf_frame d → wf_frame d' ∧ nrows d' = nrows d.

(** A frame of a loop: well-formed, with the rows of the input. *)
Definition rows_of (d0 d : frame) : Prop := wf_frame d ∧ nrows d = nrows d0.

(** The cell [n] rows above row [i] of a column (below, for a negative
    [n]); missing beyond the ends. *)
Definition shifted (vals : column) (i : nat) (n : Z) : option cell :=
  if decide (0 <= Z.of_nat i - n < Z.of_nat (length vals))
  then vals !! Z.to_nat (Z.of_nat i - n)
  else Some CNaN.

(** The finite values of the last [w] rows up to row [i]. *)
Definition trailing (vals : column) (i : nat) (w : nat) : list Q :=
  omap finite (slice (i + 1 - w) (i + 1) vals).

(** Row [i] of a datetime column is not later than row [j]; a missing
    timestamp counts as the latest, as [sort_values] places it. *)
Definition not_later (ts : column) (i j : nat) : Prop :=
  Is_true (cell_leb (default CNaN (ts !! i)) (default CNaN (ts !! j))).

(** Row [k] of [d'] is row [r] of [d]: the same cell in every column. *)
Definition same_row (d : frame) (r : nat) (d' : frame) (k : nat) : Prop :=
  ∀ lab c, getitem d lab = Ok c →
    ∃ c', getitem d' lab = Ok c' ∧ c' !! k = c !! r ∧ is_Some (c !! r).

(** *** Training and evaluation *)

(** The absolute percentage error of one prediction, as a fraction. *)
Definition abs_pct_error (y p : Q) : Q := Qabs ((y - p) / y).

(** The quotient of two floats, and the absolute value of a float. *)
Definition float_div (d y : Q) : cell :=
  if Qeq_bool y 0 then (if Qeq_bool d 0 then CNaN else CInf (Qltb d 0))
  else CNum (d / y).

Definition float_abs (c : cell) : cell :=
  match c with
  | CNum x => CNum (Qabs x)
  | CInf _ => CInf false
  | _ => CNaN
  end.

Definition is_float (c : cell) : Prop :=
  match c with
  | CNum _ | CInf _ | CNaN => True
  | _ => False
  end.

(** The importance of feature [i], 0 beyond the list. *)
Definition importance_of (importances : list Q) (i : nat) : Q :=
  default 0%Q (importances !! i).

(** Feature [i] is at least as important as feature [j]. *)
Definition outranks (importances : list Q) (i j : nat) : Prop :=
  Is_true (Qle_bool (importance_of importances j) (importance_of importances i)).

(** *** Commands as functions of the frame they work on *)

(** A command that runs on the object at [l] only and is the function
    [r] of the frame it finds there: it returns the value of [r] and
    leaves the frame of [r] at [l], or fails as [r] does. *)
Definition runs (l : loc) {A} (m : M A) (r : frame → result (A * frame)) : Prop :=
  ∀ (h : heap) d, h !! l = Some d →
    m h = match r d with
          | Ok (a, d') => Ok (a, <[l := d']> h)
          | Err e => Err e
          end.

(** [for x in xs: body] as a function of the frame. *)
Fixpoint for_each_on {A} (xs : list A) (body : A → frame → result (unit * frame))
    (d : frame) : result (unit * frame) :=
  match xs with
  | [] => Ok (tt, d)
  | x :: xs' => '(_, d') ← body x d; for_each_on xs' body d'
  end.

(** A function on frames that is the function [r] of the contents of
    its argument, whatever else the heap holds: it returns a location
    that holds the frame of [r], or fails as [r] does. *)
Definition returns (f : loc → M loc) (r : frame → result frame) : Prop :=
  ∀ (l : loc) (h : heap) d, h !! l = Some d →
    match r d with
    | Ok d' => ∃ l' h', f l h = Ok (l', h') ∧ h' !! l' = Some d'
    | Err e => f l h = Err e
    end.

(** *** The rounds of the loops, as functions of the frame *)

Section Steps.
Context `{PyLib}.

(** One round of the loop of [add_lag_features] with a grouping column,
    as a function of the frame. *)
Definition lag_step (target_col g : string) (n : Z) (d : frame)
    : result (unit * frame) :=
  keys ← getitem d g; vals ← getitem d target_col;
  c ← groupby_shift keys vals n;
  Ok (tt, setitem d (lag_label target_col n) c).

(** One round of the loop of [add_rolling_features] with a grouping
    column. *)
Definition rolling_step (target_col g : string) (w : Z) (d : frame)
    : result (unit * frame) :=
  keys ← getitem d g; vals ← getitem d target_col;
  c1 ← groupby_transform keys vals (rolling w agg_mean);
  c2 ← groupby_transform keys vals (rolling w agg_std);
  c3 ← groupby_transform keys vals (rolling w agg_max);
  c4 ← groupby_transform keys vals (rolling w agg_min);
  Ok (tt, setitem (setitem (setitem (setitem d
            (rolling_label target_col "mean" w) c1)
            (rolling_label target_col "std" w) c2)
            (rolling_label target_col "max" w) c3)
            (rolling_label target_col "min" w) c4).

End Steps.

End Spec.

(** * Properties *)

(** ** Results *)

Lemma bind_Ok {A B} (m : result A) (f : A → result B) (b : B) :
  m ≫= f = Ok b ↔ ∃ a, m = Ok a ∧ f a = Ok b.
Proof.
  destruct m as [a|e]; simpl; split.
  - eauto.
  - by intros (a' & [= <-] & ?).
  - done.
  - by intros (a' & ? & ?).
Qed.

Lemma fmap_Ok {A B} (m : result A) (f : A → B) (b : B) :
  f <$> m = Ok b ↔ ∃ a, m = Ok a ∧ b = f a.
Proof.
  destruct m as [a|e]; simpl; split.
  - intros [= <-]. eauto.
  - by intros (a' & [= <-] & ->).
  - done.
  - by intros (a' & ? & ?).
Qed.

Lemma from_option_Ok {A} (e : exn) (o : option A) (a : A) :
  from_option e o = Ok a ↔ o = Some a.
Proof. destruct o; simpl; split; congruence. Qed.

(** Inversion of a chain of binds that ended well. *)
Ltac inv_Ok :=
  repeat match goal with
  | H : Ok _ = Ok _ |- _ => injection H as H; try subst
  | H : Err _ = Ok _ |- _ => discriminate H
  | H : (_ ≫= _) = Ok _ |- _ => apply bind_Ok in H as (? & ? & H)
  | H : (_ <$> _) = Ok _ |- _ => apply fmap_Ok in H as (? & ? & H)
  | H : from_option _ _ = Ok _ |- _ => apply from_option_Ok in H
  end.

(** Membership of a literal label in a list of literal labels, and its
    negation. *)
Ltac elem_of_labels :=
  repeat first [ apply list_elem_of_here | apply list_elem_of_further ].
Ltac not_elem_of_labels :=
  rewrite ?not_elem_of_cons; repeat split; first [ discriminate | apply not_elem_of_nil ].

Lemma mapR_Ok_length {A B} (f : A → result B) l l' :
  mapR f l = Ok l' → length l' = length l.
Proof.
  revert l'. induction l as [|x l IH]; intros l' Hm; simpl in Hm.
  - by inv_Ok.
  - inv_Ok. simpl. f_equal. by apply IH.
Qed.

Lemma mapR_Ok_lookup {A B} (f : A → result B) l l' i x :
  mapR f l = Ok l' → l !! i = Some x → ∃ y, l' !! i = Some y ∧ f x = Ok y.
Proof.
  revert l' i. induction l as [|x0 l IH]; intros l' i Hm Hi; [done|].
  simpl in Hm. inv_Ok.
  destruct i as [|i]; simpl in *.
  - injection Hi as ->. eauto.
  - eauto.
Qed.

Lemma mapR_Ok_lookup_inv {A B} (f : A → result B) l l' i y :
  mapR f l = Ok l' → l' !! i = Some y → ∃ x, l !! i = Some x ∧ f x = Ok y.
Proof.
  intros Hm Hi.
  destruct (l !! i) as [x|] eqn:Hx.
  - destruct (mapR_Ok_lookup _ _ _ _ _ Hm Hx) as (y' & Hy' & Hf).
    exists x. split; [done|]. congruence.
  - apply lookup_ge_None in Hx. apply mapR_Ok_length in Hm.
    apply lookup_lt_Some in Hi. lia.
Qed.

Lemma mapR_Ok_elem {A B} (f : A → result B) l l' y :
  mapR f l = Ok l' → y ∈ l' → ∃ x, x ∈ l ∧ f x = Ok y.
Proof.
  intros Hm [i Hi]%list_elem_of_lookup.
  destruct (mapR_Ok_lookup_inv _ _ _ _ _ Hm Hi) as (x & Hx & Hf).
  exists x. split; [|done]. by eapply list_elem_of_lookup_2.
Qed.

Lemma mapR_total {A B} (f : A → result B) l :
  (∀ x, x ∈ l → is_Ok (f x)) → is_Ok (mapR f l).
Proof.
  induction l as [|x l IH]; intros Hf; simpl; [by eexists|].
  destruct (Hf x) as [y ->]; [left|]. simpl.
  destruct IH as [ys ->]; [intros; apply Hf; by right|]. by eexists.
Qed.

(** ** Frames *)

Section FrameFacts.
Import Pandas.

Lemma getitem_setitem_eq df l c : getitem (setitem df l c) l = Ok c.
Proof.
  induction df as [|[l' c'] df IH]; simpl.
  - by rewrite decide_True.
  - destruct (decide (l' = l)) as [->|Hne]; simpl.
    + by rewrite decide_True.
    + by rewrite decide_False.
Qed.

Lemma getitem_setitem_ne df l l' c :
  l ≠ l' → getitem (setitem df l c) l' = getitem df l'.
Proof.
  intros Hne. induction df as [|[l0 c0] df IH]; simpl.
  - by rewrite decide_False.
  - destruct (decide (l0 = l)) as [->|Hne0]; simpl.
    + by rewrite !decide_False.
    + by rewrite IH.
Qed.

Lemma getitem_Ok_elem df l c : getitem df l = Ok c → (l, c) ∈ df.
Proof.
  induction df as [|[l0 c0] df IH]; simpl; [done|].
  destruct (decide (l0 = l)) as [->|Hne].
  - intros [= ->]. left.
  - intros. right. auto.
Qed.

Lemma getitem_Ok_columns df l c : getitem df l = Ok c → l ∈ columns df.
Proof.
  intros Hg%getitem_Ok_elem. unfold columns.
  apply list_elem_of_fmap. by exists (l, c).
Qed.

Lemma getitem_is_Ok df l : l ∈ columns df → is_Ok (getitem df l).
Proof.
  induction df as [|[l0 c0] df IH]; simpl.
  - by intros ?%elem_of_nil.
  - intros [->|Hin]%elem_of_cons.
    + rewrite decide_True by done. by eexists.
    + destruct (decide (l0 = l)); [by eexists|auto].
Qed.

Lemma getitem_Err df l : l ∉ columns df → getitem df l = Err (KeyError l).
Proof.
  induction df as [|[l0 c0] df IH]; simpl; [done|].
  intros Hn. apply not_elem_of_cons in Hn as [Hne Hn].
  rewrite decide_False by done. auto.
Qed.

Lemma columns_setitem_in df l c :
  l ∈ columns df → columns (setitem df l c) = columns df.
Proof.
  induction df as [|[l0 c0] df IH]; simpl.
  - by intros ?%elem_of_nil.
  - intros Hin. destruct (decide (l0 = l)) as [->|Hne]; [done|].
    simpl. f_equal. apply IH.
    apply elem_of_cons in Hin as [?|?]; [congruence|done].
Qed.

Lemma columns_setitem_notin df l c :
  l ∉ columns df → columns (setitem df l c) = columns df ++ [l].
Proof.
  induction df as [|[l0 c0] df IH]; simpl; [done|].
  intros Hn. apply not_elem_of_cons in Hn as [Hne Hn].
  rewrite decide_False by done. simpl. f_equal. auto.
Qed.

(** Item assignment keeps the columns that were there, in their order. *)
Lemma columns_setitem_prefix df l c : columns df `prefix_of` columns (setitem df l c).
Proof.
  destruct (decide (l ∈ columns df)).
  - by rewrite columns_setitem_in.
  - rewrite columns_setitem_notin by done. by apply prefix_app_r.
Qed.

Lemma columns_map_columns f df : columns (map_columns f df) = columns df.
Proof. unfold columns, map_columns. rewrite map_map. done. Qed.

Lemma getitem_map_columns f df l :
  getitem (map_columns f df) l = f <$> getitem df l.
Proof.
  induction df as [|[l0 c0] df IH]; simpl; [done|].
  destruct (decide (l0 = l)); [done|apply IH].
Qed.

(** [df[labels]] has exactly the requested labels, in the requested
    order. *)
Lemma columns_select df labels X : select df labels = Ok X → columns X = labels.
Proof.
  unfold select. revert X.
  induction labels as [|l ls IH]; intros X Hs; simpl in Hs; inv_Ok; [done|].
  simpl. f_equal. by apply IH.
Qed.

Lemma getitem_select df labels X l :
  select df labels = Ok X → l ∈ labels → getitem X l = getitem df l.
Proof.
  unfold select. revert X.
  induction labels as [|l0 ls IH]; intros X Hs Hin; simpl in Hs; inv_Ok.
  - by apply elem_of_nil in Hin.
  - simpl. destruct (decide (l0 = l)) as [->|Hne]; [done|].
    apply elem_of_cons in Hin as [?|?]; [congruence|]. by apply IH.
Qed.

Lemma select_is_Ok df labels :
  labels ⊆ columns df → is_Ok (select df labels).
Proof.
  intros Hsub. apply mapR_total. intros l Hl.
  destruct (getitem_is_Ok df l) as [c ->]; [by apply Hsub|]. by eexists.
Qed.

End FrameFacts.

(** ** The feature matrix of the serving and prediction paths *)

Section FeatureMatrix.
Import Pandas DataLoader Models Server Predict.
Context `{PyLib}.

Lemma columns_fillna0 df : columns (fillna0 df) = columns df.
Proof. apply columns_map_columns. Qed.

(** [df[forecaster.feature_columns].fillna(0)] has the recorded columns,
    in the recorded order. *)
Lemma feature_matrix_columns fc df X :
  feature_matrix fc df = Ok X → feature_columns fc = Some (columns X).
Proof.
  unfold feature_matrix. intros Hm. inv_Ok. subst X.
  rewrite columns_fillna0. erewrite columns_select; eauto.
Qed.

Lemma forecast_input_columns db fc lot_id name X :
  forecast_input db fc lot_id = Ok (name, X) → feature_columns fc = Some (columns X).
Proof.
  unfold forecast_input. intros Hm.
  inv_Ok. destruct x as [lot_name df].
  repeat (inv_Ok; try match goal with
    | H : (if ?b then _ else _) = Ok _ |- _ => destruct b; [discriminate H|]
    end).
  by eapply feature_matrix_columns.
Qed.

Lemma all_forecasts_input_columns db fc latest X :
  all_forecasts_input db fc = Ok (Some (latest, X)) →
  feature_columns fc = Some (columns X).
Proof.
  unfold all_forecasts_input. intros Hm.
  repeat (inv_Ok; try match goal with
    | H : (if ?b then _ else _) = Ok _ |- _ => destruct b; [discriminate H|]
    end).
  by eapply feature_matrix_columns.
Qed.

Lemma prediction_input_columns db fc lot_id df X :
  prediction_input db fc lot_id = Ok (df, X) → feature_columns fc = Some (columns X).
Proof.
  unfold prediction_input. intros Hm. inv_Ok.
  by eapply feature_matrix_columns.
Qed.

(** What a successful [GET /forecast/{lot_id}] went through. *)
Lemma get_forecast_Ok w st lot_id f :
  (get_forecast w st lot_id).2 = Ok f →
  ∃ fc loader db lot_name X predictions,
    forecaster (get_forecast w st lot_id).1 = Some fc
    ∧ data_loader (get_forecast w st lot_id).1 = Some loader
    ∧ connect (databases w) loader = Ok db
    ∧ forecast_input db fc lot_id = Ok (lot_name, X)
    ∧ predict fc X = Ok predictions
    ∧ predictions !! 0%nat = Some (predicted_occupancy_rate f)
    ∧ confidence_low f = Some (py_max 0 (predicted_occupancy_rate f - 10))
    ∧ confidence_high f = Some (py_min 100 (predicted_occupancy_rate f + 10)).
Proof.
  unfold get_forecast. simpl.
  destruct (forecaster _) as [fc|]; [|done].
  destruct (data_loader _) as [loader|]; [|done].
  intros Hm. exists fc, loader.
  match type of Hm with except_http_500 _ ?r = _ => destruct r as [f'|e] eqn:Hr end;
    [|by destruct e].
  simpl in Hm. injection Hm as ->.
  inv_Ok. destruct x0 as [lot_name X]. inv_Ok. simpl.
  eexists _, lot_name, X, _. done.
Qed.

(** What every forecast of a successful [GET /forecast] went through. *)
Lemma get_all_forecasts_Ok w st fs f :
  (get_all_forecasts w st).2 = Ok fs → f ∈ fs →
  ∃ fc loader db latest X predictions idx,
    forecaster (get_all_forecasts w st).1 = Some fc
    ∧ data_loader (get_all_forecasts w st).1 = Some loader
    ∧ connect (databases w) loader = Ok db
    ∧ all_forecasts_input db fc = Ok (Some (latest, X))
    ∧ predict fc X = Ok predictions
    ∧ predictions !! idx = Some (predicted_occupancy_rate f)
    ∧ confidence_low f = Some (py_max 0 (predicted_occupancy_rate f - 10))
    ∧ confidence_high f = Some (py_min 100 (predicted_occupancy_rate f + 10)).
Proof.
  unfold get_all_forecasts. simpl.
  destruct (forecaster _) as [fc|]; [|done].
  destruct (data_loader _) as [loader|]; [|done].
  intros Hm Hf. exists fc, loader.
  match type of Hm with except_500 _ ?r = _ => destruct r as [fs'|e] eqn:Hr end;
    [|done].
  simpl in Hm. injection Hm as ->.
  inv_Ok. destruct x0 as [[latest X]|]; [|inv_Ok; by apply elem_of_nil in Hf].
  inv_Ok.
  destruct (mapR_Ok_elem _ _ _ _ Hr Hf) as (idx & _ & Hrow).
  unfold forecast_of_row in Hrow. inv_Ok. simpl.
  eexists _, latest, X, _, idx. done.
Qed.

End FeatureMatrix.

(** ** Reloading the model *)

Lemma Qltb_lt (a b : Q) : Pandas.Qltb a b = true ↔ (a < b)%Q.
Proof.
  unfold Pandas.Qltb. rewrite negb_true_iff, <- not_true_iff_false, Qle_bool_iff.
  split; [apply Qnot_le_lt | apply Qlt_not_le].
Qed.

Lemma Qltb_ge (a b : Q) : Pandas.Qltb a b = false ↔ (b <= a)%Q.
Proof.
  unfold Pandas.Qltb. rewrite negb_false_iff, Qle_bool_iff. done.
Qed.

Section Reload.
Import Pandas Models Server Spec.

Lemma load_model_wf w st : wf_state (final (load_model w st)).
Proof.
  unfold load_model.
  destruct (files w !! MODEL_PATH); simpl; [|by right].
  destruct (load _ _ _); simpl; by right.
Qed.

Lemma check_and_reload_model_wf w st :
  wf_state st → wf_state (final (check_and_reload_model w st)).
Proof.
  intros Hwf. unfold check_and_reload_model.
  destruct (model_path st); [|done].
  destruct (files w !! _); [|done].
  destruct (match model_last_modified st with None => _ | Some _ => _ end); [|done].
  apply load_model_wf.
Qed.

Lemma load_model_unpickled w st f :
  files w !! MODEL_PATH = Some f → unpickled (load_model w st) = [MODEL_PATH].
Proof.
  intros Hf. unfold load_model. rewrite Hf. simpl.
  by destruct (load _ _ _).
Qed.

Lemma check_and_reload_model_reads w st :
  wf_state st → newer_on_disk w st →
  unpickled (check_and_reload_model w st) = [MODEL_PATH].
Proof.
  intros Hwf (p & f & Hp & Hf & Hnew). unfold check_and_reload_model.
  rewrite Hp, Hf.
  assert (p = MODEL_PATH) as -> by (destruct Hwf; congruence).
  destruct (model_last_modified st) as [last|]; simpl.
  - apply Qltb_lt in Hnew. rewrite Hnew. simpl. by eapply load_model_unpickled.
  - by eapply load_model_unpickled.
Qed.

Lemma check_and_reload_model_idle w st :
  ¬ newer_on_disk w st →
  check_and_reload_model w st = {| final := st; raised := None; unpickled := [] |}.
Proof.
  intros Hold. unfold check_and_reload_model.
  destruct (model_path st) as [p|] eqn:Hp; [|done].
  destruct (files w !! p) as [f|] eqn:Hf; [|done].
  destruct (model_last_modified st) as [last|] eqn:Hl.
  - destruct (Qltb last (st_mtime f)) eqn:Hlt; [|done].
    destruct Hold. exists p, f. rewrite Hl. by apply Qltb_lt in Hlt.
  - destruct Hold. exists p, f. by rewrite Hl.
Qed.

Lemma newer_on_disk_dec w st : newer_on_disk w st ∨ ¬ newer_on_disk w st.
Proof.
  unfold newer_on_disk.
  destruct (model_path st) as [p|]; [|right; by intros (? & ? & ? & _)].
  destruct (files w !! p) as [f|] eqn:Hf;
    [|right; intros (? & ? & [= <-] & ? & _); congruence].
  destruct (model_last_modified st) as [last|]; [|left; by eauto].
  destruct (Qlt_le_dec last (st_mtime f)) as [Hlt|Hge]; [left; by eauto|].
  right. intros (? & f' & [= <-] & Hf' & Hlt).
  assert (f' = f) as -> by congruence.
  by apply Qle_not_lt in Hge.
Qed.

End Reload.

(** ** The heap discipline of the feature functions *)

Section Hoare.
Import Pandas Features Spec.

Lemma hoare_ret l P {A} (a : A) (Q : A → frame → Prop) :
  (∀ d, P d → Q a d) → hoare l P (mret a) Q.
Proof.
  intros HPQ h d Hl HP. simpl. exists d. split; [|auto].
  by rewrite insert_id.
Qed.

Lemma hoare_bind l P {A B} (m : M A) (f : A → M B) R Q :
  hoare l P m R → (∀ a, hoare l (R a) (f a) Q) → hoare l P (m ≫= f) Q.
Proof.
  intros Hm Hf h d Hl HP. unfold mbind, M_bind.
  specialize (Hm h d Hl HP).
  destruct (m h) as [[a h']|e]; [|done].
  destruct Hm as (d' & -> & HR).
  specialize (Hf a (<[l := d']> h) d' (lookup_insert_eq _ _ _) HR).
  destruct (f a _) as [[b h'']|e]; [|done].
  destruct Hf as (d'' & -> & HQ).
  exists d''. by rewrite insert_insert_eq.
Qed.

Lemma hoare_conseq l (P P' : frame → Prop) {A} (m : M A) (Q Q' : A → frame → Prop) :
  (∀ d, P' d → P d) → (∀ a d, Q a d → Q' a d) → hoare l P m Q → hoare l P' m Q'.
Proof.
  intros HP HQ Hm h d Hl HP'. specialize (Hm h d Hl (HP _ HP')).
  destruct (m h) as [[a h']|e]; [|done].
  destruct Hm as (d' & -> & Hq). eauto.
Qed.

Lemma hoare_get l P lab :
  hoare l P (get l lab) (fun c d => P d ∧ getitem d lab = Ok c).
Proof.
  intros h d Hl HP. unfold get. rewrite Hl.
  destruct (getitem d lab) as [c|e] eqn:Hg; simpl; [|done].
  exists d. by rewrite insert_id.
Qed.

Lemma hoare_set l P lab c :
  hoare l P (set l lab c) (fun _ d' => ∃ d, P d ∧ d' = setitem d lab c).
Proof.
  intros h d Hl HP. unfold set. rewrite Hl. eauto.
Qed.

Lemma hoare_lift l P {A} (r : result A) :
  hoare l P (lift r) (fun a d => P d ∧ r = Ok a).
Proof.
  intros h d Hl HP. unfold lift. destruct r as [a|e]; [|done].
  exists d. by rewrite insert_id.
Qed.

Lemma hoare_get' l (P : frame → Prop) lab (Q : column → frame → Prop) :
  (∀ c d, P d → getitem d lab = Ok c → Q c d) → hoare l P (get l lab) Q.
Proof.
  intros HQ. eapply hoare_conseq; [| |apply hoare_get]; [done|].
  intros c d [? ?]. auto.
Qed.

Lemma hoare_set' l (P : frame → Prop) lab c (Q : unit → frame → Prop) :
  (∀ d, P d → Q tt (setitem d lab c)) → hoare l P (set l lab c) Q.
Proof.
  intros HQ. eapply hoare_conseq; [| |apply hoare_set]; [done|].
  intros [] d' (d & ? & ->). auto.
Qed.

Lemma hoare_lift' l (P : frame → Prop) {A} (r : result A) (Q : A → frame → Prop) :
  (∀ a d, P d → r = Ok a → Q a d) → hoare l P (lift r) Q.
Proof.
  intros HQ. eapply hoare_conseq; [| |apply hoare_lift]; [done|].
  intros a d [? ?]. auto.
Qed.

Lemma hoare_if l (P : frame → Prop) {A} (b : bool) (m1 m2 : M A) Q :
  (b = true → hoare l P m1 Q) → (b = false → hoare l P m2 Q) →
  hoare l P (if b then m1 else m2) Q.
Proof. destruct b; auto. Qed.

(** A loop keeps its invariant. *)
Lemma hoare_for_each l {A} (xs : list A) (body : A → M unit) (I : list A → frame → Prop) :
  (∀ done x, done ++ [x] `prefix_of` xs →
     hoare l (I done) (body x) (fun _ => I (done ++ [x]))) →
  hoare l (I []) (for_each xs body) (fun _ => I xs).
Proof.
  intros Hbody.
  enough (∀ done rest, done ++ rest = xs →
            hoare l (I done) (for_each rest body) (fun _ => I xs)) as Hgen
    by (by apply (Hgen [] xs)).
  intros done rest. revert done.
  induction rest as [|x rest IH]; intros done Heq; simpl.
  - rewrite app_nil_r in Heq. subst. by apply hoare_ret.
  - eapply hoare_bind.
    + apply Hbody. exists rest. by rewrite <- app_assoc.
    + intros ?. apply IH. by rewrite <- app_assoc.
Qed.

Lemma on_copy_intro (body : loc → M loc) (R : frame → frame → Prop) :
  (∀ l d0, hoare l (fun d => d = d0) (body l) (fun l' d' => l' = l ∧ R d0 d')) →
  on_copy (fun df => df ← copy df; body df) R.
Proof.
  intros Hbody l h d Hl. unfold mbind, M_bind, copy. rewrite Hl. cbv zeta.
  match goal with |- context [body ?l0 _] =>
    assert (h !! l0 = None) as Hfresh by (apply not_elem_of_dom, is_fresh);
    generalize dependent l0
  end.
  intros l' Hfresh.
  specialize (Hbody l' d (<[l' := d]> h) d (lookup_insert_eq _ _ _) eq_refl).
  destruct (body l' _) as [[u h']|e]; simpl; [|done].
  destruct Hbody as (d' & -> & -> & HR).
  rewrite insert_insert_eq. split_and!.
  - by apply insert_subseteq.
  - done.
  - exists d'. by rewrite lookup_insert_eq.
Qed.

Lemma on_copy_conseq f (R R' : frame → frame → Prop) :
  (∀ d d', R d d' → R' d d') → on_copy f R → on_copy f R'.
Proof.
  intros HR Hf l h d Hl. specialize (Hf l h d Hl).
  destruct (f l h) as [[l' h']|e]; [|done].
  destruct Hf as (? & ? & d' & ? & ?). eauto 10.
Qed.

(** Two such functions in a row. *)
Lemma on_copy_compose f g (R1 R2 : frame → frame → Prop) :
  on_copy f R1 → on_copy g R2 →
  on_copy (fun df => df ← f df; g df) (fun d d'' => ∃ d', R1 d d' ∧ R2 d' d'').
Proof.
  intros Hf Hg l h d Hl. unfold mbind, M_bind.
  specialize (Hf l h d Hl).
  destruct (f l h) as [[l1 h1]|e]; [|done].
  destruct Hf as (Hsub1 & Hnew1 & d1 & Hl1 & HR1).
  specialize (Hg l1 h1 d1 Hl1).
  destruct (g l1 h1) as [[l2 h2]|e]; [|done].
  destruct Hg as (Hsub2 & Hnew2 & d2 & Hl2 & HR2).
  split_and!.
  - by etrans.
  - destruct (h !! l2) as [x|] eqn:Hx; [|done].
    eapply lookup_weaken in Hx; [|exact Hsub1]. congruence.
  - eauto.
Qed.

End Hoare.

(** ** Temporal features *)

Section Temporal.
Import Pandas Features Spec.
Context `{PyLib}.

Lemma keeps_refl W d : keeps W d d.
Proof. by split. Qed.

Lemma keeps_setitem W d d' lab c :
  lab ∈ W → keeps W d d' → keeps W d (setitem d' lab c).
Proof.
  intros Hin [Hpre Hget]. split.
  - etrans; [exact Hpre|]. apply columns_setitem_prefix.
  - intros lab' Hn. rewrite getitem_setitem_ne; [auto|].
    intros ->. done.
Qed.

Lemma keeps_trans W1 W2 d1 d2 d3 :
  keeps W1 d1 d2 → keeps W2 d2 d3 → keeps (W1 ++ W2) d1 d3.
Proof.
  intros [Hp1 Hg1] [Hp2 Hg2]. split; [by etrans|].
  intros lab Hn. apply not_elem_of_app in Hn as [? ?].
  rewrite Hg2, Hg1; done.
Qed.

Lemma keeps_weaken W W' d d' : W ⊆ W' → keeps W d d' → keeps W' d d'.
Proof. intros Hsub [Hp Hg]. split; [done|]. intros lab Hn. apply Hg. set_solver. Qed.

Lemma cyclical_lookup f period a c :
  Qeq_bool period 0 = false → cyclical f period a = Ok c →
  length c = length a
  ∧ ∀ i v, a !! i = Some v → c !! i = Some (cyclical_cell f period v).
Proof.
  intros Hp. unfold cyclical, series_scale, series_div_scalar, np_apply.
  intros Hc. inv_Ok. rename x into a1, x0 into a2. split.
  { erewrite mapR_Ok_length by eassumption.
    erewrite mapR_Ok_length by eassumption.
    by eapply mapR_Ok_length. }
  intros i v Hv.
  destruct (mapR_Ok_lookup _ _ _ _ _ H0 Hv) as (v1 & Hv1 & Hs).
  destruct (mapR_Ok_lookup _ _ _ _ _ H1 Hv1) as (v2 & Hv2 & Hd).
  destruct (mapR_Ok_lookup _ _ _ _ _ Hc Hv2) as (v3 & Hv3 & Ha).
  rewrite Hv3. f_equal.
  destruct v as [x|s|s|t|]; simpl in Hs; inv_Ok; simpl in *.
  - rewrite Hp in Hd. by inv_Ok.
  - destruct (Qeq_bool (2 * np_pi) 0); simpl in Hd; by inv_Ok.
  - by inv_Ok.
Qed.

Ltac hoare_step :=
  lazymatch goal with
  | |- hoare _ _ (mbind _ (get _ _)) _ =>
      eapply hoare_bind; [apply hoare_get | intros ?]
  | |- hoare _ _ (mbind _ (set _ _ _)) _ =>
      eapply hoare_bind; [apply hoare_set | intros ?]
  | |- hoare _ _ (mbind _ (lift _)) _ =>
      eapply hoare_bind; [apply hoare_lift | intros ?]
  end.

(** Reads of literal labels through a stack of assignments. *)
Ltac simpl_getitem_hyps :=
  repeat match goal with
  | H : context [getitem (setitem _ ?l _) ?l'] |- _ =>
      first [ rewrite getitem_setitem_eq in H
            | rewrite getitem_setitem_ne in H by done ]
  end.

Ltac split_all :=
  repeat match goal with
  | H : _ ∧ _ |- _ => destruct H
  | H : ∃ _, _ |- _ => destruct H
  end.

Lemma encodes_intro d f period field enc a c :
  Qeq_bool period 0 = false →
  getitem d field = Ok a → getitem d enc = Ok c → cyclical f period a = Ok c →
  encodes d f period field enc.
Proof.
  intros Hp Ha Hc Hcy. exists a, c.
  destruct (cyclical_lookup _ _ _ _ Hp Hcy). done.
Qed.

Lemma add_temporal_features_spec timestamp_col :
  on_copy (fun df => add_temporal_features df timestamp_col)
          (temporal_result timestamp_col).
Proof.
  unfold add_temporal_features. apply on_copy_intro. intros l d0.
  eapply hoare_bind; [apply hoare_get|intros ts].
  eapply (hoare_bind _ _ _ _
            (fun _ d1 => getitem d0 timestamp_col = Ok ts
                         ∧ if is_datetime64_any_dtype ts then d1 = d0
                           else ∃ c, to_datetime ts = Ok c
                                     ∧ d1 = setitem d0 timestamp_col c)).
  { apply hoare_if; intros Hdt.
    - apply negb_true_iff in Hdt. rewrite Hdt.
      eapply hoare_bind; [apply hoare_lift|intros c].
      apply hoare_set'. intros d [[-> Hts] Hc]. eauto.
    - apply negb_false_iff in Hdt. rewrite Hdt.
      apply hoare_ret. by intros d [-> Hts]. }
  intros _.
  eapply hoare_conseq with
    (P := fun d1 => ∃ d1', d1 = d1'
                    ∧ getitem d0 timestamp_col = Ok ts
                    ∧ if is_datetime64_any_dtype ts then d1' = d0
                      else ∃ c, to_datetime ts = Ok c
                                ∧ d1' = setitem d0 timestamp_col c);
    [intros d Hd; exists d; split; [done|exact Hd] | intros a d Hq; exact Hq |].
  repeat hoare_step.
  apply hoare_ret. intros d HP. split_all. subst. split; [done|].
  match goal with H : getitem d0 timestamp_col = Ok _ |- _ => rename H into Hts end.
  match goal with H : if _ then _ else _ |- _ => rename H into Hd1 end.
  eexists _, ts. split_and!; [exact Hts|exact Hd1| |].
  - repeat (apply keeps_setitem; [unfold temporal_labels; elem_of_labels|]).
    apply keeps_refl.
  - simpl_getitem_hyps. inv_Ok.
    unfold cyclically_encoded.
    split_and!; eapply encodes_intro; try done;
      repeat (first [ rewrite getitem_setitem_eq; reflexivity
                    | rewrite getitem_setitem_ne by done ]);
      eassumption.
Qed.

End Temporal.

(** ** groupby: split, apply, combine *)

Section GroupBy.
Import Pandas Spec.

Lemma length_scatter idxs out acc : length (scatter idxs out acc) = length acc.
Proof.
  revert out acc. induction idxs as [|i idxs IH]; intros [|v out] acc; simpl; try done.
  by rewrite IH, length_insert.
Qed.

Lemma scatter_lookup_notin idxs out acc i :
  i ∉ idxs → scatter idxs out acc !! i = acc !! i.
Proof.
  revert out acc. induction idxs as [|j idxs IH]; intros [|v out] acc Hn; simpl; try done.
  apply not_elem_of_cons in Hn as [Hne Hn].
  rewrite IH by done. by rewrite list_lookup_insert_ne.
Qed.

Lemma scatter_lookup_in idxs out acc p i :
  NoDup idxs → idxs !! p = Some i → (i < length acc)%nat → (p < length out)%nat →
  scatter idxs out acc !! i = out !! p.
Proof.
  revert out acc p. induction idxs as [|j idxs IH]; intros [|v out] acc p Hnd Hp Hi Ho;
    simpl in *; try done; try lia.
  apply NoDup_cons in Hnd as [Hj Hnd].
  destruct p as [|p]; simpl in *.
  - injection Hp as ->. rewrite scatter_lookup_notin by done.
    by rewrite list_lookup_insert_eq.
  - apply IH; [done|done| |lia]. by rewrite length_insert.
Qed.

Lemma elem_of_group_indices keys g i :
  i ∈ group_indices keys g ↔ lot_of keys i = Some g.
Proof.
  unfold group_indices, lot_of. rewrite list_elem_of_filter, elem_of_seq.
  split; [by intros [? _]|]. intros Hg. split; [done|].
  destruct (keys !! i) eqn:Hk; [|done].
  apply lookup_lt_Some in Hk. lia.
Qed.

Lemma NoDup_group_indices keys g : NoDup (group_indices keys g).
Proof. apply NoDup_filter, NoDup_seq. Qed.

Lemma group_indices_lt keys g i : i ∈ group_indices keys g → (i < length keys)%nat.
Proof.
  unfold group_indices. rewrite list_elem_of_filter, elem_of_seq. lia.
Qed.

(** The rows of a lot: those before row [i], row [i], those after. *)
Lemma group_indices_split keys g i :
  lot_of keys i = Some g →
  group_indices keys g = earlier_rows keys g i ++ i :: later_rows keys g i.
Proof.
  intros Hg. unfold group_indices, earlier_rows, later_rows.
  assert (i < length keys)%nat as Hi.
  { unfold lot_of in Hg. destruct (keys !! i) eqn:Hk; [|done].
    by apply lookup_lt_Some in Hk. }
  replace (length keys) with (i + S (length keys - S i))%nat at 1 by lia.
  rewrite seq_app, filter_app. simpl. f_equal.
  rewrite filter_cons. unfold lot_of in Hg. rewrite decide_True by done.
  done.
Qed.

Lemma group_indices_lookup_rank keys g i :
  lot_of keys i = Some g →
  group_indices keys g !! length (earlier_rows keys g i) = Some i.
Proof.
  intros Hg. rewrite (group_indices_split _ _ _ Hg).
  by apply list_lookup_middle.
Qed.

Lemma length_gather {A} idxs (c : list A) :
  (∀ j, j ∈ idxs → (j < length c)%nat) → length (gather idxs c) = length idxs.
Proof.
  unfold gather. induction idxs as [|j idxs IH]; intros Hlt; simpl; [done|].
  destruct (lookup_lt_is_Some_2 c j) as [x ->]; [apply Hlt; left|].
  simpl. f_equal. apply IH. intros. apply Hlt. by right.
Qed.

Lemma gather_lookup {A} idxs (c : list A) p :
  (∀ j, j ∈ idxs → (j < length c)%nat) →
  gather idxs c !! p = idxs !! p ≫= (c !!.).
Proof.
  unfold gather. revert p. induction idxs as [|j idxs IH]; intros p Hlt; simpl; [done|].
  destruct (lookup_lt_is_Some_2 c j) as [x Hx]; [apply Hlt; left|].
  rewrite Hx. destruct p as [|p]; simpl; [done|].
  apply IH. intros. apply Hlt. by right.
Qed.

Lemma gather_app {A} idxs1 idxs2 (c : list A) :
  gather (idxs1 ++ idxs2) c = gather idxs1 c ++ gather idxs2 c.
Proof. unfold gather. apply omap_app. Qed.

Lemma transform_groups_length f keys vals gs acc res :
  transform_groups f keys vals gs acc = Ok res → length res = length acc.
Proof.
  revert acc. induction gs as [|g gs IH]; intros acc Hr; simpl in Hr; inv_Ok; [done|].
  rewrite (IH _ Hr). apply length_scatter.
Qed.

Lemma transform_groups_lookup f keys vals gs acc res i g :
  transform_groups f keys vals gs acc = Ok res →
  length acc = length keys → length vals = length keys →
  (∀ a out, f a = Ok out → length out = length a) →
  NoDup gs → lot_of keys i = Some g →
  if decide (g ∈ gs) then
    ∃ out, f (gather (group_indices keys g) vals) = Ok out
           ∧ res !! i = out !! length (earlier_rows keys g i)
  else res !! i = acc !! i.
Proof.
  intros Hr Hacc Hvals Hf Hnd Hg. revert acc Hr Hacc Hnd.
  induction gs as [|g0 gs IH]; intros acc Hr Hacc Hnd; simpl in Hr; inv_Ok.
  { rewrite decide_False; [done|apply not_elem_of_nil]. }
  rename x into out. apply NoDup_cons in Hnd as [Hg0 Hnd].
  assert (length (gather (group_indices keys g0) vals)
          = length (group_indices keys g0)) as Hlen.
  { apply length_gather. intros j Hj%group_indices_lt. lia. }
  specialize (IH _ Hr).
  rewrite length_scatter in IH. specialize (IH Hacc Hnd).
  destruct (decide (g = g0)) as [->|Hne].
  - rewrite decide_True by left.
    rewrite decide_False in IH by done.
    exists out. split; [done|]. rewrite IH.
    apply scatter_lookup_in.
    + apply NoDup_group_indices.
    + by apply group_indices_lookup_rank.
    + rewrite Hacc. by apply (group_indices_lt keys g0), elem_of_group_indices.
    + rewrite (Hf _ _ H), Hlen.
      apply lookup_lt_is_Some. rewrite group_indices_lookup_rank; eauto.
  - destruct (decide (g ∈ gs)) as [Hin|Hnin].
    + rewrite decide_True by (by right). done.
    + rewrite decide_False by (rewrite not_elem_of_cons; done).
      rewrite IH. apply scatter_lookup_notin.
      rewrite elem_of_group_indices. congruence.
Qed.

Lemma elem_of_group_keys keys g :
  g ∈ group_keys keys ↔ g ≠ CNaN ∧ ∃ i, lot_of keys i = Some g.
Proof.
  unfold group_keys, lot_of.
  rewrite elem_of_remove_dups, list_elem_of_filter, list_elem_of_fmap.
  split.
  - intros (Hne & k & -> & [i Hi]%list_elem_of_lookup). split; [done|].
    exists i. by rewrite Hi.
  - intros (Hne & i & Hi). split; [done|].
    destruct (keys !! i) as [k|] eqn:Hk; [|done]. injection Hi as <-.
    exists k. split; [done|]. by eapply list_elem_of_lookup_2.
Qed.

Lemma groupby_transform_length keys vals f res :
  groupby_transform keys vals f = Ok res → length res = length keys.
Proof.
  unfold groupby_transform. intros Hr%transform_groups_length.
  by rewrite Hr, length_replicate.
Qed.

(** The cell of a row that has a lot is the cell that [f] computed for
    the row's place in the series of its lot. *)
Lemma groupby_transform_lookup keys vals f res i g :
  groupby_transform keys vals f = Ok res →
  length vals = length keys →
  (∀ a out, f a = Ok out → length out = length a) →
  lot_of keys i = Some g → g ≠ CNaN →
  ∃ out, f (gather (group_indices keys g) vals) = Ok out
         ∧ res !! i = out !! length (earlier_rows keys g i).
Proof.
  intros Hr Hvals Hf Hg Hne. unfold groupby_transform in Hr.
  pose proof (transform_groups_lookup _ _ _ _ _ _ i g Hr) as Hl.
  rewrite length_replicate in Hl.
  specialize (Hl eq_refl Hvals Hf (NoDup_remove_dups _) Hg).
  rewrite decide_True in Hl; [done|].
  apply elem_of_group_keys. eauto.
Qed.

(** A row without a lot gets a missing cell. *)
Lemma groupby_transform_lookup_null keys vals f res i :
  groupby_transform keys vals f = Ok res →
  length vals = length keys →
  (∀ a out, f a = Ok out → length out = length a) →
  lot_of keys i = Some CNaN → res !! i = Some CNaN.
Proof.
  intros Hr Hvals Hf Hg. unfold groupby_transform in Hr.
  pose proof (transform_groups_lookup _ _ _ _ _ _ i CNaN Hr) as Hl.
  rewrite length_replicate in Hl.
  specialize (Hl eq_refl Hvals Hf (NoDup_remove_dups _) Hg).
  rewrite decide_False in Hl.
  - rewrite Hl. apply lookup_replicate_2.
    unfold lot_of in Hg. destruct (keys !! i) eqn:Hk; [|done].
    by apply lookup_lt_Some in Hk.
  - rewrite elem_of_group_keys. by intros [? _].
Qed.

End GroupBy.

(** ** Lag features *)

Section Lag.
Import Pandas Features Spec.

Lemma length_shift n a : length (shift n a) = length a.
Proof.
  unfold shift. destruct (0 <=? n).
  - rewrite length_take, length_app, length_replicate. lia.
  - rewrite length_app, length_drop, length_replicate. lia.
Qed.

Lemma shift_0 a : shift 0 a = a.
Proof. unfold shift. simpl. apply firstn_all. Qed.

Lemma shift_pos_lookup q a p :
  (p < length a)%nat →
  shift (Zpos q) a !! p
  = if decide (p < Pos.to_nat q)%nat then Some CNaN else a !! (p - Pos.to_nat q)%nat.
Proof.
  intros Hp. unfold shift. simpl. rewrite lookup_take_lt by done.
  destruct (decide _) as [Hlt|Hge].
  - rewrite lookup_app_l by (rewrite length_replicate; lia).
    by apply lookup_replicate_2.
  - rewrite lookup_app_r by (rewrite length_replicate; lia).
    by rewrite length_replicate.
Qed.

Lemma shift_neg_lookup q a p :
  (p < length a)%nat →
  shift (Zneg q) a !! p
  = if decide (p + Pos.to_nat q < length a)%nat then a !! (p + Pos.to_nat q)%nat
    else Some CNaN.
Proof.
  intros Hp. unfold shift. simpl.
  destruct (decide _) as [Hlt|Hge].
  - rewrite lookup_app_l by (rewrite length_drop; lia).
    rewrite lookup_drop. f_equal. lia.
  - rewrite lookup_app_r by (rewrite length_drop; lia).
    apply lookup_replicate_2. rewrite length_drop. lia.
Qed.

Lemma lot_of_lt keys i g : lot_of keys i = Some g → (i < length keys)%nat.
Proof.
  unfold lot_of. destruct (keys !! i) eqn:Hk; [|done].
  intros _. by apply lookup_lt_Some in Hk.
Qed.

Lemma earlier_rows_lt keys g i j : j ∈ earlier_rows keys g i → (j < i)%nat.
Proof. unfold earlier_rows. rewrite list_elem_of_filter, elem_of_seq. lia. Qed.

Lemma later_rows_lt keys g i j :
  j ∈ later_rows keys g i → (i < j < length keys)%nat.
Proof. unfold later_rows. rewrite list_elem_of_filter, elem_of_seq. lia. Qed.

(** The grouped shift, row by row: the lag feature of the glossary. *)
Lemma groupby_shift_lookup keys vals n res i g :
  groupby_shift keys vals n = Ok res →
  length vals = length keys →
  lot_of keys i = Some g → g ≠ CNaN →
  res !! i = lag_value keys vals g i n.
Proof.
  intros Hr Hvals Hg Hne. unfold groupby_shift in Hr.
  destruct (groupby_transform_lookup _ _ _ _ i g Hr Hvals) as (out & Hout & ->);
    [|done|done|].
  { intros a out [= <-]. apply length_shift. }
  injection Hout as <-.
  pose proof (lot_of_lt _ _ _ Hg) as Hi.
  assert (∀ j, j ∈ group_indices keys g → (j < length vals)%nat) as Hlt.
  { intros j Hj%group_indices_lt. lia. }
  pose proof (length_gather _ vals Hlt) as Hlen.
  pose proof (fun p => gather_lookup _ vals p Hlt) as Hlk.
  rewrite (group_indices_split _ _ _ Hg) in *.
  set (E := earlier_rows keys g i) in *. set (L := later_rows keys g i) in *.
  rewrite length_app in Hlen. simpl in Hlen.
  unfold lag_value, lagged_row. fold E L.
  destruct n as [|q|q].
  - rewrite shift_0, Hlk. by rewrite list_lookup_middle.
  - rewrite shift_pos_lookup by lia.
    destruct (decide _) as [Hlt'|Hge].
    + rewrite (proj2 (lookup_ge_None _ _)); [done|].
      rewrite length_reverse. lia.
    + rewrite reverse_lookup by lia. rewrite Hlk.
      rewrite lookup_app_l by lia.
      replace (length E - S (Pos.to_nat q - 1))%nat
        with (length E - Pos.to_nat q)%nat by lia.
      destruct (lookup_lt_is_Some_2 E (length E - Pos.to_nat q)%nat) as [j Hj]; [lia|].
      by rewrite Hj.
  - rewrite shift_neg_lookup by lia.
    destruct (decide _) as [Hlt'|Hge].
    + rewrite Hlk. rewrite lookup_app_r by lia.
      replace (length E + Pos.to_nat q - length E)%nat
        with (S (Pos.to_nat q - 1)) by lia.
      simpl.
      destruct (lookup_lt_is_Some_2 L (Pos.to_nat q - 1)%nat) as [j Hj]; [lia|].
      by rewrite Hj.
    + rewrite (proj2 (lookup_ge_None _ _)); [done|]. lia.
Qed.

(** The row a lag feature is read from is a row of the same lot. *)
Lemma lagged_row_same_lot keys g i n j :
  lot_of keys i = Some g → lagged_row keys g i n = Some j → lot_of keys j = Some g.
Proof.
  intros Hg. unfold lagged_row. destruct n as [|q|q].
  - by intros [= <-].
  - intros Hj%list_elem_of_lookup_2. rewrite elem_of_reverse in Hj.
    unfold earlier_rows in Hj. by apply list_elem_of_filter in Hj as [? _].
  - intros Hj%list_elem_of_lookup_2.
    unfold later_rows in Hj. by apply list_elem_of_filter in Hj as [? _].
Qed.

(** For a lag [n >= 0] the feature is missing for want of a row exactly
    when fewer than [n] rows of the lot come before. *)
Lemma lagged_row_None keys g i n :
  0 <= n → (lagged_row keys g i n = None ↔ (length (earlier_rows keys g i) < Z.to_nat n)%nat).
Proof.
  intros Hn. unfold lagged_row. destruct n as [|q|q]; [|..|lia].
  - split; [done|]. simpl. lia.
  - rewrite lookup_ge_None, length_reverse. lia.
Qed.

End Lag.

Section LagFunction.
Import Pandas Features Spec.

Lemma append_nil_r (s : string) : s +:+ "" = s.
Proof.
  induction s as [|a s IH]; [done|].
  change (String a s +:+ "") with (String a (s +:+ "")). by rewrite IH.
Qed.

Lemma append_ne_self (s t : string) : t ≠ "" → s +:+ t ≠ s.
Proof.
  intros Ht Heq. rewrite <- (append_nil_r s) in Heq at 2.
  by apply String.app_inj in Heq.
Qed.

Lemma lag_label_inj target_col : Inj eq eq (lag_label target_col).
Proof.
  intros n m Heq. unfold lag_label in Heq.
  apply String.app_inj, String.app_inj in Heq. by apply pretty_Z_inj in Heq.
Qed.

Lemma lag_label_ne_target target_col n : lag_label target_col n ≠ target_col.
Proof. unfold lag_label. by apply append_ne_self. Qed.

Lemma truthy_Some g : g ≠ "" → truthy (Some g) = Some g.
Proof. by destruct g. Qed.

Lemma keeps_getitem W d d' lab : keeps W d d' → lab ∉ W → getitem d' lab = getitem d lab.
Proof. intros [_ Hg]. apply Hg. Qed.

Lemma add_lag_features_spec target_col group_col lags :
  group_col ≠ "" →
  (∀ n, n ∈ lags → lag_label target_col n ≠ group_col) →
  on_copy (fun df => add_lag_features df target_col lags (Some group_col))
          (lag_result target_col group_col lags).
Proof.
  intros Hg Hlab. unfold add_lag_features. rewrite truthy_Some by done.
  apply on_copy_intro. intros l d0.
  eapply hoare_bind; [|intros ?; apply hoare_ret; intros d Hd; split; [done|exact Hd]].
  eapply hoare_conseq;
    [| |apply (hoare_for_each l lags _ (fun done => lag_result target_col group_col done d0))].
  { intros d ->. split; [apply keeps_refl|]. by intros n ?%elem_of_nil. }
  { done. }
  intros done n Hpre.
  assert (n ∈ lags) as Hn.
  { destruct Hpre as [rest ->]. rewrite !elem_of_app, list_elem_of_singleton. auto. }
  assert (∀ m, m ∈ done → m ∈ lags) as Hdone.
  { intros m Hm. destruct Hpre as [rest ->]. rewrite !elem_of_app. auto. }
  eapply hoare_bind; [apply hoare_get|intros keys].
  eapply hoare_bind; [apply hoare_get|intros vals].
  eapply hoare_bind; [apply hoare_lift|intros c].
  apply hoare_set'. intros d [[[[Hkeep Hcols] Hkeys] Hvals] Hc].
  assert (group_col ∉ lag_label target_col <$> done) as Hgn.
  { intros (m & Hm & Hin)%list_elem_of_fmap. exact (Hlab m (Hdone m Hin) (eq_sym Hm)). }
  assert (target_col ∉ lag_label target_col <$> done) as Htn.
  { intros (m & Hm & Hin)%list_elem_of_fmap.
    exact (lag_label_ne_target target_col m (eq_sym Hm)). }
  rewrite (keeps_getitem _ _ _ _ Hkeep Hgn) in Hkeys.
  rewrite (keeps_getitem _ _ _ _ Hkeep Htn) in Hvals.
  split.
  - rewrite fmap_app. simpl. apply keeps_setitem.
    + rewrite elem_of_app, list_elem_of_singleton. auto.
    + eapply keeps_weaken; [|exact Hkeep]. intros x Hx. apply elem_of_app. auto.
  - intros m [Hm| ->%list_elem_of_singleton]%elem_of_app.
    + destruct (decide (m = n)) as [->|Hne].
      * exists keys, vals, c. by rewrite getitem_setitem_eq.
      * destruct (Hcols m Hm) as (keys' & vals' & c' & ? & ? & ? & ?).
        exists keys', vals', c'. split_and!; try done.
        rewrite getitem_setitem_ne; [done|].
        intros Heq%lag_label_inj. congruence.
    + exists keys, vals, c. by rewrite getitem_setitem_eq.
Qed.

(** In a well-formed frame every column has [nrows] cells. *)
Lemma wf_frame_length d lab c :
  wf_frame d → getitem d lab = Ok c → length c = nrows d.
Proof.
  intros Hwf Hg%getitem_Ok_elem.
  unfold wf_frame in Hwf. rewrite Forall_forall in Hwf.
  by apply (Hwf (lab, c)).
Qed.

End LagFunction.

(** ** Rolling features *)

Section RollingWindows.
Import Pandas Features Spec.
Context `{PyLib}.

Lemma observation_finite c o : observation c = Ok o → o = finite c.
Proof. destruct c; simpl; intros; by inv_Ok. Qed.

Lemma mapR_observation a xs : mapR observation a = Ok xs → xs = finite <$> a.
Proof.
  revert xs. induction a as [|c a IH]; intros xs Hm; simpl in Hm; inv_Ok; [done|].
  simpl. f_equal; [by apply observation_finite|by apply IH].
Qed.

Lemma omap_id_fmap {A B} (f : A → option B) (l : list A) :
  omap id (f <$> l) = omap f l.
Proof.
  induction l as [|x l IH]; [done|].
  rewrite fmap_cons. cbn. rewrite <- IH. by destruct (f x).
Qed.

Lemma slice_fmap {A B} (f : A → B) lo hi (l : list A) :
  slice lo hi (f <$> l) = f <$> slice lo hi l.
Proof. unfold slice. by rewrite fmap_take, fmap_drop. Qed.

Lemma rolling_Ok window agg a out :
  rolling window agg a = Ok out →
  1 <= window ∧ length out = length a
  ∧ ∀ p, (p < length a)%nat →
      out !! p = Some (agg (omap finite (slice (p + 1 - Z.to_nat window) (p + 1) a))).
Proof.
  unfold rolling. destruct (window <? 1) eqn:Hw; [done|].
  intros Hr. inv_Ok. rename x into xs.
  pose proof (mapR_Ok_length _ _ _ H0) as Hlen.
  apply mapR_observation in H0 as ->.
  split_and!.
  - lia.
  - by rewrite length_map, length_seq.
  - intros p Hp. rewrite list_lookup_fmap, lookup_seq_lt by lia. simpl.
    by rewrite slice_fmap, omap_id_fmap.
Qed.

Lemma slice_last_n {A} (E L : list A) x n :
  slice (length E + 1 - n) (length E + 1) (E ++ x :: L) = last_n n (E ++ [x]).
Proof.
  unfold slice, last_n. rewrite take_drop_commute.
  replace (length E + 1 - n + (length E + 1 - (length E + 1 - n)))%nat
    with (length (E ++ [x])) by (rewrite length_app; simpl; lia).
  rewrite (assoc_L _ E [x] L : E ++ x :: L = (E ++ [x]) ++ L).
  rewrite take_app_length. f_equal. rewrite length_app. simpl. lia.
Qed.

Lemma gather_fmap {A} idxs (c : list A) (x0 : A) :
  (∀ j, j ∈ idxs → (j < length c)%nat) →
  gather idxs c = (fun j => default x0 (c !! j)) <$> idxs.
Proof.
  unfold gather. induction idxs as [|j idxs IH]; intros Hlt; simpl; [done|].
  destruct (lookup_lt_is_Some_2 c j) as [x ->]; [apply Hlt; left|].
  simpl. f_equal. apply IH. intros. apply Hlt. by right.
Qed.

Lemma omap_finite_default (vals : list cell) (rows : list nat) :
  (∀ j, j ∈ rows → (j < length vals)%nat) →
  omap finite ((fun j => default CNaN (vals !! j)) <$> rows)
  = omap (fun j => vals !! j ≫= finite) rows.
Proof.
  induction rows as [|j rows IH]; intros Hlt; [done|].
  rewrite fmap_cons. cbn.
  destruct (lookup_lt_is_Some_2 vals j) as [x ->]; [apply Hlt; left|].
  cbn. rewrite <- IH; [done|]. intros. apply Hlt. by right.
Qed.

Lemma elem_of_slice {A} lo hi (l : list A) x : x ∈ slice lo hi l → x ∈ l.
Proof.
  unfold slice. intros (i & Hi & _)%elem_of_take.
  rewrite lookup_drop in Hi. by eapply list_elem_of_lookup_2.
Qed.

(** The grouped rolling statistic, row by row: the statistic of the
    last observations of the row's lot. *)
Lemma groupby_rolling_lookup keys vals window agg res i g :
  groupby_transform keys vals (rolling window agg) = Ok res →
  length vals = length keys →
  lot_of keys i = Some g → g ≠ CNaN →
  1 <= window
  ∧ res !! i = Some (agg (window_values keys vals g i (Z.to_nat window))).
Proof.
  intros Hr Hvals Hg Hne.
  destruct (groupby_transform_lookup _ _ _ _ i g Hr Hvals) as (out & Hout & ->);
    [|done|done|].
  { intros a out Ha. by apply rolling_Ok in Ha as (_ & ? & _). }
  apply rolling_Ok in Hout as (Hw & Hlen & Hlk). split; [done|].
  assert (∀ j, j ∈ group_indices keys g → (j < length vals)%nat) as Hlt.
  { intros j Hj%group_indices_lt. lia. }
  rewrite (length_gather _ vals Hlt) in Hlk.
  rewrite Hlk by (apply lookup_lt_is_Some; rewrite group_indices_lookup_rank; eauto).
  do 2 f_equal.
  rewrite (gather_fmap _ _ CNaN Hlt), slice_fmap.
  rewrite omap_finite_default by (intros j Hj%elem_of_slice; auto).
  unfold window_values, window_rows. f_equal.
  rewrite (group_indices_split _ _ _ Hg). apply slice_last_n.
Qed.

End RollingWindows.

Section RollingFunction.
Import Pandas Features Spec.
Context `{PyLib}.

Lemma rolling_label_inj target_col s s' w w' :
  rolling_label target_col (stat_name s) w = rolling_label target_col (stat_name s') w' →
  s = s' ∧ w = w'.
Proof.
  unfold rolling_label. intros Heq. apply String.app_inj, String.app_inj in Heq.
  destruct s, s'; cbv [stat_name String.append] in Heq; try discriminate Heq;
    split; try done; injection Heq as Heq; by apply pretty_Z_inj in Heq.
Qed.

Lemma rolling_label_ne_target target_col s w :
  rolling_label target_col s w ≠ target_col.
Proof. unfold rolling_label. by apply append_ne_self. Qed.

Lemma elem_of_window_labels target_col w lab :
  lab ∈ window_labels target_col w ↔ ∃ s, lab = rolling_label target_col (stat_name s) w.
Proof.
  unfold window_labels. cbn. rewrite !elem_of_cons, elem_of_nil. split.
  - intros [->|[->|[->|[->|[]]]]]; [by exists Mean|by exists Std|by exists Max|by exists Min].
  - intros [[] ->]; auto.
Qed.

Lemma rolling_labels_snoc target_col (done : list Z) w :
  ((w' ← done ++ [w]; window_labels target_col w') : list string)
  = (w' ← done; window_labels target_col w') ++ window_labels target_col w.
Proof. rewrite bind_app, bind_cons. by cbn. Qed.

Lemma add_rolling_features_spec target_col group_col windows :
  group_col ≠ "" →
  (∀ w s, w ∈ windows → rolling_label target_col (stat_name s) w ≠ group_col) →
  on_copy (fun df => add_rolling_features df target_col windows (Some group_col))
          (rolling_result target_col group_col windows).
Proof.
  intros Hg Hlab. unfold add_rolling_features. rewrite truthy_Some by done.
  apply on_copy_intro. intros l d0.
  eapply hoare_bind; [|intros ?; apply hoare_ret; intros d Hd; split; [done|exact Hd]].
  eapply hoare_conseq;
    [| |apply (hoare_for_each l windows _
                 (fun done => rolling_result target_col group_col done d0))].
  { intros d ->. split; [apply keeps_refl|]. by intros n ?%elem_of_nil. }
  { done. }
  intros done w Hpre.
  assert (w ∈ windows) as Hw.
  { destruct Hpre as [rest ->]. rewrite !elem_of_app, list_elem_of_singleton. auto. }
  assert (∀ m, m ∈ done → m ∈ windows) as Hdone.
  { intros m Hm. destruct Hpre as [rest ->]. rewrite !elem_of_app. auto. }
  eapply hoare_bind; [apply hoare_get|intros keys].
  eapply hoare_bind; [apply hoare_get|intros vals].
  eapply hoare_bind; [apply hoare_lift|intros c1].
  eapply hoare_bind; [apply hoare_set|intros ?].
  eapply hoare_bind; [apply hoare_lift|intros c2].
  eapply hoare_bind; [apply hoare_set|intros ?].
  eapply hoare_bind; [apply hoare_lift|intros c3].
  eapply hoare_bind; [apply hoare_set|intros ?].
  eapply hoare_bind; [apply hoare_lift|intros c4].
  apply hoare_set'. intros d HP.
  destruct HP as [(d3 & [(d2 & [(d1 & [[[[Hkeep Hcols] Hkeys] Hvals] Hc1] & ->) Hc2] & ->)
                            Hc3] & ->) Hc4].
  assert (group_col ∉ (w' ← done; window_labels target_col w')) as Hgn.
  { intros (m & (s & Hs)%elem_of_window_labels & Hin)%list_elem_of_bind.
    exact (Hlab m s (Hdone m Hin) (eq_sym Hs)). }
  assert (target_col ∉ (w' ← done; window_labels target_col w')) as Htn.
  { intros (m & (s & Hs)%elem_of_window_labels & Hin)%list_elem_of_bind.
    exact (rolling_label_ne_target _ _ _ (eq_sym Hs)). }
  rewrite (keeps_getitem _ _ _ _ Hkeep Hgn) in Hkeys.
  rewrite (keeps_getitem _ _ _ _ Hkeep Htn) in Hvals.
  assert (∀ s, ∃ c,
            getitem (setitem (setitem (setitem (setitem d1
                       (rolling_label target_col "mean" w) c1)
                       (rolling_label target_col "std" w) c2)
                       (rolling_label target_col "max" w) c3)
                       (rolling_label target_col "min" w) c4)
                    (rolling_label target_col (stat_name s) w) = Ok c
            ∧ groupby_transform keys vals (rolling w (stat_agg s)) = Ok c) as Hnew.
  { assert (∀ s s', s ≠ s' → rolling_label target_col (stat_name s) w
                              ≠ rolling_label target_col (stat_name s') w) as Hne.
    { intros s s' Hss Heq. by apply rolling_label_inj in Heq as [? _]. }
    intros [].
    - exists c1. split; [|done].
      rewrite (getitem_setitem_ne _ _ _ _ (Hne Min Mean ltac:(done))).
      rewrite (getitem_setitem_ne _ _ _ _ (Hne Max Mean ltac:(done))).
      rewrite (getitem_setitem_ne _ _ _ _ (Hne Std Mean ltac:(done))).
      apply getitem_setitem_eq.
    - exists c2. split; [|done].
      rewrite (getitem_setitem_ne _ _ _ _ (Hne Min Std ltac:(done))).
      rewrite (getitem_setitem_ne _ _ _ _ (Hne Max Std ltac:(done))).
      apply getitem_setitem_eq.
    - exists c3. split; [|done].
      rewrite (getitem_setitem_ne _ _ _ _ (Hne Min Max ltac:(done))).
      apply getitem_setitem_eq.
    - exists c4. split; [|done]. apply getitem_setitem_eq. }
  split.
  - rewrite rolling_labels_snoc.
    assert (∀ s, rolling_label target_col (stat_name s) w
                 ∈ (w' ← done; window_labels target_col w')
                   ++ window_labels target_col w) as Hin.
    { intros s. apply elem_of_app. right. apply elem_of_window_labels. eauto. }
    apply (keeps_setitem _ _ _ _ _ (Hin Min)).
    apply (keeps_setitem _ _ _ _ _ (Hin Max)).
    apply (keeps_setitem _ _ _ _ _ (Hin Std)).
    apply (keeps_setitem _ _ _ _ _ (Hin Mean)).
    eapply keeps_weaken; [|exact Hkeep]. intros x Hx. apply elem_of_app. auto.
  - intros m [Hm| ->%list_elem_of_singleton]%elem_of_app.
    + destruct (decide (m = w)) as [->|Hne]; [by exists keys, vals|].
      destruct (Hcols m Hm) as (keys' & vals' & Hk' & Hv' & Hs').
      exists keys', vals'. split_and!; try done.
      intros s. destruct (Hs' s) as (c & Hc & Hgt). exists c. split; [|done].
      rewrite !getitem_setitem_ne; [done|..];
        intros Heq; change "mean" with (stat_name Mean) in Heq;
        change "std" with (stat_name Std) in Heq;
        change "max" with (stat_name Max) in Heq;
        change "min" with (stat_name Min) in Heq;
        apply rolling_label_inj in Heq as [_ ?]; congruence.
    + by exists keys, vals.
Qed.

End RollingFunction.

(** ** Merging readings with lots *)

Section Merge.
Import Pandas DataLoader Spec.

Lemma getitem_NoDup df lab c :
  NoDup (columns df) → (lab, c) ∈ df → getitem df lab = Ok c.
Proof.
  induction df as [|[l0 c0] df IH]; simpl; intros Hnd Hin.
  - by apply elem_of_nil in Hin.
  - apply NoDup_cons in Hnd as [Hl0 Hnd].
    apply elem_of_cons in Hin as [[= -> ->]|Hin].
    + by rewrite decide_True.
    + rewrite decide_False; [auto|]. intros ->. apply Hl0.
      apply list_elem_of_fmap. by exists (lab, c).
Qed.

Lemma elem_of_join_pairs lk rk i j :
  (i, j) ∈ join_pairs lk rk ↔ key_match (lk !! i) (rk !! j) = true.
Proof.
  unfold join_pairs. rewrite list_elem_of_In, in_flat_map. split.
  - intros (i' & _ & Hin). apply list_elem_of_In, list_elem_of_fmap in Hin
      as (j' & [= -> ->] & Hj). by apply list_elem_of_filter in Hj as [? _].
  - intros Hm. exists i. split.
    + apply list_elem_of_In, elem_of_seq.
      destruct (lk !! i) eqn:Hi; [|done]. apply lookup_lt_Some in Hi. lia.
    + apply list_elem_of_In, list_elem_of_fmap. exists j. split; [done|].
      apply list_elem_of_filter. split; [done|]. apply elem_of_seq.
      destruct (lk !! i); [|done].
      destruct (rk !! j) eqn:Hj; [|done]. apply lookup_lt_Some in Hj. lia.
Qed.

Lemma suffixed_notin other suffix lab : lab ∉ other → suffixed other suffix lab = lab.
Proof. intros Hn. unfold suffixed. by rewrite bool_decide_eq_false_2. Qed.

(** A column of the left frame whose label the right frame does not
    have is in the merged frame under its label, row by row the cell
    of the left row. *)
Lemma merge_left_column left right left_on right_on suffixes merged lab c :
  merge left right left_on right_on suffixes = Ok merged →
  getitem left lab = Ok c → lab ∉ columns right →
  ∃ lk rk, getitem left left_on = Ok lk ∧ getitem right right_on = Ok rk
           ∧ getitem merged lab = Ok (gather (map fst (join_pairs lk rk)) c).
Proof.
  unfold merge. intros Hm Hc Hn. inv_Ok. rename x into lk, x0 into rk.
  destruct (bool_decide _) eqn:Hnd; [|done]. inv_Ok.
  apply bool_decide_eq_true in Hnd.
  exists lk, rk. split_and!; [done|done|].
  apply getitem_NoDup; [done|].
  apply elem_of_app. left. apply list_elem_of_fmap.
  exists (lab, c). split; [|by apply getitem_Ok_elem].
  simpl. by rewrite suffixed_notin.
Qed.

Lemma merge_right_column left right left_on right_on suffixes merged lab c :
  merge left right left_on right_on suffixes = Ok merged →
  getitem right lab = Ok c → lab ∉ columns left →
  ∃ lk rk, getitem left left_on = Ok lk ∧ getitem right right_on = Ok rk
           ∧ getitem merged lab = Ok (gather (map snd (join_pairs lk rk)) c).
Proof.
  unfold merge. intros Hm Hc Hn. inv_Ok. rename x into lk, x0 into rk.
  destruct (bool_decide _) eqn:Hnd; [|done]. inv_Ok.
  apply bool_decide_eq_true in Hnd.
  exists lk, rk. split_and!; [done|done|].
  apply getitem_NoDup; [done|].
  apply elem_of_app. right. apply list_elem_of_fmap.
  exists (lab, c). split; [|by apply getitem_Ok_elem].
  simpl. by rewrite suffixed_notin.
Qed.

Lemma length_gather_le {A} idxs (c : list A) : (length (gather idxs c) ≤ length idxs)%nat.
Proof.
  unfold gather. induction idxs as [|i idxs IH]; [done|].
  cbn. destruct (c !! i); simpl; lia.
Qed.

Lemma gather_map_lookup {A B} (f : B → nat) (ps : list B) (c : list A) k p x :
  length (gather (map f ps) c) = length ps →
  ps !! k = Some p → c !! f p = Some x → gather (map f ps) c !! k = Some x.
Proof.
  revert k. induction ps as [|p0 ps IH]; intros k Hlen Hk Hx; [done|].
  pose proof (length_gather_le (map f ps) c) as Hle. rewrite length_map in Hle.
  change (gather (map f (p0 :: ps)) c)
    with (match c !! f p0 with
          | Some y => y :: gather (map f ps) c
          | None => gather (map f ps) c
          end) in *.
  destruct (c !! f p0) as [x0|] eqn:Hx0; simpl in Hlen.
  - destruct k as [|k]; simpl in Hk |- *.
    + injection Hk as ->. congruence.
    + apply IH; [lia|done|done].
  - lia.
Qed.

(** The two derived columns, row by row. *)
Lemma derive_occupancy_Ok df df' :
  derive_occupancy df = Ok df' →
  ∃ total free rate,
    getitem df "total" = Ok total ∧ getitem df "free" = Ok free
    ∧ getitem df' "occupancy_rate" = Ok rate
    ∧ length rate = length (zip total free)
    ∧ keeps ["occupied"; "occupancy_rate"] df df'
    ∧ ∀ k t f, total !! k = Some (CNum t) → free !! k = Some (CNum f) →
        ¬ (t == 0)%Q → rate !! k = Some (CNum (occupancy_rate t f)).
Proof.
  unfold derive_occupancy, series_sub, series_div, series_mul_scalar.
  intros Hd. inv_Ok.
  rename x into total, x0 into free, x1 into occupied, x2 into occupied',
    x3 into total', x4 into ratio, x5 into rate.
  rename H into Htotal, H0 into Hfree, H1 into Hsub, H2 into Hocc, H3 into Htot',
    H4 into Hdiv, H5 into Hmul.
  rewrite getitem_setitem_eq in Hocc. injection Hocc as <-.
  rewrite getitem_setitem_ne in Htot' by done.
  assert (total' = total) as -> by congruence.
  exists total, free, rate. split_and!; [done|done|apply getitem_setitem_eq| | |].
  - rewrite (mapR_Ok_length _ _ _ Hmul), (mapR_Ok_length _ _ _ Hdiv), length_zip.
    rewrite (mapR_Ok_length _ _ _ Hsub), length_zip. lia.
  - apply keeps_setitem; [elem_of_labels|]. apply keeps_setitem; [elem_of_labels|].
    apply keeps_refl.
  - intros k t f Ht Hf Hne.
    assert (zip total free !! k = Some (CNum t, CNum f)) as Hz.
    { rewrite lookup_zip_with. by rewrite Ht, Hf. }
    destruct (mapR_Ok_lookup _ _ _ _ _ Hsub Hz) as (o & Ho & Hs).
    simpl in Hs. injection Hs as <-.
    assert (zip occupied total !! k = Some (CNum (t - f), CNum t)) as Hz'.
    { rewrite lookup_zip_with. by rewrite Ho, Ht. }
    destruct (mapR_Ok_lookup _ _ _ _ _ Hdiv Hz') as (r & Hr & Hq).
    simpl in Hq.
    destruct (Qeq_bool t 0) eqn:Ht0; [by apply Qeq_bool_eq in Ht0|].
    injection Hq as <-.
    destruct (mapR_Ok_lookup _ _ _ _ _ Hmul Hr) as (r' & Hr' & Hm).
    simpl in Hm. by injection Hm as <-.
Qed.

End Merge.

(** ** The occupancy rate of merged readings *)

Section Occupancy.
Import Pandas DataLoader Models Server Spec.
Context `{PyLib}.

Lemma imap_fst {A B} (g : nat → A → A * B) (l : list A) :
  (∀ j x, (g j x).1 = x) → map fst (imap g l) = l.
Proof.
  revert g. induction l as [|x l IH]; intros g Hg; [done|].
  simpl. rewrite Hg. f_equal. apply IH. intros. apply Hg.
Qed.

Lemma columns_frame_of_rows cols rows : columns (frame_of_rows cols rows) = cols.
Proof. unfold frame_of_rows, columns. by apply imap_fst. Qed.

Lemma wf_frame_uniform df n :
  Forall (fun lc => length lc.2 = n) df → wf_frame df.
Proof.
  intros Hall. unfold wf_frame. destruct df as [|[l c] df]; [by constructor|].
  simpl. pose proof Hall as [Hc _]%Forall_cons. simpl in Hc. by rewrite Hc.
Qed.

Lemma wf_frame_all df : wf_frame df → Forall (fun lc => length lc.2 = nrows df) df.
Proof. done. Qed.

Lemma wf_frame_of_rows cols rows : wf_frame (frame_of_rows cols rows).
Proof.
  apply (wf_frame_uniform _ (length rows)). unfold frame_of_rows.
  apply Forall_forall. intros [l c] Hin.
  apply list_elem_of_lookup in Hin as [j Hj].
  rewrite list_lookup_imap in Hj.
  destruct (cols !! j); simpl in Hj; [|done]. injection Hj as <- <-.
  simpl. by rewrite length_map.
Qed.

Lemma wf_setitem df lab c :
  wf_frame df → (df ≠ [] → length c = nrows df) → wf_frame (setitem df lab c).
Proof.
  intros Hwf Hc. destruct df as [|[l0 c0] df]; [by repeat constructor|].
  specialize (Hc ltac:(done)).
  apply (wf_frame_uniform _ (length c0)). simpl in *.
  apply Forall_forall. intros [l' c'] Hin.
  unfold wf_frame in Hwf. rewrite Forall_forall in Hwf. simpl in Hwf.
  assert (∀ df', (∀ lc, lc ∈ df' → length lc.2 = length c0) →
            ∀ lc, lc ∈ setitem df' lab c → length lc.2 = length c0) as Hgen.
  { clear -Hc. induction df' as [|[l1 c1] df' IH]; simpl; intros Hall lc Hlc.
    - apply list_elem_of_singleton in Hlc as ->. done.
    - destruct (decide (l1 = lab)).
      + apply elem_of_cons in Hlc as [->|Hlc]; [done|]. apply Hall. by right.
      + apply elem_of_cons in Hlc as [->|Hlc]; [apply Hall; left|].
        apply IH; [|done]. intros. apply Hall. by right. }
  apply (Hgen ((l0, c0) :: df)); [|done]. intros lc Hlc. by apply Hwf.
Qed.

Lemma wf_map_columns f df n :
  wf_frame df → (∀ c, length c = nrows df → length (f c) = n) →
  wf_frame (map_columns f df).
Proof.
  intros Hwf Hf. apply (wf_frame_uniform _ n). unfold map_columns.
  apply Forall_forall. intros lc (lc0 & -> & Hin)%list_elem_of_fmap. simpl.
  apply Hf. unfold wf_frame in Hwf. rewrite Forall_forall in Hwf. by apply Hwf.
Qed.

Lemma length_gather_uniform {A} idxs (c1 c2 : list A) :
  length c1 = length c2 → length (gather idxs c1) = length (gather idxs c2).
Proof.
  intros Hlen. unfold gather. induction idxs as [|i idxs IH]; [done|].
  cbn. destruct (c1 !! i) as [x|] eqn:H1, (c2 !! i) as [y|] eqn:H2; simpl.
  - by rewrite IH.
  - apply lookup_lt_Some in H1. apply lookup_ge_None in H2. lia.
  - apply lookup_lt_Some in H2. apply lookup_ge_None in H1. lia.
  - done.
Qed.

Lemma wf_take_rows idxs df : wf_frame df → wf_frame (take_rows idxs df).
Proof.
  intros Hwf. unfold take_rows.
  apply (wf_map_columns _ _ (length (gather idxs (replicate (nrows df) CNaN)))); [done|].
  intros c Hc. apply length_gather_uniform. by rewrite length_replicate.
Qed.

Lemma columns_read_sql_query q db df :
  read_sql_query q db = Ok df → columns df = t_columns (table_of db (q_from q)).
Proof.
  unfold read_sql_query. intros Hq. inv_Ok. apply columns_frame_of_rows.
Qed.

Lemma columns_load_readings db sd ed ids df :
  load_readings db sd ed ids = Ok df → columns df = t_columns (parking_readings db).
Proof.
  unfold load_readings. intros Hl. inv_Ok.
  rewrite columns_setitem_in by (by eapply getitem_Ok_columns).
  match goal with Hq : read_sql_query _ _ = Ok _ |- _ =>
    apply columns_read_sql_query in Hq; exact Hq end.
Qed.

Lemma columns_take_rows idxs df : columns (take_rows idxs df) = columns df.
Proof. apply columns_map_columns. Qed.

Lemma columns_sort_values df lab df' :
  sort_values df lab = Ok df' → columns df' = columns df.
Proof. unfold sort_values. intros Hs. inv_Ok. apply columns_take_rows. Qed.

Lemma select_getitem df labels X lab :
  select df labels = Ok X → lab ∈ labels →
  ∃ c, getitem df lab = Ok c ∧ getitem X lab = Ok c.
Proof.
  intros Hs Hin. pose proof (getitem_select _ _ _ _ Hs Hin) as Heq.
  destruct (getitem_is_Ok X lab) as [c Hc].
  { by rewrite (columns_select _ _ _ Hs). }
  exists c. by rewrite <- Heq.
Qed.

(** The pattern of every path: merge the readings with a selection of
    the lots' columns on [lot_id = id], then derive the two columns. *)
Lemma merge_derive_occupancy left lots labels right suffixes merged merged' :
  wf_frame left → wf_frame lots →
  "id" ∈ labels → "total" ∈ labels → "free" ∉ labels →
  "free" ∈ columns left → "total" ∉ columns left →
  select lots labels = Ok right →
  merge left right "lot_id" "id" suffixes = Ok merged →
  derive_occupancy merged = Ok merged' →
  merged_with_occupancy left lots merged'.
Proof.
  intros Hwfl Hwfr Hid Htot Hfree Hlfree Hltot Hsel Hmerge Hder.
  destruct (select_getitem _ _ _ _ Hsel Hid) as (id & Hid1 & Hid2).
  destruct (select_getitem _ _ _ _ Hsel Htot) as (total & Ht1 & Ht2).
  destruct (getitem_is_Ok left "free" Hlfree) as [free Hf].
  rewrite <- (columns_select _ _ _ Hsel) in Hfree.
  destruct (merge_left_column _ _ _ _ _ _ _ _ Hmerge Hf Hfree)
    as (lk & rk & Hlk & Hrk & Hmf).
  destruct (merge_right_column _ _ _ _ _ _ _ _ Hmerge Ht2 Hltot)
    as (lk' & rk' & Hlk' & Hrk' & Hmt).
  assert (lk' = lk) as -> by congruence. assert (rk' = rk) as -> by congruence.
  assert (rk = id) as -> by congruence.
  destruct (derive_occupancy_Ok _ _ Hder)
    as (mtotal & mfree & rate & Hmt' & Hmf' & Hrate & Hlen & _ & Hrows).
  assert (mtotal = gather (map snd (join_pairs lk id)) total) as -> by congruence.
  assert (mfree = gather (map fst (join_pairs lk id)) free) as -> by congruence.
  pose proof (wf_frame_length _ _ _ Hwfl Hlk) as Hl1.
  pose proof (wf_frame_length _ _ _ Hwfl Hf) as Hl2.
  pose proof (wf_frame_length _ _ _ Hwfr Hid1) as Hl3.
  pose proof (wf_frame_length _ _ _ Hwfr Ht1) as Hl4.
  (* every joined row refers to a row of either side *)
  assert (∀ i j, (i, j) ∈ join_pairs lk id →
            (i < length lk)%nat ∧ (j < length id)%nat) as Hrange.
  { intros i j Hin%elem_of_join_pairs.
    destruct (lk !! i) eqn:Hi; [|done]. destruct (id !! j) eqn:Hj; [|done].
    apply lookup_lt_Some in Hi, Hj. done. }
  assert (length (gather (map snd (join_pairs lk id)) total)
          = length (join_pairs lk id)) as Hgt.
  { rewrite length_gather, length_map; [done|].
    intros j ([i j'] & -> & Hin)%list_elem_of_fmap. simpl.
    destruct (Hrange _ _ Hin). lia. }
  assert (length (gather (map fst (join_pairs lk id)) free)
          = length (join_pairs lk id)) as Hgf.
  { rewrite length_gather, length_map; [done|].
    intros i ([i' j] & -> & Hin)%list_elem_of_fmap. simpl.
    destruct (Hrange _ _ Hin). lia. }
  exists lk, id, free, total, rate. split_and!; try done.
  - rewrite Hlen, length_zip, Hgt, Hgf. lia.
  - intros k i j Hk. split.
    { apply elem_of_join_pairs. by eapply list_elem_of_lookup_2. }
    intros t f Ht Hfr Hne. apply Hrows; [| |done].
    + by apply (gather_map_lookup snd _ _ _ (i, j)).
    + by apply (gather_map_lookup fst _ _ _ (i, j)).
Qed.

Lemma wf_read_sql_query q db df : read_sql_query q db = Ok df → wf_frame df.
Proof. unfold read_sql_query. intros Hq. inv_Ok. apply wf_frame_of_rows. Qed.

Lemma wf_load_parking_lots db df : load_parking_lots db = Ok df → wf_frame df.
Proof. apply wf_read_sql_query. Qed.

Lemma wf_load_readings db sd ed ids df :
  load_readings db sd ed ids = Ok df → wf_frame df.
Proof.
  unfold load_readings, to_datetime. intros Hl. inv_Ok.
  match goal with Hq : read_sql_query _ _ = Ok _ |- _ =>
    apply wf_read_sql_query in Hq; rename Hq into Hwf end.
  apply wf_setitem; [done|]. intros _.
  erewrite mapR_Ok_length by eassumption. by eapply wf_frame_length.
Qed.

Lemma wf_sort_values df lab df' : wf_frame df → sort_values df lab = Ok df' → wf_frame df'.
Proof. unfold sort_values. intros Hwf Hs. inv_Ok. by apply wf_take_rows. Qed.

(** [load_combined_data]: every merged reading carries the rate of
    its lot. *)
Lemma load_combined_data_occupancy db merged :
  "free" ∈ t_columns (parking_readings db) →
  "total" ∉ t_columns (parking_readings db) →
  load_combined_data db = Ok merged →
  ∃ readings lots,
    load_readings db None None None = Ok readings
    ∧ load_parking_lots db = Ok lots
    ∧ merged_with_occupancy readings lots merged.
Proof.
  intros Hfree Htot. unfold load_combined_data. intros Hl. inv_Ok.
  rename x into lots, x0 into readings.
  exists readings, lots. split_and!; [done|done|].
  eapply (merge_derive_occupancy readings lots lot_columns); try eassumption.
  - by eapply wf_load_readings.
  - by eapply wf_load_parking_lots.
  - unfold lot_columns. elem_of_labels.
  - unfold lot_columns. elem_of_labels.
  - unfold lot_columns. not_elem_of_labels.
  - by erewrite columns_load_readings.
  - by erewrite columns_load_readings.
Qed.

(** [GET /forecast/{lot_id}]: the same for the readings of the lot. *)
Lemma lot_history_occupancy db lot_id lot_name merged :
  "free" ∈ t_columns (parking_readings db) →
  "total" ∉ t_columns (parking_readings db) →
  lot_history db lot_id = Ok (lot_name, merged) →
  ∃ readings lots,
    load_readings db None None (Some [CStr lot_id]) = Ok readings
    ∧ load_parking_lots db = Ok lots
    ∧ merged_with_occupancy readings lots merged.
Proof.
  intros Hfree Htot. unfold lot_history. intros Hl.
  repeat (inv_Ok; try match goal with
    | Hi : (if ?b then _ else _) = Ok _ |- _ => destruct b; [discriminate Hi|]
    end).
  rename x into readings, x0 into lots.
  exists readings, lots. split_and!; [done|done|].
  eapply (merge_derive_occupancy readings lots lot_columns); try eassumption.
  - by eapply wf_load_readings.
  - by eapply wf_load_parking_lots.
  - unfold lot_columns. elem_of_labels.
  - unfold lot_columns. elem_of_labels.
  - unfold lot_columns. not_elem_of_labels.
  - by erewrite columns_load_readings.
  - by erewrite columns_load_readings.
Qed.

(** [GET /current]: the same for the latest reading of every lot. *)
Lemma current_frame_occupancy db lot_id merged :
  "free" ∈ t_columns (parking_readings db) →
  "total" ∉ t_columns (parking_readings db) →
  current_frame db lot_id = Ok (Some merged) →
  ∃ latest lots,
    latest_readings db lot_id = Ok (Some latest)
    ∧ load_parking_lots db = Ok lots
    ∧ merged_with_occupancy latest lots merged.
Proof.
  intros Hfree Htot. unfold current_frame. intros Hl. inv_Ok.
  destruct x as [latest|]; [|done]. inv_Ok. rename x into lots.
  injection Hl as ->.
  exists latest, lots. split_and!; [done|done|].
  assert (wf_frame latest ∧ columns latest = t_columns (parking_readings db))
    as [Hwf Hcols].
  { unfold latest_readings in H0. inv_Ok. rename x into readings.
    destruct (empty readings); [done|]. inv_Ok.
    assert (wf_frame readings ∧ columns readings = t_columns (parking_readings db))
      as [Hwf Hcols].
    { destruct (Features.truthy lot_id);
        (split; [by eapply wf_load_readings|by eapply columns_load_readings]). }
    split.
    - apply wf_take_rows. by eapply wf_sort_values.
    - rewrite columns_take_rows. by erewrite columns_sort_values. }
  eapply (merge_derive_occupancy latest lots ["id"; "name"; "total"]); try eassumption.
  - by eapply wf_load_parking_lots.
  - elem_of_labels.
  - elem_of_labels.
  - not_elem_of_labels.
  - by rewrite Hcols.
  - by rewrite Hcols.
Qed.

End Occupancy.

Section CurrentStatus.
Import Pandas DataLoader Models Server Spec.
Context `{PyLib}.

Lemma py_int_Ok c z : py_int c = Ok z → ∃ x, c = CNum x ∧ z = truncate x.
Proof. destruct c; simpl; intros; inv_Ok. by eexists. Qed.

Lemma at_row_Ok df i lab v :
  at_row df i lab = Ok v → ∃ c, getitem df lab = Ok c ∧ c !! i = Some v.
Proof. unfold at_row. intros Ha. inv_Ok. eauto. Qed.

(** Every status that [GET /current] returns carries the rate computed
    from the capacity and the free spaces of its own row. *)
Lemma get_current_status_Ok w st lot_id statuses cs :
  get_current_status w st lot_id = Ok statuses → cs ∈ statuses →
  ∃ total free,
    cs_total cs = truncate total ∧ cs_free cs = truncate free
    ∧ (¬ (total == 0)%Q → cs_occupancy_rate cs = CNum (occupancy_rate total free)).
Proof.
  unfold get_current_status. destruct (data_loader st) as [loader|]; [|done].
  intros Hs Hcs.
  match type of Hs with except_500 _ ?r = _ => destruct r as [ss|e] eqn:Hr end;
    [|done].
  simpl in Hs. injection Hs as ->. inv_Ok. rename x into db, x0 into merged.
  destruct merged as [merged|]; [|inv_Ok; by apply elem_of_nil in Hcs].
  destruct (mapR_Ok_elem _ _ _ _ Hr Hcs) as (i & _ & Hrow).
  unfold current_frame in H1. inv_Ok.
  destruct x as [latest|]; [|done]. inv_Ok. injection H1 as ->.
  match goal with Hd : derive_occupancy _ = Ok _ |- _ =>
    destruct (derive_occupancy_Ok _ _ Hd)
      as (tcol & fcol & rate & Ht & Hf & Hrate & _ & Hkeep & Hrows) end.
  unfold current_status_of_row in Hrow.
  apply bind_Ok in Hrow as (lot & _ & Hrow).
  apply bind_Ok in Hrow as (name & _ & Hrow).
  apply bind_Ok in Hrow as (total & Htotal & Hrow).
  apply bind_Ok in Hrow as (free & Hfree & Hrow).
  apply bind_Ok in Hrow as (occupied & _ & Hrow).
  apply bind_Ok in Hrow as (orate & Horate & Hrow).
  apply bind_Ok in Hrow as (timestamp & _ & Hrow).
  injection Hrow as <-. simpl.
  apply bind_Ok in Htotal as (ct & (tcol' & Htc & Hti)%at_row_Ok & (t & -> & ->)%py_int_Ok).
  apply bind_Ok in Hfree as (cf & (fcol' & Hfc & Hfi)%at_row_Ok & (f & -> & ->)%py_int_Ok).
  apply bind_Ok in Horate as (cr & (rate' & Hrc & Hri)%at_row_Ok & Hfl).
  rewrite (keeps_getitem _ _ _ "total" Hkeep) in Htc by not_elem_of_labels.
  rewrite (keeps_getitem _ _ _ "free" Hkeep) in Hfc by not_elem_of_labels.
  assert (tcol' = tcol) as -> by congruence.
  assert (fcol' = fcol) as -> by congruence.
  assert (rate' = rate) as -> by congruence.
  exists t, f. split_and!; [done|done|]. intros Hne.
  pose proof (Hrows _ _ _ Hti Hfi Hne) as Hrate_i.
  assert (cr = CNum (occupancy_rate t f)) as -> by congruence.
  simpl in Hfl. by injection Hfl as <-.
Qed.

End CurrentStatus.

(** ** Loading readings *)

Section LoadReadings.
Import Pandas DataLoader Spec.
Context `{PyLib}.

Lemma Qle_bool_total x y : Qle_bool x y = true ∨ Qle_bool y x = true.
Proof.
  rewrite !Qle_bool_iff. destruct (Qlt_le_dec x y) as [?%Qlt_le_weak|?]; auto.
Qed.

Lemma sql_leb_total a b : sql_leb a b = true ∨ sql_leb b a = true.
Proof.
  destruct a as [x|[]|s|t|], b as [y|[]|s'|t'|]; simpl; auto;
    try apply Qle_bool_total; try apply String.leb_total.
  destruct (Z.leb_spec t t'); [auto|right; apply Z.leb_le; lia].
Qed.

Lemma by_field_total i :
  Total (fun r1 r2 : list cell => Is_true (sql_leb (field i r1) (field i r2))).
Proof.
  intros r1 r2.
  destruct (sql_leb_total (field i r1) (field i r2)) as [Hl|Hr];
    [left|right]; by apply Is_true_true.
Qed.

Lemma filter_ext_bool {A} (f g : A → bool) (l : list A) :
  (∀ x, f x = g x) →
  filter (fun x => f x = true) l = filter (fun x => g x = true) l.
Proof.
  intros Hfg. induction l as [|x l IH]; [done|].
  rewrite !filter_cons, IH, Hfg. done.
Qed.

Lemma Sorted_impl {A} (R1 R2 : relation A) (l : list A) :
  (∀ x y, R1 x y → R2 x y) → Sorted R1 l → Sorted R2 l.
Proof.
  intros HR. induction 1 as [|x l Hs IH Hhd]; constructor; [done|].
  destruct Hhd; constructor; auto.
Qed.

Lemma getitem_imap_rows cols rows col k :
  getitem (imap (fun j l => (l, map (field (k + j)) rows)) cols) col
  = match index_of cols col with
    | Some j => Ok (map (field (k + j)) rows)
    | None => Err (KeyError col)
    end.
Proof.
  revert k. induction cols as [|c cols IH]; intros k; [done|].
  simpl. destruct (decide (c = col)) as [->|Hne].
  - by rewrite Nat.add_0_r.
  - rewrite (imap_ext _ (fun j l => (l, map (field (S k + j)) rows))).
    + rewrite IH. destruct (index_of cols col); simpl; [|done].
      do 3 f_equal. lia.
    + intros j l _. simpl. do 3 f_equal. lia.
Qed.

Lemma getitem_frame_of_rows cols rows col :
  getitem (frame_of_rows cols rows) col
  = match index_of cols col with
    | Some j => Ok (map (field j) rows)
    | None => Err (KeyError col)
    end.
Proof. apply (getitem_imap_rows cols rows col 0). Qed.

Lemma column_index_Ok t col i :
  column_index t col = Ok i → index_of (t_columns t) col = Some i.
Proof. unfold column_index. intros Hc. by inv_Ok. Qed.

(** One clause at a time, the test that SQLite applies is the filter of
    the vocabulary. *)
Lemma clause_ge_Ok t d test r :
  clause_holds t (GeParam "timestamp" (CStr d)) = Ok test →
  test r = stored_ge (stored t r "timestamp") d.
Proof.
  simpl. intros Hc. inv_Ok. unfold stored, stored_ge.
  rewrite (column_index_Ok _ _ _ H0). simpl. by rewrite andb_true_r.
Qed.

Lemma clause_le_Ok t d test r :
  clause_holds t (LeParam "timestamp" (CStr d)) = Ok test →
  test r = stored_le (stored t r "timestamp") d.
Proof.
  simpl. intros Hc. inv_Ok. unfold stored, stored_le.
  rewrite (column_index_Ok _ _ _ H0). simpl. by rewrite andb_true_r.
Qed.

Lemma clause_in_Ok t ids test r :
  clause_holds t (InParams "lot_id" ids) = Ok test →
  test r = stored_in (stored t r "lot_id") ids.
Proof.
  simpl. intros Hc. inv_Ok. unfold stored, stored_in.
  by rewrite (column_index_Ok _ _ _ H0).
Qed.

Lemma clauses_of_matches t sd ed ids tests r :
  mapR (clause_holds t) (clauses_of sd ed ids) = Ok tests →
  forallb (fun test => test r) tests = row_matches t sd ed ids r.
Proof.
  unfold clauses_of, row_matches.
  destruct sd as [d1|], ed as [d2|], ids as [l|]; cbn [app mapR];
    intros Hm; inv_Ok; cbn [forallb];
    repeat match goal with
    | Hc : clause_holds _ (GeParam _ _) = Ok _ |- _ =>
        rewrite (clause_ge_Ok _ _ _ r Hc); clear Hc
    | Hc : clause_holds _ (LeParam _ _) = Ok _ |- _ =>
        rewrite (clause_le_Ok _ _ _ r Hc); clear Hc
    | Hc : clause_holds _ (InParams _ _) = Ok _ |- _ =>
        rewrite (clause_in_Ok _ _ _ r Hc); clear Hc
    end;
    rewrite ?andb_true_r, ?andb_true_l, ?andb_assoc; reflexivity.
Qed.

Lemma load_readings_clauses db sd ed ids :
  load_readings db sd ed ids
  = (df ← read_sql_query {| q_from := ParkingReadings;
                            q_where := clauses_of (Features.truthy sd) (Features.truthy ed)
                                                  (truthy_list ids);
                            q_order_by := Some "timestamp" |} db;
     ts ← getitem df "timestamp";
     c ← to_datetime ts;
     Ok (setitem df "timestamp" c)).
Proof.
  unfold load_readings, clauses_of.
  destruct (Features.truthy sd), (Features.truthy ed), (truthy_list ids); reflexivity.
Qed.

(** What [load_readings] returns: the rows that pass the filters that
    are in force, each as often as the table has it, in the order of
    their stored timestamps, as a frame with the timestamps parsed. *)
Lemma load_readings_Ok db sd ed ids df :
  load_readings db sd ed ids = Ok df →
  ∃ rows,
    rows ≡ₚ filter (fun r => row_matches (parking_readings db) (Features.truthy sd)
                               (Features.truthy ed) (truthy_list ids) r = true)
                   (t_rows (parking_readings db))
    ∧ Sorted (by_timestamp (parking_readings db)) rows
    ∧ frame_of_readings (parking_readings db) rows df.
Proof.
  rewrite load_readings_clauses. unfold read_sql_query. simpl.
  set (t := parking_readings db). intros Hl.
  apply bind_Ok in Hl as (df0 & Hq & Hl).
  apply bind_Ok in Hq as (tests & Htests & Hq).
  apply bind_Ok in Hq as (rows & Hrows & Hq). injection Hq as <-.
  apply bind_Ok in Hrows as (i & Hi & Hrows). injection Hrows as <-.
  apply bind_Ok in Hl as (ts & Hts & Hl).
  apply bind_Ok in Hl as (c & Hc & Hl). injection Hl as <-.
  pose proof (column_index_Ok _ _ _ Hi) as Hidx.
  rewrite getitem_frame_of_rows, Hidx in Hts. injection Hts as <-.
  exists (order_rows i (filter (fun r => forallb (fun test => test r) tests = true)
                               (t_rows t))).
  split_and!.
  - unfold order_rows. rewrite merge_sort_Permutation.
    rewrite (filter_ext_bool _ (row_matches t (Features.truthy sd) (Features.truthy ed)
                                  (truthy_list ids))); [done|].
    intros r. by apply clauses_of_matches.
  - unfold order_rows.
    pose proof (by_field_total i) as Htotal.
    eapply Sorted_impl; [|apply (Sorted_merge_sort _)].
    intros r1 r2 Hr. unfold by_timestamp, stored. by rewrite Hidx.
  - split.
    + rewrite columns_setitem_in, columns_frame_of_rows; [done|].
      rewrite columns_frame_of_rows.
      clear -Hidx. revert i Hidx. generalize (t_columns t).
      induction l as [|c0 l IH]; intros i Hi; simpl in Hi; [done|].
      destruct (decide (c0 = "timestamp")) as [->|?]; [left|right].
      destruct (index_of l "timestamp") eqn:Hl; [eauto|done].
    + intros col c' Hg. destruct (decide (col = "timestamp")) as [->|Hne].
      * rewrite getitem_setitem_eq in Hg. injection Hg as <-.
        rewrite <- Hc. f_equal. apply map_ext. intros r. unfold stored.
        by rewrite Hidx.
      * rewrite getitem_setitem_ne, getitem_frame_of_rows in Hg by done.
        unfold stored. destruct (index_of (t_columns t) col); [|done].
        by injection Hg as <-.
Qed.

End LoadReadings.

(** ** What training records *)

Section Training.
Import Pandas Models Server.
Context `{PyLib}.

(** [prepare_data] records the columns of the frame that are not
    excluded, in the order of the frame. *)
Lemma prepare_data_feature_columns self df target_col exclude_cols self' X y :
  prepare_data self df target_col exclude_cols = Ok (self', X, y) →
  feature_columns self'
  = Some (filter (fun col => col ∉ default (default_exclude target_col) exclude_cols)
                 (columns df)).
Proof. unfold prepare_data. intros Hp. by inv_Ok. Qed.

(** What [save] writes is what [load] reads. *)
Lemma load_save self filepath mtime fs fs' other :
  save self filepath mtime fs = Ok fs' →
  load other filepath fs'
  = Ok {| model_type := model_type self; model := model self;
          feature_columns := feature_columns self;
          target_column := target_column self |}.
Proof.
  unfold save, load. destruct (model self); [|done]. intros [= <-].
  by rewrite lookup_insert_eq.
Qed.

(** After [load_model] succeeded the forecaster of the server is the
    pickled one. *)
Lemma load_model_forecaster w st f d :
  files w !! MODEL_PATH = Some f → pickle f = Some d →
  forecaster (final (load_model w st))
  = Some {| model_type := md_model_type d; model := md_model d;
            feature_columns := md_feature_columns d;
            target_column := md_target_column d |}.
Proof.
  intros Hf Hd. unfold load_model, load. rewrite Hf. simpl. by rewrite Hd.
Qed.

(** The server that starts on the file that [save] wrote serves with the
    feature columns of the forecaster that was saved. *)
Lemma load_model_saved self mtime fs w st :
  save self MODEL_PATH mtime fs = Ok (files w) →
  feature_columns <$> forecaster (final (load_model w st))
  = Some (feature_columns self).
Proof.
  unfold save. destruct (model self) eqn:Hm; [|done]. intros [= Hfs].
  erewrite load_model_forecaster;
    [|by rewrite <- Hfs, lookup_insert_eq|done]. done.
Qed.

Lemma columns_drop_column X col :
  columns (drop_column X col) `sublist_of` columns X.
Proof.
  unfold columns, drop_column.
  induction X as [|[l c] X IH]; [done|].
  rewrite filter_cons. simpl. destruct (decide (l ≠ col)); simpl.
  - by apply sublist_skip.
  - by apply sublist_cons.
Qed.

(** The loop over the columns keeps the order of the columns and can
    only drop some of them. *)
Lemma ensure_numeric_columns cols X X' :
  ensure_numeric cols X = Ok X' → columns X' `sublist_of` columns X.
Proof.
  revert X. induction cols as [|col cols IH]; intros X; simpl.
  - by intros [= <-].
  - intros (c & Hc & Hk)%bind_Ok. destruct (is_object_dtype c); [|by apply IH].
    destruct (to_numeric c) as [c'|[]]; try done.
    + apply IH in Hk.
      by rewrite columns_setitem_in in Hk by by eapply getitem_Ok_columns.
    + etrans; [by apply IH|apply columns_drop_column].
    + etrans; [by apply IH|apply columns_drop_column].
Qed.

(** The matrix that the model is fitted on has columns among the
    recorded ones, in the recorded order. *)
Lemma prepare_data_training_columns self df target_col exclude_cols self' X y :
  prepare_data self df target_col exclude_cols = Ok (self', X, y) →
  ∃ cols, feature_columns self' = Some cols ∧ columns X `sublist_of` cols.
Proof.
  unfold prepare_data.
  intros (target & _ & (X0 & (X1 & Hsel & ->)%fmap_Ok
                        & (y0 & _ & (X2 & Hen & [= <- <- <-])%bind_Ok)%bind_Ok)%bind_Ok)%bind_Ok.
  eexists. split; [done|].
  apply ensure_numeric_columns in Hen.
  by rewrite columns_fillna0, (columns_select _ _ _ Hsel) in Hen.
Qed.

End Training.

(** ** The columns that the feature functions leave alone *)

Section Frame.
Import Pandas Features Spec.
Context `{PyLib}.

Lemma on_copy_copy : on_copy (fun df => copy df) (fun d d' => d' = d).
Proof.
  intros l h d Hl. unfold copy. rewrite Hl. cbv zeta.
  match goal with |- context [<[?l0 := _]> h] =>
    assert (h !! l0 = None) as Hfresh by (apply not_elem_of_dom, is_fresh);
    generalize dependent l0
  end.
  intros l' Hfresh. split_and!; [by apply insert_subseteq|done|].
  exists d. by rewrite lookup_insert_eq.
Qed.

Lemma on_copy_ret f (R : frame → frame → Prop) :
  on_copy f R → on_copy (fun df => df ← f df; mret df) R.
Proof.
  intros Hf l h d Hl. unfold mbind, M_bind. specialize (Hf l h d Hl).
  by destruct (f l h) as [[l' h']|e].
Qed.

Lemma temporal_result_keeps timestamp_col d d' :
  temporal_result timestamp_col d d' →
  keeps (timestamp_col :: temporal_labels) d d'
  ∧ ∀ ts, getitem d timestamp_col = Ok ts → is_datetime64_any_dtype ts = true →
      keeps temporal_labels d d'.
Proof.
  intros (d1 & ts & Hts & Hd1 & Hkeep & _). split.
  - destruct (is_datetime64_any_dtype ts).
    + subst d1. eapply keeps_weaken; [|exact Hkeep]. intros x ?. by right.
    + destruct Hd1 as (c & _ & ->).
      apply (keeps_trans [timestamp_col] temporal_labels _ (setitem d timestamp_col c));
        [|done].
      apply keeps_setitem; [left|apply keeps_refl].
  - intros ts' Hts' Hdt. assert (ts' = ts) as -> by congruence.
    rewrite Hdt in Hd1. by subst d1.
Qed.

Ltac hoare_skip :=
  eapply hoare_bind;
    [first [ apply hoare_get' | apply hoare_lift' ]; intros ? d Hd _; exact Hd
    |intros ?].

Lemma add_lag_features_keeps target_col lags group_col :
  on_copy (fun df => add_lag_features df target_col lags group_col)
          (keeps (lag_label target_col <$> lags)).
Proof.
  unfold add_lag_features. apply on_copy_intro. intros l d0.
  eapply hoare_bind; [|intros ?; apply hoare_ret; intros d Hd; split; [done|exact Hd]].
  eapply hoare_conseq;
    [| |apply (hoare_for_each l lags _ (fun done => keeps (lag_label target_col <$> done) d0))].
  { intros d ->. apply keeps_refl. }
  { done. }
  intros done n _.
  assert (∀ c, hoare l (keeps (lag_label target_col <$> done) d0)
                 (set l (lag_label target_col n) c)
                 (fun _ => keeps (lag_label target_col <$> done ++ [n]) d0)) as Hset.
  { intros c. apply hoare_set'. intros d Hkeep. rewrite fmap_app.
    apply keeps_setitem; [apply elem_of_app; right; left|].
    eapply keeps_weaken; [|exact Hkeep]. intros x ?. apply elem_of_app. by left. }
  destruct (truthy group_col).
  - do 3 hoare_skip. apply Hset.
  - hoare_skip. apply Hset.
Qed.

Lemma add_rolling_features_keeps target_col windows group_col :
  on_copy (fun df => add_rolling_features df target_col windows group_col)
          (keeps (w ← windows; window_labels target_col w)).
Proof.
  unfold add_rolling_features. apply on_copy_intro. intros l d0.
  eapply hoare_bind; [|intros ?; apply hoare_ret; intros d Hd; split; [done|exact Hd]].
  eapply hoare_conseq;
    [| |apply (hoare_for_each l windows _
                 (fun done => keeps (w ← done; window_labels target_col w) d0))].
  { intros d ->. apply keeps_refl. }
  { done. }
  intros done w _. rewrite rolling_labels_snoc.
  set (W := (w' ← done; window_labels target_col w') ++ window_labels target_col w).
  assert (∀ s c, hoare l (keeps W d0)
                   (set l (rolling_label target_col (stat_name s) w) c)
                   (fun _ => keeps W d0)) as Hset.
  { intros s c. apply hoare_set'. intros d Hkeep.
    apply keeps_setitem; [|done].
    apply elem_of_app. right. apply elem_of_window_labels. eauto. }
  eapply hoare_conseq with (P := keeps W d0) (Q := fun _ => keeps W d0);
    [intros d Hkeep; eapply keeps_weaken; [|exact Hkeep];
     intros x ?; apply elem_of_app; by left
    |done|].
  destruct (truthy group_col).
  - do 3 hoare_skip.
    eapply hoare_bind; [apply (Hset Mean)|intros ?]. hoare_skip.
    eapply hoare_bind; [apply (Hset Std)|intros ?]. hoare_skip.
    eapply hoare_bind; [apply (Hset Max)|intros ?]. hoare_skip.
    apply (Hset Min).
  - do 2 hoare_skip.
    eapply hoare_bind; [apply (Hset Mean)|intros ?]. do 2 hoare_skip.
    eapply hoare_bind; [apply (Hset Std)|intros ?]. do 2 hoare_skip.
    eapply hoare_bind; [apply (Hset Max)|intros ?]. do 2 hoare_skip.
    apply (Hset Min).
Qed.

Lemma create_all_features_keeps target_col timestamp_col group_col :
  on_copy (fun df => create_all_features df target_col timestamp_col group_col)
          (keeps (timestamp_col :: temporal_labels
                  ++ (lag_label target_col <$> default_lags)
                  ++ (w ← default_windows; window_labels target_col w))).
Proof.
  unfold create_all_features.
  eapply on_copy_conseq;
    [|apply (on_copy_compose _ _ _ _ on_copy_copy
               (on_copy_compose _ _ _ _ (add_temporal_features_spec timestamp_col)
                  (on_copy_compose _ _ _ _
                     (add_lag_features_keeps target_col default_lags group_col)
                     (on_copy_ret _ _
                        (add_rolling_features_keeps target_col default_windows group_col)))))].
  intros d d' (d0 & -> & d1 & [Ht _]%temporal_result_keeps & d2 & Hl & Hr).
  pose proof (keeps_trans _ _ _ _ _ Ht (keeps_trans _ _ _ _ _ Hl Hr)) as Hk.
  by rewrite <- app_comm_cons in Hk.
Qed.

(** When the timestamp column is a datetime column already,
    [create_all_features] leaves it as it is, too. *)
Lemma create_all_features_keeps_datetime target_col timestamp_col group_col :
  on_copy (fun df => create_all_features df target_col timestamp_col group_col)
          (fun d d' =>
             keeps (timestamp_col :: temporal_labels
                    ++ (lag_label target_col <$> default_lags)
                    ++ (w ← default_windows; window_labels target_col w)) d d'
             ∧ ∀ ts, getitem d timestamp_col = Ok ts →
                 is_datetime64_any_dtype ts = true →
                 keeps (temporal_labels
                        ++ (lag_label target_col <$> default_lags)
                        ++ (w ← default_windows; window_labels target_col w)) d d').
Proof.
  unfold create_all_features.
  eapply on_copy_conseq;
    [|apply (on_copy_compose _ _ _ _ on_copy_copy
               (on_copy_compose _ _ _ _ (add_temporal_features_spec timestamp_col)
                  (on_copy_compose _ _ _ _
                     (add_lag_features_keeps target_col default_lags group_col)
                     (on_copy_ret _ _
                        (add_rolling_features_keeps target_col default_windows group_col)))))].
  intros d d' (d0 & -> & d1 & [Ht Hdt]%temporal_result_keeps & d2 & Hl & Hr). split.
  - pose proof (keeps_trans _ _ _ _ _ Ht (keeps_trans _ _ _ _ _ Hl Hr)) as Hk.
    by rewrite <- app_comm_cons in Hk.
  - intros ts Hts His.
    exact (keeps_trans _ _ _ _ _ (Hdt ts Hts His) (keeps_trans _ _ _ _ _ Hl Hr)).
Qed.

End Frame.

(** ** Running a feature function on a frame of one's own *)

Section Call.
Import Pandas Features Server Spec.

Lemma on_copy_call f (R : frame → frame → Prop) d d' :
  on_copy f R → call f d = Ok d' → R d d'.
Proof.
  intros Hf. unfold call. specialize (Hf 0%nat {[ 0%nat := d ]} d (lookup_singleton_eq _ _)).
  destruct (f 0%nat _) as [[l' h']|e]; [|done].
  destruct Hf as (_ & _ & d'' & Hl & HR). rewrite Hl. simpl. by intros [= <-].
Qed.

(** The statistics of a window of observations [xs]. *)
Lemma foldl_Qmax_spec x xs :
  foldl Qmax x xs ∈ x :: xs
  ∧ Forall (fun y => (y <= foldl Qmax x xs)%Q) (x :: xs).
Proof.
  revert x. induction xs as [|y xs IH]; intros x; simpl.
  - split; [left|]. constructor; [apply Qle_refl|constructor].
  - destruct (IH (Qmax x y)) as [Hin Hall].
    apply Forall_cons in Hall as [Hm Hall]. split.
    + apply elem_of_cons in Hin as [Heq|Hin]; [|by do 2 right].
      rewrite Heq. unfold Qmax, GenericMinMax.gmax.
      destruct (x ?= y)%Q; [left|right; left|left].
    + constructor; [|constructor; [|done]].
      * eapply Qle_trans; [apply Q.le_max_l|exact Hm].
      * eapply Qle_trans; [apply Q.le_max_r|exact Hm].
Qed.

Lemma foldl_Qmin_spec x xs :
  foldl Qmin x xs ∈ x :: xs
  ∧ Forall (fun y => (foldl Qmin x xs <= y)%Q) (x :: xs).
Proof.
  revert x. induction xs as [|y xs IH]; intros x; simpl.
  - split; [left|]. constructor; [apply Qle_refl|constructor].
  - destruct (IH (Qmin x y)) as [Hin Hall].
    apply Forall_cons in Hall as [Hm Hall]. split.
    + apply elem_of_cons in Hin as [Heq|Hin]; [|by do 2 right].
      rewrite Heq. unfold Qmin, GenericMinMax.gmin.
      destruct (x ?= y)%Q; [left|left|right; left].
    + constructor; [|constructor; [|done]].
      * eapply Qle_trans; [exact Hm|apply Q.le_min_l].
      * eapply Qle_trans; [exact Hm|apply Q.le_min_r].
Qed.

(** What the four statistics are: the mean is the sum over the count,
    the standard deviation the root of the sample variance, defined
    from two observations on, the maximum and the minimum are
    observations that bound all others; no observation, no value. *)
Lemma stat_agg_spec `{PyLib} s xs :
  match s, xs with
  | _, [] => stat_agg s xs = CNaN
  | Mean, _ => stat_agg s xs = CNum (Qsum xs / Qlen xs)%Q
  | Std, [_] => stat_agg s xs = CNaN
  | Std, _ => stat_agg s xs = CNum (np_sqrt (Qvar xs))
  | Max, _ => ∃ m, stat_agg s xs = CNum m ∧ m ∈ xs ∧ Forall (fun y => (y <= m)%Q) xs
  | Min, _ => ∃ m, stat_agg s xs = CNum m ∧ m ∈ xs ∧ Forall (fun y => (m <= y)%Q) xs
  end.
Proof.
  destruct s, xs as [|x [|y xs]]; simpl; try done.
  - exists x. split; [done|]. apply (foldl_Qmax_spec x []).
  - eexists. split; [done|]. apply (foldl_Qmax_spec x (y :: xs)).
  - exists x. split; [done|]. apply (foldl_Qmin_spec x []).
  - eexists. split; [done|]. apply (foldl_Qmin_spec x (y :: xs)).
Qed.

End Call.

(** * The claims *)

Section Claims.
Import Pandas DataLoader Models Server Predict Features Spec Example.

Lemma py_max_Qmax a b : (py_max a b == Qmax a b)%Q.
Proof.
  unfold py_max. destruct (Qltb a b) eqn:Hlt.
  - apply Qltb_lt in Hlt. symmetry. apply Q.max_r. by apply Qlt_le_weak.
  - apply Qltb_ge in Hlt. symmetry. by apply Q.max_l.
Qed.

Lemma py_min_Qmin a b : (py_min a b == Qmin a b)%Q.
Proof.
  unfold py_min. destruct (Qltb b a) eqn:Hlt.
  - apply Qltb_lt in Hlt. symmetry. apply Q.min_r. by apply Qlt_le_weak.
  - apply Qltb_ge in Hlt. symmetry. by apply Q.min_l.
Qed.

Lemma served_band `{PyLib} w st f :
  served w st f →
  confidence_low f = Some (py_max 0 (predicted_occupancy_rate f - 10))
  ∧ confidence_high f = Some (py_min 100 (predicted_occupancy_rate f + 10)).
Proof.
  intros [[lot_id Hf]|(fs & Hfs & Hin)].
  - destruct (get_forecast_Ok _ _ _ _ Hf) as (? & ? & ? & ? & ? & ? & ? & ? & ? & ? & ? & ? & ? & ?).
    done.
  - destruct (get_all_forecasts_Ok _ _ _ _ Hfs Hin)
      as (? & ? & ? & ? & ? & ? & ? & ? & ? & ? & ? & ? & ? & ? & ?).
    done.
Qed.

(** C9: for every prediction [p] the forecast handlers return
    [confidence_low = max(0, p - 10)] and [confidence_high = min(100, p + 10)];
    hence [confidence_low >= 0] and [confidence_high <= 100], and when
    [p] lies in [0, 100] the band contains it. *)
Theorem confidence_bounds_clamped `{PyLib} w st f :
  served w st f →
  let p := predicted_occupancy_rate f in
  ∃ low high,
    confidence_low f = Some low ∧ confidence_high f = Some high
    ∧ (low == Qmax 0 (p - 10))%Q ∧ (high == Qmin 100 (p + 10))%Q
    ∧ (0 <= low)%Q ∧ (high <= 100)%Q
    ∧ ((0 <= p)%Q → (p <= 100)%Q → (low <= p)%Q ∧ (p <= high)%Q).
Proof.
  intros Hs p. destruct (served_band _ _ _ Hs) as [Hlow Hhigh]. fold p in Hlow, Hhigh.
  exists (py_max 0 (p - 10)), (py_min 100 (p + 10)).
  split_and!; [done|done|apply py_max_Qmax|apply py_min_Qmin|..].
  - rewrite py_max_Qmax. apply Q.le_max_l.
  - rewrite py_min_Qmin. apply Q.le_min_l.
  - intros H0 H100. rewrite py_max_Qmax, py_min_Qmin. split.
    + apply Q.max_lub; [done|lra].
    + apply Q.min_glb; [done|lra].
Qed.

Lemma confidence_bounds_clamped_witness :
  ∃ low high,
    confidence_low forecast_B = Some low ∧ confidence_high forecast_B = Some high
    ∧ (low == Qmax 0 (96 - 10))%Q ∧ (high == Qmin 100 (96 + 10))%Q
    ∧ (0 <= low)%Q ∧ (high <= 100)%Q
    ∧ ((0 <= 96)%Q → (96 <= 100)%Q → (low <= 96)%Q ∧ (96 <= high)%Q).
Proof.
  apply (confidence_bounds_clamped world0 serving_state forecast_B).
  left. exists "B". vm_compute. reflexivity.
Defined.

(** C3, as stated, fails: the example world serves two forecasts whose
    bands differ in width, and the band of the second is not centred
    on its prediction. *)
Lemma confidence_band_not_fixed_width :
  served world0 serving_state forecast_A ∧ served world0 serving_state forecast_B
  ∧ (band_width forecast_A == 20)%Q ∧ (band_width forecast_B == 14)%Q
  ∧ ¬ (band_ends_sum forecast_B == 2 * predicted_occupancy_rate forecast_B)%Q.
Proof.
  split_and!.
  - left. exists "A". vm_compute. reflexivity.
  - left. exists "B". vm_compute. reflexivity.
  - reflexivity.
  - reflexivity.
  - intros Heq. vm_compute in Heq. discriminate Heq.
Qed.

(** C3, amended: every forecast served over the REST interface carries
    the band [max(0, p - 10) .. min(100, p + 10)] around its prediction
    [p]: the band is never wider than 20, and it has width 20 and is
    centred on [p] whenever [10 <= p <= 90], where no end is cut. *)
Theorem confidence_band_fixed_width_unless_clamped `{PyLib} w st f :
  served w st f →
  let p := predicted_occupancy_rate f in
  (band_width f <= 20)%Q
  ∧ ((10 <= p)%Q → (p <= 90)%Q →
     (band_width f == 20)%Q ∧ (band_ends_sum f == 2 * p)%Q).
Proof.
  intros Hs p. destruct (served_band _ _ _ Hs) as [Hlow Hhigh]. fold p in Hlow, Hhigh.
  unfold band_width, band_ends_sum. rewrite Hlow, Hhigh. simpl.
  rewrite py_max_Qmax, py_min_Qmin. split.
  - pose proof (Q.le_max_r 0 (p - 10)). pose proof (Q.le_min_r 100 (p + 10)). lra.
  - intros H10 H90.
    rewrite (Q.max_r 0 (p - 10)) by lra. rewrite (Q.min_r 100 (p + 10)) by lra.
    split; ring.
Qed.

Lemma confidence_band_fixed_width_unless_clamped_witness :
  (band_width forecast_A <= 20)%Q
  ∧ ((10 <= 50)%Q → (50 <= 90)%Q →
     (band_width forecast_A == 20)%Q ∧ (band_ends_sum forecast_A == 2 * 50)%Q).
Proof.
  apply (confidence_band_fixed_width_unless_clamped world0 serving_state forecast_A).
  left. exists "A". vm_compute. reflexivity.
Defined.

(** C6, as stated, fails: in the example the model file exists and its
    modification time (500) differs from the recorded one (1000), and
    the model is not read again. *)
Lemma older_model_file_is_not_reloaded :
  model_path serving_state = Some MODEL_PATH
  ∧ files older_world !! MODEL_PATH = Some older_file
  ∧ model_last_modified serving_state = Some 1000%Q
  ∧ ¬ (st_mtime older_file == 1000)%Q
  ∧ unpickled (check_and_reload_model older_world serving_state) = [].
Proof.
  split_and!; try (vm_compute; reflexivity).
  intros Heq. vm_compute in Heq. discriminate Heq.
Qed.

(** C6, amended: [check_and_reload_model] reads the model file again if
    and only if [model_path] is set, the file exists and its
    modification time is strictly greater than the recorded
    [model_last_modified] (or none is recorded); otherwise all globals,
    the loaded model among them, are left unchanged. *)
Theorem model_reloaded_iff_newer w st :
  wf_state st →
  (unpickled (check_and_reload_model w st) = [MODEL_PATH] ↔ newer_on_disk w st)
  ∧ (¬ newer_on_disk w st →
     check_and_reload_model w st = {| final := st; raised := None; unpickled := [] |}).
Proof.
  intros Hwf. split; [|apply check_and_reload_model_idle].
  split; [|by apply check_and_reload_model_reads].
  intros Hread. destruct (newer_on_disk_dec w st) as [?|Hold]; [done|].
  by rewrite (check_and_reload_model_idle _ _ Hold) in Hread.
Qed.

(** The globals of [stale_state] name the model file and record the
    modification time 10; the file of [world0] is newer, and the model
    is read again.  In [older_world] the file is older than the time
    that [serving_state] records, and nothing is read. *)
Lemma model_reloaded_iff_newer_witness :
  (wf_state stale_state
   ∧ newer_on_disk world0 stale_state
   ∧ unpickled (check_and_reload_model world0 stale_state) = [MODEL_PATH])
  ∧ (wf_state serving_state
     ∧ check_and_reload_model older_world serving_state
       = {| final := serving_state; raised := None; unpickled := [] |}).
Proof.
  assert (wf_state stale_state) as Hstale by (right; reflexivity).
  assert (wf_state serving_state) as Hserving by (right; vm_compute; reflexivity).
  assert (newer_on_disk world0 stale_state) as Hnew.
  { eexists _, _. split_and!; [reflexivity|vm_compute; reflexivity|].
    vm_compute. reflexivity. }
  assert (¬ newer_on_disk older_world serving_state) as Hold.
  { intros (p & f & Hp & Hf & Hlt).
    assert (model_path serving_state = Some MODEL_PATH) as Hmp by (vm_compute; reflexivity).
    rewrite Hmp in Hp. injection Hp as <-.
    assert (files older_world !! MODEL_PATH = Some older_file) as Hof
      by (vm_compute; reflexivity).
    rewrite Hof in Hf. injection Hf as <-.
    assert (model_last_modified serving_state = Some 1000%Q) as Hm by (vm_compute; reflexivity).
    rewrite Hm in Hlt. vm_compute in Hlt. discriminate Hlt. }
  split; (split; [assumption|]).
  - split; [assumption|].
    exact (proj2 (proj1 (model_reloaded_iff_newer world0 stale_state Hstale)) Hnew).
  - exact (proj2 (model_reloaded_iff_newer older_world serving_state Hserving) Hold).
Defined.

(** C1: on every path that predicts (GET /forecast/{lot_id},
    GET /forecast, make_predictions) the feature matrix [X] handed to
    [predict] has exactly the columns recorded in
    [forecaster.feature_columns], with the same names in the same order.
    The first two parts are about the forecasts that the handlers
    return, the next three about every feature matrix that the three
    paths build, and the last says that the forecaster which the server
    loads from the file written by [save] carries the feature columns
    that [prepare_data] recorded. *)
Theorem inference_features_match_training `{PyLib} :
  (∀ w st lot_id f,
     (get_forecast w st lot_id).2 = Ok f →
     ∃ fc X predictions,
       forecaster (get_forecast w st lot_id).1 = Some fc
       ∧ predict fc X = Ok predictions
       ∧ predictions !! 0%nat = Some (predicted_occupancy_rate f)
       ∧ feature_columns fc = Some (columns X))
  ∧ (∀ w st fs f,
       (get_all_forecasts w st).2 = Ok fs → f ∈ fs →
       ∃ fc X predictions idx,
         forecaster (get_all_forecasts w st).1 = Some fc
         ∧ predict fc X = Ok predictions
         ∧ predictions !! idx = Some (predicted_occupancy_rate f)
         ∧ feature_columns fc = Some (columns X))
  ∧ (∀ db fc lot_id lot_name X,
       forecast_input db fc lot_id = Ok (lot_name, X) →
       feature_columns fc = Some (columns X))
  ∧ (∀ db fc latest X,
       all_forecasts_input db fc = Ok (Some (latest, X)) →
       feature_columns fc = Some (columns X))
  ∧ (∀ db fc lot_id df X,
       prediction_input db fc lot_id = Ok (df, X) →
       feature_columns fc = Some (columns X))
  ∧ (∀ self df target_col exclude_cols trained X y mtime fs w st,
       prepare_data self df target_col exclude_cols = Ok (trained, X, y) →
       save trained MODEL_PATH mtime fs = Ok (files w) →
       feature_columns <$> forecaster (final (load_model w st))
       = Some (feature_columns trained)).
Proof.
  split_and!; [| | | | |intros; by eapply load_model_saved].
  - intros w st lot_id f Hf.
    destruct (get_forecast_Ok _ _ _ _ Hf)
      as (fc & loader & db & name & X & preds & Hfc & _ & _ & Hin & Hp & Hp0 & _).
    exists fc, X, preds. split_and!; try done. by eapply forecast_input_columns.
  - intros w st fs f Hfs Hf.
    destruct (get_all_forecasts_Ok _ _ _ _ Hfs Hf)
      as (fc & loader & db & latest & X & preds & idx & Hfc & _ & _ & Hin & Hp & Hpi & _).
    exists fc, X, preds, idx. split_and!; try done.
    by eapply all_forecasts_input_columns.
  - intros. by eapply forecast_input_columns.
  - intros. by eapply all_forecasts_input_columns.
  - intros. by eapply prediction_input_columns.
Qed.

Lemma inference_features_match_training_witness :
  ∃ fc X predictions,
    forecaster (get_forecast world0 serving_state "A").1 = Some fc
    ∧ predict fc X = Ok predictions
    ∧ predictions !! 0%nat = Some (predicted_occupancy_rate forecast_A)
    ∧ feature_columns fc = Some (columns X).
Proof.
  apply (proj1 inference_features_match_training world0 serving_state "A" forecast_A).
  vm_compute. reflexivity.
Defined.

(** C7: for every row, [add_temporal_features] encodes each periodic
    calendar field with a sine/cosine pair over its period:
    [hour_sin = sin(2π·hour/24)], [hour_cos = cos(2π·hour/24)],
    [day_sin = sin(2π·day_of_week/7)], [day_cos = cos(2π·day_of_week/7)],
    [month_sin = sin(2π·month/12)], [month_cos = cos(2π·month/12)],
    with numpy's [sin], [cos] and [pi]; a row without a timestamp has
    no field and no encoding. *)
Theorem cyclical_encoding_of_calendar_fields `{PyLib} timestamp_col :
  on_copy (fun df => add_temporal_features df timestamp_col)
    (fun _ d' =>
       ∃ hour day_of_week month hour_sin hour_cos day_sin day_cos month_sin month_cos,
         getitem d' "hour" = Ok hour ∧ getitem d' "day_of_week" = Ok day_of_week
         ∧ getitem d' "month" = Ok month
         ∧ getitem d' "hour_sin" = Ok hour_sin ∧ getitem d' "hour_cos" = Ok hour_cos
         ∧ getitem d' "day_sin" = Ok day_sin ∧ getitem d' "day_cos" = Ok day_cos
         ∧ getitem d' "month_sin" = Ok month_sin ∧ getitem d' "month_cos" = Ok month_cos
         ∧ ∀ i,
             (∀ v, hour !! i = Some v →
                hour_sin !! i = Some (cyclical_cell np_sin 24 v)
                ∧ hour_cos !! i = Some (cyclical_cell np_cos 24 v))
             ∧ (∀ v, day_of_week !! i = Some v →
                  day_sin !! i = Some (cyclical_cell np_sin 7 v)
                  ∧ day_cos !! i = Some (cyclical_cell np_cos 7 v))
             ∧ (∀ v, month !! i = Some v →
                  month_sin !! i = Some (cyclical_cell np_sin 12 v)
                  ∧ month_cos !! i = Some (cyclical_cell np_cos 12 v))).
Proof.
  eapply on_copy_conseq; [|apply add_temporal_features_spec].
  intros d d' (_ & _ & _ & _ & _ & Henc).
  destruct Henc as ((h1 & hs & Hh1 & Hhs & _ & Ehs) & (h2 & hc & Hh2 & Hhc & _ & Ehc)
                    & (w1 & ds & Hw1 & Hds & _ & Eds) & (w2 & dc & Hw2 & Hdc & _ & Edc)
                    & (m1 & ms & Hm1 & Hms & _ & Ems) & (m2 & mc & Hm2 & Hmc & _ & Emc)).
  assert (h2 = h1) as -> by congruence. assert (w2 = w1) as -> by congruence.
  assert (m2 = m1) as -> by congruence.
  exists h1, w1, m1, hs, hc, ds, dc, ms, mc. split_and!; try done.
  intros i. split_and!; intros v Hv; split; auto.
Qed.

Lemma cyclical_encoding_of_calendar_fields_witness :
  ∃ d', call (fun df => add_temporal_features df "timestamp") frame_with_hour = Ok d'
        ∧ getitem d' "hour" = Ok [CNum 8]
        ∧ getitem d' "hour_sin"
          = Ok [CNum (np_sin (2 * np_pi * 8 / 24)%Q)].
Proof.
  destruct (call (fun df => add_temporal_features df "timestamp") frame_with_hour)
    as [d'|e] eqn:E; [|vm_compute in E; discriminate E].
  exists d'. split; [done|].
  pose proof (on_copy_call _ _ _ _ (cyclical_encoding_of_calendar_fields "timestamp") E)
    as (hour & ? & ? & hour_sin & ? & ? & ? & ? & ? & Hh & _ & _ & Hs & _ & _ & _ & _ & _ & Hrows).
  assert (getitem d' "hour" = Ok [CNum 8]) as Hh8.
  { vm_compute in E. injection E as <-. vm_compute. reflexivity. }
  split; [done|].
  assert (hour = [CNum 8]) as -> by congruence.
  destruct (Hrows 0%nat) as (Hr & _ & _). destruct (Hr _ eq_refl) as [Hsin _].
  assert (length hour_sin = 1%nat) as Hlen.
  { vm_compute in E. injection E as <-. vm_compute in Hs. by injection Hs as <-. }
  destruct hour_sin as [|v [|? ?]]; try done. simpl in Hsin. by injection Hsin as ->.
Defined.

(** C8, as stated, fails: a column of the input that bears one of the
    labels that the function assigns is overwritten.  Here the input has
    a column [hour] holding 99, and the result holds the hour of the
    timestamp, 8, under that label.  A timestamp column that holds text
    is replaced by its conversion to datetimes as well. *)
Lemma temporal_features_overwrite_hour :
  (∃ d', call (fun df => add_temporal_features df "timestamp") frame_with_hour = Ok d'
         ∧ getitem frame_with_hour "hour" = Ok [CNum 99]
         ∧ getitem d' "hour" = Ok [CNum 8])
  ∧ (∃ d', call (fun df => add_temporal_features df "timestamp")
                frame_with_text_timestamp = Ok d'
           ∧ getitem frame_with_text_timestamp "timestamp"
             = Ok [CStr "2024-01-01 08:00:00"]
           ∧ getitem d' "timestamp" = Ok [CTime 1704096000000000000]).
Proof.
  split; eexists;
    (split_and!; [vm_compute; reflexivity|reflexivity|vm_compute; reflexivity]).
Qed.

(** C8, amended: each of [add_temporal_features], [add_lag_features],
    [add_rolling_features] and [create_all_features] returns a new
    frame and leaves the heap that it was given, the caller's frame
    included, as it was.  The columns of the input are in the result in
    their places, and all of them have unchanged cells but those that
    bear a label that the function assigns: the fifteen temporal
    labels, the label of each lag, the four labels of each window, and
    the timestamp column when it is not a datetime column already
    (it is converted). *)
Theorem feature_functions_keep_other_columns `{PyLib} :
  (∀ timestamp_col,
     on_copy (fun df => add_temporal_features df timestamp_col)
       (fun d d' =>
          keeps (timestamp_col :: temporal_labels) d d'
          ∧ ∀ ts, getitem d timestamp_col = Ok ts →
              is_datetime64_any_dtype ts = true → keeps temporal_labels d d'))
  ∧ (∀ target_col lags group_col,
       on_copy (fun df => add_lag_features df target_col lags group_col)
         (keeps (lag_label target_col <$> lags)))
  ∧ (∀ target_col windows group_col,
       on_copy (fun df => add_rolling_features df target_col windows group_col)
         (keeps (w ← windows; window_labels target_col w)))
  ∧ (∀ target_col timestamp_col group_col,
       on_copy (fun df => create_all_features df target_col timestamp_col group_col)
         (fun d d' =>
            keeps (timestamp_col :: temporal_labels
                   ++ (lag_label target_col <$> default_lags)
                   ++ (w ← default_windows; window_labels target_col w)) d d'
            ∧ ∀ ts, getitem d timestamp_col = Ok ts →
                is_datetime64_any_dtype ts = true →
                keeps (temporal_labels
                       ++ (lag_label target_col <$> default_lags)
                       ++ (w ← default_windows; window_labels target_col w)) d d')).
Proof.
  split_and!.
  - intros tc. eapply on_copy_conseq; [|apply add_temporal_features_spec].
    intros d d'. apply temporal_result_keeps.
  - apply add_lag_features_keeps.
  - apply add_rolling_features_keeps.
  - apply create_all_features_keeps_datetime.
Qed.

Lemma feature_functions_keep_other_columns_witness :
  (∃ d', call (fun df => add_temporal_features df "timestamp") frame_with_hour = Ok d'
         ∧ keeps temporal_labels frame_with_hour d')
  ∧ (∃ d', call (fun df => create_all_features df "occupancy_rate" "timestamp"
                             (Some "lot_id")) readings_frame = Ok d'
           ∧ keeps (temporal_labels
                    ++ (lag_label "occupancy_rate" <$> default_lags)
                    ++ (w ← default_windows; window_labels "occupancy_rate" w))
                   readings_frame d').
Proof.
  split.
  - destruct (call (fun df => add_temporal_features df "timestamp") frame_with_hour)
      as [d'|e] eqn:E; [|vm_compute in E; discriminate E].
    exists d'. split; [reflexivity|].
    pose proof (on_copy_call _ _ _ _
                  (proj1 feature_functions_keep_other_columns "timestamp") E) as [_ Hk].
    apply (Hk [CTime 1704096000000000000]); reflexivity.
  - destruct (call (fun df => create_all_features df "occupancy_rate" "timestamp"
                                (Some "lot_id")) readings_frame)
      as [d'|e] eqn:E; [|vm_compute in E; discriminate E].
    exists d'. split; [reflexivity|].
    pose proof (on_copy_call _ _ _ _
                  (proj2 (proj2 (proj2 feature_functions_keep_other_columns))
                     "occupancy_rate" "timestamp" (Some "lot_id")) E) as [_ Hk].
    apply (Hk [CTime 1704096000000000000; CTime 1704099600000000000]); reflexivity.
Defined.

(** C4: for every frame, every lag [n] of the lag list and every row
    of a parking lot, the column [occupancy_rate_lag_n] that
    [add_lag_features] produces with the grouping column [lot_id] holds
    the target [n] rows earlier within the sequence of the row's lot,
    and is missing when the lot has fewer than [n] earlier rows; the
    row it is read from is a row of the same lot. *)
Theorem lag_feature_is_lagged_target lags :
  on_copy (fun df => add_lag_features df "occupancy_rate" lags (Some "lot_id"))
    (fun d d' =>
       wf_frame d →
       ∀ n, n ∈ lags →
         ∃ lot_id target lagged,
           getitem d "lot_id" = Ok lot_id ∧ getitem d "occupancy_rate" = Ok target
           ∧ getitem d' ("occupancy_rate_lag_" +:+ pretty n) = Ok lagged
           ∧ length lagged = nrows d
           ∧ ∀ i g, lot_of lot_id i = Some g → g ≠ CNaN →
               lagged !! i = lag_value lot_id target g i n
               ∧ (∀ j, lagged_row lot_id g i n = Some j → lot_of lot_id j = Some g)
               ∧ (0 <= n →
                  (lagged_row lot_id g i n = None
                   ↔ (length (earlier_rows lot_id g i) < Z.to_nat n)%nat))).
Proof.
  eapply on_copy_conseq; [|apply add_lag_features_spec; [done|]].
  - intros d d' [_ Hcols] Hwf n Hn.
    destruct (Hcols n Hn) as (keys & vals & c & Hk & Hv & Hc & Hs).
    exists keys, vals, c. split_and!; try done.
    + unfold groupby_shift in Hs. apply groupby_transform_length in Hs.
      rewrite Hs. by eapply wf_frame_length.
    + intros i g Hg Hne. split_and!.
      * eapply groupby_shift_lookup; try done.
        rewrite (wf_frame_length _ _ _ Hwf Hk). by eapply wf_frame_length.
      * intros j. by apply lagged_row_same_lot.
      * apply lagged_row_None.
  - intros n _. unfold lag_label. cbv [String.append]. discriminate.
Qed.

Lemma lag_feature_is_lagged_target_witness :
  ∃ d' lagged,
    call (fun df => add_lag_features df "occupancy_rate" [1; 2] (Some "lot_id"))
         occupancy_frame = Ok d'
    ∧ getitem d' "occupancy_rate_lag_2" = Ok lagged
    ∧ lagged !! 4%nat = Some (CNum 20) ∧ lagged !! 3%nat = Some CNaN.
Proof.
  destruct (call (fun df => add_lag_features df "occupancy_rate" [1; 2] (Some "lot_id"))
                 occupancy_frame) as [d'|e] eqn:E; [|vm_compute in E; discriminate E].
  destruct (on_copy_call _ _ _ _ (lag_feature_is_lagged_target [1; 2]) E
              ltac:(repeat constructor) 2 ltac:(elem_of_labels))
    as (lot_id & target & lagged & Hl & Ht & Hc & _ & Hrows).
  exists d', lagged. split_and!; [done|done|..].
  - vm_compute in Hl, Ht. injection Hl as <-. injection Ht as <-.
    by destruct (Hrows 4%nat (CStr "A") eq_refl ltac:(done)) as [-> _].
  - vm_compute in Hl, Ht. injection Hl as <-. injection Ht as <-.
    by destruct (Hrows 3%nat (CStr "A") eq_refl ltac:(done)) as [-> _].
Defined.

(** C5: for every frame, every window size [w] and every row of a
    parking lot, the columns [occupancy_rate_rolling_mean_w], [.._std_w],
    [.._max_w] and [.._min_w] that [add_rolling_features] produces with
    the grouping column [lot_id] hold the mean, the standard deviation,
    the maximum and the minimum of the target over the last [w]
    observations of the row's lot (all of them while the lot has fewer),
    taken on the finite values among them. *)
Theorem rolling_features_are_window_statistics `{PyLib} windows :
  on_copy (fun df => add_rolling_features df "occupancy_rate" windows (Some "lot_id"))
    (fun d d' =>
       wf_frame d →
       ∀ w, w ∈ windows →
         ∃ lot_id target,
           getitem d "lot_id" = Ok lot_id ∧ getitem d "occupancy_rate" = Ok target
           ∧ ∀ s, ∃ col,
               getitem d' ("occupancy_rate_rolling_" +:+ stat_name s +:+ "_" +:+ pretty w)
               = Ok col
               ∧ length col = nrows d
               ∧ ∀ i g, lot_of lot_id i = Some g → g ≠ CNaN →
                   1 <= w
                   ∧ col !! i
                     = Some (stat_agg s (window_values lot_id target g i (Z.to_nat w)))).
Proof.
  eapply on_copy_conseq; [|apply add_rolling_features_spec; [done|]].
  - intros d d' [_ Hcols] Hwf w Hw.
    destruct (Hcols w Hw) as (keys & vals & Hk & Hv & Hstats).
    exists keys, vals. split_and!; try done.
    intros s. destruct (Hstats s) as (c & Hc & Hr). exists c.
    split_and!; [done| |].
    + rewrite (groupby_transform_length _ _ _ _ Hr). by eapply wf_frame_length.
    + intros i g Hg Hne. eapply groupby_rolling_lookup; try done.
      rewrite (wf_frame_length _ _ _ Hwf Hk). by eapply wf_frame_length.
  - intros w s _. unfold rolling_label. cbv [String.append]. discriminate.
Qed.

Lemma rolling_features_are_window_statistics_witness :
  ∃ d' col,
    call (fun df => add_rolling_features df "occupancy_rate" [3] (Some "lot_id"))
         occupancy_frame = Ok d'
    ∧ getitem d' "occupancy_rate_rolling_max_3" = Ok col
    ∧ col !! 4%nat = Some (CNum 60) ∧ col !! 0%nat = Some (CNum 20).
Proof.
  destruct (call (fun df => add_rolling_features df "occupancy_rate" [3] (Some "lot_id"))
                 occupancy_frame) as [d'|e] eqn:E; [|vm_compute in E; discriminate E].
  destruct (on_copy_call _ _ _ _ (rolling_features_are_window_statistics [3]) E
              ltac:(repeat constructor) 3 ltac:(elem_of_labels))
    as (lot_id & target & Hl & Ht & Hstats).
  destruct (Hstats Max) as (col & Hc & _ & Hrows).
  exists d', col. split_and!; [done|done|..].
  - vm_compute in Hl, Ht. injection Hl as <-. injection Ht as <-.
    by destruct (Hrows 4%nat (CStr "A") eq_refl ltac:(done)) as [_ ->].
  - vm_compute in Hl, Ht. injection Hl as <-. injection Ht as <-.
    by destruct (Hrows 0%nat (CStr "A") eq_refl ltac:(done)) as [_ ->].
Defined.

(** C2: for every merged reading that [load_combined_data] and the
    /current and /forecast handlers produce, the [occupancy_rate] column
    is [(total - free) / total * 100], where [total] is the capacity of
    the reading's lot and [free] the free spaces of the reading.  The
    readings table is taken to have a column [free] and no column
    [total]; the last part is about the statuses that GET /current
    returns, with the capacity and the free spaces of their own row. *)
Theorem occupancy_rate_of_merged_readings `{PyLib} db :
  "free" ∈ t_columns (parking_readings db) →
  "total" ∉ t_columns (parking_readings db) →
  (∀ merged,
     load_combined_data db = Ok merged →
     ∃ readings lots,
       load_readings db None None None = Ok readings
       ∧ load_parking_lots db = Ok lots
       ∧ merged_with_occupancy readings lots merged)
  ∧ (∀ lot_id merged,
       current_frame db lot_id = Ok (Some merged) →
       ∃ latest lots,
         latest_readings db lot_id = Ok (Some latest)
         ∧ load_parking_lots db = Ok lots
         ∧ merged_with_occupancy latest lots merged)
  ∧ (∀ lot_id lot_name merged,
       lot_history db lot_id = Ok (lot_name, merged) →
       ∃ readings lots,
         load_readings db None None (Some [CStr lot_id]) = Ok readings
         ∧ load_parking_lots db = Ok lots
         ∧ merged_with_occupancy readings lots merged)
  ∧ (∀ w st lot_id statuses cs,
       get_current_status w st lot_id = Ok statuses → cs ∈ statuses →
       ∃ total free,
         cs_total cs = truncate total ∧ cs_free cs = truncate free
         ∧ (¬ (total == 0)%Q →
            cs_occupancy_rate cs = CNum (occupancy_rate total free))).
Proof.
  intros Hfree Htotal. split_and!.
  - intros merged. by apply load_combined_data_occupancy.
  - intros lot_id merged. by apply current_frame_occupancy.
  - intros lot_id lot_name merged. by apply lot_history_occupancy.
  - intros w st lot_id statuses cs. apply get_current_status_Ok.
Qed.

Lemma occupancy_rate_of_merged_readings_witness :
  ∃ merged readings lots,
    load_combined_data db = Ok merged
    ∧ load_readings db None None None = Ok readings
    ∧ load_parking_lots db = Ok lots
    ∧ merged_with_occupancy readings lots merged.
Proof.
  assert ("free" ∈ t_columns (parking_readings db)) as Hfree.
  { change ("free" ∈ ["id"; "lot_id"; "timestamp"; "free"]). elem_of_labels. }
  assert ("total" ∉ t_columns (parking_readings db)) as Htotal.
  { change ("total" ∉ ["id"; "lot_id"; "timestamp"; "free"]). not_elem_of_labels. }
  destruct (load_combined_data db) as [merged|e] eqn:E; [|vm_compute in E; discriminate E].
  destruct (proj1 (occupancy_rate_of_merged_readings db Hfree Htotal) merged E)
    as (readings & lots & Hr & Hl & Hm).
  exists merged, readings, lots. split_and!; [reflexivity|exact Hr|exact Hl|exact Hm].
Defined.

(** C10, as stated, fails: an empty list of lot identifiers is a
    supplied filter that no row satisfies, and [load_readings] returns
    rows all the same. *)
Lemma empty_lot_filter_is_ignored :
  ∃ df lots,
    load_readings db None None (Some []) = Ok df
    ∧ getitem df "lot_id" = Ok lots
    ∧ lots !! 0%nat = Some (CStr "A")
    ∧ stored_in (CStr "A") [] = false.
Proof.
  eexists _, _. split_and!; [vm_compute; reflexivity|vm_compute; reflexivity|done|done].
Qed.

(** C10, amended: for every combination of the optional [start_date],
    [end_date] and [lot_ids], [load_readings] returns the rows of the
    table that satisfy the filters in force, in non-decreasing order of
    their stored timestamps; a filter is in force when it is supplied
    and not empty (an empty string and an empty list are ignored), and
    every returned row satisfies all filters in force. *)
Theorem load_readings_sorted_and_filtered `{PyLib} db start_date end_date lot_ids df :
  load_readings db start_date end_date lot_ids = Ok df →
  ∃ rows,
    rows ≡ₚ filter (fun r => row_matches (parking_readings db) (truthy start_date)
                               (truthy end_date) (truthy_list lot_ids) r = true)
                   (t_rows (parking_readings db))
    ∧ Sorted (by_timestamp (parking_readings db)) rows
    ∧ frame_of_readings (parking_readings db) rows df
    ∧ ∀ r, r ∈ rows →
        (∀ d, start_date = Some d → d ≠ "" →
           stored_ge (stored (parking_readings db) r "timestamp") d = true)
        ∧ (∀ d, end_date = Some d → d ≠ "" →
             stored_le (stored (parking_readings db) r "timestamp") d = true)
        ∧ (∀ ids, lot_ids = Some ids → ids ≠ [] →
             stored_in (stored (parking_readings db) r "lot_id") ids = true).
Proof.
  intros Hl. destruct (load_readings_Ok _ _ _ _ _ Hl) as (rows & Hperm & Hsorted & Hframe).
  exists rows. split_and!; try done.
  intros r Hr. rewrite Hperm in Hr. apply list_elem_of_filter in Hr as [Hm _].
  unfold row_matches in Hm. apply andb_true_iff in Hm as [[Hs He]%andb_true_iff Hi].
  split_and!.
  - intros d -> Hd. by rewrite truthy_Some in Hs.
  - intros d -> Hd. by rewrite truthy_Some in He.
  - intros ids -> Hne. by destruct ids.
Qed.

Lemma load_readings_sorted_and_filtered_witness :
  ∃ df rows,
    load_readings db (Some "2024-01-01 09:00:00") None (Some [CStr "A"]) = Ok df
    ∧ Sorted (by_timestamp (parking_readings db)) rows
    ∧ frame_of_readings (parking_readings db) rows df
    ∧ ∀ r, r ∈ rows →
        stored_ge (stored (parking_readings db) r "timestamp") "2024-01-01 09:00:00" = true
        ∧ stored_in (stored (parking_readings db) r "lot_id") [CStr "A"] = true.
Proof.
  destruct (load_readings db (Some "2024-01-01 09:00:00") None (Some [CStr "A"]))
    as [df|e] eqn:E; [|vm_compute in E; discriminate E].
  destruct (load_readings_sorted_and_filtered _ _ _ _ _ E)
    as (rows & _ & Hsorted & Hframe & Hrows).
  exists df, rows. split_and!; try done.
  intros r Hr. destruct (Hrows r Hr) as (Hs & _ & Hi). split.
  - by apply Hs.
  - by apply Hi.
Defined.

End Claims.

(** * Further properties of the code *)

(** ** The feature functions as sequences of item assignments *)

Section Assign.
Import Pandas Features Spec.

Lemma assign_snoc d cols l c : assign d (cols ++ [(l, c)]) = setitem (assign d cols) l c.
Proof. unfold assign. by rewrite foldl_app. Qed.

Lemma getitem_assign_notin d cols l :
  l ∉ cols.*1 → getitem (assign d cols) l = getitem d l.
Proof.
  revert d. induction cols as [|[l0 c0] cols IH]; intros d Hn; [done|].
  apply not_elem_of_cons in Hn as [Hne Hn]. simpl.
  rewrite IH by done. by apply getitem_setitem_ne.
Qed.

Lemma getitem_assign_in d cols l c :
  NoDup cols.*1 → (l, c) ∈ cols → getitem (assign d cols) l = Ok c.
Proof.
  revert d. induction cols as [|[l0 c0] cols IH]; intros d Hnd Hin.
  - by apply elem_of_nil in Hin.
  - apply NoDup_cons in Hnd as [Hl0 Hnd]. simpl.
    apply elem_of_cons in Hin as [[= -> ->]|Hin].
    + rewrite getitem_assign_notin by done. apply getitem_setitem_eq.
    + by apply IH.
Qed.

Lemma columns_assign d cols :
  NoDup cols.*1 → (∀ l, l ∈ cols.*1 → l ∉ columns d) →
  columns (assign d cols) = columns d ++ cols.*1.
Proof.
  revert d. induction cols as [|[l0 c0] cols IH]; intros d Hnd Hnew.
  - by rewrite app_nil_r.
  - apply NoDup_cons in Hnd as [Hl0 Hnd]. simpl.
    rewrite IH; [|done|].
    + rewrite columns_setitem_notin by (apply Hnew; left).
      by rewrite <- app_assoc.
    + intros l Hl. rewrite columns_setitem_notin by (apply Hnew; left).
      apply not_elem_of_app. split; [apply Hnew; by right|].
      apply not_elem_of_cons. split; [|apply not_elem_of_nil].
      intros ->. done.
Qed.

Lemma columns_assign_prefix d cols : columns d `prefix_of` columns (assign d cols).
Proof.
  revert d. induction cols as [|[l0 c0] cols IH]; intros d; [done|].
  simpl. etrans; [apply columns_setitem_prefix|apply IH].
Qed.

Lemma keeps_assign d cols : keeps cols.*1 d (assign d cols).
Proof.
  split; [apply columns_assign_prefix|]. intros. by apply getitem_assign_notin.
Qed.

Lemma nrows_setitem df lab c :
  df ≠ [] → length c = nrows df → nrows (setitem df lab c) = nrows df.
Proof.
  destruct df as [|[l0 c0] df]; [done|]. intros _ Hc. simpl.
  destruct (decide (l0 = lab)); done.
Qed.

Lemma setitem_ne_nil df lab c : setitem df lab c ≠ [].
Proof. destruct df as [|[l0 c0] df]; simpl; [done|]. by destruct (decide _). Qed.

Lemma wf_assign d cols :
  wf_frame d → d ≠ [] → Forall (fun lc => length lc.2 = nrows d) cols →
  wf_frame (assign d cols) ∧ nrows (assign d cols) = nrows d.
Proof.
  revert d. induction cols as [|[l0 c0] cols IH]; intros d Hwf Hne Hall; [done|].
  apply Forall_cons in Hall as [Hc Hall]. simpl in *.
  destruct (IH (setitem d l0 c0)) as [Hwf' Hn'].
  - by apply wf_setitem.
  - apply setitem_ne_nil.
  - by rewrite nrows_setitem.
  - split; [done|]. by rewrite Hn', nrows_setitem.
Qed.

End Assign.

Section TemporalTrace.
Import Pandas Features Spec.
Context `{PyLib}.

Ltac hoare_run :=
  lazymatch goal with
  | |- hoare _ _ (mbind _ (get _ _)) _ =>
      eapply hoare_bind; [apply hoare_get | intros ?]
  | |- hoare _ _ (mbind _ (set _ _ _)) _ =>
      eapply hoare_bind; [apply hoare_set | intros ?]
  | |- hoare _ _ (mbind _ (lift _)) _ =>
      eapply hoare_bind; [apply hoare_lift | intros ?]
  end.

Ltac split_conj :=
  repeat match goal with
  | H : _ ∧ _ |- _ => destruct H
  | H : ∃ _, _ |- _ => destruct H
  end.

Ltac simpl_getitems :=
  repeat match goal with
  | H : context [getitem (setitem _ ?l _) ?l'] |- _ =>
      first [ rewrite getitem_setitem_eq in H
            | rewrite getitem_setitem_ne in H by done ]
  end.

Lemma not_elem_of_temporal_labels l :
  l ∉ temporal_labels →
  "hour" ≠ l ∧ "day_of_week" ≠ l ∧ "day_of_month" ≠ l ∧ "month" ≠ l ∧ "year" ≠ l
  ∧ "week_of_year" ≠ l ∧ "hour_sin" ≠ l ∧ "hour_cos" ≠ l ∧ "day_sin" ≠ l
  ∧ "day_cos" ≠ l ∧ "month_sin" ≠ l ∧ "month_cos" ≠ l ∧ "is_weekend" ≠ l
  ∧ "is_business_hours" ≠ l ∧ "is_rush_hour" ≠ l.
Proof.
  intros Hn. split_and!; intros <-; apply Hn; unfold temporal_labels; elem_of_labels.
Qed.

Lemma add_temporal_features_assigns timestamp_col :
  timestamp_col ∉ temporal_labels →
  on_copy (fun df => add_temporal_features df timestamp_col)
    (fun d d' =>
       ∃ ts ts' cols,
         getitem d timestamp_col = Ok ts ∧ datetimes ts = Ok ts'
         ∧ temporal_columns ts' = Ok cols
         ∧ d' = assign (if is_datetime64_any_dtype ts then d
                        else setitem d timestamp_col ts') cols).
Proof.
  intros Hts. apply not_elem_of_temporal_labels in Hts.
  destruct Hts as (?&?&?&?&?&?&?&?&?&?&?&?&?&?&?).
  unfold add_temporal_features. apply on_copy_intro. intros l d0.
  eapply hoare_bind; [apply hoare_get|intros ts].
  eapply (hoare_bind _ _ _ _
            (fun _ d1 => getitem d0 timestamp_col = Ok ts
                         ∧ ∃ ts', datetimes ts = Ok ts'
                           ∧ getitem d1 timestamp_col = Ok ts'
                           ∧ d1 = if is_datetime64_any_dtype ts then d0
                                  else setitem d0 timestamp_col ts')).
  { apply hoare_if; intros Hdt.
    - apply negb_true_iff in Hdt.
      eapply hoare_bind; [apply hoare_lift|intros c].
      apply hoare_set'. intros d [[-> Hg] Hc]. split; [done|].
      exists c. unfold datetimes. rewrite Hdt. split_and!; [done| |done].
      apply getitem_setitem_eq.
    - apply negb_false_iff in Hdt.
      apply hoare_ret. intros d [-> Hg]. split; [done|].
      exists ts. unfold datetimes. by rewrite Hdt. }
  intros _.
  eapply hoare_conseq with
    (P := fun d1 => ∃ d1', d1 = d1'
                    ∧ getitem d0 timestamp_col = Ok ts
                    ∧ ∃ ts', datetimes ts = Ok ts'
                      ∧ getitem d1' timestamp_col = Ok ts'
                      ∧ d1' = if is_datetime64_any_dtype ts then d0
                              else setitem d0 timestamp_col ts');
    [intros d Hd; exists d; split; [done|exact Hd] | intros a d Hq; exact Hq |].
  repeat hoare_run.
  apply hoare_ret. intros d HP. split_conj.
  match goal with H : datetimes ts = Ok ?c |- _ => rename c into ts', H into Hdt end.
  match goal with H : getitem d0 timestamp_col = Ok _ |- _ => rename H into Hg0 end.
  match goal with H : ?x = (if _ then _ else _) |- _ => rename x into d1, H into Hd1 end.
  match goal with H : getitem d1 timestamp_col = Ok ts' |- _ => rename H into Hg1 end.
  revert Hd1. subst. intros Hd1. split; [done|].
  simpl_getitems.
  repeat match goal with
  | H : getitem d1 timestamp_col = Ok ?c |- _ =>
      assert_fails (constr_eq c ts');
      assert (c = ts') as -> by congruence; clear H
  end.
  repeat match goal with
  | H : Ok ?a = Ok ?b |- _ => injection H as H; subst b
  end.
  exists ts, ts'. eexists. split_and!; [done|done| |].
  - unfold temporal_columns.
    repeat match goal with
    | H : ?r = Ok _ |- context [?r] => rewrite H; cbn [mbind result_bind]
    end.
    reflexivity.
  - rewrite <- Hd1. reflexivity.
Qed.

End TemporalTrace.

Section TemporalColumns.
Import Pandas Features Spec.
Context `{PyLib}.

Lemma length_dt f a c : dt f a = Ok c → length c = length a.
Proof.
  unfold dt. destruct (is_datetime64_any_dtype a); [|done].
  intros [= <-]. by rewrite length_map.
Qed.

Lemma dt_lookup f a c i :
  dt f a = Ok c → c !! i = field_of f <$> a !! i.
Proof.
  unfold dt. destruct (is_datetime64_any_dtype a) eqn:Hdt; [|done].
  intros [= <-]. by rewrite list_lookup_fmap.
Qed.

Lemma length_cyclical f period a c : cyclical f period a = Ok c → length c = length a.
Proof.
  unfold cyclical, series_scale, series_div_scalar, np_apply.
  intros (x & Hx & (y & Hy & Hc)%bind_Ok)%bind_Ok.
  rewrite (mapR_Ok_length _ _ _ Hc), (mapR_Ok_length _ _ _ Hy).
  by rewrite (mapR_Ok_length _ _ _ Hx).
Qed.

Lemma length_series_ge a k m : series_ge a k = Ok m → length m = length a.
Proof. apply mapR_Ok_length. Qed.
Lemma length_series_le a k m : series_le a k = Ok m → length m = length a.
Proof. apply mapR_Ok_length. Qed.
Lemma length_series_and a b : length (series_and a b) = Nat.min (length a) (length b).
Proof. unfold series_and. by rewrite length_map, length_zip. Qed.
Lemma length_series_or a b : length (series_or a b) = Nat.min (length a) (length b).
Proof. unfold series_or. by rewrite length_map, length_zip. Qed.
Lemma length_astype_int m : length (astype_int m) = length m.
Proof. unfold astype_int. by rewrite length_map. Qed.
Lemma length_isin a vs : length (isin a vs) = length a.
Proof. unfold isin. by rewrite length_map. Qed.

Lemma length_to_datetime a c : to_datetime a = Ok c → length c = length a.
Proof. apply mapR_Ok_length. Qed.

Lemma to_datetime_is_datetime a c :
  to_datetime a = Ok c → is_datetime64_any_dtype c = true.
Proof.
  intros Hc. unfold is_datetime64_any_dtype. apply forallb_forall.
  intros v Hv%list_elem_of_In.
  destruct (mapR_Ok_elem _ _ _ _ Hc Hv) as (u & _ & Hu).
  destruct u as [x|s|s|t|]; simpl in Hu; try (by injection Hu as <-); [done|].
  destruct (parse_datetime s); simpl in Hu; [by injection Hu as <-|done].
Qed.

Lemma datetimes_Ok ts ts' :
  datetimes ts = Ok ts' →
  is_datetime64_any_dtype ts' = true ∧ length ts' = length ts.
Proof.
  unfold datetimes. destruct (is_datetime64_any_dtype ts) eqn:Hdt.
  - by intros [= <-].
  - intros Hc. split; [by eapply to_datetime_is_datetime|by eapply length_to_datetime].
Qed.

(** The columns one by one. *)
Lemma temporal_columns_Ok ts cols :
  temporal_columns ts = Ok cols →
  ∃ hour day_of_week day_of_month month year week_of_year
    hour_sin hour_cos day_sin day_cos month_sin month_cos ge8 le18 ge7 le9 ge16 le19,
    dt dt_hour ts = Ok hour ∧ dt dt_dayofweek ts = Ok day_of_week
    ∧ dt dt_day ts = Ok day_of_month ∧ dt dt_month ts = Ok month
    ∧ dt dt_year ts = Ok year ∧ dt dt_isoweek ts = Ok week_of_year
    ∧ cyclical np_sin 24 hour = Ok hour_sin ∧ cyclical np_cos 24 hour = Ok hour_cos
    ∧ cyclical np_sin 7 day_of_week = Ok day_sin
    ∧ cyclical np_cos 7 day_of_week = Ok day_cos
    ∧ cyclical np_sin 12 month = Ok month_sin ∧ cyclical np_cos 12 month = Ok month_cos
    ∧ series_ge hour 8 = Ok ge8 ∧ series_le hour 18 = Ok le18
    ∧ series_ge hour 7 = Ok ge7 ∧ series_le hour 9 = Ok le9
    ∧ series_ge hour 16 = Ok ge16 ∧ series_le hour 19 = Ok le19
    ∧ cols = [("hour", hour); ("day_of_week", day_of_week);
              ("day_of_month", day_of_month); ("month", month); ("year", year);
              ("week_of_year", week_of_year);
              ("hour_sin", hour_sin); ("hour_cos", hour_cos);
              ("day_sin", day_sin); ("day_cos", day_cos);
              ("month_sin", month_sin); ("month_cos", month_cos);
              ("is_weekend", astype_int (isin day_of_week [5%Q; 6%Q]));
              ("is_business_hours", astype_int (series_and ge8 le18));
              ("is_rush_hour",
               astype_int (series_or (series_and ge7 le9) (series_and ge16 le19)))].
Proof.
  unfold temporal_columns. intros Hc.
  repeat (apply bind_Ok in Hc as (? & ? & Hc)).
  injection Hc as <-. repeat eexists; eassumption.
Qed.

Lemma temporal_columns_labels ts cols :
  temporal_columns ts = Ok cols → cols.*1 = temporal_labels.
Proof.
  intros Hc. apply temporal_columns_Ok in Hc.
  destruct Hc as (?&?&?&?&?&?&?&?&?&?&?&?&?&?&?&?&?&?&Hc).
  destruct Hc as (?&?&?&?&?&?&?&?&?&?&?&?&?&?&?&?&?&?&->). done.
Qed.

Lemma temporal_columns_length ts cols :
  temporal_columns ts = Ok cols →
  Forall (fun lc => length lc.2 = length ts) cols.
Proof.
  intros Hc. apply temporal_columns_Ok in Hc.
  destruct Hc as (hour&dow&dom&month&year&week&hs&hc&ds&dc&ms&mc&ge8&le18&ge7&le9&ge16&le19&Hc).
  destruct Hc as (Hh&Hw&Hd&Hm&Hy&Hk&Hhs&Hhc&Hds&Hdc&Hms&Hmc&H8&H18&H7&H9&H16&H19&->).
  apply length_dt in Hh, Hw, Hd, Hm, Hy, Hk.
  apply length_cyclical in Hhs, Hhc, Hds, Hdc, Hms, Hmc.
  apply length_series_ge in H8, H7, H16. apply length_series_le in H18, H9, H19.
  repeat constructor; simpl;
    rewrite ?length_astype_int, ?length_isin, ?length_series_or, ?length_series_and; lia.
Qed.

End TemporalColumns.

Section TemporalRows.
Import Pandas Features Spec.
Context `{PyLib}.

Lemma within_lookup hour lo hi ge le i v :
  series_ge hour lo = Ok ge → series_le hour hi = Ok le → hour !! i = Some v →
  series_and ge le !! i = Some (within lo hi v).
Proof.
  intros Hge Hle Hv.
  destruct (mapR_Ok_lookup _ _ _ _ _ Hge Hv) as (b1 & Hb1 & Hc1).
  destruct (mapR_Ok_lookup _ _ _ _ _ Hle Hv) as (b2 & Hb2 & Hc2).
  unfold series_and. rewrite list_lookup_fmap, lookup_zip_with, Hb1, Hb2. simpl.
  f_equal.
  destruct v as [x|neg|s|t|]; simpl in Hc1, Hc2; try discriminate Hc1;
    injection Hc1 as <-; injection Hc2 as <-; simpl; [done|by destruct neg|done].
Qed.

Lemma weekend_lookup day_of_week i v :
  day_of_week !! i = Some v →
  astype_int (isin day_of_week [5%Q; 6%Q]) !! i = Some (flag (weekend_day v)).
Proof.
  intros Hv. unfold astype_int, isin. rewrite !list_lookup_fmap, Hv. simpl.
  f_equal. destruct v; try done. simpl. by rewrite orb_false_r.
Qed.

End TemporalRows.

Section TemporalFacts.
Import Pandas Features Spec.
Context `{PyLib}.

Ltac getitem_stack :=
  unfold assign; cbn [foldl fst snd];
  repeat first [ rewrite getitem_setitem_eq; reflexivity
               | rewrite getitem_setitem_ne by done ].

(** The frame that the fifteen columns are assigned to. *)
Lemma converted_frame d timestamp_col ts ts' :
  getitem d timestamp_col = Ok ts → datetimes ts = Ok ts' →
  let d1 := if is_datetime64_any_dtype ts then d else setitem d timestamp_col ts' in
  getitem d1 timestamp_col = Ok ts' ∧ columns d1 = columns d
  ∧ (wf_frame d → wf_frame d1 ∧ nrows d1 = nrows d ∧ length ts' = nrows d)
  ∧ d1 ≠ [].
Proof.
  intros Hg Hdt. unfold datetimes in Hdt. cbv zeta.
  destruct (is_datetime64_any_dtype ts) eqn:His.
  - injection Hdt as <-. split_and!; [done|done| |].
    + intros Hwf. split_and!; [done|done|by eapply wf_frame_length].
    + by destruct d.
  - pose proof (length_to_datetime _ _ Hdt) as Hlen. split_and!.
    + apply getitem_setitem_eq.
    + apply columns_setitem_in. by eapply getitem_Ok_columns.
    + intros Hwf. pose proof (wf_frame_length _ _ _ Hwf Hg) as Hts.
      assert (d ≠ []) by (by destruct d).
      split_and!; [apply wf_setitem; [done|]; intros _; lia
                  |apply nrows_setitem; [done|lia]|lia].
    + apply setitem_ne_nil.
Qed.

Lemma add_temporal_features_same_rows timestamp_col :
  timestamp_col ∉ temporal_labels →
  on_copy (fun df => add_temporal_features df timestamp_col) same_rows.
Proof.
  intros Hts. eapply on_copy_conseq; [|by apply add_temporal_features_assigns].
  intros d d' (ts & ts' & cols & Hg & Hdt & Hcols & ->) Hwf.
  destruct (converted_frame _ _ _ _ Hg Hdt) as (_ & _ & Hd1 & Hne).
  destruct (Hd1 Hwf) as (Hwf1 & Hn1 & Hlen). rewrite <- Hn1.
  apply wf_assign; [done|done|].
  eapply Forall_impl; [by apply temporal_columns_length|].
  intros lc Hlc. simpl in Hlc. lia.
Qed.

Lemma add_temporal_features_columns timestamp_col :
  timestamp_col ∉ temporal_labels →
  on_copy (fun df => add_temporal_features df timestamp_col)
    (fun d d' => (∀ l, l ∈ temporal_labels → l ∉ columns d) →
                 columns d' = columns d ++ temporal_labels).
Proof.
  intros Hts. eapply on_copy_conseq; [|by apply add_temporal_features_assigns].
  intros d d' (ts & ts' & cols & Hg & Hdt & Hcols & ->) Hnew.
  destruct (converted_frame _ _ _ _ Hg Hdt) as (_ & Hc1 & _).
  pose proof (temporal_columns_labels _ _ Hcols) as Hlab.
  rewrite columns_assign, Hc1, Hlab; [done| |].
  - rewrite Hlab. unfold temporal_labels. apply NoDup_ListNoDup.
    repeat (constructor; [simpl; intuition discriminate|]). constructor.
  - rewrite Hlab, Hc1. done.
Qed.

End TemporalFacts.

Section CalendarFeatures.
Import Pandas Features Spec.
Context `{PyLib}.

Ltac getitem_stack :=
  unfold assign; cbn [foldl fst snd];
  repeat first [ rewrite getitem_setitem_eq; reflexivity
               | rewrite getitem_setitem_ne by done ].

(** X1: the three flags that [add_temporal_features] assigns are read
    off the calendar columns of the result, row by row: [is_weekend] is
    1 when [day_of_week] is 5 or 6, [is_business_hours] is 1 when
    [8 <= hour <= 18], [is_rush_hour] is 1 when [7 <= hour <= 9] or
    [16 <= hour <= 19], and they are 0 otherwise, also in a row without
    a timestamp.  The timestamp column is not one of the columns that
    the function assigns. *)
Theorem boolean_features_of_calendar_fields timestamp_col :
  timestamp_col ∉ temporal_labels →
  on_copy (fun df => add_temporal_features df timestamp_col)
    (fun _ d' =>
       ∃ hour day_of_week is_weekend is_business_hours is_rush_hour,
         getitem d' "hour" = Ok hour ∧ getitem d' "day_of_week" = Ok day_of_week
         ∧ getitem d' "is_weekend" = Ok is_weekend
         ∧ getitem d' "is_business_hours" = Ok is_business_hours
         ∧ getitem d' "is_rush_hour" = Ok is_rush_hour
         ∧ ∀ i,
             (∀ v, day_of_week !! i = Some v →
                is_weekend !! i = Some (flag (weekend_day v)))
             ∧ (∀ v, hour !! i = Some v →
                  is_business_hours !! i = Some (flag (within 8 18 v))
                  ∧ is_rush_hour !! i
                    = Some (flag (within 7 9 v || within 16 19 v)))).
Proof.
  intros Hts. eapply on_copy_conseq; [|by apply add_temporal_features_assigns].
  intros d d' (ts & ts' & cols & Hg & Hdt & Hcols & ->).
  apply temporal_columns_Ok in Hcols.
  destruct Hcols as (hour&dow&dom&month&year&week&hs&hc&ds&dc&ms&mc&ge8&le18&ge7&le9&ge16&le19&Hc).
  destruct Hc as (Hh&Hw&Hd&Hm&Hy&Hk&Hhs&Hhc&Hds&Hdc&Hms&Hmc&H8&H18&H7&H9&H16&H19&->).
  eexists hour, dow, _, _, _. split_and!; [getitem_stack..|].
  intros i. split.
  - intros v Hv. by apply weekend_lookup.
  - intros v Hv. split.
    + unfold astype_int. rewrite list_lookup_fmap.
      by rewrite (within_lookup _ _ _ _ _ _ _ H8 H18 Hv).
    + unfold astype_int, series_or. rewrite !list_lookup_fmap, lookup_zip_with.
      rewrite (within_lookup _ _ _ _ _ _ _ H7 H9 Hv).
      by rewrite (within_lookup _ _ _ _ _ _ _ H16 H19 Hv).
Qed.

(** X2: [add_temporal_features] leaves a datetime column under the
    timestamp label, the column of the input converted by
    [pd.to_datetime] when it is not a datetime column already, and each
    of [hour], [day_of_week], [day_of_month], [month], [year] and
    [week_of_year] has one cell per row: that field of the row's
    timestamp, NaN where the timestamp is missing. *)
Theorem calendar_fields_of_timestamp timestamp_col :
  timestamp_col ∉ temporal_labels →
  on_copy (fun df => add_temporal_features df timestamp_col)
    (fun d d' =>
       ∃ ts ts',
         getitem d timestamp_col = Ok ts ∧ getitem d' timestamp_col = Ok ts'
         ∧ datetimes ts = Ok ts' ∧ is_datetime64_any_dtype ts' = true
         ∧ length ts' = length ts
         ∧ ∀ label accessor, (label, accessor) ∈ calendar_fields →
             ∃ c, getitem d' label = Ok c ∧ length c = length ts
                  ∧ ∀ i, c !! i = field_of accessor <$> ts' !! i).
Proof.
  intros Hts. eapply on_copy_conseq; [|by apply add_temporal_features_assigns].
  intros d d' (ts & ts' & cols & Hg & Hdt & Hcols & ->).
  destruct (converted_frame _ _ _ _ Hg Hdt) as (Hg1 & _ & _ & _).
  destruct (datetimes_Ok _ _ Hdt) as [His Hlen].
  exists ts, ts'. split_and!; try done.
  { rewrite getitem_assign_notin; [done|].
    by rewrite (temporal_columns_labels _ _ Hcols). }
  apply temporal_columns_Ok in Hcols.
  destruct Hcols as (hour&dow&dom&month&year&week&hs&hc&ds&dc&ms&mc&ge8&le18&ge7&le9&ge16&le19&Hc).
  destruct Hc as (Hh&Hw&Hd&Hm&Hy&Hk&Hhs&Hhc&Hds&Hdc&Hms&Hmc&H8&H18&H7&H9&H16&H19&->).
  intros label accessor Hin. unfold calendar_fields in Hin.
  repeat (apply elem_of_cons in Hin as [[= -> ->]|Hin]);
    [..|by apply elem_of_nil in Hin];
    eexists; (split_and!; [getitem_stack| |intros i; by eapply dt_lookup]);
    erewrite length_dt by eassumption; done.
Qed.

End CalendarFeatures.

Section TemporalExamples.
Import Pandas DataLoader Features Models Server Predict Train Spec Example.

Lemma boolean_features_of_calendar_fields_witness :
  ∃ d' is_weekend is_business_hours is_rush_hour,
    call (fun df => add_temporal_features df "timestamp") frame_with_hour = Ok d'
    ∧ getitem d' "is_weekend" = Ok is_weekend
    ∧ getitem d' "is_business_hours" = Ok is_business_hours
    ∧ getitem d' "is_rush_hour" = Ok is_rush_hour
    ∧ is_weekend !! 0%nat = Some (CNum 0)
    ∧ is_business_hours !! 0%nat = Some (CNum 1)
    ∧ is_rush_hour !! 0%nat = Some (CNum 1).
Proof.
  assert ("timestamp" ∉ temporal_labels) as Hts
    by (unfold temporal_labels; not_elem_of_labels).
  destruct (call (fun df => add_temporal_features df "timestamp") frame_with_hour)
    as [d'|e] eqn:E; [|vm_compute in E; discriminate E].
  destruct (on_copy_call _ _ _ _ (boolean_features_of_calendar_fields "timestamp" Hts) E)
    as (hour & dow & we & bh & rh & Hh & Hd & Hwe & Hbh & Hrh & Hrows).
  vm_compute in E. injection E as <-.
  vm_compute in Hh. injection Hh as <-. vm_compute in Hd. injection Hd as <-.
  destruct (Hrows 0%nat) as [Hw Hr]. destruct (Hr _ eq_refl) as [Hb Hu].
  eexists _, we, bh, rh. split_and!; [reflexivity|assumption..| | |].
  - exact (Hw _ eq_refl).
  - exact Hb.
  - exact Hu.
Defined.

Lemma calendar_fields_of_timestamp_witness :
  ∃ d' ts' hour,
    call (fun df => add_temporal_features df "timestamp") frame_with_text_timestamp
    = Ok d'
    ∧ getitem d' "timestamp" = Ok ts' ∧ getitem d' "hour" = Ok hour
    ∧ ts' = [CTime 1704096000000000000]
    ∧ hour !! 0%nat = Some (CNum 8).
Proof.
  assert ("timestamp" ∉ temporal_labels) as Hts
    by (unfold temporal_labels; not_elem_of_labels).
  assert (("hour", dt_hour) ∈ calendar_fields) as Hin
    by (unfold calendar_fields; elem_of_labels).
  destruct (call (fun df => add_temporal_features df "timestamp")
                 frame_with_text_timestamp)
    as [d'|e] eqn:E; [|vm_compute in E; discriminate E].
  destruct (on_copy_call _ _ _ _ (calendar_fields_of_timestamp "timestamp" Hts) E)
    as (ts & ts' & Hg & Hg' & Hdt & _ & _ & Hfields).
  destruct (Hfields "hour" dt_hour Hin) as (hour & Hh & _ & Hrows).
  assert (ts' = [CTime 1704096000000000000]) as Hts'.
  { injection Hg as <-. vm_compute in Hdt. injection Hdt as <-. reflexivity. }
  exists d', ts', hour. split_and!; [reflexivity|assumption..|].
  rewrite Hrows, Hts'. vm_compute. reflexivity.
Defined.

End TemporalExamples.

(** ** Lag and rolling features over the whole frame *)

Section LoopFacts.
Import Pandas Features Spec.
Context `{PyLib}.

Lemma mapR_app {A B} (f : A → result B) l1 l2 r1 r2 :
  mapR f l1 = Ok r1 → mapR f l2 = Ok r2 → mapR f (l1 ++ l2) = Ok (r1 ++ r2).
Proof.
  revert r1. induction l1 as [|x l1 IH]; intros r1 H1 H2; simpl in *.
  - by injection H1 as <-.
  - apply bind_Ok in H1 as (y & Hy & H1). apply bind_Ok in H1 as (ys & Hys & H1).
    injection H1 as <-. rewrite Hy. simpl. by rewrite (IH _ Hys H2).
Qed.

Lemma getitem_nil_Err lab c : getitem [] lab = Ok c → False.
Proof. done. Qed.

Lemma getitem_ne_nil d lab c : getitem d lab = Ok c → d ≠ [].
Proof. by destruct d. Qed.

Lemma rows_of_setitem d0 d lab c lab0 c0 :
  rows_of d0 d → getitem d lab0 = Ok c0 → length c = length c0 →
  rows_of d0 (setitem d lab c).
Proof.
  intros [Hwf Hn] Hg Hlen.
  pose proof (wf_frame_length _ _ _ Hwf Hg) as Hc0.
  pose proof (getitem_ne_nil _ _ _ Hg) as Hne.
  split.
  - apply wf_setitem; [done|]. intros _. lia.
  - rewrite nrows_setitem; [done|done|lia].
Qed.

Lemma length_groupby_shift keys vals n c :
  groupby_shift keys vals n = Ok c → length c = length keys.
Proof. apply groupby_transform_length. Qed.

Lemma length_rolling w agg a c : rolling w agg a = Ok c → length c = length a.
Proof. intros Hr. by destruct (rolling_Ok _ _ _ _ Hr) as (_ & ? & _). Qed.

Lemma add_lag_features_same_rows target_col lags group_col :
  on_copy (fun df => add_lag_features df target_col lags group_col) same_rows.
Proof.
  unfold add_lag_features. apply on_copy_intro. intros l d0.
  eapply hoare_bind;
    [|intros ?; apply hoare_ret; intros d Hd; split; [done|exact Hd]].
  eapply hoare_conseq with (Q := fun _ d => wf_frame d0 → rows_of d0 d);
    [| |apply (hoare_for_each l lags _ (fun _ d => wf_frame d0 → rows_of d0 d))].
  { intros d -> Hwf. by split. }
  { intros _ d Hd Hwf. by apply Hd. }
  intros done n _.
  destruct (truthy group_col) as [g|].
  - eapply hoare_bind; [apply hoare_get|intros keys].
    eapply hoare_bind; [apply hoare_get|intros vals].
    eapply hoare_bind; [apply hoare_lift|intros c].
    apply hoare_set'. intros d [[[Hr Hk] Hv] Hc] Hwf.
    eapply rows_of_setitem; [by apply Hr|exact Hk|].
    by eapply length_groupby_shift.
  - eapply hoare_bind; [apply hoare_get|intros vals].
    apply hoare_set'. intros d [Hr Hv] Hwf.
    eapply rows_of_setitem; [by apply Hr|exact Hv|]. apply length_shift.
Qed.

Lemma add_rolling_features_same_rows target_col windows group_col :
  on_copy (fun df => add_rolling_features df target_col windows group_col) same_rows.
Proof.
  unfold add_rolling_features. apply on_copy_intro. intros l d0.
  eapply hoare_bind;
    [|intros ?; apply hoare_ret; intros d Hd; split; [done|exact Hd]].
  eapply hoare_conseq with (Q := fun _ d => wf_frame d0 → rows_of d0 d);
    [| |apply (hoare_for_each l windows _ (fun _ d => wf_frame d0 → rows_of d0 d))].
  { intros d -> Hwf. by split. }
  { intros _ d Hd Hwf. by apply Hd. }
  intros done w _.
  destruct (truthy group_col) as [g|].
  - eapply hoare_bind; [apply hoare_get|intros keys].
    eapply hoare_bind; [apply hoare_get|intros vals].
    set (P := fun d : frame => d ≠ [] ∧ (wf_frame d0 → rows_of d0 d
                                          ∧ length keys = nrows d0)).
    eapply hoare_conseq with (P := P) (Q := fun _ d => P d).
    { intros d [[Hr Hk] Hv]. split; [by eapply getitem_ne_nil|].
      intros Hwf. destruct (Hr Hwf) as [Hwf' Hn]. split; [done|].
      rewrite <- Hn. by eapply wf_frame_length. }
    { intros _ d [_ Hd] Hwf. by apply Hd. }
    assert (∀ agg lab c,
              hoare l (fun d => P d ∧ groupby_transform keys vals (rolling w agg) = Ok c)
                    (set l lab c) (fun _ d => P d)) as Hset.
    { intros agg lab c. apply hoare_set'. intros d [[Hne Hd] Hc].
      split; [apply setitem_ne_nil|]. intros Hwf.
      destruct (Hd Hwf) as [[Hwf' Hn] Hk]. split; [|done].
      apply groupby_transform_length in Hc. split.
      - apply wf_setitem; [done|]. intros _. lia.
      - rewrite nrows_setitem; [done|done|lia]. }
    eapply hoare_bind; [apply hoare_lift|intros c1].
    eapply hoare_bind; [apply Hset|intros ?].
    eapply hoare_bind; [apply hoare_lift|intros c2].
    eapply hoare_bind; [apply Hset|intros ?].
    eapply hoare_bind; [apply hoare_lift|intros c3].
    eapply hoare_bind; [apply Hset|intros ?].
    eapply hoare_bind; [apply hoare_lift|intros c4].
    apply Hset.
  - set (J := fun d : frame => wf_frame d0 → rows_of d0 d).
    assert (∀ agg lab vals c,
              hoare l (fun d => (J d ∧ getitem d target_col = Ok vals)
                                ∧ rolling w agg vals = Ok c)
                    (set l lab c) (fun _ d => J d)) as Hset.
    { intros agg lab vals c. apply hoare_set'. intros d [[Hr Hv] Hc] Hwf.
      eapply rows_of_setitem; [by apply Hr|exact Hv|]. by eapply length_rolling. }
    eapply hoare_bind; [apply hoare_get|intros vals1].
    eapply hoare_bind; [apply hoare_lift|intros c1].
    eapply hoare_bind; [apply Hset|intros ?].
    eapply hoare_bind; [apply hoare_get|intros vals2].
    eapply hoare_bind; [apply hoare_lift|intros c2].
    eapply hoare_bind; [apply Hset|intros ?].
    eapply hoare_bind; [apply hoare_get|intros vals3].
    eapply hoare_bind; [apply hoare_lift|intros c3].
    eapply hoare_bind; [apply Hset|intros ?].
    eapply hoare_bind; [apply hoare_get|intros vals4].
    eapply hoare_bind; [apply hoare_lift|intros c4].
    apply Hset.
Qed.

Lemma same_rows_trans d1 d2 d3 : same_rows d1 d2 → same_rows d2 d3 → same_rows d1 d3.
Proof.
  intros H12 H23 Hwf. destruct (H12 Hwf) as [Hwf2 Hn2].
  destruct (H23 Hwf2) as [Hwf3 Hn3]. split; [done|congruence].
Qed.

Lemma create_all_features_same_rows target_col timestamp_col group_col :
  timestamp_col ∉ temporal_labels →
  on_copy (fun df => create_all_features df target_col timestamp_col group_col)
          same_rows.
Proof.
  intros Hts. unfold create_all_features.
  eapply on_copy_conseq;
    [|apply (on_copy_compose _ _ _ _ on_copy_copy
               (on_copy_compose _ _ _ _ (add_temporal_features_same_rows _ Hts)
                  (on_copy_compose _ _ _ _
                     (add_lag_features_same_rows target_col default_lags group_col)
                     (on_copy_ret _ _
                        (add_rolling_features_same_rows target_col default_windows
                           group_col)))))].
  intros d d' (d0 & -> & d1 & Ht & d2 & Hl & Hr).
  eapply same_rows_trans; [exact Ht|]. eapply same_rows_trans; [exact Hl|exact Hr].
Qed.

End LoopFacts.

Section LoopTrace.
Import Pandas Features Spec.
Context `{PyLib}.

Lemma lag_columns_labels d target_col group_col lags cols :
  lag_columns d target_col group_col lags = Ok cols →
  cols.*1 = lag_label target_col <$> lags.
Proof.
  unfold lag_columns. revert cols.
  induction lags as [|n lags IH]; intros cols Hc; simpl in Hc.
  - by injection Hc as <-.
  - apply bind_Ok in Hc as ([l c] & (c' & _ & [= <- <-])%bind_Ok & Hc).
    apply bind_Ok in Hc as (cols' & Hcols & [= <-]).
    simpl. f_equal. by apply IH.
Qed.

Lemma add_lag_features_assigns target_col lags group_col :
  (∀ g n, truthy group_col = Some g → n ∈ lags → lag_label target_col n ≠ g) →
  on_copy (fun df => add_lag_features df target_col lags group_col)
    (fun d d' => ∃ cols, lag_columns d target_col group_col lags = Ok cols
                         ∧ d' = assign d cols).
Proof.
  intros Hlab. unfold add_lag_features. apply on_copy_intro. intros l d0.
  eapply hoare_bind;
    [|intros ?; apply hoare_ret; intros d Hd; split; [done|exact Hd]].
  set (I := fun (done : list Z) (d : frame) =>
              ∃ cols, lag_columns d0 target_col group_col done = Ok cols
                      ∧ d = assign d0 cols).
  eapply hoare_conseq; [| |apply (hoare_for_each l lags _ I)].
  { intros d ->. by exists []. }
  { done. }
  intros done n Hpre.
  assert (n ∈ lags) as Hn.
  { destruct Hpre as [rest ->]. rewrite !elem_of_app, list_elem_of_singleton. auto. }
  assert (∀ m, m ∈ done → m ∈ lags) as Hdone.
  { intros m Hm. destruct Hpre as [rest ->]. rewrite !elem_of_app. auto. }
  assert (∀ cols, lag_columns d0 target_col group_col done = Ok cols →
            target_col ∉ cols.*1) as Htn.
  { intros cols ->%lag_columns_labels (m & Hm & Hin)%list_elem_of_fmap.
    exact (lag_label_ne_target target_col m (eq_sym Hm)). }
  assert (∀ c, lag_column d0 target_col group_col n = Ok c →
            ∀ d, I done d → I (done ++ [n]) (setitem d (lag_label target_col n) c))
    as Hstep.
  { intros c Hc d (cols & Hcols & ->). exists (cols ++ [(lag_label target_col n, c)]).
    split; [|by rewrite assign_snoc].
    unfold lag_columns. apply mapR_app; [exact Hcols|]. simpl. by rewrite Hc. }
  unfold lag_column in Hstep.
  destruct (truthy group_col) as [g|] eqn:Hg.
  - eapply hoare_bind; [apply hoare_get|intros keys].
    eapply hoare_bind; [apply hoare_get|intros vals].
    eapply hoare_bind; [apply hoare_lift|intros c].
    apply hoare_set'. intros d [[[HI Hk] Hv] Hc]. apply Hstep; [|done].
    destruct HI as (cols & Hcols & ->).
    rewrite getitem_assign_notin in Hk.
    2: { rewrite (lag_columns_labels _ _ _ _ _ Hcols).
         intros (m & Hm & Hin)%list_elem_of_fmap.
         exact (Hlab g m eq_refl (Hdone m Hin) (eq_sym Hm)). }
    rewrite getitem_assign_notin in Hv by by apply Htn.
    by rewrite Hk, Hv.
  - eapply hoare_bind; [apply hoare_get|intros vals].
    apply hoare_set'. intros d [HI Hv]. apply Hstep; [|done].
    destruct HI as (cols & Hcols & ->).
    rewrite getitem_assign_notin in Hv by by apply Htn.
    by rewrite Hv.
Qed.

End LoopTrace.

Section RollingTrace.
Import Pandas Features Spec.
Context `{PyLib}.

Lemma rolling_columns_labels d target_col group_col windows cols :
  rolling_columns d target_col group_col windows = Ok cols →
  cols.*1 = (w ← windows; window_labels target_col w).
Proof.
  unfold rolling_columns. revert cols.
  induction windows as [|w windows IH]; intros cols Hc.
  - by injection Hc as <-.
  - change ((w :: windows) ≫= (fun w => [(w, Mean); (w, Std); (w, Max); (w, Min)]))
      with ((w, Mean) :: (w, Std) :: (w, Max) :: (w, Min)
            :: (windows ≫= (fun w => [(w, Mean); (w, Std); (w, Max); (w, Min)]))) in Hc.
    cbn [mapR] in Hc.
    apply bind_Ok in Hc as ([l1 c1] & (c1' & _ & [= <- <-])%bind_Ok & Hc).
    apply bind_Ok in Hc as (r1 & Hc & [= <-]).
    apply bind_Ok in Hc as ([l2 c2] & (c2' & _ & [= <- <-])%bind_Ok & Hc).
    apply bind_Ok in Hc as (r2 & Hc & [= <-]).
    apply bind_Ok in Hc as ([l3 c3] & (c3' & _ & [= <- <-])%bind_Ok & Hc).
    apply bind_Ok in Hc as (r3 & Hc & [= <-]).
    apply bind_Ok in Hc as ([l4 c4] & (c4' & _ & [= <- <-])%bind_Ok & Hc).
    apply bind_Ok in Hc as (r4 & Hc & [= <-]).
    simpl. do 4 f_equal. by apply IH.
Qed.

Lemma rolling_columns_snoc d target_col group_col done w cols c1 c2 c3 c4 :
  rolling_columns d target_col group_col done = Ok cols →
  rolling_column d target_col group_col w Mean = Ok c1 →
  rolling_column d target_col group_col w Std = Ok c2 →
  rolling_column d target_col group_col w Max = Ok c3 →
  rolling_column d target_col group_col w Min = Ok c4 →
  rolling_columns d target_col group_col (done ++ [w])
  = Ok (cols ++ [(rolling_label target_col "mean" w, c1);
                 (rolling_label target_col "std" w, c2);
                 (rolling_label target_col "max" w, c3);
                 (rolling_label target_col "min" w, c4)]).
Proof.
  intros Hcols H1 H2 H3 H4. unfold rolling_columns.
  rewrite bind_app. apply mapR_app; [exact Hcols|].
  simpl. by rewrite H1, H2, H3, H4.
Qed.

Lemma add_rolling_features_assigns target_col windows group_col :
  (∀ g w s, truthy group_col = Some g → w ∈ windows →
     rolling_label target_col (stat_name s) w ≠ g) →
  on_copy (fun df => add_rolling_features df target_col windows group_col)
    (fun d d' => ∃ cols, rolling_columns d target_col group_col windows = Ok cols
                         ∧ d' = assign d cols).
Proof.
  intros Hlab. unfold add_rolling_features. apply on_copy_intro. intros l d0.
  eapply hoare_bind;
    [|intros ?; apply hoare_ret; intros d Hd; split; [done|exact Hd]].
  set (I := fun (done : list Z) (d : frame) =>
              ∃ cols, rolling_columns d0 target_col group_col done = Ok cols
                      ∧ d = assign d0 cols).
  eapply hoare_conseq; [| |apply (hoare_for_each l windows _ I)].
  { intros d ->. by exists []. }
  { done. }
  intros done w Hpre.
  assert (w ∈ windows) as Hw.
  { destruct Hpre as [rest ->]. rewrite !elem_of_app, list_elem_of_singleton. auto. }
  assert (∀ m, m ∈ done → m ∈ windows) as Hdone.
  { intros m Hm. destruct Hpre as [rest ->]. rewrite !elem_of_app. auto. }
  assert (∀ cols, rolling_columns d0 target_col group_col done = Ok cols →
            target_col ∉ cols.*1) as Htn.
  { intros cols ->%rolling_columns_labels.
    intros (m & (s & Hs)%elem_of_window_labels & Hin)%list_elem_of_bind.
    exact (rolling_label_ne_target _ _ _ (eq_sym Hs)). }
  assert (∀ s, target_col ≠ rolling_label target_col (stat_name s) w) as Hts.
  { intros s Heq. exact (rolling_label_ne_target _ _ _ (eq_sym Heq)). }
  pose proof (rolling_columns_snoc d0 target_col group_col done w) as Hsnoc.
  unfold rolling_column in Hsnoc.
  destruct (truthy group_col) as [g|] eqn:Hg.
  - eapply hoare_bind; [apply hoare_get|intros keys].
    eapply hoare_bind; [apply hoare_get|intros vals].
    eapply hoare_bind; [apply hoare_lift|intros c1].
    eapply hoare_bind; [apply hoare_set|intros ?].
    eapply hoare_bind; [apply hoare_lift|intros c2].
    eapply hoare_bind; [apply hoare_set|intros ?].
    eapply hoare_bind; [apply hoare_lift|intros c3].
    eapply hoare_bind; [apply hoare_set|intros ?].
    eapply hoare_bind; [apply hoare_lift|intros c4].
    apply hoare_set'. intros d HP.
    destruct HP as [(d3 & [(d2 & [(d1 & [[[HI Hk] Hv] Hc1] & ->) Hc2] & ->)
                              Hc3] & ->) Hc4].
    destruct HI as (cols & Hcols & ->).
    rewrite getitem_assign_notin in Hk.
    2: { rewrite (rolling_columns_labels _ _ _ _ _ Hcols).
         intros (m & (s & Hs)%elem_of_window_labels & Hin)%list_elem_of_bind.
         exact (Hlab g m s eq_refl (Hdone m Hin) (eq_sym Hs)). }
    rewrite getitem_assign_notin in Hv by by apply Htn.
    exists (cols ++ [(rolling_label target_col "mean" w, c1);
                     (rolling_label target_col "std" w, c2);
                     (rolling_label target_col "max" w, c3);
                     (rolling_label target_col "min" w, c4)]).
    split.
    + apply Hsnoc; [done|..]; by rewrite Hk, Hv.
    + unfold assign. by rewrite foldl_app.
  - eapply hoare_bind; [apply hoare_get|intros vals1].
    eapply hoare_bind; [apply hoare_lift|intros c1].
    eapply hoare_bind; [apply hoare_set|intros ?].
    eapply hoare_bind; [apply hoare_get|intros vals2].
    eapply hoare_bind; [apply hoare_lift|intros c2].
    eapply hoare_bind; [apply hoare_set|intros ?].
    eapply hoare_bind; [apply hoare_get|intros vals3].
    eapply hoare_bind; [apply hoare_lift|intros c3].
    eapply hoare_bind; [apply hoare_set|intros ?].
    eapply hoare_bind; [apply hoare_get|intros vals4].
    eapply hoare_bind; [apply hoare_lift|intros c4].
    apply hoare_set'. intros d HP.
    destruct HP as [[(d3 & [[(d2 & [[(d1 & [[HI Hv1] Hc1] & ->) Hv2] Hc2] & ->) Hv3]
                              Hc3] & ->) Hv4] Hc4].
    destruct HI as (cols & Hcols & ->).
    rewrite getitem_assign_notin in Hv1 by by apply Htn.
    repeat match goal with
    | Hv : context [getitem (setitem _ _ _) target_col] |- _ =>
        rewrite getitem_setitem_ne in Hv
          by first [exact (fun Heq => Hts Mean (eq_sym Heq))
                   |exact (fun Heq => Hts Std (eq_sym Heq))
                   |exact (fun Heq => Hts Max (eq_sym Heq))]
    end.
    rewrite getitem_assign_notin in Hv2, Hv3, Hv4 by by apply Htn.
    assert (vals2 = vals1) as -> by congruence.
    assert (vals3 = vals1) as -> by congruence.
    assert (vals4 = vals1) as -> by congruence.
    exists (cols ++ [(rolling_label target_col "mean" w, c1);
                     (rolling_label target_col "std" w, c2);
                     (rolling_label target_col "max" w, c3);
                     (rolling_label target_col "min" w, c4)]).
    split.
    + apply Hsnoc; [done|..]; by rewrite Hv1.
    + unfold assign. by rewrite foldl_app.
Qed.

End RollingTrace.

Section Ungrouped.
Import Pandas Features Spec.
Context `{PyLib}.

Lemma mapR_snoc_inv {A B} (f : A → result B) l x r :
  mapR f (l ++ [x]) = Ok r → ∃ r' y, mapR f l = Ok r' ∧ f x = Ok y ∧ r = r' ++ [y].
Proof.
  revert r. induction l as [|a l IH]; intros r Hr; simpl in Hr.
  - apply bind_Ok in Hr as (y & Hy & [= <-]). by exists [], y.
  - apply bind_Ok in Hr as (b & Hb & Hr). apply bind_Ok in Hr as (r0 & Hr0 & [= <-]).
    destruct (IH _ Hr0) as (r' & y & Hr' & Hy & ->).
    exists (b :: r'), y. simpl. by rewrite Hb, Hr'.
Qed.

(** The column under the label of an element of the list. *)
Lemma getitem_assign_mapR {A} (label : A → string) (col : A → result column)
    d xs cols x c :
  Inj (=) (=) label →
  mapR (fun x => c ← col x; Ok (label x, c)) xs = Ok cols →
  x ∈ xs → col x = Ok c →
  getitem (assign d cols) (label x) = Ok c.
Proof.
  intros Hinj. revert cols. induction xs as [|y xs IH] using rev_ind; intros cols Hm Hx Hc.
  - by apply elem_of_nil in Hx.
  - apply mapR_snoc_inv in Hm as (cols' & [l0 c0] & Hm & Hy & ->).
    apply bind_Ok in Hy as (cy & Hcy & [= <- <-]).
    rewrite assign_snoc.
    destruct (decide (label y = label x)) as [Heq|Hne].
    + apply Hinj in Heq as ->. rewrite getitem_setitem_eq. congruence.
    + rewrite getitem_setitem_ne by done.
      apply elem_of_app in Hx as [Hx|Hx%list_elem_of_singleton]; [|congruence].
      by apply IH.
Qed.

Lemma shift_lookup n a i :
  (i < length a)%nat → shift n a !! i = shifted a i n.
Proof.
  intros Hi. unfold shifted. destruct n as [|q|q].
  - rewrite shift_0. rewrite decide_True by lia. f_equal. lia.
  - rewrite shift_pos_lookup by done.
    destruct (decide (i < Pos.to_nat q)%nat).
    + rewrite decide_False by lia. done.
    + rewrite decide_True by lia. f_equal. lia.
  - rewrite shift_neg_lookup by done.
    destruct (decide (i + Pos.to_nat q < length a)%nat).
    + rewrite decide_True by lia. f_equal. lia.
    + rewrite decide_False by lia. done.
Qed.

(** X3: without a grouping column ([group_col] is [None] or the empty
    string) the column [<target>_lag_<n>] of [add_lag_features] is the
    target shifted over the whole frame: row [i] holds the target of row
    [i - n], and NaN when the frame has no such row. *)
Theorem lag_feature_without_group target_col lags group_col :
  truthy group_col = None →
  on_copy (fun df => add_lag_features df target_col lags group_col)
    (fun d d' =>
       ∀ n, n ∈ lags →
         ∃ target lagged,
           getitem d target_col = Ok target
           ∧ getitem d' (lag_label target_col n) = Ok lagged
           ∧ length lagged = length target
           ∧ ∀ i, (i < length target)%nat → lagged !! i = shifted target i n).
Proof.
  intros Hg. eapply on_copy_conseq; [|apply add_lag_features_assigns].
  2: { intros g n Hg'. congruence. }
  intros d d' (cols & Hcols & ->) n Hn.
  assert (∃ c, lag_column d target_col group_col n = Ok c) as [c Hc].
  { unfold lag_columns in Hcols.
    apply list_elem_of_lookup in Hn as [k Hk].
    destruct (mapR_Ok_lookup _ _ _ _ _ Hcols Hk) as ([l0 c0] & _ & Hb).
    apply bind_Ok in Hb as (c & Hc & _). eauto. }
  pose proof (getitem_assign_mapR (lag_label target_col)
                (lag_column d target_col group_col) d lags cols n c
                (lag_label_inj target_col) Hcols Hn Hc) as Hget.
  unfold lag_column in Hc. rewrite Hg in Hc.
  apply bind_Ok in Hc as (target & Ht & [= <-]).
  exists target, (shift n target). split_and!; [done|done|apply length_shift|].
  intros i Hi. by apply shift_lookup.
Qed.

Lemma rolling_label_pair_inj target_col :
  Inj (=) (=) (fun ws : Z * stat => rolling_label target_col (stat_name ws.2) ws.1).
Proof.
  intros [w s] [w' s'] Heq. simpl in Heq.
  apply rolling_label_inj in Heq as [-> ->]. done.
Qed.

(** X4: without a grouping column the four rolling columns of a
    window [w] hold, at row [i], the mean, the standard deviation, the
    maximum and the minimum of the finite targets among the rows
    [i - w + 1 .. i] of the whole frame (fewer at the top of the
    frame); a window below 1 is refused. *)
Theorem rolling_features_without_group target_col windows group_col :
  truthy group_col = None →
  on_copy (fun df => add_rolling_features df target_col windows group_col)
    (fun d d' =>
       ∀ w, w ∈ windows →
         1 <= w
         ∧ ∃ target,
             getitem d target_col = Ok target
             ∧ ∀ s, ∃ col,
                 getitem d' (rolling_label target_col (stat_name s) w) = Ok col
                 ∧ length col = length target
                 ∧ ∀ i, (i < length target)%nat →
                     col !! i = Some (stat_agg s (trailing target i (Z.to_nat w)))).
Proof.
  intros Hg. eapply on_copy_conseq; [|apply add_rolling_features_assigns].
  2: { intros g w s Hg'. congruence. }
  intros d d' (cols & Hcols & ->) w Hw.
  assert (∀ s, ∃ c, rolling_column d target_col group_col w s = Ok c
                    ∧ getitem (assign d cols) (rolling_label target_col (stat_name s) w)
                      = Ok c) as Hstat.
  { intros s. unfold rolling_columns in Hcols.
    assert ((w, s) ∈ (w ← windows; [(w, Mean); (w, Std); (w, Max); (w, Min)])) as Hin.
    { apply list_elem_of_bind. exists w. split; [|done]. destruct s; elem_of_labels. }
    pose proof Hin as [k Hk]%list_elem_of_lookup.
    destruct (mapR_Ok_lookup _ _ _ _ _ Hcols Hk) as ([l0 c0] & _ & Hb).
    apply bind_Ok in Hb as (c & Hc & _). exists c. split; [done|].
    by apply (getitem_assign_mapR
                (fun ws : Z * stat => rolling_label target_col (stat_name ws.2) ws.1)
                (fun ws => rolling_column d target_col group_col ws.1 ws.2)
                d _ cols (w, s) c (rolling_label_pair_inj target_col) Hcols Hin). }
  unfold rolling_column in Hstat. rewrite Hg in Hstat.
  destruct (Hstat Mean) as (c0 & (target & Ht & Hr0)%bind_Ok & _).
  destruct (rolling_Ok _ _ _ _ Hr0) as (Hw1 & _ & _).
  split; [done|]. exists target. split; [done|].
  intros s. destruct (Hstat s) as (c & (target' & Ht' & Hr)%bind_Ok & Hget).
  assert (target' = target) as -> by congruence.
  destruct (rolling_Ok _ _ _ _ Hr) as (_ & Hlen & Hrows).
  exists c. split_and!; [done|done|]. intros i Hi. by apply Hrows.
Qed.

End Ungrouped.

Section UngroupedExamples.
Import Pandas DataLoader Features Models Server Predict Train Spec Example.

Lemma lag_feature_without_group_witness :
  ∃ d' lagged,
    call (fun df => add_lag_features df "occupancy_rate" [1; 2] None) occupancy_frame
    = Ok d'
    ∧ getitem d' "occupancy_rate_lag_2" = Ok lagged
    ∧ lagged !! 4%nat = Some (CNum 60) ∧ lagged !! 1%nat = Some CNaN.
Proof.
  assert (2 ∈ [1; 2]) as Hin by elem_of_labels.
  destruct (call (fun df => add_lag_features df "occupancy_rate" [1; 2] None)
                 occupancy_frame) as [d'|e] eqn:E; [|vm_compute in E; discriminate E].
  destruct (on_copy_call _ _ _ _
              (lag_feature_without_group "occupancy_rate" [1; 2] None eq_refl) E
              2 Hin)
    as (target & lagged & Ht & Hc & _ & Hrows).
  injection Ht as <-.
  exists d', lagged. split_and!; [reflexivity|exact Hc|..].
  - rewrite (Hrows 4%nat) by (simpl; lia). reflexivity.
  - rewrite (Hrows 1%nat) by (simpl; lia). reflexivity.
Defined.

Lemma rolling_features_without_group_witness :
  ∃ d' col,
    call (fun df => add_rolling_features df "occupancy_rate" [3] None) occupancy_frame
    = Ok d'
    ∧ getitem d' "occupancy_rate_rolling_max_3" = Ok col
    ∧ col !! 4%nat = Some (CNum 60) ∧ col !! 0%nat = Some (CNum 20).
Proof.
  assert (3 ∈ [3]) as Hin by elem_of_labels.
  destruct (call (fun df => add_rolling_features df "occupancy_rate" [3] None)
                 occupancy_frame) as [d'|e] eqn:E; [|vm_compute in E; discriminate E].
  destruct (on_copy_call _ _ _ _
              (rolling_features_without_group "occupancy_rate" [3] None eq_refl) E
              3 Hin)
    as (_ & target & Ht & Hstat).
  injection Ht as <-.
  destruct (Hstat Max) as (col & Hc & _ & Hrows).
  exists d', col. split_and!; [reflexivity|exact Hc|..].
  - rewrite (Hrows 4%nat) by (simpl; lia). reflexivity.
  - rewrite (Hrows 0%nat) by (simpl; lia). reflexivity.
Defined.

End UngroupedExamples.

(** ** Short histories *)

Section MergedFrames.
Import Pandas DataLoader Features Server Spec.
Context `{PyLib}.

Lemma join_pairs_range lk rk i j :
  (i, j) ∈ join_pairs lk rk → (i < length lk)%nat ∧ (j < length rk)%nat.
Proof.
  intros Hin%elem_of_join_pairs.
  destruct (lk !! i) eqn:Hi; [|done]. destruct (rk !! j) eqn:Hj; [|done].
  apply lookup_lt_Some in Hi, Hj. done.
Qed.

Lemma wf_merge left right left_on right_on suffixes merged :
  wf_frame left → wf_frame right →
  merge left right left_on right_on suffixes = Ok merged →
  wf_frame merged.
Proof.
  intros Hwfl Hwfr. unfold merge. intros Hm.
  apply bind_Ok in Hm as (lk & Hlk & Hm). apply bind_Ok in Hm as (rk & Hrk & Hm).
  cbv zeta in Hm. destruct (bool_decide _); [|done]. injection Hm as <-.
  pose proof (wf_frame_length _ _ _ Hwfl Hlk) as Hl.
  pose proof (wf_frame_length _ _ _ Hwfr Hrk) as Hr.
  apply (wf_frame_uniform _ (length (join_pairs lk rk))).
  apply Forall_app. split; apply Forall_forall;
    intros lc (lc0 & -> & Hin)%list_elem_of_fmap; simpl.
  - rewrite length_gather, length_map; [done|].
    intros i ([i' j] & -> & Hp)%list_elem_of_fmap. simpl.
    apply join_pairs_range in Hp as [Hi _].
    unfold wf_frame in Hwfl. rewrite Forall_forall in Hwfl.
    rewrite (Hwfl _ Hin). lia.
  - rewrite length_gather, length_map; [done|].
    intros j ([i j'] & -> & Hp)%list_elem_of_fmap. simpl.
    apply join_pairs_range in Hp as [_ Hj].
    unfold wf_frame in Hwfr. rewrite Forall_forall in Hwfr.
    rewrite (Hwfr _ Hin). lia.
Qed.

Lemma wf_select df labels X : wf_frame df → select df labels = Ok X → wf_frame X.
Proof.
  intros Hwf Hs. apply (wf_frame_uniform _ (nrows df)).
  apply Forall_forall. intros [l c] Hin.
  unfold select in Hs.
  destruct (mapR_Ok_elem _ _ _ _ Hs Hin) as (l' & _ & Hb).
  apply bind_Ok in Hb as (c' & Hc & [= <- <-]). simpl.
  by eapply wf_frame_length.
Qed.

Lemma length_series_sub a b c : series_sub a b = Ok c → length c = length (zip a b).
Proof. apply mapR_Ok_length. Qed.

Lemma wf_derive_occupancy df df' :
  wf_frame df → derive_occupancy df = Ok df' →
  wf_frame df' ∧ nrows df' = nrows df.
Proof.
  intros Hwf. unfold derive_occupancy, series_sub, series_div, series_mul_scalar.
  intros Hd.
  apply bind_Ok in Hd as (total & Ht & Hd). apply bind_Ok in Hd as (free & Hf & Hd).
  apply bind_Ok in Hd as (occupied & Ho & Hd). cbv zeta in Hd.
  apply bind_Ok in Hd as (occupied' & Ho' & Hd).
  apply bind_Ok in Hd as (total' & Ht' & Hd).
  apply bind_Ok in Hd as (ratio & Hr & Hd).
  apply bind_Ok in Hd as (rate & Hm & [= <-]).
  pose proof (wf_frame_length _ _ _ Hwf Ht) as Hlt.
  pose proof (wf_frame_length _ _ _ Hwf Hf) as Hlf.
  pose proof (getitem_ne_nil _ _ _ Ht) as Hne.
  apply mapR_Ok_length in Ho, Hr, Hm. rewrite length_zip in Ho, Hr.
  rewrite getitem_setitem_eq in Ho'. injection Ho' as <-.
  rewrite getitem_setitem_ne in Ht' by done.
  assert (total' = total) as -> by congruence.
  assert (wf_frame (setitem df "occupied" occupied)
          ∧ nrows (setitem df "occupied" occupied) = nrows df) as [Hwf1 Hn1].
  { split; [apply wf_setitem; [done|]; intros _; lia|].
    apply nrows_setitem; [done|lia]. }
  split.
  - apply wf_setitem; [done|]. intros _. lia.
  - rewrite nrows_setitem; [done|apply setitem_ne_nil|lia].
Qed.

Lemma wf_lot_history db lot_id lot_name df :
  lot_history db lot_id = Ok (lot_name, df) → wf_frame df.
Proof.
  unfold lot_history. intros Hl.
  apply bind_Ok in Hl as (readings & Hr & Hl).
  destruct (empty readings); [done|].
  apply bind_Ok in Hl as (lots & Hlots & Hl).
  apply bind_Ok in Hl as (ids & Hids & Hl). cbv zeta in Hl.
  destruct (empty _); [done|].
  apply bind_Ok in Hl as (name & Hname & Hl).
  apply bind_Ok in Hl as (right & Hsel & Hl).
  apply bind_Ok in Hl as (merged & Hm & Hl).
  apply bind_Ok in Hl as (df' & Hd & [= <- <-]).
  eapply wf_derive_occupancy; [|exact Hd].
  eapply wf_merge; [| |exact Hm].
  - by eapply wf_load_readings.
  - eapply wf_select; [|exact Hsel]. by eapply wf_load_parking_lots.
Qed.

(** The frame of the features of the handlers. *)
Lemma engineer_features_same_rows df df' :
  engineer_features df = Ok df' → wf_frame df → wf_frame df' ∧ nrows df' = nrows df.
Proof.
  unfold engineer_features. intros He Hwf.
  apply bind_Ok in He as (d1 & H1 & He). apply bind_Ok in He as (d2 & H2 & H3).
  eapply on_copy_call in H1; [|apply add_temporal_features_same_rows].
  2: { unfold temporal_labels. not_elem_of_labels. }
  eapply on_copy_call in H2; [|apply add_lag_features_same_rows].
  eapply on_copy_call in H3; [|apply add_rolling_features_same_rows].
  destruct (H1 Hwf) as [Hwf1 Hn1]. destruct (H2 Hwf1) as [Hwf2 Hn2].
  destruct (H3 Hwf2) as [Hwf3 Hn3]. split; [done|congruence].
Qed.

End MergedFrames.

Section FourReadings.
Import Pandas DataLoader Features Models Server Spec.
Context `{PyLib}.

Lemma length_earlier_rows keys g i : (length (earlier_rows keys g i) ≤ i)%nat.
Proof.
  unfold earlier_rows. etrans; [apply length_filter|]. by rewrite length_seq.
Qed.

(** In a frame of at most [n] rows the lag [n] has no value. *)
Lemma groupby_shift_short keys vals n c i :
  groupby_shift keys vals n = Ok c → length vals = length keys →
  (length keys ≤ Z.to_nat n)%nat → 0 < n → (i < length keys)%nat →
  c !! i = Some CNaN.
Proof.
  intros Hc Hlen Hshort Hn Hi.
  destruct (lookup_lt_is_Some_2 keys i Hi) as [k Hk].
  assert (lot_of keys i = Some (norm_key k)) as Hlot by (unfold lot_of; by rewrite Hk).
  destruct (decide (norm_key k = CNaN)) as [Hna|Hne].
  - rewrite Hna in Hlot. eapply groupby_transform_lookup_null; [exact Hc|done| |done].
    intros a out [= <-]. apply length_shift.
  - rewrite (groupby_shift_lookup _ _ _ _ _ _ Hc Hlen Hlot Hne).
    unfold lag_value.
    assert (lagged_row keys (norm_key k) i n = None) as ->; [|done].
    apply lagged_row_None; [lia|].
    pose proof (length_earlier_rows keys (norm_key k) i). lia.
Qed.

Lemma row_elem df lab c i v :
  getitem df lab = Ok c → c !! i = Some v → v ∈ row df i.
Proof.
  intros Hg%getitem_Ok_elem Hv. unfold row.
  apply list_elem_of_omap. by exists (lab, c).
Qed.

Lemma nrows_take_rows_nil df : nrows (take_rows [] df) = 0%nat.
Proof. by destruct df as [|[l c] df]. Qed.

Lemma filter_none {A} (P : A → Prop) `{∀ x, Decision (P x)} (l : list A) :
  (∀ x, x ∈ l → ¬ P x) → filter P l = [].
Proof.
  induction l as [|x l IH]; intros Hn; [done|].
  rewrite filter_cons_False by (apply Hn; left). apply IH. intros. apply Hn. by right.
Qed.

(** A column without a value empties the frame of complete rows. *)
Lemma dropna_missing_column df lab c :
  getitem df lab = Ok c → length c = nrows df →
  (∀ i, (i < nrows df)%nat → c !! i = Some CNaN) →
  empty (dropna df) = true.
Proof.
  intros Hg Hlen Hna. unfold dropna.
  rewrite filter_none.
  - unfold empty. rewrite nrows_take_rows_nil. by apply bool_decide_eq_true.
  - intros i Hi%elem_of_seq Hall. rewrite forallb_forall in Hall.
    specialize (Hall CNaN). simpl in Hall.
    assert (false = true) as Hf; [|discriminate Hf]. apply Hall.
    apply list_elem_of_In. eapply row_elem; [exact Hg|]. apply Hna. lia.
Qed.

(** A history of at most three rows has no complete row: the third
    lag is missing in all of them. *)
Lemma forecast_input_short_history db fc lot_id lot_name df :
  lot_history db lot_id = Ok (lot_name, df) →
  (nrows df ≤ 3)%nat →
  match engineer_features df with
  | Ok _ => ∃ detail, forecast_input db fc lot_id = Err (HTTPException 400 detail)
  | Err e => forecast_input db fc lot_id = Err e
  end.
Proof.
  intros Hh Hrows. unfold forecast_input. rewrite Hh. cbn [mbind result_bind].
  destruct (engineer_features df) as [d3|e] eqn:He; [|done].
  cbn [mbind result_bind].
  pose proof (wf_lot_history _ _ _ _ Hh) as Hwf.
  destruct (engineer_features_same_rows _ _ He Hwf) as [Hwf3 Hn3].
  enough (empty (dropna d3) = true) as -> by eauto.
  unfold engineer_features in He.
  apply bind_Ok in He as (d1 & H1 & He). apply bind_Ok in He as (d2 & H2 & H3).
  pose proof H1 as Hr1. eapply on_copy_call in Hr1; [|apply add_temporal_features_same_rows].
  2: { unfold temporal_labels. not_elem_of_labels. }
  destruct (Hr1 Hwf) as [Hwf1 Hn1].
  pose proof H2 as Hr2. eapply on_copy_call in Hr2; [|apply add_lag_features_same_rows].
  destruct (Hr2 Hwf1) as [Hwf2 Hn2].
  eapply on_copy_call in H2; [|apply (add_lag_features_spec "occupancy_rate" "lot_id")].
  2: done.
  2: { intros n _. unfold lag_label. cbv [String.append]. discriminate. }
  destruct H2 as [_ Hlag].
  destruct (Hlag 3 ltac:(elem_of_labels)) as (keys & vals & c & Hk & Hv & Hc & Hs).
  eapply on_copy_call in H3; [|apply add_rolling_features_keeps].
  rewrite <- (keeps_getitem _ _ _ _ H3) in Hc.
  2: { intros (w & (s & Hs')%elem_of_window_labels & _)%list_elem_of_bind.
       destruct s; cbv [lag_label rolling_label stat_name String.append] in Hs';
         discriminate Hs'. }
  pose proof (wf_frame_length _ _ _ Hwf1 Hk) as Hlk.
  pose proof (wf_frame_length _ _ _ Hwf1 Hv) as Hlv.
  eapply dropna_missing_column; [exact Hc| |].
  - rewrite (length_groupby_shift _ _ _ _ Hs). lia.
  - intros i Hi. eapply groupby_shift_short; [exact Hs|lia| |done|lia].
    change (Z.to_nat 3) with 3%nat. lia.
Qed.

(** X5: [GET /forecast/{lot_id}] returns no forecast for a lot whose
    history, merged with the lot, has at most three rows: the third lag
    is missing in all of them, [dropna] leaves no row, and when the
    feature functions succeed the handler answers 400.  (The message
    asks for at least 3 readings; four are needed.) *)
Theorem forecast_needs_four_readings w st lot_id fc loader db lot_name df :
  forecaster (get_forecast w st lot_id).1 = Some fc →
  data_loader (get_forecast w st lot_id).1 = Some loader →
  databases w !! db_path loader = Some db →
  lot_history db lot_id = Ok (lot_name, df) →
  (nrows df ≤ 3)%nat →
  ¬ is_Ok (get_forecast w st lot_id).2
  ∧ (is_Ok (engineer_features df) →
     ∃ detail, (get_forecast w st lot_id).2 = Err (HTTPException 400 detail)).
Proof.
  unfold get_forecast. cbn [fst snd]. intros -> -> Hdb Hh Hrows.
  unfold connect. rewrite Hdb. cbn [from_option mbind result_bind].
  pose proof (forecast_input_short_history db fc lot_id lot_name df Hh Hrows) as Hin.
  destruct (engineer_features df) as [d3|e] eqn:He.
  - destruct Hin as [detail ->]. cbn [mbind result_bind except_http_500]. split.
    + by intros [f Hf].
    + intros _. by exists detail.
  - rewrite Hin. cbn [mbind result_bind]. split.
    + intros [f Hf]. by destruct e.
    + by intros [d3 Hd3].
Qed.

End FourReadings.

Section FourReadingsExamples.
Import Pandas DataLoader Features Models Server Predict Train Spec Example.

Lemma forecast_needs_four_readings_witness :
  ∃ detail,
    (get_forecast short_world serving_state "A").2 = Err (HTTPException 400 detail).
Proof.
  destruct (forecaster (get_forecast short_world serving_state "A").1)
    as [fc|] eqn:Hfc; [|vm_compute in Hfc; discriminate Hfc].
  destruct (lot_history short_db "A") as [[lot_name df]|e] eqn:Hh;
    [|vm_compute in Hh; discriminate Hh].
  assert (nrows df ≤ 3)%nat as Hrows.
  { vm_compute in Hh. injection Hh as _ <-. vm_compute. lia. }
  assert (is_Ok (engineer_features df)) as Hen.
  { destruct (engineer_features df) as [d3|e] eqn:He; [by eexists|].
    exfalso. clear Hfc Hrows. vm_compute in Hh. injection Hh as _ <-.
    vm_compute in He. discriminate He. }
  apply (proj2 (forecast_needs_four_readings short_world serving_state "A" fc
                  {| db_path := DB_PATH |} short_db lot_name df
                  Hfc eq_refl eq_refl Hh Hrows) Hen).
Defined.

End FourReadingsExamples.

(** ** The latest reading of every lot *)

Section Latest.
Import Pandas DataLoader Features Models Server Spec.
Context `{PyLib}.

Lemma datetime_cell_lookup a i :
  is_datetime64_any_dtype a = true →
  (∃ t, default CNaN (a !! i) = CTime t) ∨ default CNaN (a !! i) = CNaN.
Proof.
  intros Hdt. unfold is_datetime64_any_dtype in Hdt. rewrite forallb_forall in Hdt.
  destruct (a !! i) as [v|] eqn:Hv; [|by right]. simpl.
  specialize (Hdt v ltac:(apply list_elem_of_In; by eapply list_elem_of_lookup_2)).
  destruct v; try discriminate Hdt; eauto.
Qed.

Lemma not_later_trans ts :
  is_datetime64_any_dtype ts = true → Transitive (not_later ts).
Proof.
  intros Hdt i j k. unfold not_later.
  destruct (datetime_cell_lookup ts i Hdt) as [[ti ->]| ->],
           (datetime_cell_lookup ts j Hdt) as [[tj ->]| ->],
           (datetime_cell_lookup ts k Hdt) as [[tk ->]| ->]; simpl; try done.
  rewrite !Is_true_true, !Z.leb_le. lia.
Qed.

Lemma not_later_total ts :
  is_datetime64_any_dtype ts = true → Total (not_later ts).
Proof.
  intros Hdt i j. unfold not_later.
  destruct (datetime_cell_lookup ts i Hdt) as [[ti ->]| ->],
           (datetime_cell_lookup ts j Hdt) as [[tj ->]| ->]; simpl; auto.
  rewrite !Is_true_true, !Z.leb_le. lia.
Qed.

Lemma not_later_refl ts i : is_datetime64_any_dtype ts = true → not_later ts i i.
Proof. intros Hdt. by destruct (not_later_total ts Hdt i i). Qed.

Lemma sort_positions_Permutation ts : sort_positions ts ≡ₚ seq 0 (length ts).
Proof. apply merge_sort_Permutation. Qed.

Lemma sort_positions_sorted ts :
  is_datetime64_any_dtype ts = true →
  StronglySorted (not_later ts) (sort_positions ts).
Proof.
  intros Hdt. unfold sort_positions.
  pose proof (not_later_trans ts Hdt) as Htrans.
  pose proof (not_later_total ts Hdt) as Htotal.
  apply (StronglySorted_merge_sort (not_later ts)).
Qed.

Lemma sort_positions_lt ts i : i ∈ sort_positions ts → (i < length ts)%nat.
Proof. rewrite sort_positions_Permutation, elem_of_seq. lia. Qed.

Lemma length_sort_positions ts : length (sort_positions ts) = length ts.
Proof. by rewrite sort_positions_Permutation, length_seq. Qed.

(** Positions of a sorted list are in order. *)
Lemma StronglySorted_lookup {A} (R : relation A) l i j x y :
  StronglySorted R l → (i < j)%nat → l !! i = Some x → l !! j = Some y → R x y.
Proof.
  intros Hs Hij Hi Hj.
  rewrite <- (take_drop j l) in Hs.
  eapply StronglySorted_app_1_elem_of; [exact Hs| |].
  - eapply list_elem_of_lookup_2. by rewrite lookup_take_lt.
  - eapply list_elem_of_lookup_2. rewrite lookup_drop, Nat.add_0_r. exact Hj.
Qed.

(** The last row of a group is below its other rows. *)
Lemma group_indices_last keys g i j :
  last (group_indices keys g) = Some i → j ∈ group_indices keys g → (j ≤ i)%nat.
Proof.
  unfold group_indices. intros (l1 & l2 & Hseq & Hl2)%last_filter_Some Hj.
  apply list_elem_of_filter in Hj as [Hj Hin].
  rewrite Hseq in Hin. apply elem_of_app in Hin as [Hin|Hin].
  - assert (l1 = seq 0 (length l1) ∧ i = length l1) as [Hl1 ->].
    { assert (take (length l1) (seq 0 (length keys)) = l1) as Ht.
      { rewrite Hseq. by rewrite take_app_length. }
      assert (seq 0 (length keys) !! length l1 = Some i) as Hi.
      { rewrite Hseq. by rewrite list_lookup_middle. }
      apply lookup_seq in Hi as [-> Hlt]. split; [|done].
      rewrite <- Ht at 1. rewrite take_seq. f_equal. lia. }
    rewrite Hl1 in Hin. apply elem_of_seq in Hin. lia.
  - apply elem_of_cons in Hin as [->|Hin]; [done|].
    rewrite Forall_forall in Hl2. by destruct (Hl2 _ Hin).
Qed.

Lemma elem_of_groupby_tail1 keys i :
  i ∈ groupby_tail1 keys ↔
  ∃ g, lot_of keys i = Some g ∧ g ≠ CNaN ∧ last (group_indices keys g) = Some i.
Proof.
  unfold groupby_tail1, is_group_tail, lot_of. rewrite list_elem_of_filter. split.
  - intros [Ht Hin]. destruct (norm_key <$> keys !! i) as [g|]; [|done].
    apply andb_true_iff in Ht as [Hg%bool_decide_eq_true Hl%bool_decide_eq_true].
    eauto.
  - intros (g & Hg & Hne & Hl). rewrite Hg. split.
    + apply andb_true_iff. split; by apply bool_decide_eq_true.
    + apply elem_of_seq. destruct (keys !! i) eqn:Hk; [|done].
      apply lookup_lt_Some in Hk. lia.
Qed.

Lemma NoDup_groupby_tail1 keys : NoDup (groupby_tail1 keys).
Proof. apply NoDup_filter, NoDup_seq. Qed.

Lemma group_indices_nonempty keys g r :
  lot_of keys r = Some g → ∃ i, last (group_indices keys g) = Some i.
Proof.
  intros Hr. destruct (last (group_indices keys g)) as [i|] eqn:Hl; [eauto|].
  apply last_None in Hl.
  assert (r ∈ group_indices keys g) as Hin; [|rewrite Hl in Hin; by apply elem_of_nil in Hin].
  apply elem_of_group_indices. done.
Qed.

End Latest.

Section LatestPerLot.
Import Pandas DataLoader Features Models Server Spec.
Context `{PyLib}.

Lemma groupby_tail1_lt keys j : j ∈ groupby_tail1 keys → (j < length keys)%nat.
Proof.
  unfold groupby_tail1. intros [_ Hin%elem_of_seq]%list_elem_of_filter. lia.
Qed.

Lemma last_elem_of {A} (l : list A) x : last l = Some x → x ∈ l.
Proof.
  intros Hl. apply last_Some in Hl as [l' ->]. apply elem_of_app. right. left.
Qed.

(** The latest row of every group of a frame sorted by timestamp. *)
Lemma latest_per_lot df ts keys sorted keys' :
  wf_frame df →
  getitem df "timestamp" = Ok ts → is_datetime64_any_dtype ts = true →
  getitem df "lot_id" = Ok keys →
  sort_values df "timestamp" = Ok sorted →
  getitem sorted "lot_id" = Ok keys' →
  let latest := take_rows (groupby_tail1 keys') sorted in
  ∃ keys'',
    getitem latest "lot_id" = Ok keys'' ∧ length keys'' = nrows latest
    ∧ (∀ k k', (k < nrows latest)%nat → lot_of keys'' k = lot_of keys'' k' → k = k')
    ∧ (∀ k, (k < nrows latest)%nat →
         ∃ r g, same_row df r latest k ∧ lot_of keys r = Some g ∧ g ≠ CNaN
                ∧ lot_of keys'' k = Some g
                ∧ ∀ r', lot_of keys r' = Some g → not_later ts r' r)
    ∧ (∀ r g, lot_of keys r = Some g → g ≠ CNaN →
         ∃ k, (k < nrows latest)%nat ∧ lot_of keys'' k = Some g).
Proof.
  intros Hwf Hts Hdt Hkeys Hsort Hkeys'. cbv zeta.
  unfold sort_values in Hsort. rewrite Hts in Hsort. injection Hsort as <-.
  set (pos := sort_positions ts) in *.
  set (tails := groupby_tail1 keys').
  pose proof (wf_frame_length _ _ _ Hwf Hts) as Hlts.
  pose proof (wf_frame_length _ _ _ Hwf Hkeys) as Hlk.
  unfold take_rows in Hkeys'. rewrite getitem_map_columns, Hkeys in Hkeys'.
  injection Hkeys' as <-.
  assert (∀ (c : column) j, length c = nrows df → j ∈ pos → (j < length c)%nat) as Hpos.
  { intros c j Hc Hj%sort_positions_lt. lia. }
  assert (∀ c : column, length c = nrows df → length (gather pos c) = length ts) as Hgl.
  { intros c Hc. rewrite length_gather by (intros j Hj; by apply Hpos).
    apply length_sort_positions. }
  assert (∀ (c : column) j, length c = nrows df →
            gather pos c !! j = pos !! j ≫= (c !!.)) as Hgp.
  { intros c j Hc. apply gather_lookup. intros j' Hj'. by apply Hpos. }
  assert (∀ j, j ∈ tails → (j < length ts)%nat) as Htl.
  { intros j Hj%groupby_tail1_lt. by rewrite Hgl in Hj. }
  assert (∀ (c : column) k, length c = nrows df →
            gather tails (gather pos c) !! k = tails !! k ≫= (gather pos c !!.)) as Hgt.
  { intros c k Hc. apply gather_lookup. intros j Hj. rewrite Hgl by done. by apply Htl. }
  assert (∀ (c : column), length c = nrows df →
            length (gather tails (gather pos c)) = length tails) as Hgtl.
  { intros c Hc. apply length_gather. intros j Hj. rewrite Hgl by done. by apply Htl. }
  assert (wf_frame (take_rows tails (take_rows pos df))) as Hwf'.
  { by do 2 apply wf_take_rows. }
  assert (getitem (take_rows tails (take_rows pos df)) "lot_id"
          = Ok (gather tails (gather pos keys))) as Hk''.
  { unfold take_rows. by rewrite !getitem_map_columns, Hkeys. }
  assert (nrows (take_rows tails (take_rows pos df)) = length tails) as Hn.
  { rewrite <- (wf_frame_length _ _ _ Hwf' Hk''). by apply Hgtl. }
  (* a row of the sorted frame and the row of the frame it is *)
  assert (∀ j r, pos !! j = Some r →
            lot_of (gather pos keys) j = lot_of keys r) as Hlot.
  { intros j r Hj. unfold lot_of. by rewrite Hgp, Hj by done. }
  assert (∀ k j, tails !! k = Some j →
            lot_of (gather tails (gather pos keys)) k = lot_of (gather pos keys) j) as Hlot'.
  { intros k j Hk. unfold lot_of. by rewrite Hgt, Hk by done. }
  assert (∀ j, (j < length ts)%nat → ∃ r, pos !! j = Some r) as Hposj.
  { intros j Hj. apply lookup_lt_is_Some_2. unfold pos. by rewrite length_sort_positions. }
  assert (∀ r, (r < length ts)%nat → ∃ j, pos !! j = Some r) as Hrpos.
  { intros r Hr. apply list_elem_of_lookup. unfold pos.
    rewrite sort_positions_Permutation. apply elem_of_seq. lia. }
  exists (gather tails (gather pos keys)). split_and!.
  - done.
  - rewrite Hn. by apply Hgtl.
  - intros k k' Hk Heq. rewrite Hn in Hk.
    destruct (lookup_lt_is_Some_2 tails k Hk) as [j Hj].
    rewrite (Hlot' _ _ Hj) in Heq.
    pose proof (list_elem_of_lookup_2 _ _ _ Hj) as Hjt.
    apply elem_of_groupby_tail1 in Hjt as (g & Hg & Hne & Hlast).
    rewrite Hg in Heq. symmetry in Heq.
    assert (k' < length tails)%nat as Hk'.
    { unfold lot_of in Heq. destruct (gather tails _ !! k') eqn:Hx; [|done].
      apply lookup_lt_Some in Hx. by rewrite Hgtl in Hx. }
    destruct (lookup_lt_is_Some_2 tails k' Hk') as [j' Hj'].
    rewrite (Hlot' _ _ Hj') in Heq.
    pose proof (list_elem_of_lookup_2 _ _ _ Hj') as Hjt'.
    apply elem_of_groupby_tail1 in Hjt' as (g' & Hg' & _ & Hlast').
    assert (g' = g) as -> by congruence.
    assert (j' = j) as -> by congruence.
    eapply NoDup_lookup; [apply NoDup_groupby_tail1|exact Hj|exact Hj'].
  - intros k Hk. rewrite Hn in Hk.
    destruct (lookup_lt_is_Some_2 tails k Hk) as [j Hj].
    pose proof (list_elem_of_lookup_2 _ _ _ Hj) as Hjt.
    destruct (Hposj j (Htl j Hjt)) as [r Hr].
    apply elem_of_groupby_tail1 in Hjt as (g & Hg & Hne & Hlast).
    exists r, g. split_and!.
    + intros lab c Hc. pose proof (wf_frame_length _ _ _ Hwf Hc) as Hlc.
      exists (gather tails (gather pos c)). split_and!.
      * unfold take_rows. by rewrite !getitem_map_columns, Hc.
      * rewrite Hgt, Hj by done. simpl. by rewrite Hgp, Hr by done.
      * apply lookup_lt_is_Some_2. rewrite Hlc, <- Hlts.
        apply sort_positions_lt. by eapply list_elem_of_lookup_2.
    + by rewrite <- (Hlot _ _ Hr).
    + done.
    + by rewrite (Hlot' _ _ Hj).
    + intros r' Hr'.
      assert (r' < length ts)%nat as Hlt.
      { apply lot_of_lt in Hr'. lia. }
      destruct (Hrpos r' Hlt) as [j' Hj'].
      assert (j' ∈ group_indices (gather pos keys) g) as Hin.
      { apply elem_of_group_indices. by rewrite (Hlot _ _ Hj'). }
      pose proof (group_indices_last _ _ _ _ Hlast Hin) as Hle.
      destruct (decide (j' = j)) as [->|Hne'].
      * assert (r' = r) as -> by congruence. by apply not_later_refl.
      * eapply (StronglySorted_lookup _ pos j' j);
          [by apply sort_positions_sorted|lia|done|done].
  - intros r g Hg Hne.
    assert (r < length ts)%nat as Hlt.
    { apply lot_of_lt in Hg. lia. }
    destruct (Hrpos r Hlt) as [j0 Hj0].
    assert (lot_of (gather pos keys) j0 = Some g) as Hg0 by by rewrite (Hlot _ _ Hj0).
    destruct (group_indices_nonempty _ _ _ Hg0) as [j Hlast].
    assert (j ∈ tails) as Hjt.
    { apply elem_of_groupby_tail1. exists g. split_and!; [|done|done].
      apply elem_of_group_indices. by apply last_elem_of. }
    apply list_elem_of_lookup in Hjt as [k Hk].
    exists k. split.
    + rewrite Hn. by eapply lookup_lt_Some.
    + rewrite (Hlot' _ _ Hk). apply elem_of_group_indices. by apply last_elem_of.
Qed.

End LatestPerLot.

Section LatestReadings.
Import Pandas DataLoader Features Models Server Spec.
Context `{PyLib}.

Lemma load_readings_timestamp db sd ed ids df :
  load_readings db sd ed ids = Ok df →
  ∃ ts, getitem df "timestamp" = Ok ts ∧ is_datetime64_any_dtype ts = true.
Proof.
  unfold load_readings. intros Hl.
  apply bind_Ok in Hl as (df0 & _ & Hl). apply bind_Ok in Hl as (ts0 & _ & Hl).
  apply bind_Ok in Hl as (c & Hc & [= <-]).
  exists c. split; [apply getitem_setitem_eq|]. by eapply to_datetime_is_datetime.
Qed.

Lemma getitem_take_rows_inv idxs df lab c' :
  getitem (take_rows idxs df) lab = Ok c' →
  ∃ c, getitem df lab = Ok c ∧ c' = gather idxs c.
Proof.
  unfold take_rows. rewrite getitem_map_columns.
  destruct (getitem df lab) as [c|]; [|done]. intros [= <-]. eauto.
Qed.

(** The rows that [groupby(...).tail(1)] keeps have different keys. *)
Lemma tail_rows_distinct keys k k' :
  let keys' := gather (groupby_tail1 keys) keys in
  is_Some (keys' !! k) → lot_of keys' k = lot_of keys' k' → k = k'.
Proof.
  cbv zeta. set (tails := groupby_tail1 keys).
  assert (∀ k, gather tails keys !! k = tails !! k ≫= (keys !!.)) as Hg.
  { intros ?. apply gather_lookup. intros j Hj. by apply groupby_tail1_lt. }
  intros [v Hv] Heq. unfold lot_of in Heq. rewrite !Hg in Heq. rewrite Hg in Hv.
  destruct (tails !! k) as [j|] eqn:Hj; [|done]. simpl in Hv, Heq.
  rewrite Hv in Heq. simpl in Heq.
  destruct (tails !! k') as [j'|] eqn:Hj'; [|done]. simpl in Heq.
  pose proof (list_elem_of_lookup_2 _ _ _ Hj) as Hjt.
  pose proof (list_elem_of_lookup_2 _ _ _ Hj') as Hjt'.
  apply elem_of_groupby_tail1 in Hjt as (g & Hg1 & _ & Hl1).
  apply elem_of_groupby_tail1 in Hjt' as (g' & Hg2 & _ & Hl2).
  unfold lot_of in Hg1, Hg2. rewrite Hv in Hg1. simpl in Hg1.
  assert (g' = g) as -> by congruence.
  assert (j' = j) as -> by congruence.
  eapply NoDup_lookup; [apply NoDup_groupby_tail1|exact Hj|exact Hj'].
Qed.

(** X6: the frame of latest readings that [GET /current] builds with
    [sort_values('timestamp').groupby('lot_id').tail(1)] has exactly one
    row for every lot that has a reading: the rows bear different lots,
    each is a row of the loaded readings, no reading of its lot is
    later, and every lot of the readings has its row. *)
Theorem latest_readings_are_latest db lot_id latest :
  latest_readings db lot_id = Ok (Some latest) →
  ∃ readings lot_ids ts lot_ids',
    load_readings db None None
      (match truthy lot_id with Some l => Some [CStr l] | None => None end)
    = Ok readings
    ∧ getitem readings "lot_id" = Ok lot_ids
    ∧ getitem readings "timestamp" = Ok ts
    ∧ getitem latest "lot_id" = Ok lot_ids'
    ∧ length lot_ids' = nrows latest
    ∧ (∀ k k', (k < nrows latest)%nat → lot_of lot_ids' k = lot_of lot_ids' k' → k = k')
    ∧ (∀ k, (k < nrows latest)%nat →
         ∃ r g, same_row readings r latest k
                ∧ lot_of lot_ids r = Some g ∧ g ≠ CNaN ∧ lot_of lot_ids' k = Some g
                ∧ ∀ r', lot_of lot_ids r' = Some g → not_later ts r' r)
    ∧ (∀ r g, lot_of lot_ids r = Some g → g ≠ CNaN →
         ∃ k, (k < nrows latest)%nat ∧ lot_of lot_ids' k = Some g).
Proof.
  unfold latest_readings. intros Hl.
  apply bind_Ok in Hl as (readings & Hr & Hl).
  destruct (empty readings); [done|].
  apply bind_Ok in Hl as (sorted & Hs & Hl).
  apply bind_Ok in Hl as (keys' & Hk' & [= <-]).
  assert (load_readings db None None
            (match truthy lot_id with Some l => Some [CStr l] | None => None end)
          = Ok readings) as Hload by (by destruct (truthy lot_id)).
  destruct (load_readings_timestamp _ _ _ _ _ Hload) as (ts & Hts & Hdt).
  pose proof (wf_load_readings _ _ _ _ _ Hload) as Hwf.
  pose proof Hs as Hs'. unfold sort_values in Hs'. rewrite Hts in Hs'.
  injection Hs' as <-.
  destruct (getitem_take_rows_inv _ _ _ _ Hk') as (keys & Hkeys & ->).
  destruct (latest_per_lot readings ts keys _ _ Hwf Hts Hdt Hkeys Hs Hk')
    as (keys'' & Hk'' & Hlen & Hone & Hlatest & Hall).
  exists readings, keys, ts, keys''. split_and!; done.
Qed.

(** X7: [GET /forecast] returns at most one forecast per lot: the
    [lot_id]s of the list are pairwise different. *)
Theorem one_forecast_per_lot w st fs :
  (get_all_forecasts w st).2 = Ok fs → NoDup (f_lot_id <$> fs).
Proof.
  unfold get_all_forecasts. simpl.
  destruct (forecaster _) as [fc|]; [|done].
  destruct (data_loader _) as [loader|]; [|done].
  intros Hm.
  match type of Hm with except_500 _ ?r = _ => destruct r as [fs'|e] eqn:Hr end;
    [|done].
  simpl in Hm. injection Hm as ->.
  apply bind_Ok in Hr as (db & _ & Hr). apply bind_Ok in Hr as (input & Hin & Hr).
  destruct input as [[latest X]|]; [|injection Hr as <-; constructor].
  apply bind_Ok in Hr as (predictions & _ & Hr).
  unfold all_forecasts_input in Hin.
  apply bind_Ok in Hin as (df0 & _ & Hin). destruct (empty df0); [done|].
  apply bind_Ok in Hin as (df1 & _ & Hin). cbv zeta in Hin.
  destruct (empty (dropna df1)); [done|].
  apply bind_Ok in Hin as (sorted & _ & Hin).
  apply bind_Ok in Hin as (keys & Hkeys & Hin). cbv zeta in Hin.
  apply bind_Ok in Hin as (X' & _ & [= <- <-]).
  assert (getitem (take_rows (groupby_tail1 keys) sorted) "lot_id"
          = Ok (gather (groupby_tail1 keys) keys)) as Hk.
  { unfold take_rows. by rewrite getitem_map_columns, Hkeys. }
  apply NoDup_alt. intros i j s Hi Hj.
  rewrite list_lookup_fmap in Hi, Hj.
  destruct (fs !! i) as [fi|] eqn:Hfi; [|done].
  destruct (fs !! j) as [fj|] eqn:Hfj; [|done].
  simpl in Hi, Hj. injection Hi as Hi. injection Hj as Hj.
  destruct (mapR_Ok_lookup_inv _ _ _ _ _ Hr Hfi) as (i' & Hi' & Hrow).
  destruct (mapR_Ok_lookup_inv _ _ _ _ _ Hr Hfj) as (j' & Hj' & Hrow').
  unfold row_indices in Hi', Hj'.
  apply lookup_seq in Hi' as [-> _]. apply lookup_seq in Hj' as [-> _]. simpl in *.
  unfold forecast_of_row in Hrow, Hrow'.
  apply bind_Ok in Hrow as (p & _ & Hrow).
  apply bind_Ok in Hrow as (li & (ci & (c & Hc & Hci)%at_row_Ok & Hsi)%bind_Ok & Hrow).
  apply bind_Ok in Hrow as (ni & _ & [= <-]).
  apply bind_Ok in Hrow' as (p' & _ & Hrow').
  apply bind_Ok in Hrow' as (lj & (cj & (c' & Hc' & Hcj)%at_row_Ok & Hsj)%bind_Ok & Hrow').
  apply bind_Ok in Hrow' as (nj & _ & [= <-]).
  simpl in Hi, Hj. subst li lj.
  rewrite Hk in Hc, Hc'. injection Hc as <-. injection Hc' as <-.
  destruct ci; try discriminate Hsi. injection Hsi as ->.
  destruct cj; try discriminate Hsj. injection Hsj as ->.
  apply (tail_rows_distinct keys i j); [by eexists|].
  unfold lot_of. by rewrite Hci, Hcj.
Qed.

End LatestReadings.

Section LatestExamples.
Import Pandas DataLoader Features Models Server Predict Train Spec Example.

Lemma latest_readings_are_latest_witness :
  ∃ latest lot_ids',
    latest_readings db None = Ok (Some latest)
    ∧ getitem latest "lot_id" = Ok lot_ids'
    ∧ length lot_ids' = nrows latest
    ∧ ∀ k k', (k < nrows latest)%nat → lot_of lot_ids' k = lot_of lot_ids' k' → k = k'.
Proof.
  destruct (latest_readings db None) as [[latest|]|e] eqn:E;
    [|vm_compute in E; discriminate E..].
  destruct (latest_readings_are_latest db None latest E)
    as (readings & lot_ids & ts & lot_ids' & _ & _ & _ & Hl & Hlen & Hone & _).
  exists latest, lot_ids'. split_and!; [reflexivity|assumption..].
Defined.

Lemma one_forecast_per_lot_witness : NoDup (f_lot_id <$> [forecast_B; forecast_A]).
Proof.
  apply (one_forecast_per_lot world0 serving_state). vm_compute. reflexivity.
Defined.

End LatestExamples.

(** ** The training matrix *)

Section PrepareData.
Import Pandas DataLoader Features Models Server Spec.
Context `{PyLib}.

Lemma getitem_drop_column_ne X col lab :
  lab ≠ col → getitem (drop_column X col) lab = getitem X lab.
Proof.
  intros Hne. unfold drop_column. induction X as [|[l c] X IH]; [done|].
  rewrite filter_cons. simpl. destruct (decide (l ≠ col)) as [Hl|Hl]; simpl.
  - destruct (decide (l = lab)); [done|apply IH].
  - apply dec_stable in Hl as ->. by rewrite decide_False.
Qed.

Lemma getitem_drop_column_eq X col : getitem (drop_column X col) col = Err (KeyError col).
Proof.
  apply getitem_Err. unfold columns, drop_column.
  intros ([l c] & Heq & [Hne _]%list_elem_of_filter)%list_elem_of_fmap.
  simpl in *. congruence.
Qed.

Lemma is_object_dtype_false c :
  is_object_dtype c = false → ∀ v s, v ∈ c → v ≠ CStr s.
Proof.
  unfold is_object_dtype. intros Hn v s Hv ->.
  assert (existsb (fun c => match c with CStr _ => true | _ => false end) c = true) as Ht.
  { apply existsb_exists. exists (CStr s). split; [by apply list_elem_of_In|done]. }
  congruence.
Qed.

Lemma no_text_not_object c :
  (∀ v s, v ∈ c → v ≠ CStr s) → is_object_dtype c = false.
Proof.
  intros Hno. unfold is_object_dtype. apply not_true_is_false.
  intros (v & Hv%list_elem_of_In & Hs)%existsb_exists.
  destruct v as [x|neg|s|t|]; try discriminate Hs. by apply (Hno (CStr s) s).
Qed.

(** A conversion that succeeds keeps the length and leaves no text:
    every text cell is replaced by the float that it is read as, which
    is a missing value when that float is NaN. *)
Lemma to_numeric_Ok c c' :
  to_numeric c = Ok c' →
  length c' = length c
  ∧ (∀ v s, v ∈ c' → v ≠ CStr s)
  ∧ (∀ i s, c !! i = Some (CStr s) →
       ∃ x, parse_numeric s = Some x ∧ c' !! i = Some (cell_of_float x)).
Proof.
  intros Hc. split_and!.
  - by eapply mapR_Ok_length.
  - intros v s Hv ->.
    destruct (mapR_Ok_elem _ _ _ _ Hc Hv) as (u & _ & Hu).
    destruct u as [x|neg|s'|t|]; simpl in Hu; try discriminate Hu.
    destruct (parse_numeric s') as [[]|]; discriminate Hu.
  - intros i s Hi.
    destruct (mapR_Ok_lookup _ _ _ _ _ Hc Hi) as (v & Hv & Hu). simpl in Hu.
    destruct (parse_numeric s) as [x|]; [|discriminate Hu].
    injection Hu as <-. by exists x.
Qed.

(** What the loop leaves of a matrix [X]: the columns it went through
    have no text, the others are those of [X]; a column of the result is
    the column of [X] or its conversion, and a column without text is
    left as it is. *)
Lemma ensure_numeric_Ok cols X X' :
  ensure_numeric cols X = Ok X' →
  (∀ lab c, getitem X' lab = Ok c →
     (lab ∈ cols → ∀ v s, v ∈ c → v ≠ CStr s)
     ∧ (lab ∉ cols → getitem X lab = Ok c)
     ∧ ∃ c0, getitem X lab = Ok c0 ∧ length c = length c0
             ∧ (c = c0 ∨ (is_object_dtype c0 = true ∧ to_numeric c0 = Ok c)))
  ∧ (∀ lab c, getitem X lab = Ok c → is_object_dtype c = false →
       getitem X' lab = Ok c).
Proof.
  revert X. induction cols as [|col cols IH]; intros X He; simpl in He.
  { injection He as <-. split; [|done]. intros lab c Hc. split_and!; [|done|by eauto].
    by intros ?%elem_of_nil. }
  apply bind_Ok in He as (c0 & Hc0 & He).
  assert (∀ X1,
            ensure_numeric cols X1 = Ok X' →
            (∀ lab, lab ≠ col → getitem X1 lab = getitem X lab) →
            (∀ c1, getitem X1 col = Ok c1 →
               length c1 = length c0
               ∧ (∀ v s, v ∈ c1 → v ≠ CStr s)
               ∧ (c1 = c0 ∨ (is_object_dtype c0 = true ∧ to_numeric c0 = Ok c1))) →
            (is_object_dtype c0 = false → getitem X1 col = Ok c0) →
            (∀ lab c, getitem X' lab = Ok c →
               (lab ∈ col :: cols → ∀ v s, v ∈ c → v ≠ CStr s)
               ∧ (lab ∉ col :: cols → getitem X lab = Ok c)
               ∧ ∃ c0, getitem X lab = Ok c0 ∧ length c = length c0
                       ∧ (c = c0 ∨ (is_object_dtype c0 = true ∧ to_numeric c0 = Ok c)))
            ∧ (∀ lab c, getitem X lab = Ok c → is_object_dtype c = false →
                 getitem X' lab = Ok c)) as Hstep.
  { intros X1 He1 Hother Hcol Hkeep. destruct (IH _ He1) as [IH1 IH2]. split.
    - intros lab c Hc. destruct (IH1 lab c Hc) as (Hno & Hsame & c1 & Hc1 & Hlen & Hrel).
      destruct (decide (lab = col)) as [->|Hne].
      + destruct (Hcol c1 Hc1) as (Hl1 & Hno1 & Hrel1).
        assert (c = c1) as ->.
        { destruct Hrel as [?|[Hobj _]]; [done|].
          by rewrite (no_text_not_object _ Hno1) in Hobj. }
        split_and!.
        * intros _. done.
        * intros Hn. exfalso. apply Hn. left.
        * exists c0. done.
      + rewrite Hother in Hc1 by done. split_and!.
        * intros [?|Hin]%elem_of_cons; [done|by apply Hno].
        * intros [_ Hn]%not_elem_of_cons. rewrite <- Hother by done. by apply Hsame.
        * exists c1. done.
    - intros lab c Hc Hobj. apply IH2; [|done].
      destruct (decide (lab = col)) as [->|Hne].
      + assert (c = c0) as -> by congruence. by apply Hkeep.
      + by rewrite Hother. }
  destruct (is_object_dtype c0) eqn:Hobj.
  - destruct (to_numeric c0) as [c'|e] eqn:Hnum.
    + apply (Hstep _ He).
      * intros lab Hne. by apply getitem_setitem_ne.
      * intros c1. rewrite getitem_setitem_eq. intros [= <-].
        destruct (to_numeric_Ok _ _ Hnum) as (Hlen & Hno & _). split_and!; [done..|].
        by right.
      * done.
    + assert (ensure_numeric cols (drop_column X col) = Ok X') as He'.
      { by destruct e. }
      apply (Hstep _ He').
      * intros lab Hne. by apply getitem_drop_column_ne.
      * intros c1. by rewrite getitem_drop_column_eq.
      * done.
  - apply (Hstep _ He).
    + done.
    + intros c1 Hc1. assert (c1 = c0) as -> by congruence.
      split_and!; [done| |by left]. by apply is_object_dtype_false.
    + done.
Qed.

End PrepareData.

Section TrainingMatrix.
Import Pandas DataLoader Features Models Server Spec.
Context `{PyLib}.

Lemma fillna0_column_complete c : ∀ v, v ∈ map (fun c => if isna c then CNum 0%Q else c) c → isna v = false.
Proof.
  intros v (u & -> & _)%list_elem_of_fmap. by destruct u.
Qed.

Lemma fillna0_id c :
  (∀ v, v ∈ c → isna v = false) → map (fun c => if isna c then CNum 0%Q else c) c = c.
Proof.
  induction c as [|v c IH]; intros Hna; [done|]. simpl.
  rewrite (Hna v) by left. f_equal. apply IH. intros. apply Hna. by right.
Qed.

(** The rows that [prepare_data] keeps. *)
Lemma prepare_data_Ok self df target_col exclude_cols self' X y :
  prepare_data self df target_col exclude_cols = Ok (self', X, y) →
  let feature_cols := filter (fun col => col ∉ default (default_exclude target_col)
                                                     exclude_cols) (columns df) in
  ∃ target X0,
    getitem df target_col = Ok target
    ∧ let rows := filter (fun i => default true (isna <$> target !! i) = false)
                         (row_indices df) in
      y = gather rows target
      ∧ select (take_rows rows df) feature_cols = Ok X0
      ∧ ensure_numeric feature_cols (fillna0 X0) = Ok X
      ∧ self' = {| model_type := model_type self; model := model self;
                   feature_columns := Some feature_cols;
                   target_column := Some target_col |}.
Proof.
  unfold prepare_data. cbv zeta. intros Hp.
  apply bind_Ok in Hp as (target & Ht & Hp).
  apply bind_Ok in Hp as (X1 & (X0 & Hsel & ->)%fmap_Ok & Hp).
  apply bind_Ok in Hp as (y' & Hy & Hp).
  apply bind_Ok in Hp as (X' & Hen & [= <- <- <-]).
  exists target, X0. split; [done|].
  unfold take_rows in Hy. rewrite getitem_map_columns, Ht in Hy. injection Hy as <-.
  rewrite columns_fillna0, (columns_select _ _ _ Hsel) in Hen.
  done.
Qed.

Lemma kept_target_complete (target : column) (rows0 : list nat) v :
  v ∈ gather (filter (fun i => default true (isna <$> target !! i) = false) rows0) target →
  isna v = false.
Proof.
  unfold gather. intros (i & Hi & Hv)%list_elem_of_omap.
  apply list_elem_of_filter in Hi as [Hi _]. by rewrite Hv in Hi.
Qed.

(** The target and the columns of the matrix that [prepare_data]
    returns.  [fillna(0)] runs before the conversion of the object
    columns, so what [pd.to_numeric] reads from a text cell stays in the
    matrix as it is, NaN included. *)
Lemma prepare_data_columns self df target_col exclude_cols self' X y :
  wf_frame df →
  prepare_data self df target_col exclude_cols = Ok (self', X, y) →
  (∀ v, v ∈ y → isna v = false)
  ∧ (∀ lab c, getitem X lab = Ok c →
       ∃ c0, getitem df lab = Ok c0
             ∧ length c = length y
             ∧ (∀ v s, v ∈ c → v ≠ CStr s)
             ∧ ((∀ v s, v ∈ c0 → v ≠ CStr s) → ∀ v, v ∈ c → isna v = false)
             ∧ (∀ target i t s,
                  getitem df target_col = Ok target →
                  target !! i = Some t → isna t = false →
                  c0 !! i = Some (CStr s) →
                  ∃ x, parse_numeric s = Some x ∧ cell_of_float x ∈ c)).
Proof.
  intros Hwf Hp. destruct (prepare_data_Ok _ _ _ _ _ _ _ Hp)
    as (target & X0 & Ht & -> & Hsel & Hen & ->).
  set (rows := filter (fun i => default true (isna <$> target !! i) = false)
                      (row_indices df)) in *.
  pose proof (wf_frame_length _ _ _ Hwf Ht) as Hlt.
  assert (∀ i, i ∈ rows → (i < nrows df)%nat) as Hrows.
  { intros i [_ Hi%elem_of_seq]%list_elem_of_filter. lia. }
  assert (∀ c : column, length c = nrows df → length (gather rows c) = length rows) as Hgl.
  { intros c Hc. apply length_gather. intros i Hi. rewrite Hc. by apply Hrows. }
  split.
  - intros v Hv. by eapply kept_target_complete.
  - intros lab c Hc.
    destruct (ensure_numeric_Ok _ _ _ Hen) as [Hcols _].
    destruct (Hcols lab c Hc) as (Hno & Hsame & c1 & Hc1 & Hlen & Hrel).
    assert (lab ∈ filter (fun col => col ∉ default (default_exclude target_col) exclude_cols)
                         (columns df)) as Hlab.
    { apply getitem_Ok_columns in Hc1.
      by rewrite columns_fillna0, (columns_select _ _ _ Hsel) in Hc1. }
    specialize (Hno Hlab).
    unfold fillna0 in Hc1. rewrite getitem_map_columns in Hc1.
    rewrite (getitem_select _ _ _ _ Hsel Hlab) in Hc1.
    unfold take_rows in Hc1. rewrite getitem_map_columns in Hc1.
    destruct (getitem df lab) as [c0|] eqn:Hc0; [|done]. simpl in Hc1.
    injection Hc1 as <-.
    pose proof (wf_frame_length _ _ _ Hwf Hc0) as Hl0.
    exists c0. split_and!; [done| |done| |].
    + rewrite Hlen, length_map, !Hgl; done.
    + intros Hnotext.
      assert (c = map (fun c => if isna c then CNum 0%Q else c) (gather rows c0)) as ->.
      { destruct Hrel as [?|[Hobj _]]; [done|]. exfalso.
        rewrite no_text_not_object in Hobj; [done|].
        intros v s (u & -> & Hu)%list_elem_of_fmap Hs.
        unfold gather in Hu. apply list_elem_of_omap in Hu as (i & _ & Hu).
        apply list_elem_of_lookup_2 in Hu.
        destruct u as [q|neg|s'|t|]; try discriminate Hs. by eapply Hnotext. }
      apply fillna0_column_complete.
    + intros target' i t s Ht' Hi Hna Hs.
      assert (target' = target) as -> by congruence.
      assert (CStr s ∈ map (fun c => if isna c then CNum 0%Q else c) (gather rows c0))
        as [k Hk]%list_elem_of_lookup.
      { apply list_elem_of_fmap. exists (CStr s). split; [done|].
        unfold gather. apply list_elem_of_omap. exists i. split; [|done].
        apply list_elem_of_filter. split.
        - by rewrite Hi.
        - apply elem_of_seq. apply lookup_lt_Some in Hs. lia. }
      destruct Hrel as [->|[_ Hnum]].
      { exfalso. eapply Hno; [|reflexivity]. by eapply list_elem_of_lookup_2. }
      destruct (to_numeric_Ok _ _ Hnum) as (_ & _ & Hread).
      destruct (Hread k s Hk) as (x & Hx & Hck).
      exists x. split; [done|]. by eapply list_elem_of_lookup_2.
Qed.

(** X8: from a well-formed frame [prepare_data] returns a target
    without a missing value and a matrix whose columns are columns of
    the frame, have the length of the target and hold no text.  A column
    that held no text in the frame has no missing value in the matrix;
    a text cell in a row whose target is present was read by
    [pd.to_numeric], and the float that it was read as is in the column
    of the matrix: a missing value when it is NaN, as for the empty
    string, since [fillna(0)] ran before the conversion.  The forecaster
    keeps its model and its model type and records the target column. *)
Theorem training_matrix_has_no_text self df target_col exclude_cols self' X y :
  wf_frame df →
  prepare_data self df target_col exclude_cols = Ok (self', X, y) →
  (∀ v, v ∈ y → isna v = false)
  ∧ (∀ lab c, getitem X lab = Ok c →
       ∃ c0, getitem df lab = Ok c0
             ∧ length c = length y
             ∧ (∀ v s, v ∈ c → v ≠ CStr s)
             ∧ ((∀ v s, v ∈ c0 → v ≠ CStr s) → ∀ v, v ∈ c → isna v = false)
             ∧ (∀ target i t s,
                  getitem df target_col = Ok target →
                  target !! i = Some t → isna t = false →
                  c0 !! i = Some (CStr s) →
                  ∃ x, parse_numeric s = Some x ∧ cell_of_float x ∈ c))
  ∧ model self' = model self ∧ model_type self' = model_type self
  ∧ target_column self' = Some target_col.
Proof.
  intros Hwf Hp. destruct (prepare_data_columns _ _ _ _ _ _ _ Hwf Hp) as [Hy HX].
  destruct (prepare_data_Ok _ _ _ _ _ _ _ Hp) as (target & X0 & _ & _ & _ & _ & ->).
  split_and!; done.
Qed.

(** X9: with the default exclude list the recorded feature columns
    contain neither the target nor [lot_id], [timestamp], [free] and
    [occupied], and the matrix has no target column.  The target is on
    that list only: with an explicit [exclude_cols] that does not name
    it, the target is recorded as a feature and the matrix carries it
    (as it is, when it holds no text). *)
Theorem target_is_excluded_by_default_only self df target_col exclude_cols self' X y :
  prepare_data self df target_col exclude_cols = Ok (self', X, y) →
  ∃ cols,
    feature_columns self' = Some cols
    ∧ (exclude_cols = None →
       (target_col ∉ cols) ∧ ("lot_id" ∉ cols) ∧ ("timestamp" ∉ cols)
       ∧ ("free" ∉ cols) ∧ ("occupied" ∉ cols) ∧ (target_col ∉ columns X))
    ∧ (∀ excl, exclude_cols = Some excl → target_col ∉ excl →
         target_col ∈ cols
         ∧ ((∀ v s, v ∈ y → v ≠ CStr s) → getitem X target_col = Ok y)).
Proof.
  intros Hp. destruct (prepare_data_Ok _ _ _ _ _ _ _ Hp)
    as (target & X0 & Ht & -> & Hsel & Hen & ->).
  eexists. split; [reflexivity|]. split.
  - intros ->. simpl.
    assert (∀ l, l ∈ default_exclude target_col →
              l ∉ filter (fun col => col ∉ default_exclude target_col) (columns df)) as Hex.
    { intros l Hl [Hn _]%list_elem_of_filter. done. }
    split_and!; try (apply Hex; unfold default_exclude; elem_of_labels).
    intros Hin. eapply (Hex target_col); [unfold default_exclude; elem_of_labels|].
    pose proof (ensure_numeric_columns _ _ _ Hen) as Hsub.
    rewrite columns_fillna0, (columns_select _ _ _ Hsel) in Hsub.
    by eapply elem_of_sublist.
  - intros excl -> Hn. simpl in *.
    assert (target_col ∈ filter (fun col => col ∉ excl) (columns df)) as Hin.
    { apply list_elem_of_filter. split; [done|]. by eapply getitem_Ok_columns. }
    split; [done|]. intros Hnotext.
    destruct (ensure_numeric_Ok _ _ _ Hen) as [_ Hkeep]. apply Hkeep.
    + unfold fillna0. rewrite getitem_map_columns.
      rewrite (getitem_select _ _ _ _ Hsel Hin).
      unfold take_rows. rewrite getitem_map_columns, Ht. simpl. f_equal.
      apply fillna0_id. intros v Hv. by eapply kept_target_complete.
    + unfold is_object_dtype. apply not_true_is_false.
      intros (v & Hv%list_elem_of_In & Hs)%existsb_exists.
      destruct v as [x|neg|s|t|]; try discriminate Hs. by apply (Hnotext (CStr s) s).
Qed.

End TrainingMatrix.

Section DroppedColumn.
Import Pandas DataLoader Features Models Server Spec.
Context `{PyLib}.

Lemma mapR_Err_elem {A B} (f : A → result B) l x e :
  x ∈ l → f x = Err e → ∃ e', mapR f l = Err e'.
Proof.
  intros Hx Hf. destruct (mapR f l) as [l'|e'] eqn:Hm; [|eauto].
  apply list_elem_of_lookup in Hx as [i Hi].
  destruct (mapR_Ok_lookup _ _ _ _ _ Hm Hi) as (y & _ & Hy). congruence.
Qed.

Lemma to_numeric_Err c e :
  to_numeric c = Err e → (∃ m, e = ValueError m) ∨ (∃ m, e = TypeError m).
Proof.
  unfold to_numeric. induction c as [|v c IH]; simpl; [done|].
  destruct v as [x|neg|s|t|]; simpl; try (destruct (mapR _ c); simpl; [done|by auto]).
  - destruct (parse_numeric s); simpl; [|intros [= <-]; eauto].
    destruct (mapR _ c); simpl; [done|by auto].
  - intros [= <-]. eauto.
Qed.

Lemma ensure_numeric_drops cols X X' col c s :
  ensure_numeric cols X = Ok X' → col ∈ cols →
  getitem X col = Ok c → CStr s ∈ c → parse_numeric s = None →
  col ∉ columns X'.
Proof.
  revert X. induction cols as [|c0 cols IH]; intros X He Hin Hc Hs Hp.
  { by apply elem_of_nil in Hin. }
  simpl in He. apply bind_Ok in He as (a & Ha & He).
  destruct (decide (c0 = col)) as [->|Hne].
  - assert (a = c) as -> by congruence.
    assert (is_object_dtype c = true) as Hobj.
    { unfold is_object_dtype. apply existsb_exists. exists (CStr s).
      split; [by apply list_elem_of_In|done]. }
    rewrite Hobj in He.
    destruct (mapR_Err_elem
                (fun c => match c with
                          | CStr s => from_option (ValueError "Unable to parse string")
                                        (cell_of_float <$> parse_numeric s)
                          | CTime _ => Err (TypeError "Invalid object type")
                          | _ => Ok c
                          end) c (CStr s) (ValueError "Unable to parse string") Hs)
      as [e He'].
    { by rewrite Hp. }
    change (to_numeric c = Err e) in He'. rewrite He' in He.
    assert (ensure_numeric cols (drop_column X col) = Ok X') as Hd.
    { by destruct (to_numeric_Err _ _ He') as [[m ->]|[m ->]]. }
    intros Hx. eapply elem_of_sublist in Hx; [|by eapply ensure_numeric_columns].
    apply getitem_is_Ok in Hx as [c' Hc']. by rewrite getitem_drop_column_eq in Hc'.
  - apply elem_of_cons in Hin as [?|Hin]; [congruence|].
    destruct (is_object_dtype a).
    + destruct (to_numeric a) as [a'|e] eqn:Hnum.
      * eapply IH; [exact He|done| |done|done]. by rewrite getitem_setitem_ne.
      * assert (ensure_numeric cols (drop_column X c0) = Ok X') as Hd.
        { by destruct (to_numeric_Err _ _ Hnum) as [[m ->]|[m ->]]. }
        eapply IH; [exact Hd|done| |done|done]. by rewrite getitem_drop_column_ne.
    + by eapply IH.
Qed.

(** X10: a feature column that holds, in a row whose target is
    present, text that is not a number is dropped from the matrix that
    [prepare_data] returns, and is nevertheless recorded in
    [feature_columns]. *)
Theorem unparseable_feature_is_dropped_but_recorded
    self df target_col exclude_cols self' X y col c target i v s :
  wf_frame df →
  prepare_data self df target_col exclude_cols = Ok (self', X, y) →
  col ∉ default (default_exclude target_col) exclude_cols →
  getitem df col = Ok c → getitem df target_col = Ok target →
  target !! i = Some v → isna v = false →
  c !! i = Some (CStr s) → parse_numeric s = None →
  (col ∉ columns X)
  ∧ ∃ cols, feature_columns self' = Some cols ∧ col ∈ cols.
Proof.
  intros Hwf Hp Hex Hc Ht' Hv Hna Hi Hs.
  destruct (prepare_data_Ok _ _ _ _ _ _ _ Hp)
    as (target' & X0 & Ht & -> & Hsel & Hen & ->).
  assert (target' = target) as -> by congruence.
  set (rows := filter (fun i => default true (isna <$> target !! i) = false)
                      (row_indices df)) in *.
  assert (col ∈ filter (fun col => col ∉ default (default_exclude target_col) exclude_cols)
                       (columns df)) as Hin.
  { apply list_elem_of_filter. split; [done|]. by eapply getitem_Ok_columns. }
  split; [|eauto].
  eapply (ensure_numeric_drops _ _ _ col _ s); [exact Hen|done| | |done].
  - unfold fillna0. rewrite getitem_map_columns, (getitem_select _ _ _ _ Hsel Hin).
    unfold take_rows. by rewrite getitem_map_columns, Hc.
  - apply list_elem_of_fmap. exists (CStr s). split; [done|].
    unfold gather. apply list_elem_of_omap. exists i. split; [|done].
    apply list_elem_of_filter. split.
    + by rewrite Hv.
    + apply elem_of_seq. apply lookup_lt_Some in Hi.
      rewrite (wf_frame_length _ _ _ Hwf Hc) in Hi. lia.
Qed.

End DroppedColumn.

Section PrepareDataExamples.
Import Pandas DataLoader Features Models Server Predict Train Spec Example.

Lemma training_matrix_has_no_text_witness :
  ∃ self' X y c,
    prepare_data small_forecaster blank_frame "occupancy_rate" None = Ok (self', X, y)
    ∧ (∀ v, v ∈ y → isna v = false)
    ∧ getitem X "weather" = Ok c
    ∧ length c = length y
    ∧ (∀ v s, v ∈ c → v ≠ CStr s)
    ∧ CNaN ∈ c.
Proof.
  assert (wf_frame blank_frame) as Hwf by repeat constructor.
  destruct (prepare_data small_forecaster blank_frame "occupancy_rate" None)
    as [[[self' X] y]|e] eqn:E; [|vm_compute in E; discriminate E].
  assert (getitem X "weather" = Ok [CNum 7; CNaN]) as Hc.
  { vm_compute in E. injection E as _ <- _. reflexivity. }
  destruct (training_matrix_has_no_text small_forecaster blank_frame
              "occupancy_rate" None self' X y Hwf E) as (Hy & HX & _).
  destruct (HX "weather" _ Hc) as (c0 & Hc0 & Hlen & Hno & _ & Hread).
  injection Hc0 as <-.
  destruct (Hread [CNum 20; CNum 40; CNaN] 1%nat (CNum 40) "" eq_refl eq_refl eq_refl eq_refl)
    as (x & Hx & Hin).
  injection Hx as <-.
  exists self', X, y, [CNum 7; CNaN]. split_and!; [reflexivity|exact Hy|exact Hc|exact Hlen|exact Hno|exact Hin].
Defined.

Lemma target_is_excluded_by_default_only_witness :
  (∃ self' X y cols,
     prepare_data small_forecaster weather_frame "occupancy_rate" None = Ok (self', X, y)
     ∧ feature_columns self' = Some cols ∧ ("occupancy_rate" ∉ cols))
  ∧ (∃ self' X y cols,
       prepare_data small_forecaster weather_frame "occupancy_rate"
                    (Some ["lot_id"; "weather"]) = Ok (self', X, y)
       ∧ feature_columns self' = Some cols ∧ ("occupancy_rate" ∈ cols)
       ∧ getitem X "occupancy_rate" = Ok y).
Proof.
  split.
  - destruct (prepare_data small_forecaster weather_frame "occupancy_rate" None)
      as [[[self' X] y]|e] eqn:E; [|vm_compute in E; discriminate E].
    destruct (target_is_excluded_by_default_only _ _ _ _ _ _ _ E)
      as (cols & Hc & Hdef & _).
    exists self', X, y, cols. split_and!; [reflexivity|exact Hc|].
    apply (Hdef eq_refl).
  - assert ("occupancy_rate" ∉ ["lot_id"; "weather"]) as Hn by not_elem_of_labels.
    destruct (prepare_data small_forecaster weather_frame "occupancy_rate"
                           (Some ["lot_id"; "weather"]))
      as [[[self' X] y]|e] eqn:E; [|vm_compute in E; discriminate E].
    destruct (target_is_excluded_by_default_only _ _ _ _ _ _ _ E)
      as (cols & Hc & _ & Hexpl).
    destruct (Hexpl _ eq_refl Hn) as [Hin HX].
    exists self', X, y, cols. split_and!; [reflexivity|exact Hc|exact Hin|].
    apply HX. vm_compute in E. injection E as _ _ <-.
    intros v s Hv ->. revert Hv. rewrite !elem_of_cons, elem_of_nil.
    intros [Hv|[Hv|[]]]; discriminate Hv.
Defined.

Lemma unparseable_feature_is_dropped_but_recorded_witness :
  ∃ self' X y cols,
    prepare_data small_forecaster weather_frame "occupancy_rate" None = Ok (self', X, y)
    ∧ ("weather" ∉ columns X)
    ∧ feature_columns self' = Some cols ∧ ("weather" ∈ cols).
Proof.
  assert ("weather" ∉ default (default_exclude "occupancy_rate") None) as Hn
    by (unfold default_exclude; simpl; not_elem_of_labels).
  destruct (prepare_data small_forecaster weather_frame "occupancy_rate" None)
    as [[[self' X] y]|e] eqn:E; [|vm_compute in E; discriminate E].
  destruct (unparseable_feature_is_dropped_but_recorded small_forecaster weather_frame
              "occupancy_rate" None self' X y "weather"
              [CStr "rain"; CStr "sun"; CStr "7"] [CNum 20; CNum 40; CNaN]
              0%nat (CNum 20) "rain")
    as (Hdrop & cols & Hc & Hin);
    [repeat constructor|exact E|exact Hn|reflexivity..|].
  exists self', X, y, cols. split_and!; [reflexivity|assumption..].
Defined.

End PrepareDataExamples.

(** ** The globals of the server *)

Section Globals.
Import Pandas DataLoader Models Server Spec.

Lemma Qltb_irrefl (a : Q) : Qltb a a = false.
Proof. apply Qltb_ge. apply Qle_refl. Qed.

Lemma check_and_reload_model_data_loader w st :
  data_loader (final (check_and_reload_model w st)) = data_loader st.
Proof.
  unfold check_and_reload_model.
  destruct (model_path st) as [p|]; [|done].
  destruct (files w !! p) as [f|]; [|done].
  destruct (match model_last_modified st with None => true | Some last => Qltb last (st_mtime f) end);
    [|done].
  simpl. unfold load_model.
  destruct (files w !! MODEL_PATH) as [f'|]; [|done].
  simpl. destruct (load _ _ _); done.
Qed.

Lemma check_and_reload_model_keeps_forecaster w st :
  is_Some (forecaster st) → is_Some (forecaster (final (check_and_reload_model w st))).
Proof.
  intros Hfc. unfold check_and_reload_model.
  destruct (model_path st) as [p|]; [|done].
  destruct (files w !! p) as [f|]; [|done].
  destruct (match model_last_modified st with None => true | Some last => Qltb last (st_mtime f) end);
    [|done].
  simpl. unfold load_model.
  destruct (files w !! MODEL_PATH) as [f'|]; [|done].
  simpl. destruct (load _ _ _); simpl; eauto.
Qed.

End Globals.

Section Startup.
Import Pandas DataLoader Models Server Spec.

(** X11: the startup event raises nothing exactly when the database
    file exists and the model file exists and unpickles.  Then the
    globals hold the data loader of that database, the forecaster of
    the pickle, the path of the model and the modification time of its
    file, and a reload check that follows does nothing.  Without the
    database the event raises before the model is touched and leaves
    the globals as they were. *)
Theorem startup_event_sets_globals w st :
  (raised (startup_event w st) = None
   ↔ is_Some (databases w !! DATABASE_PATH)
     ∧ ∃ f, files w !! MODEL_PATH = Some f ∧ is_Some (pickle f))
  ∧ (raised (startup_event w st) = None →
     ∃ f d,
       files w !! MODEL_PATH = Some f ∧ pickle f = Some d
       ∧ final (startup_event w st)
         = {| forecaster := Some {| model_type := md_model_type d; model := md_model d;
                                    feature_columns := md_feature_columns d;
                                    target_column := md_target_column d |};
              data_loader := Some {| db_path := DATABASE_PATH |};
              model_path := Some MODEL_PATH;
              model_last_modified := Some (st_mtime f) |}
       ∧ check_and_reload_model w (final (startup_event w st))
         = {| final := final (startup_event w st); raised := None; unpickled := [] |})
  ∧ (databases w !! DATABASE_PATH = None →
     final (startup_event w st) = st ∧ is_Some (raised (startup_event w st))).
Proof.
  unfold startup_event, initialize_data_loader, ParkingDataLoader_init.
  destruct (databases w !! DATABASE_PATH) as [db|] eqn:Hdb.
  2: { simpl. split_and!; [|done|by eauto]. split; [done|]. by intros [[? ?] _]. }
  simpl. unfold load_model.
  destruct (files w !! MODEL_PATH) as [f|] eqn:Hf.
  2: { simpl. split_and!; [|done|done]. split; [done|]. by intros [_ (f & ? & _)]. }
  simpl. unfold load. rewrite Hf. simpl.
  destruct (pickle f) as [d|] eqn:Hd.
  2: { simpl. split_and!; [|done|done]. split; [done|].
       intros [_ (f' & [= <-] & [d Hd'])]. congruence. }
  simpl. split_and!; [|intros _|done].
  - split; [intros _|done]. split; [by eexists|]. exists f. split; [done|]. by rewrite Hd.
  - exists f, d. split_and!; try done.
    unfold check_and_reload_model. simpl. rewrite Hf. simpl.
    by rewrite Qltb_irrefl.
Qed.

End Startup.

Section ReloadOutcomes.
Import Pandas DataLoader Models Server Spec.
Context `{PyLib}.

(** X12: when the model file is newer than recorded but cannot be
    unpickled, [check_and_reload_model] raises nothing and leaves as
    the forecaster the fresh, unfitted forecaster that [load_model]
    assigned before loading; the recorded modification time is
    unchanged, so the next check tries again.  With that file in place
    [GET /forecast/{lot_id}] returns no forecast and [GET /forecast]
    returns at most the empty list. *)
Theorem failed_reload_discards_model w st f :
  model_path st = Some MODEL_PATH →
  files w !! MODEL_PATH = Some f → pickle f = None →
  match model_last_modified st with
  | None => True
  | Some last => (last < st_mtime f)%Q
  end →
  let o := check_and_reload_model w st in
  raised o = None
  ∧ final o
    = {| forecaster := Some {| model_type := "xgboost"; model := Some unfitted;
                               feature_columns := None; target_column := None |};
         data_loader := data_loader st;
         model_path := Some MODEL_PATH;
         model_last_modified := model_last_modified st |}
  ∧ unpickled (check_and_reload_model w (final o)) = [MODEL_PATH]
  ∧ (∀ lot_id, ¬ is_Ok (get_forecast w st lot_id).2)
  ∧ ∀ fs, (get_all_forecasts w st).2 = Ok fs → fs = [].
Proof.
  intros Hp Hf Hd Hnew.
  assert (check_and_reload_model w st
          = {| final := {| forecaster := Some {| model_type := "xgboost"; model := Some unfitted;
                               feature_columns := None; target_column := None |};
                           data_loader := data_loader st;
                           model_path := Some MODEL_PATH;
                           model_last_modified := model_last_modified st |};
               raised := None; unpickled := [MODEL_PATH] |}) as Hc.
  { unfold check_and_reload_model. rewrite Hp, Hf. simpl.
    assert (match model_last_modified st with
            | Some last => Qltb last (st_mtime f)
            | None => true
            end = true) as ->.
    { destruct (model_last_modified st); [by apply Qltb_lt|done]. }
    unfold load_model. rewrite Hf. simpl. unfold load. rewrite Hf. simpl.
    by rewrite Hd. }
  cbv zeta. rewrite Hc. simpl. split_and!; try done.
  - unfold check_and_reload_model. simpl. rewrite Hf. simpl.
    assert (match model_last_modified st with
            | Some last => Qltb last (st_mtime f)
            | None => true
            end = true) as ->.
    { destruct (model_last_modified st); [by apply Qltb_lt|done]. }
    unfold load_model. rewrite Hf. simpl. unfold load. rewrite Hf. simpl.
    by rewrite Hd.
  - intros lot_id [fo Hfo].
    destruct (get_forecast_Ok _ _ _ _ Hfo)
      as (fc & loader & db & name & X & preds & Hfc & _ & _ & Hin & _).
    unfold get_forecast in Hfc. simpl in Hfc. rewrite Hc in Hfc. simpl in Hfc.
    injection Hfc as <-.
    apply forecast_input_columns in Hin. done.
  - intros fs Hfs. destruct fs as [|fo fs]; [done|]. exfalso.
    destruct (get_all_forecasts_Ok _ _ _ fo Hfs ltac:(left))
      as (fc & loader & db & latest & X & preds & idx & Hfc & _ & _ & Hin & _).
    unfold get_all_forecasts in Hfc. simpl in Hfc. rewrite Hc in Hfc. simpl in Hfc.
    injection Hfc as <-.
    apply all_forecasts_input_columns in Hin. done.
Qed.

(** X13: after a reload check on a model file that unpickles, a
    second check in the same world does nothing; and when the first
    check unpickled the file, the globals hold its forecaster and its
    modification time. *)
Theorem reload_is_idempotent w st f d :
  model_path st = Some MODEL_PATH →
  files w !! MODEL_PATH = Some f → pickle f = Some d →
  let st' := final (check_and_reload_model w st) in
  check_and_reload_model w st' = {| final := st'; raised := None; unpickled := [] |}
  ∧ (unpickled (check_and_reload_model w st) = [MODEL_PATH] →
     model_last_modified st' = Some (st_mtime f)
     ∧ forecaster st'
       = Some {| model_type := md_model_type d; model := md_model d;
                 feature_columns := md_feature_columns d;
                 target_column := md_target_column d |}).
Proof.
  intros Hp Hf Hd. cbv zeta.
  destruct (match model_last_modified st with
            | Some last => Qltb last (st_mtime f)
            | None => true
            end) eqn:Hnew.
  - assert (check_and_reload_model w st
            = {| final := {| forecaster := Some {| model_type := md_model_type d;
                                                   model := md_model d;
                                                   feature_columns := md_feature_columns d;
                                                   target_column := md_target_column d |};
                             data_loader := data_loader st;
                             model_path := Some MODEL_PATH;
                             model_last_modified := Some (st_mtime f) |};
                 raised := None; unpickled := [MODEL_PATH] |}) as ->.
    { unfold check_and_reload_model. rewrite Hp, Hf. cbv zeta. rewrite Hnew.
      unfold load_model. rewrite Hf. simpl. unfold load. rewrite Hf. simpl.
      by rewrite Hd. }
    simpl. split; [|done].
    unfold check_and_reload_model. simpl. rewrite Hf. simpl. by rewrite Qltb_irrefl.
  - assert (check_and_reload_model w st
            = {| final := st; raised := None; unpickled := [] |}) as Hc.
    { unfold check_and_reload_model. rewrite Hp, Hf. cbv zeta. by rewrite Hnew. }
    rewrite Hc. simpl. split; [by rewrite Hc|done].
Qed.

End ReloadOutcomes.

Section GlobalsExamples.
Import Pandas DataLoader Features Models Server Predict Train Spec Example.

Lemma startup_event_sets_globals_witness :
  final (startup_event world0 cold_state) = serving_state
  ∧ check_and_reload_model world0 (final (startup_event world0 cold_state))
    = {| final := final (startup_event world0 cold_state); raised := None;
         unpickled := [] |}.
Proof.
  assert (raised (startup_event world0 cold_state) = None) as Hr
    by (vm_compute; reflexivity).
  destruct (proj1 (proj2 (startup_event_sets_globals world0 cold_state)) Hr)
    as (f & d & Hf & Hd & Hfinal & Hidle).
  split; [|exact Hidle].
  rewrite Hfinal. unfold serving_state, load_model, startup_state.
  rewrite Hf. cbn [is_Some_dec from_option]. unfold load. rewrite Hf.
  cbn [from_option mbind result_bind]. rewrite Hd. reflexivity.
Defined.

Lemma failed_reload_discards_model_witness :
  raised (check_and_reload_model corrupt_world serving_state) = None
  ∧ feature_columns
      <$> forecaster (final (check_and_reload_model corrupt_world serving_state))
    = Some None
  ∧ ∀ lot_id, ¬ is_Ok (get_forecast corrupt_world serving_state lot_id).2.
Proof.
  destruct (failed_reload_discards_model corrupt_world serving_state corrupt_file)
    as (Hr & Hfinal & _ & Hnone & _).
  - vm_compute. reflexivity.
  - vm_compute. reflexivity.
  - reflexivity.
  - vm_compute. reflexivity.
  - split_and!; [exact Hr| |exact Hnone]. rewrite Hfinal. reflexivity.
Defined.

Lemma reload_is_idempotent_witness :
  check_and_reload_model world0
    (final (check_and_reload_model world0 stale_state))
  = {| final := final (check_and_reload_model world0 stale_state);
       raised := None; unpickled := [] |}
  ∧ model_last_modified (final (check_and_reload_model world0 stale_state))
    = Some 1000%Q.
Proof.
  destruct (files world0 !! MODEL_PATH) as [f|] eqn:Hf;
    [|vm_compute in Hf; discriminate Hf].
  destruct (pickle f) as [d|] eqn:Hd.
  - destruct (reload_is_idempotent world0 stale_state f d eq_refl Hf Hd)
      as [Hidle Hnew].
    split; [exact Hidle|].
    destruct Hnew as [-> _]; [vm_compute; reflexivity|].
    vm_compute in Hf. injection Hf as <-. reflexivity.
  - exfalso. vm_compute in Hf. injection Hf as <-. discriminate Hd.
Defined.

End GlobalsExamples.

(** ** The endpoints *)

Section Endpoints.
Import Pandas DataLoader Models Server Predict Spec.
Context `{PyLib}.

Lemma mapR_Ok_Forall2 {A B} (f : A → result B) l l' :
  mapR f l = Ok l' → Forall2 (fun x y => f x = Ok y) l l'.
Proof.
  revert l'. induction l as [|x l IH]; intros l' Hm; simpl in Hm; inv_Ok.
  - constructor.
  - constructor; [done|]. by apply IH.
Qed.

Lemma nrows_frame_of_rows cols rows :
  cols ≠ [] → nrows (frame_of_rows cols rows) = length rows.
Proof.
  destruct cols as [|c cols]; [done|]. intros _.
  unfold frame_of_rows. simpl. by rewrite length_map.
Qed.

Lemma filter_all {A} (P : A → Prop) `{∀ x, Decision (P x)} (l : list A) :
  (∀ x, P x) → filter P l = l.
Proof.
  intros HP. induction l as [|x l IH]; [done|].
  rewrite filter_cons_True by done. by rewrite IH.
Qed.

Lemma load_parking_lots_Ok db :
  load_parking_lots db
  = Ok (frame_of_rows (t_columns (parking_lots db)) (t_rows (parking_lots db))).
Proof.
  unfold load_parking_lots, read_sql_query. simpl.
  by rewrite filter_all.
Qed.

Lemma except_500_Err {A} msg (r : result A) e :
  except_500 msg r = Err e → ∃ d, e = HTTPException 500 d.
Proof. destruct r; simpl; [done|]. intros [= <-]. eauto. Qed.

Lemma except_http_500_Err {A} msg (r : result A) e :
  except_http_500 msg r = Err e → ∃ c d, e = HTTPException c d.
Proof.
  destruct r as [a|[]]; simpl; try done; intros [= <-]; eauto.
Qed.

End Endpoints.

Section Handlers.
Import Pandas DataLoader Models Server Predict Spec.
Context `{PyLib}.

(** X14: the exceptions of the handlers.  [GET /current] and
    [GET /forecast] raise HTTPException 503 or 500 only,
    [GET /forecast/{lot_id}] raises HTTPExceptions only; [GET /health]
    and [GET /lots] have no [try] and raise the error of the database
    as it is. *)
Theorem handlers_raise_http_errors w st :
  (∀ lot_id e, get_current_status w st lot_id = Err e →
     ∃ detail, e = HTTPException 503 detail ∨ e = HTTPException 500 detail)
  ∧ (∀ e, (get_all_forecasts w st).2 = Err e →
       ∃ detail, e = HTTPException 503 detail ∨ e = HTTPException 500 detail)
  ∧ (∀ lot_id e, (get_forecast w st lot_id).2 = Err e →
       ∃ status_code detail, e = HTTPException status_code detail)
  ∧ (∀ loader, data_loader st = Some loader → databases w !! db_path loader = None →
       health_check w st = Err (DatabaseError "no such table")
       ∧ get_parking_lots w st = Err (DatabaseError "no such table")).
Proof.
  split_and!.
  - intros lot_id e. unfold get_current_status.
    destruct (data_loader st); [|intros [= <-]; eauto].
    intros [d ->]%except_500_Err. eauto.
  - intros e. unfold get_all_forecasts. simpl.
    destruct (forecaster _); [|intros [= <-]; eauto].
    destruct (data_loader _); [|intros [= <-]; eauto].
    intros [d ->]%except_500_Err. eauto.
  - intros lot_id e. unfold get_forecast. simpl.
    destruct (forecaster _); [|intros [= <-]; eauto].
    destruct (data_loader _); [|intros [= <-]; eauto].
    apply except_http_500_Err.
  - intros loader Hl Hdb. unfold health_check, get_parking_lots, connect.
    by rewrite Hl, Hdb.
Qed.

(** X15: with a data loader and its database [GET /health] answers
    [healthy], the number of rows of the table of lots, and whether a
    forecaster is loaded and of which type. *)
Theorem health_check_counts_lots w st loader db :
  data_loader st = Some loader →
  databases w !! db_path loader = Some db →
  t_columns (parking_lots db) ≠ [] →
  health_check w st
  = Ok {| hr_status := "healthy";
          hr_model_loaded := match forecaster st with Some _ => true | None => false end;
          hr_model_type := model_type <$> forecaster st;
          hr_total_lots := length (t_rows (parking_lots db)) |}.
Proof.
  intros Hl Hdb Hcols. unfold health_check, connect. rewrite Hl, Hdb.
  cbn [from_option mbind result_bind].
  rewrite load_parking_lots_Ok. cbn [mbind result_bind].
  by rewrite nrows_frame_of_rows.
Qed.

(** X16: [GET /lots] returns one entry per row of the table of lots,
    in the order of the table, with the stored [id], [name],
    [lot_type], [latitude] and [longitude] and with [total] cut to an
    integer. *)
Theorem get_parking_lots_rows w st loader db lots :
  data_loader st = Some loader →
  databases w !! db_path loader = Some db →
  t_columns (parking_lots db) ≠ [] →
  get_parking_lots w st = Ok lots →
  Forall2 (fun r p =>
             stored (parking_lots db) r "id" = CStr (pl_id p)
             ∧ stored (parking_lots db) r "name" = CStr (pl_name p)
             ∧ (∃ x, stored (parking_lots db) r "total" = CNum x
                     ∧ pl_total p = truncate x)
             ∧ stored (parking_lots db) r "lot_type" = CStr (pl_lot_type p)
             ∧ stored (parking_lots db) r "latitude" = pl_latitude p
             ∧ stored (parking_lots db) r "longitude" = pl_longitude p)
          (t_rows (parking_lots db)) lots.
Proof.
  intros Hl Hdb Hcols. unfold get_parking_lots, connect. rewrite Hl, Hdb.
  cbn [from_option mbind result_bind].
  rewrite load_parking_lots_Ok. cbn [mbind result_bind]. unfold row_indices.
  rewrite nrows_frame_of_rows by done.
  set (t := parking_lots db). intros Hm%mapR_Ok_Forall2.
  pose proof (Forall2_length _ _ _ Hm) as Hlen. rewrite length_seq in Hlen.
  apply Forall2_same_length_lookup_2; [done|].
  intros i r p Hr Hp.
  assert (seq 0 (length (t_rows t)) !! i = Some i) as Hi.
  { apply lookup_seq. split; [done|]. by eapply lookup_lt_Some. }
  pose proof (Forall2_lookup_lr _ _ _ _ _ _ Hm Hi Hp) as Hrow.
  assert (∀ lab v, at_row (frame_of_rows (t_columns t) (t_rows t)) i lab = Ok v →
            stored t r lab = v) as Hat.
  { intros lab v (c & Hc & Hv)%at_row_Ok.
    rewrite getitem_frame_of_rows in Hc. unfold stored.
    destruct (index_of (t_columns t) lab) as [j|]; [|done].
    injection Hc as <-. rewrite list_lookup_fmap, Hr in Hv. by injection Hv as <-. }
  unfold parking_lot_of_row in Hrow.
  apply bind_Ok in Hrow as (id & Hid%Hat & Hrow).
  apply bind_Ok in Hrow as (name & Hname%Hat & Hrow).
  apply bind_Ok in Hrow as (total & (ct & Htot%Hat & (x & -> & ->)%py_int_Ok)%bind_Ok & Hrow).
  apply bind_Ok in Hrow as (lot_type & Hty%Hat & Hrow).
  apply bind_Ok in Hrow as (lat & (clat & Hlat%Hat & Hflat)%bind_Ok & Hrow).
  apply bind_Ok in Hrow as (lon & (clon & Hlon%Hat & Hflon)%bind_Ok & Hrow).
  apply bind_Ok in Hrow as (sid & Hsid & Hrow).
  apply bind_Ok in Hrow as (sname & Hsname & Hrow).
  apply bind_Ok in Hrow as (sty & Hsty & Hrow).
  injection Hrow as <-. simpl.
  destruct id; try discriminate Hsid. injection Hsid as <-.
  destruct name; try discriminate Hsname. injection Hsname as <-.
  destruct lot_type; try discriminate Hsty. injection Hsty as <-.
  split_and!; try done.
  - by exists x.
  - rewrite Hlat. destruct clat; try discriminate Hflat; by injection Hflat as <-.
  - rewrite Hlon. destruct clon; try discriminate Hflon; by injection Hflon as <-.
Qed.

(** X17: [make_predictions] never returns a frame of predictions: it
    returns [None] when the model file is missing, and with a model
    file that unpickles it stops at [ParkingDataLoader()], which lacks
    its argument. *)
Theorem make_predictions_returns_no_frame w model_path lot_id :
  (∀ df, make_predictions w model_path lot_id ≠ Ok (Some df))
  ∧ (files w !! default MODEL_PATH model_path = None →
     make_predictions w model_path lot_id = Ok None)
  ∧ (∀ f d, files w !! default MODEL_PATH model_path = Some f → pickle f = Some d →
       make_predictions w model_path lot_id
       = Err (TypeError "__init__() missing 1 required positional argument: 'db_path'")).
Proof.
  unfold make_predictions. split_and!.
  - intros df. destruct (files w !! default MODEL_PATH model_path) as [f|] eqn:Hf; [|done].
    simpl. unfold load. rewrite Hf. simpl. destruct (pickle f); done.
  - by intros ->.
  - intros f d Hf Hd. rewrite Hf. simpl. unfold load. rewrite Hf. simpl. by rewrite Hd.
Qed.

End Handlers.

Section EndpointExamples.
Import Pandas DataLoader Features Models Server Predict Train Spec Example.

Lemma handlers_raise_http_errors_witness :
  ∃ status_code detail,
    (get_forecast corrupt_world serving_state "A").2
    = Err (HTTPException status_code detail).
Proof.
  destruct (handlers_raise_http_errors corrupt_world serving_state)
    as (_ & _ & Hfc & _).
  destruct (get_forecast corrupt_world serving_state "A").2 as [f|e] eqn:E;
    [vm_compute in E; discriminate E|].
  destruct (Hfc "A" e E) as (c & d & ->). by exists c, d.
Defined.

Lemma health_check_counts_lots_witness :
  ∃ r, health_check world0 serving_state = Ok r
       ∧ hr_total_lots r = 2%nat ∧ hr_model_loaded r = true.
Proof.
  eexists. split.
  - apply (health_check_counts_lots world0 serving_state {| db_path := DB_PATH |} db).
    + reflexivity.
    + reflexivity.
    + discriminate.
  - split; reflexivity.
Defined.

Lemma get_parking_lots_rows_witness :
  ∃ lots, get_parking_lots world0 serving_state = Ok lots
          ∧ Forall2 (fun r p => stored lots_table r "name" = CStr (pl_name p)
                                ∧ ∃ x, stored lots_table r "total" = CNum x
                                       ∧ pl_total p = truncate x)
                    (t_rows lots_table) lots.
Proof.
  destruct (get_parking_lots world0 serving_state) as [lots|e] eqn:E;
    [|vm_compute in E; discriminate E].
  exists lots. split; [reflexivity|].
  eapply Forall2_impl.
  - apply (get_parking_lots_rows world0 serving_state {| db_path := DB_PATH |} db lots);
      [reflexivity|reflexivity|discriminate|exact E].
  - intros r p (_ & Hn & Ht & _). split; assumption.
Defined.

Lemma make_predictions_returns_no_frame_witness :
  make_predictions world0 None None
  = Err (TypeError "__init__() missing 1 required positional argument: 'db_path'").
Proof.
  destruct (files world0 !! MODEL_PATH) as [f|] eqn:Hf;
    [|vm_compute in Hf; discriminate Hf].
  destruct (pickle f) as [d|] eqn:Hd.
  - apply (proj2 (proj2 (make_predictions_returns_no_frame world0 None None)) f d Hf Hd).
  - exfalso. vm_compute in Hf. injection Hf as <-. discriminate Hd.
Defined.

End EndpointExamples.

(** ** Saving and loading a forecaster *)

Section SaveLoad.
Import Pandas DataLoader Features Models Server Spec.

(** X18: [save] refuses a forecaster without a model; otherwise it
    writes one file, with the given modification time, and [load] of
    that file makes any forecaster equal to the saved one.  [load] of a
    path without a file raises FileNotFoundError. *)
Theorem save_load_round_trip self filepath mtime fs :
  (model self = None →
   save self filepath mtime fs = Err (ValueError "Model not trained yet"))
  ∧ (∀ fs', save self filepath mtime fs = Ok fs' →
       (∀ other, load other filepath fs' = Ok self)
       ∧ (∀ f, fs' !! filepath = Some f → st_mtime f = mtime)
       ∧ ∀ other_path, other_path ≠ filepath → fs' !! other_path = fs !! other_path)
  ∧ (∀ other, fs !! filepath = None →
       load other filepath fs = Err (FileNotFoundError filepath)).
Proof.
  split_and!.
  - unfold save. by intros ->.
  - unfold save. destruct (model self) eqn:Hm; [|done]. intros fs' [= <-]. split_and!.
    + intros other. unfold load. rewrite lookup_insert_eq. simpl.
      destruct self. simpl in *. by rewrite Hm.
    + intros f. rewrite lookup_insert_eq. by intros [= <-].
    + intros q Hq. by rewrite lookup_insert_ne.
  - intros other Hn. unfold load. by rewrite Hn.
Qed.

End SaveLoad.

Section SaveLoadExamples.
Import Pandas DataLoader Features Models Server Predict Train Spec Example.

Lemma save_load_round_trip_witness :
  ∃ fs, save small_forecaster MODEL_PATH 1000 ∅ = Ok fs
        ∧ ∀ other, load other MODEL_PATH fs = Ok small_forecaster.
Proof.
  destruct (save small_forecaster MODEL_PATH 1000 ∅) as [fs|e] eqn:E;
    [|discriminate E].
  exists fs. split; [reflexivity|].
  apply (proj1 (proj2 (save_load_round_trip small_forecaster MODEL_PATH 1000 ∅)) fs E).
Defined.

End SaveLoadExamples.

(** ** Evaluation *)

Section Mape.
Import Pandas DataLoader Features Models Server Spec.
Context `{PyLib} `{Metrics}.

Lemma mapR_all_Ok {A B} (f : A → result B) (g : A → B) l :
  (∀ x, x ∈ l → f x = Ok (g x)) → mapR f l = Ok (g <$> l).
Proof.
  induction l as [|x l IH]; intros Hf; [done|]. simpl.
  rewrite Hf by left. simpl. rewrite IH; [done|]. intros. apply Hf. by right.
Qed.

Lemma series_sub_floats ys ps :
  length ys = length ps →
  series_sub (CNum <$> ys) (CNum <$> ps) = Ok (CNum <$> zip_with Qminus ys ps).
Proof.
  unfold series_sub. revert ps. induction ys as [|y ys IH]; intros [|p ps] Hlen;
    try done. simpl in *. rewrite IH by lia. done.
Qed.

Lemma series_div_floats ds ys :
  length ds = length ys →
  series_div (CNum <$> ds) (CNum <$> ys) = Ok (zip_with float_div ds ys).
Proof.
  unfold series_div. revert ys. induction ds as [|d ds IH]; intros [|y ys] Hlen;
    try done. simpl in *. rewrite IH by lia. unfold float_div.
  by destruct (Qeq_bool y 0).
Qed.

Lemma np_abs_floats l :
  Forall is_float l → np_abs l = Ok (float_abs <$> l).
Proof.
  intros Hl. unfold np_abs. apply mapR_all_Ok. intros c Hc.
  rewrite Forall_forall in Hl. specialize (Hl c Hc). by destruct c.
Qed.

Lemma is_float_float_div ds ys : Forall is_float (zip_with float_div ds ys).
Proof.
  apply Forall_forall. intros c (d & y & -> & _)%elem_of_zip_with.
  unfold float_div. by repeat destruct (Qeq_bool _ _).
Qed.

Lemma float_abs_not_neg_inf (l : list cell) : CInf true ∉ float_abs <$> l.
Proof. intros (c & Hc & _)%list_elem_of_fmap. by destruct c. Qed.

Lemma series_mean_floats l :
  Forall is_float l →
  series_mean l
  = Ok (let present := filter (fun c => isna c = false) l in
        if bool_decide (CInf false ∈ present)
        then (if bool_decide (CInf true ∈ present) then CNaN else CInf false)
        else if bool_decide (CInf true ∈ present) then CInf true
        else agg_mean (omap (fun c => match c with CNum x => Some x | _ => None end)
                            present)).
Proof.
  intros Hl. unfold series_mean.
  rewrite (mapR_all_Ok _ id).
  2: { intros c Hc. rewrite Forall_forall in Hl. specialize (Hl c Hc). by destruct c. }
  rewrite list_fmap_id. cbn [mbind result_bind].
  by repeat destruct (bool_decide _).
Qed.

Lemma filter_notna_nums (rs : list Q) :
  filter (fun c => isna c = false) (CNum <$> rs) = CNum <$> rs.
Proof.
  induction rs as [|r rs IH]; [done|].
  rewrite fmap_cons, filter_cons_True by done. by rewrite IH.
Qed.

Lemma omap_nums (rs : list Q) :
  omap (fun c => match c with CNum x => Some x | _ => None end) (CNum <$> rs) = rs.
Proof. induction rs as [|r rs IH]; [done|]. cbn. by rewrite IH. Qed.

Lemma series_mean_nums rs :
  rs ≠ [] → series_mean (CNum <$> rs) = Ok (CNum (Qmean rs)).
Proof.
  intros Hne. rewrite series_mean_floats.
  2: { apply Forall_forall. by intros c (r & -> & _)%list_elem_of_fmap. }
  cbv zeta. rewrite filter_notna_nums, omap_nums.
  rewrite !bool_decide_eq_false_2.
  - by destruct rs.
  - by intros (r & ? & _)%list_elem_of_fmap.
  - by intros (r & ? & _)%list_elem_of_fmap.
Qed.

Lemma float_div_nonzero ds ys :
  Forall (fun y => ¬ (y == 0)%Q) ys →
  zip_with float_div ds ys = CNum <$> zip_with Qdiv ds ys.
Proof.
  intros Hys. revert ds. induction Hys as [|y ys Hy Hys IH]; intros [|d ds]; try done.
  simpl. rewrite IH. unfold float_div.
  destruct (Qeq_bool y 0) eqn:Hq; [by apply Qeq_bool_eq in Hq|done].
Qed.

Lemma abs_pct_errors ys ps :
  Qabs <$> zip_with Qdiv (zip_with Qminus ys ps) ys = zip_with abs_pct_error ys ps.
Proof.
  revert ps. induction ys as [|y ys IH]; intros [|p ps]; try done.
  simpl. by rewrite IH.
Qed.

Lemma float_abs_nums (rs : list Q) :
  float_abs <$> (CNum <$> rs) = CNum <$> (Qabs <$> rs).
Proof. by rewrite <- !list_fmap_compose. Qed.

(** X19: the [mape] of [evaluate] on a target of finite numbers:
    when no target is zero it is 100 times the mean of [|(y - p) / y|]
    over the rows; when a row has the target 0 and another prediction,
    it is infinite. *)
Theorem mape_of_evaluate self X_test ys ev :
  evaluate self X_test (CNum <$> ys) = Ok ev →
  ∃ ps,
    predict self X_test = Ok ps ∧ length ps = length ys
    ∧ (ys ≠ [] → Forall (fun y => ¬ (y == 0)%Q) ys →
       mape ev = CNum (Qmean (zip_with abs_pct_error ys ps) * 100))
    ∧ (∀ i y p, ys !! i = Some y → ps !! i = Some p → (y == 0)%Q → ¬ (p == 0)%Q →
         mape ev = CInf false).
Proof.
  unfold evaluate. intros He.
  apply bind_Ok in He as (ps & Hps & He). apply bind_Ok in He as (a & _ & He).
  apply bind_Ok in He as (b & _ & He). apply bind_Ok in He as (c & _ & He).
  apply bind_Ok in He as (m & Hm & [= <-]). simpl.
  unfold mean_absolute_percentage, series_sub_array in Hm.
  rewrite length_fmap in Hm.
  destruct (bool_decide (length ys = length ps)) eqn:Hlen; [|done].
  apply bool_decide_eq_true in Hlen.
  rewrite series_sub_floats in Hm by done. cbn [mbind result_bind] in Hm.
  rewrite series_div_floats in Hm by (rewrite length_zip_with; lia).
  cbn [mbind result_bind] in Hm.
  rewrite np_abs_floats in Hm by apply is_float_float_div.
  cbn [mbind result_bind] in Hm.
  exists ps. split_and!; [done|done|..].
  - intros Hne Hnz. rewrite float_div_nonzero, float_abs_nums, abs_pct_errors in Hm by done.
    rewrite series_mean_nums in Hm.
    + cbn [mbind result_bind] in Hm. simpl in Hm. by injection Hm as <-.
    + destruct ys as [|y ys]; [done|]. by destruct ps.
  - intros i y p Hy Hp Hy0 Hp0.
    rewrite series_mean_floats in Hm.
    2: { apply Forall_forall. intros v (u & -> & _)%list_elem_of_fmap. by destruct u. }
    cbn [mbind result_bind] in Hm. cbv zeta in Hm.
    rewrite bool_decide_eq_true_2 in Hm.
    + rewrite bool_decide_eq_false_2 in Hm.
      * simpl in Hm. by injection Hm as <-.
      * intros [_ Hin]%list_elem_of_filter. by apply float_abs_not_neg_inf in Hin.
    + apply list_elem_of_filter. split; [done|].
      apply list_elem_of_fmap. exists (CInf (Qltb (y - p) 0)). split; [done|].
      apply list_elem_of_lookup. exists i.
      rewrite lookup_zip_with, lookup_zip_with, Hy, Hp. simpl.
      f_equal. unfold float_div.
      assert (Qeq_bool y 0 = true) as -> by by apply Qeq_eq_bool.
      destruct (Qeq_bool (y - p) 0) eqn:Hq; [|done].
      apply Qeq_bool_eq in Hq. exfalso. apply Hp0. lra.
Qed.

End Mape.

Section MapeExamples.
Import Pandas DataLoader Features Models Server Predict Train Spec Example.

Lemma mape_of_evaluate_witness :
  (∃ ev, evaluate small_forecaster test_frame (CNum <$> test_target) = Ok ev
         ∧ mape ev
           = CNum (Qmean [Qabs ((40 - 50) / 40); Qabs ((50 - 40) / 50)] * 100))
  ∧ (∃ ev, evaluate small_forecaster test_frame (CNum <$> [0%Q; 50%Q]) = Ok ev
           ∧ mape ev = CInf false).
Proof.
  split.
  - destruct (evaluate small_forecaster test_frame (CNum <$> test_target))
      as [ev|e] eqn:E; [|vm_compute in E; discriminate E].
    exists ev. split; [reflexivity|].
    destruct (mape_of_evaluate small_forecaster test_frame test_target ev E)
      as (ps & Hps & _ & Hmape & _).
    vm_compute in Hps. injection Hps as <-.
    apply Hmape; [discriminate|].
    repeat constructor; intros Hq; discriminate Hq.
  - destruct (evaluate small_forecaster test_frame (CNum <$> [0%Q; 50%Q]))
      as [ev|e] eqn:E; [|vm_compute in E; discriminate E].
    exists ev. split; [reflexivity|].
    destruct (mape_of_evaluate small_forecaster test_frame [0%Q; 50%Q] ev E)
      as (ps & Hps & _ & _ & Hinf).
    vm_compute in Hps. injection Hps as <-.
    apply (Hinf 0%nat 0%Q (50 # 1)%Q eq_refl eq_refl); [reflexivity|].
    intros Hq. discriminate Hq.
Defined.

End MapeExamples.

(** ** Feature importance *)

Section Importance.
Import Pandas DataLoader Features Models Server Spec.

Lemma outranks_trans imps : Transitive (outranks imps).
Proof.
  intros i j k. unfold outranks. rewrite !Is_true_true, !Qle_bool_iff.
  intros ? ?. by eapply Qle_trans.
Qed.

Lemma outranks_total imps : Total (outranks imps).
Proof.
  intros i j. unfold outranks. rewrite !Is_true_true, !Qle_bool_iff.
  destruct (Qlt_le_dec (importance_of imps i) (importance_of imps j)) as [Hlt|Hle].
  - right. by apply Qlt_le_weak.
  - by left.
Qed.

Lemma argsort_desc_Permutation imps : argsort_desc imps ≡ₚ seq 0 (length imps).
Proof. apply merge_sort_Permutation. Qed.

Lemma argsort_desc_sorted imps : StronglySorted (outranks imps) (argsort_desc imps).
Proof.
  pose proof (outranks_trans imps) as Htrans.
  pose proof (outranks_total imps) as Htotal.
  apply (StronglySorted_merge_sort (outranks imps)).
Qed.

Lemma gather_take {A} m idxs (c : list A) :
  (∀ j, j ∈ idxs → (j < length c)%nat) →
  take m (gather idxs c) = gather (take m idxs) c.
Proof.
  unfold gather. revert m. induction idxs as [|i idxs IH]; intros m Hlt.
  - by destruct m.
  - destruct (lookup_lt_is_Some_2 c i) as [x Hx]; [apply Hlt; left|].
    destruct m as [|m]; [done|]. cbn. rewrite Hx. simpl. f_equal.
    apply IH. intros. apply Hlt. by right.
Qed.

Lemma gather_seq_all {A} (c : list A) : gather (seq 0 (length c)) c = c.
Proof.
  apply list_eq. intros p. rewrite gather_lookup.
  2: { intros j Hj%elem_of_seq. lia. }
  destruct (decide (p < length c)%nat) as [Hlt|Hge].
  - by rewrite lookup_seq_lt.
  - rewrite lookup_seq_ge by lia. simpl. symmetry. apply lookup_ge_None. lia.
Qed.

End Importance.

Section TopFeatures.
Import Pandas DataLoader Features Models Server Spec.

(** X20: for [0 <= top_n] [get_feature_importance] returns
    [min top_n n] of the [n] features, each once with its importance,
    in non-increasing order of importance, and no feature left out is
    more important than one returned; the recorded feature columns and
    the importances have the same length. *)
Theorem top_features_by_importance self importances top_n cols df :
  get_feature_importance self (Some importances) top_n = Ok df →
  feature_columns self = Some cols → 0 <= top_n →
  ∃ rows : list nat,
    length cols = length importances
    ∧ df = [("feature", gather rows (CStr <$> cols));
            ("importance", gather rows (CNum <$> importances))]
    ∧ NoDup rows
    ∧ length rows = Nat.min (Z.to_nat top_n) (length importances)
    ∧ (∀ i, i ∈ rows → (i < length importances)%nat)
    ∧ (∀ k k' i j, (k < k')%nat → rows !! k = Some i → rows !! k' = Some j →
         outranks importances i j)
    ∧ (∀ i j, i ∈ rows → j ∉ rows → (j < length importances)%nat →
         outranks importances i j).
Proof.
  unfold get_feature_importance. intros Hg Hcols Htop.
  destruct (model self); [|done]. rewrite Hcols in Hg.
  destruct (bool_decide (length cols = length importances)) eqn:Hlen; [|done].
  apply bool_decide_eq_true in Hlen. cbn [mbind result_bind] in Hg.
  injection Hg as <-.
  set (pos := argsort_desc importances).
  set (m := Z.to_nat top_n).
  assert (∀ j, j ∈ pos → (j < length importances)%nat) as Hpos.
  { intros j Hj. unfold pos in Hj. rewrite argsort_desc_Permutation in Hj.
    apply elem_of_seq in Hj. lia. }
  assert (length pos = length importances) as Hlpos.
  { unfold pos. by rewrite argsort_desc_Permutation, length_seq. }
  assert (∀ {A} (c : list A), length c = length importances →
            length (gather pos c) = length importances) as Hgl.
  { intros A c Hc. rewrite length_gather; [done|]. intros j Hj. rewrite Hc. by apply Hpos. }
  assert (∀ {A} (c : list A), length c = length importances →
            gather (head top_n (seq 0 (length importances))) (gather pos c)
            = gather (take m pos) c) as Hcol.
  { intros A c Hc. unfold head. rewrite (proj2 (Z.leb_le 0 top_n) Htop).
    fold m. rewrite <- gather_take.
    2: { intros j Hj%elem_of_seq. rewrite Hgl by done. lia. }
    rewrite <- (Hgl A c Hc) at 1. rewrite gather_seq_all.
    apply gather_take. intros j Hj. rewrite Hc. by apply Hpos. }
  exists (take m pos). split_and!.
  - done.
  - unfold take_rows, map_columns, row_indices. cbn [map fst snd nrows].
    rewrite Hgl by (by rewrite length_fmap).
    rewrite !Hcol by (by rewrite length_fmap). done.
  - eapply sublist_NoDup; [|apply sublist_take].
    unfold pos. rewrite argsort_desc_Permutation. apply NoDup_seq.
  - rewrite length_take. lia.
  - intros i Hi. apply Hpos. eapply elem_of_sublist; [done|apply sublist_take].
  - intros k k' i j Hk Hi Hj.
    apply lookup_take_Some in Hi as [Hi _]. apply lookup_take_Some in Hj as [Hj _].
    eapply (StronglySorted_lookup _ pos k k'); [apply argsort_desc_sorted|done..].
  - intros i j Hi Hj Hlt.
    eapply (StronglySorted_app_1_elem_of _ (take m pos) (drop m pos)).
    + rewrite take_drop. apply argsort_desc_sorted.
    + done.
    + assert (j ∈ pos) as Hjp.
      { unfold pos. rewrite argsort_desc_Permutation. apply elem_of_seq. lia. }
      rewrite <- (take_drop m pos) in Hjp. apply elem_of_app in Hjp as [?|?]; done.
Qed.

End TopFeatures.

Section ImportanceExamples.
Import Pandas DataLoader Features Models Server Predict Train Spec Example.

Lemma top_features_by_importance_witness :
  ∃ df rows,
    get_feature_importance small_forecaster (Some small_importances) 2 = Ok df
    ∧ df = [("feature",
             gather rows (CStr <$> ["hour"; "occupancy_rate_lag_1"; "is_weekend"]));
            ("importance", gather rows (CNum <$> small_importances))]
    ∧ length rows = 2%nat
    ∧ ∀ i j, i ∈ rows → j ∉ rows → (j < 3)%nat → outranks small_importances i j.
Proof.
  destruct (get_feature_importance small_forecaster (Some small_importances) 2)
    as [df|e] eqn:E; [|vm_compute in E; discriminate E].
  destruct (top_features_by_importance small_forecaster small_importances 2 _ df
              E eq_refl ltac:(lia))
    as (rows & _ & Hdf & _ & Hlen & _ & _ & Htop).
  exists df, rows. split_and!; [reflexivity|exact Hdf|exact Hlen|exact Htop].
Defined.

End ImportanceExamples.

(** ** The rows of the feature functions *)

Section RowCount.
Import Pandas DataLoader Features Models Server Predict Spec.
Context `{PyLib}.

(** X21: the feature functions add columns only: from a well-formed
    frame each of them returns a well-formed frame with the same number
    of rows, so every column it adds has one cell per row. *)
Theorem feature_functions_keep_row_count :
  (∀ timestamp_col, timestamp_col ∉ temporal_labels →
     on_copy (fun df => add_temporal_features df timestamp_col) same_rows)
  ∧ (∀ target_col lags group_col,
       on_copy (fun df => add_lag_features df target_col lags group_col) same_rows)
  ∧ (∀ target_col windows group_col,
       on_copy (fun df => add_rolling_features df target_col windows group_col)
               same_rows)
  ∧ (∀ target_col timestamp_col group_col, timestamp_col ∉ temporal_labels →
       on_copy (fun df => create_all_features df target_col timestamp_col group_col)
               same_rows).
Proof.
  split_and!.
  - apply add_temporal_features_same_rows.
  - apply add_lag_features_same_rows.
  - apply add_rolling_features_same_rows.
  - apply create_all_features_same_rows.
Qed.

End RowCount.

Section RowCountExamples.
Import Pandas DataLoader Features Models Server Predict Train Spec Example.

Lemma feature_functions_keep_row_count_witness :
  ∃ d', call (fun df => add_lag_features df "occupancy_rate" [1; 2] (Some "lot_id"))
             occupancy_frame = Ok d'
        ∧ wf_frame d' ∧ nrows d' = 5%nat.
Proof.
  destruct (call (fun df => add_lag_features df "occupancy_rate" [1; 2] (Some "lot_id"))
                 occupancy_frame) as [d'|e] eqn:E; [|vm_compute in E; discriminate E].
  exists d'. split; [reflexivity|].
  apply (on_copy_call _ _ _ _
           (proj1 (proj2 feature_functions_keep_row_count) "occupancy_rate" [1; 2]
                  (Some "lot_id")) E).
  repeat constructor.
Defined.

End RowCountExamples.

(** ** The feature functions as functions of a frame *)

Section Runs.
Import Pandas DataLoader Models Server Features Spec.
Context `{PyLib}.

Lemma M_bind_run {A B} (m : M A) (f : A → M B) (h : heap) :
  (m ≫= f) h = match m h with Ok (a, h') => f a h' | Err e => Err e end.
Proof. done. Qed.

Lemma runs_ret l {A} (a : A) : runs l (mret a) (fun d => Ok (a, d)).
Proof. intros h d Hl. unfold mret, M_ret. by rewrite insert_id. Qed.

Lemma runs_bind l {A B} (m : M A) (f : A → M B) r r' :
  runs l m r → (∀ a, runs l (f a) (r' a)) →
  runs l (m ≫= f) (fun d => '(a, d') ← r d; r' a d').
Proof.
  intros Hm Hf h d Hl. unfold mbind at 1. unfold M_bind. rewrite (Hm h d Hl).
  destruct (r d) as [[a d1]|e]; [|done]. simpl.
  rewrite (Hf a _ d1 (lookup_insert_eq _ _ _)).
  destruct (r' a d1) as [[b d2]|e]; [|done]. by rewrite insert_insert_eq.
Qed.

Lemma runs_get l lab : runs l (get l lab) (fun d => c ← getitem d lab; Ok (c, d)).
Proof.
  intros h d Hl. unfold get. rewrite Hl.
  destruct (getitem d lab); simpl; [|done]. by rewrite insert_id.
Qed.

Lemma runs_set l lab c : runs l (set l lab c) (fun d => Ok (tt, setitem d lab c)).
Proof. intros h d Hl. unfold set. by rewrite Hl. Qed.

Lemma runs_lift l {A} (r0 : result A) : runs l (lift r0) (fun d => a ← r0; Ok (a, d)).
Proof.
  intros h d Hl. unfold lift. destruct r0; simpl; [|done]. by rewrite insert_id.
Qed.

Lemma runs_if l {A} (b : bool) (m1 m2 : M A) r1 r2 :
  runs l m1 r1 → runs l m2 r2 →
  runs l (if b then m1 else m2) (fun d => if b then r1 d else r2 d).
Proof. by destruct b. Qed.

Lemma runs_for_each l {A} (xs : list A) body rb :
  (∀ x, runs l (body x) (rb x)) → runs l (for_each xs body) (for_each_on xs rb).
Proof.
  intros Hb. induction xs as [|x xs IH]; simpl.
  - apply runs_ret.
  - eapply runs_bind; [apply Hb|]. intros []. exact IH.
Qed.

Lemma returns_intro (body : loc → M loc) (R : loc → frame → result (loc * frame)) :
  (∀ l, runs l (body l) (R l)) →
  (∀ l d, R l d = (d' ← snd <$> R 0%nat d; Ok (l, d'))) →
  returns (fun df => df ← copy df; body df) (fun d => snd <$> R 0%nat d).
Proof.
  intros Hb HR l h d Hl. rewrite M_bind_run. unfold copy. rewrite Hl. cbv zeta.
  rewrite (Hb _ _ d (lookup_insert_eq _ _ _)), (HR (fresh (dom h)) d).
  destruct (R 0%nat d) as [[l0 d']|e]; cbv [fmap result_fmap mbind result_bind snd];
    [|done].
  eexists _, _. split; [done|]. apply lookup_insert_eq.
Qed.

Lemma returns_copy : returns copy Ok.
Proof.
  intros l h d Hl. unfold copy. rewrite Hl. eexists _, _. split; [done|].
  apply lookup_insert_eq.
Qed.

Lemma returns_compose f g r1 r2 :
  returns f r1 → returns g r2 →
  returns (fun df => df ← f df; g df) (fun d => r1 d ≫= r2).
Proof.
  intros Hf Hg l h d Hl. specialize (Hf l h d Hl). rewrite M_bind_run.
  destruct (r1 d) as [d1|e]; simpl.
  - destruct Hf as (l1 & h1 & -> & Hl1). apply (Hg l1 h1 d1 Hl1).
  - by rewrite Hf.
Qed.

Lemma returns_then_ret f r :
  returns f r → returns (fun df => df ← f df; mret df) r.
Proof.
  intros Hf l h d Hl. specialize (Hf l h d Hl). rewrite M_bind_run.
  destruct (r d) as [d1|e]; simpl.
  - destruct Hf as (l1 & h1 & -> & Hl1). by exists l1, h1.
  - by rewrite Hf.
Qed.

Lemma returns_ext f r r' : returns f r → (∀ d, r d = r' d) → returns f r'.
Proof. intros Hf Heq l h d Hl. rewrite <- Heq. by apply Hf. Qed.

Lemma call_returns f r d : returns f r → call f d = r d.
Proof.
  intros Hf. unfold call.
  specialize (Hf 0%nat {[ 0%nat := d ]} d (lookup_singleton_eq _ _)).
  destruct (f 0%nat _) as [[l1 h1]|e1]; destruct (r d) as [d'|e].
  - destruct Hf as (l' & h' & [= <- <-] & Hl'). by rewrite Hl'.
  - done.
  - by destruct Hf as (l' & h' & ? & _).
  - by injection Hf as <-.
Qed.

Ltac runs_step :=
  first [ apply runs_ret | apply runs_get | apply runs_set | apply runs_lift
        | eapply runs_if
        | eapply runs_bind; [|intros ?] ].

Ltac runs_all := repeat runs_step.

Ltac destruct_head x :=
  lazymatch x with
  | match ?y with _ => _ end => destruct_head y
  | _ => destruct x
  end.

Ltac run_results :=
  cbv [mbind result_bind fmap result_fmap snd]; cbv beta;
  repeat (match goal with
          | |- context [match ?x with _ => _ end] => destruct_head x
          end; cbv beta iota; try reflexivity).

Lemma add_temporal_features_returns timestamp_col :
  ∃ r, returns (fun df => add_temporal_features df timestamp_col) r.
Proof.
  eexists. unfold add_temporal_features. eapply returns_intro.
  - intros l. runs_all.
  - intros l d. run_results.
Qed.

Lemma add_lag_features_returns target_col lags group_col :
  ∃ r, returns (fun df => add_lag_features df target_col lags group_col) r.
Proof.
  unfold add_lag_features. destruct (truthy group_col) as [g|].
  - eexists. eapply returns_intro.
    + intros l. eapply runs_bind; [|intros ?; apply runs_ret].
      apply runs_for_each. intros n. cbv zeta. runs_all.
    + intros l d. run_results.
  - eexists. eapply returns_intro.
    + intros l. eapply runs_bind; [|intros ?; apply runs_ret].
      apply runs_for_each. intros n. cbv zeta. runs_all.
    + intros l d. run_results.
Qed.

Lemma add_rolling_features_returns target_col windows group_col :
  ∃ r, returns (fun df => add_rolling_features df target_col windows group_col) r.
Proof.
  unfold add_rolling_features. destruct (truthy group_col) as [g|].
  - eexists. eapply returns_intro.
    + intros l. eapply runs_bind; [|intros ?; apply runs_ret].
      apply runs_for_each. intros n. runs_all.
    + intros l d. run_results.
  - eexists. eapply returns_intro.
    + intros l. eapply runs_bind; [|intros ?; apply runs_ret].
      apply runs_for_each. intros n. runs_all.
    + intros l d. run_results.
Qed.

Lemma runs_ext l {A} (m : M A) r r' : runs l m r → (∀ d, r d = r' d) → runs l m r'.
Proof. intros Hm Heq h d Hl. rewrite <- Heq. by apply Hm. Qed.

Lemma lag_step_runs l target_col g n :
  runs l (keys ← get l g; vals ← get l target_col;
          c ← lift (groupby_shift keys vals n);
          set l (lag_label target_col n) c)
       (lag_step target_col g n).
Proof.
  eapply runs_ext; [runs_all|]. intros d. unfold lag_step. run_results.
Qed.

Lemma rolling_step_runs l target_col g w :
  runs l (keys ← get l g; vals ← get l target_col;
          c ← lift (groupby_transform keys vals (rolling w agg_mean));
          set l (rolling_label target_col "mean" w) c;;
          c ← lift (groupby_transform keys vals (rolling w agg_std));
          set l (rolling_label target_col "std" w) c;;
          c ← lift (groupby_transform keys vals (rolling w agg_max));
          set l (rolling_label target_col "max" w) c;;
          c ← lift (groupby_transform keys vals (rolling w agg_min));
          set l (rolling_label target_col "min" w) c)
       (rolling_step target_col g w).
Proof.
  eapply runs_ext; [runs_all|]. intros d. unfold rolling_step. run_results.
Qed.

Lemma add_lag_features_steps target_col lags group_col g :
  truthy group_col = Some g →
  returns (fun df => add_lag_features df target_col lags group_col)
          (fun d => snd <$> for_each_on lags (lag_step target_col g) d).
Proof.
  intros Hg. unfold add_lag_features. rewrite Hg.
  eapply returns_ext.
  - eapply returns_intro.
    + intros l. eapply runs_bind; [|intros ?; apply runs_ret].
      apply runs_for_each. intros n. cbv zeta. apply lag_step_runs.
    + intros l d. run_results.
  - intros d. run_results.
Qed.

Lemma add_rolling_features_steps target_col windows group_col g :
  truthy group_col = Some g →
  returns (fun df => add_rolling_features df target_col windows group_col)
          (fun d => snd <$> for_each_on windows (rolling_step target_col g) d).
Proof.
  intros Hg. unfold add_rolling_features. rewrite Hg.
  eapply returns_ext.
  - eapply returns_intro.
    + intros l. eapply runs_bind; [|intros ?; apply runs_ret].
      apply runs_for_each. intros n. apply rolling_step_runs.
    + intros l d. run_results.
  - intros d. run_results.
Qed.


Lemma for_each_on_lag_step target_col group_col g lags d0 :
  truthy group_col = Some g →
  (∀ n, n ∈ lags → lag_label target_col n ≠ g) →
  ∀ d, getitem d g = getitem d0 g → getitem d target_col = getitem d0 target_col →
    for_each_on lags (lag_step target_col g) d
    = (cols ← lag_columns d0 target_col group_col lags; Ok (tt, assign d cols)).
Proof.
  intros Hg. unfold lag_columns, lag_column. rewrite Hg.
  induction lags as [|n lags IH]; intros Hlab d Hk Hv; [done|].
  cbn [for_each_on mapR]. unfold lag_step in *. rewrite Hk, Hv.
  destruct (getitem d0 g) as [keys|e]; [|done].
  destruct (getitem d0 target_col) as [vals|e]; [|done].
  cbn [mbind result_bind].
  destruct (groupby_shift keys vals n) as [c|e]; [|done].
  cbn [mbind result_bind].
  rewrite IH.
  - by destruct (mapR _ lags).
  - intros m Hm. apply Hlab. by right.
  - rewrite getitem_setitem_ne; [done|]. apply Hlab. left.
  - rewrite getitem_setitem_ne; [done|]. apply lag_label_ne_target.
Qed.

Lemma for_each_on_rolling_step target_col group_col g windows d0 :
  truthy group_col = Some g →
  (∀ w s, w ∈ windows → rolling_label target_col (stat_name s) w ≠ g) →
  ∀ d, getitem d g = getitem d0 g → getitem d target_col = getitem d0 target_col →
    for_each_on windows (rolling_step target_col g) d
    = (cols ← rolling_columns d0 target_col group_col windows; Ok (tt, assign d cols)).
Proof.
  intros Hg. unfold rolling_columns, rolling_column. rewrite Hg.
  induction windows as [|w windows IH]; intros Hlab d Hk Hv; [done|].
  change ((w :: windows) ≫= (fun w => [(w, Mean); (w, Std); (w, Max); (w, Min)]))
    with ((w, Mean) :: (w, Std) :: (w, Max) :: (w, Min)
          :: (windows ≫= (fun w => [(w, Mean); (w, Std); (w, Max); (w, Min)]))).
  cbn [for_each_on mapR fst snd stat_agg stat_name]. unfold rolling_step in *.
  rewrite Hk, Hv.
  destruct (getitem d0 g) as [keys|e]; [|done].
  destruct (getitem d0 target_col) as [vals|e]; [|done].
  cbn [mbind result_bind].
  destruct (groupby_transform keys vals (rolling w agg_mean)) as [c1|e]; [|done].
  cbn [mbind result_bind].
  destruct (groupby_transform keys vals (rolling w agg_std)) as [c2|e]; [|done].
  cbn [mbind result_bind].
  destruct (groupby_transform keys vals (rolling w agg_max)) as [c3|e]; [|done].
  cbn [mbind result_bind].
  destruct (groupby_transform keys vals (rolling w agg_min)) as [c4|e]; [|done].
  cbn [mbind result_bind].
  rewrite IH.
  - by destruct (mapR _ (windows ≫= _)).
  - intros m s Hm. apply Hlab. by right.
  - rewrite !getitem_setitem_ne; [done|..].
    + apply (Hlab w Mean). left.
    + apply (Hlab w Std). left.
    + apply (Hlab w Max). left.
    + apply (Hlab w Min). left.
  - rewrite !getitem_setitem_ne; [done|..]; apply rolling_label_ne_target.
Qed.

(** [add_lag_features] with a grouping column computes its columns
    from the frame it is given and assigns them; it fails when one of
    them cannot be computed. *)
Lemma call_add_lag_features target_col lags group_col g d :
  truthy group_col = Some g →
  (∀ n, n ∈ lags → lag_label target_col n ≠ g) →
  call (fun df => add_lag_features df target_col lags group_col) d
  = (cols ← lag_columns d target_col group_col lags; Ok (assign d cols)).
Proof.
  intros Hg Hlab.
  rewrite (call_returns _ _ d (add_lag_features_steps target_col lags group_col g Hg)).
  rewrite (for_each_on_lag_step target_col group_col g lags d Hg Hlab d eq_refl eq_refl).
  by destruct (lag_columns d target_col group_col lags).
Qed.

Lemma call_add_rolling_features target_col windows group_col g d :
  truthy group_col = Some g →
  (∀ w s, w ∈ windows → rolling_label target_col (stat_name s) w ≠ g) →
  call (fun df => add_rolling_features df target_col windows group_col) d
  = (cols ← rolling_columns d target_col group_col windows; Ok (assign d cols)).
Proof.
  intros Hg Hlab.
  rewrite (call_returns _ _ d
             (add_rolling_features_steps target_col windows group_col g Hg)).
  rewrite (for_each_on_rolling_step target_col group_col g windows d Hg Hlab d
             eq_refl eq_refl).
  by destruct (rolling_columns d target_col group_col windows).
Qed.

End Runs.

Section Composition.
Import Pandas DataLoader Models Server Features Spec.
Context `{PyLib}.

(** [create_all_features] on a frame of its own, step by step. *)
Lemma call_create_all_features target_col timestamp_col group_col d :
  call (fun df => create_all_features df target_col timestamp_col group_col) d
  = (d1 ← call (fun df => add_temporal_features df timestamp_col) d;
     d2 ← call (fun df => add_lag_features df target_col default_lags group_col) d1;
     call (fun df => add_rolling_features df target_col default_windows group_col) d2).
Proof.
  destruct (add_temporal_features_returns timestamp_col) as [r1 H1].
  destruct (add_lag_features_returns target_col default_lags group_col) as [r2 H2].
  destruct (add_rolling_features_returns target_col default_windows group_col)
    as [r3 H3].
  rewrite (call_returns _ _ d H1).
  assert (returns (fun df => create_all_features df target_col timestamp_col group_col)
                  (fun d => Ok d ≫= fun d => r1 d ≫= fun d => r2 d ≫= r3)) as Hall.
  { unfold create_all_features.
    apply (returns_compose _ _ _ _ returns_copy).
    apply (returns_compose _ _ _ _ H1).
    apply (returns_compose _ _ _ _ H2).
    by apply returns_then_ret. }
  rewrite (call_returns _ _ d Hall). cbn [mbind result_bind].
  destruct (r1 d) as [d1|e]; [|done]. cbn [mbind result_bind].
  rewrite (call_returns _ _ d1 H2).
  destruct (r2 d1) as [d2|e]; [|done]. cbn [mbind result_bind].
  by rewrite (call_returns _ _ d2 H3).
Qed.

End Composition.

(** ** Missing columns and empty lists *)

Section MissingColumns.
Import Pandas DataLoader Features Models Server Predict Spec.
Context `{PyLib}.

Lemma call_copy (body : loc → M loc) d :
  ∃ l (h : heap),
    h !! l = Some d
    ∧ call (fun df => df ← copy df; body df) d
      = match body l h with
        | Ok (l', h') => from_option (RuntimeError "dangling reference") (h' !! l')
        | Err e => Err e
        end.
Proof.
  eexists _, _. split; [|unfold call, mbind, M_bind, copy; by rewrite lookup_singleton_eq].
  apply lookup_insert_eq.
Qed.

Lemma get_Err l (h : heap) d lab :
  h !! l = Some d → lab ∉ columns d → get l lab h = Err (KeyError lab).
Proof. intros Hl Hn. unfold get. by rewrite Hl, getitem_Err. Qed.

Lemma get_Ok l (h : heap) d lab :
  h !! l = Some d → lab ∈ columns d → ∃ c, get l lab h = Ok (c, h).
Proof.
  intros Hl [c Hc]%getitem_is_Ok. exists c. unfold get. by rewrite Hl, Hc.
Qed.

Ltac run_copy l h Hl :=
  match goal with
  | |- context [call (fun df => mbind ?body (copy df)) ?d] =>
      destruct (call_copy body d) as (l & h & Hl & ->)
  end.

(** X23: a feature function that is given a frame without the column
    it reads raises KeyError for a label that is not in the frame:
    [add_temporal_features] for the timestamp column, and
    [add_lag_features] and [add_rolling_features], with at least one
    lag or window, for the grouping or the target column.  With no lag
    and no window these two return the frame as it is. *)
Theorem feature_functions_need_their_columns d :
  (∀ timestamp_col, timestamp_col ∉ columns d →
     call (fun df => add_temporal_features df timestamp_col) d
     = Err (KeyError timestamp_col))
  ∧ (∀ target_col lags group_col, target_col ∉ columns d → lags ≠ [] →
       ∃ label, (label ∉ columns d)
         ∧ call (fun df => add_lag_features df target_col lags group_col) d
           = Err (KeyError label))
  ∧ (∀ target_col windows group_col, target_col ∉ columns d → windows ≠ [] →
       ∃ label, (label ∉ columns d)
         ∧ call (fun df => add_rolling_features df target_col windows group_col) d
           = Err (KeyError label))
  ∧ (∀ target_col group_col,
       call (fun df => add_lag_features df target_col [] group_col) d = Ok d
       ∧ call (fun df => add_rolling_features df target_col [] group_col) d = Ok d).
Proof.
  split_and!.
  - intros tc Hn. unfold add_temporal_features.
    run_copy l h Hl.
    by rewrite M_bind_run, (get_Err l h d tc Hl Hn).
  - intros target lags g Hn Hne. destruct lags as [|n lags]; [done|].
    unfold add_lag_features.
    run_copy l h Hl.
    cbn [for_each]. rewrite !M_bind_run.
    destruct (truthy g) as [g'|].
    + destruct (decide (g' ∈ columns d)) as [Hin|Hout].
      * destruct (get_Ok l h d g' Hl Hin) as [c Hc]. exists target. split; [done|].
        by rewrite M_bind_run, Hc, M_bind_run, (get_Err l h d target Hl Hn).
      * exists g'. split; [done|].
        by rewrite M_bind_run, (get_Err l h d g' Hl Hout).
    + exists target. split; [done|].
      by rewrite M_bind_run, (get_Err l h d target Hl Hn).
  - intros target windows g Hn Hne. destruct windows as [|w windows]; [done|].
    unfold add_rolling_features.
    run_copy l h Hl.
    cbn [for_each]. rewrite !M_bind_run.
    destruct (truthy g) as [g'|].
    + destruct (decide (g' ∈ columns d)) as [Hin|Hout].
      * destruct (get_Ok l h d g' Hl Hin) as [c Hc]. exists target. split; [done|].
        by rewrite M_bind_run, Hc, M_bind_run, (get_Err l h d target Hl Hn).
      * exists g'. split; [done|].
        by rewrite M_bind_run, (get_Err l h d g' Hl Hout).
    + exists target. split; [done|].
      by rewrite !M_bind_run, (get_Err l h d target Hl Hn).
  - intros target g. split.
    + unfold add_lag_features.
      run_copy l h Hl.
      cbn [for_each]. rewrite M_bind_run. unfold mret, M_ret. by rewrite Hl.
    + unfold add_rolling_features.
      run_copy l h Hl.
      cbn [for_each]. rewrite M_bind_run. unfold mret, M_ret. by rewrite Hl.
Qed.

End MissingColumns.

Section MissingColumnExamples.
Import Pandas DataLoader Features Models Server Predict Train Spec Example.

Lemma feature_functions_need_their_columns_witness :
  call (fun df => add_temporal_features df "time") frame_with_hour
  = Err (KeyError "time").
Proof.
  apply (proj1 (feature_functions_need_their_columns frame_with_hour) "time").
  apply (bool_decide_unpack _). vm_compute. exact I.
Defined.

End MissingColumnExamples.

(** ** Time series of a lot *)

Section TimeSeries.
Import Pandas DataLoader Features Models Server Predict Spec.
Context `{PyLib}.

Lemma elem_of_gather {A} idxs (c : list A) v : v ∈ gather idxs c → v ∈ c.
Proof.
  unfold gather. intros (i & _ & Hv)%list_elem_of_omap.
  by eapply list_elem_of_lookup_2.
Qed.

(** X24: [get_time_series] returns the readings of the lot with the
    timestamps as the index: the rows of [load_readings] for that lot,
    rearranged, every column but [timestamp] in step with the index,
    the index in non-decreasing order, and every row bears the lot. *)
Theorem time_series_is_sorted_history db lot_id index df :
  get_time_series db lot_id = Ok (index, df) →
  ∃ readings ts positions,
    load_readings db None None (Some [CStr lot_id]) = Ok readings
    ∧ getitem readings "timestamp" = Ok ts
    ∧ positions ≡ₚ seq 0 (nrows readings)
    ∧ index = gather positions ts
    ∧ length index = nrows readings
    ∧ (∀ i j, (i < j)%nat → (j < length index)%nat → not_later index i j)
    ∧ getitem df "timestamp" = Err (KeyError "timestamp")
    ∧ (∀ lab c, lab ≠ "timestamp" → getitem readings lab = Ok c →
         getitem df lab = Ok (gather positions c)
         ∧ length (gather positions c) = length index)
    ∧ (∀ lot_ids v, getitem df "lot_id" = Ok lot_ids → v ∈ lot_ids →
         sql_eqb v (CStr lot_id) = true).
Proof.
  unfold get_time_series. intros Hg.
  apply bind_Ok in Hg as (readings & Hload & Hg).
  apply bind_Ok in Hg as (ts & Hts & [= <- <-]).
  destruct (load_readings_timestamp _ _ _ _ _ Hload) as (ts' & Hts' & Hdt).
  assert (ts' = ts) as -> by congruence.
  pose proof (wf_load_readings _ _ _ _ _ Hload) as Hwf.
  pose proof (wf_frame_length _ _ _ Hwf Hts) as Hlen.
  assert (∀ c : column, length c = nrows readings →
            length (gather (sort_positions ts) c) = nrows readings) as Hgl.
  { intros c Hc. rewrite length_gather, length_sort_positions; [done|].
    intros j Hj%sort_positions_lt. lia. }
  exists readings, ts, (sort_positions ts). split_and!; try done.
  - by rewrite sort_positions_Permutation, Hlen.
  - by apply Hgl.
  - intros i j Hij Hj. rewrite Hgl in Hj by done.
    assert (∀ k, (k < nrows readings)%nat →
              ∃ p, sort_positions ts !! k = Some p
                   ∧ gather (sort_positions ts) ts !! k = ts !! p) as Hpos.
    { intros k Hk.
      destruct (lookup_lt_is_Some_2 (sort_positions ts) k) as [p Hp].
      { rewrite length_sort_positions. lia. }
      exists p. split; [done|]. rewrite gather_lookup, Hp; [done|].
      intros q Hq%sort_positions_lt. done. }
    destruct (Hpos i ltac:(lia)) as (p & Hp & Hi).
    destruct (Hpos j Hj) as (q & Hq & Hj').
    unfold not_later. rewrite Hi, Hj'.
    by apply (StronglySorted_lookup _ _ i j p q (sort_positions_sorted ts Hdt)).
  - unfold take_rows. by rewrite getitem_map_columns, getitem_drop_column_eq.
  - intros lab c Hne Hc. split.
    + unfold take_rows. by rewrite getitem_map_columns, getitem_drop_column_ne, Hc.
    + rewrite !Hgl; [done|done|]. by eapply wf_frame_length.
  - intros lot_ids v Hl Hv.
    apply getitem_take_rows_inv in Hl as (c & Hc & ->).
    rewrite getitem_drop_column_ne in Hc by done.
    apply elem_of_gather in Hv.
    destruct (load_readings_Ok _ _ _ _ _ Hload) as (rows & Hperm & _ & _ & Hcols).
    specialize (Hcols "lot_id" c Hc). rewrite decide_False in Hcols by done.
    subst c. apply list_elem_of_fmap in Hv as (r & -> & Hr).
    rewrite Hperm in Hr. apply list_elem_of_filter in Hr as [Hm _].
    unfold row_matches in Hm. simpl in Hm. unfold stored_in in Hm. simpl in Hm.
    by rewrite orb_false_r in Hm.
Qed.

End TimeSeries.

Section TimeSeriesExamples.
Import Pandas DataLoader Features Models Server Predict Train Spec Example.

Lemma time_series_is_sorted_history_witness :
  ∃ index df lot_ids,
    get_time_series db "B" = Ok (index, df)
    ∧ length index = 4%nat
    ∧ getitem df "lot_id" = Ok lot_ids
    ∧ (∀ v, v ∈ lot_ids → sql_eqb v (CStr "B") = true)
    ∧ ∀ i j, (i < j)%nat → (j < length index)%nat → not_later index i j.
Proof.
  destruct (get_time_series db "B") as [[index df]|e] eqn:E;
    [|vm_compute in E; discriminate E].
  destruct (time_series_is_sorted_history db "B" index df E)
    as (readings & ts & positions & Hload & Hts & _ & _ & Hlen & Hsorted & _ & Hcols & Hlot).
  destruct (getitem readings "lot_id") as [c|e] eqn:Hc.
  - destruct (Hcols "lot_id" c ltac:(discriminate) Hc) as [Hg _].
    exists index, df, (gather positions c). split_and!; [reflexivity| |exact Hg| |exact Hsorted].
    + rewrite Hlen. vm_compute in Hload. injection Hload as <-. reflexivity.
    + intros v. apply (Hlot _ v Hg).
  - exfalso. vm_compute in Hload. injection Hload as <-. discriminate Hc.
Defined.

End TimeSeriesExamples.

(** ** train.py *)

Section TrainingFacts.
Import Pandas DataLoader Features Models Server Predict Train Spec.
Context `{PyLib}.

Lemma elem_of_columns_setitem d l0 c l :
  l ∈ columns (setitem d l0 c) ↔ l = l0 ∨ l ∈ columns d.
Proof.
  destruct (decide (l0 ∈ columns d)) as [Hin|Hout].
  - rewrite columns_setitem_in by done. split; [auto|]. by intros [->|?].
  - rewrite columns_setitem_notin by done.
    rewrite elem_of_app, list_elem_of_singleton. tauto.
Qed.

Lemma elem_of_columns_assign d cols l :
  l ∈ columns (assign d cols) ↔ l ∈ columns d ∨ l ∈ cols.*1.
Proof.
  revert d. induction cols as [|[l0 c0] cols IH]; intros d.
  - simpl. rewrite elem_of_nil. tauto.
  - change (assign d ((l0, c0) :: cols)) with (assign (setitem d l0 c0) cols).
    rewrite IH, elem_of_columns_setitem. rewrite fmap_cons, elem_of_cons. simpl. tauto.
Qed.

Lemma wf_load_combined_data db df : load_combined_data db = Ok df → wf_frame df.
Proof.
  unfold load_combined_data. intros Hl.
  apply bind_Ok in Hl as (lots & Hlots & Hl). apply bind_Ok in Hl as (readings & Hr & Hl).
  apply bind_Ok in Hl as (right & Hsel & Hl). apply bind_Ok in Hl as (merged & Hm & Hd).
  eapply wf_derive_occupancy; [|exact Hd].
  eapply wf_merge; [| |exact Hm].
  - by eapply wf_load_readings.
  - eapply wf_select; [|exact Hsel]. by eapply wf_load_parking_lots.
Qed.

(** No cell of [df.dropna()] is missing. *)
Lemma dropna_complete df lab c v :
  getitem (dropna df) lab = Ok c → v ∈ c → isna v = false.
Proof.
  unfold dropna. intros (c0 & Hc0 & ->)%getitem_take_rows_inv.
  unfold gather. intros (i & Hi & Hv)%list_elem_of_omap.
  apply list_elem_of_filter in Hi as [Hall _].
  rewrite forallb_forall in Hall.
  specialize (Hall v ltac:(apply list_elem_of_In; by eapply row_elem)).
  by apply negb_true_iff in Hall.
Qed.

(** The frame that train.py passes to [prepare_data]. *)
Lemma training_frame_Ok w df :
  training_frame w = Ok df →
  ∃ d3, df = dropna d3 ∧ wf_frame d3
        ∧ ∀ lab, lab ∈ temporal_labels ++ (lag_label "occupancy_rate" <$> [1; 2; 3])
                       ++ window_labels "occupancy_rate" 3 →
            lab ∈ columns d3.
Proof.
  unfold training_frame. intros Ht.
  apply bind_Ok in Ht as (loader & _ & Ht). apply bind_Ok in Ht as (db & _ & Ht).
  apply bind_Ok in Ht as (d0 & Hd0 & Ht). apply bind_Ok in Ht as (d1 & H1 & Ht).
  apply bind_Ok in Ht as (d2 & H2 & Ht). apply bind_Ok in Ht as (d3 & H3 & [= <-]).
  pose proof (wf_load_combined_data _ _ Hd0) as Hwf0.
  assert ("timestamp" ∉ temporal_labels) as Hts
    by (apply (bool_decide_unpack _); vm_compute; exact I).
  pose proof (on_copy_call _ _ _ _ (add_temporal_features_same_rows "timestamp" Hts) H1 Hwf0)
    as [Hwf1 _].
  pose proof (on_copy_call _ _ _ _
                (add_lag_features_same_rows "occupancy_rate" [1; 2; 3] (Some "lot_id"))
                H2 Hwf1) as [Hwf2 _].
  pose proof (on_copy_call _ _ _ _
                (add_rolling_features_same_rows "occupancy_rate" [3] (Some "lot_id"))
                H3 Hwf2) as [Hwf3 _].
  exists d3. split_and!; [done|done|].
  eapply on_copy_call in H1; [|by apply add_temporal_features_assigns].
  destruct H1 as (ts & ts' & cols1 & _ & _ & Hc1%temporal_columns_labels & Hd1).
  eapply on_copy_call in H2; [|apply add_lag_features_assigns].
  2: { intros g n [= <-] _. unfold lag_label. cbv [String.append]. discriminate. }
  destruct H2 as (cols2 & Hc2%lag_columns_labels & ->).
  eapply on_copy_call in H3; [|apply add_rolling_features_assigns].
  2: { intros g w0 s [= <-] _. unfold rolling_label. cbv [String.append]. discriminate. }
  destruct H3 as (cols3 & Hc3%rolling_columns_labels & ->).
  intros lab Hlab. rewrite !elem_of_columns_assign, Hc2, Hc3.
  apply elem_of_app in Hlab as [Hlab|Hlab]; [|apply elem_of_app in Hlab as [Hlab|Hlab]].
  - left. left. rewrite Hd1, elem_of_columns_assign, Hc1. by right.
  - left. by right.
  - right. apply list_elem_of_bind. exists 3. split; [done|by left].
Qed.

End TrainingFacts.

Section TrainModel.
Import Pandas DataLoader Features Models Server Predict Train Spec.
Context `{PyLib}.

(** X25: when [train_model] reaches [prepare_data] and it succeeds,
    the forecaster is of the requested type, its target is
    [occupancy_rate], its feature columns contain the fifteen temporal
    features, the lags 1, 2, 3 and the four statistics of the window 3,
    and none of the default exclude list; the target is not empty and
    has no missing value.  Every column of the matrix is a column of
    the frame that was left after [dropna], is as long as the target
    and holds no text; it has no missing value when the column of the
    frame held no text, and otherwise it holds what [pd.to_numeric]
    read from each text cell, which is a missing value for a cell read
    as NaN: [dropna] does not remove the empty string. *)
Theorem train_model_records_features w mt fc X y :
  training_data w mt = Ok (Some (fc, X, y)) →
  ∃ cols,
    feature_columns fc = Some cols
    ∧ model_type fc = mt
    ∧ target_column fc = Some "occupancy_rate"
    ∧ (∀ lab, lab ∈ temporal_labels ++ (lag_label "occupancy_rate" <$> [1; 2; 3])
                    ++ window_labels "occupancy_rate" 3 →
         lab ∈ cols)
    ∧ (∀ lab, lab ∈ default_exclude "occupancy_rate" → lab ∉ cols)
    ∧ y ≠ []
    ∧ (∀ v, v ∈ y → isna v = false)
    ∧ ∃ df,
        training_frame w = Ok df
        ∧ ∀ lab c, getitem X lab = Ok c →
            ∃ c0, getitem df lab = Ok c0
                  ∧ length c = length y
                  ∧ (∀ v s, v ∈ c → v ≠ CStr s)
                  ∧ ((∀ v s, v ∈ c0 → v ≠ CStr s) → ∀ v, v ∈ c → isna v = false)
                  ∧ (∀ i s, c0 !! i = Some (CStr s) →
                       ∃ x, parse_numeric s = Some x ∧ cell_of_float x ∈ c).
Proof.
  unfold training_data. intros Ht.
  apply bind_Ok in Ht as (df & Hdf & Ht).
  destruct (bool_decide (nrows df = 0%nat)) eqn:Hn; [done|].
  apply bool_decide_eq_false in Hn.
  apply bind_Ok in Ht as (fc0 & Hinit & Ht).
  destruct (prepare_data fc0 df "occupancy_rate" None) as [[[fc' X'] y']|e] eqn:Hp; [|done].
  injection Ht as -> -> ->.
  destruct (training_frame_Ok _ _ Hdf) as (d3 & Hd3 & Hwf3 & Hlabels).
  assert (wf_frame df) as Hwf by (subst df; by apply wf_take_rows).
  destruct (prepare_data_columns _ _ _ _ _ _ _ Hwf Hp) as [Hy HX].
  destruct (prepare_data_Ok _ _ _ _ _ _ _ Hp)
    as (target & X0 & Htg & Hyeq & Hsel & Hen & ->).
  pose proof (wf_frame_length _ _ _ Hwf Htg) as Hlen.
  assert (∀ i t, target !! i = Some t → isna t = false) as Hpresent.
  { intros i t Hi. subst df. eapply dropna_complete; [exact Htg|].
    by eapply list_elem_of_lookup_2. }
  eexists. split_and!; [reflexivity| |reflexivity| | | |exact Hy|].
  - simpl. unfold ParkingForecaster_init in Hinit.
    destruct (bool_decide _); [|done]. by injection Hinit as <-.
  - intros lab Hlab. apply list_elem_of_filter. split.
    + revert lab Hlab. apply Forall_forall.
      apply (bool_decide_unpack _). vm_compute. exact I.
    + subst df. unfold dropna. rewrite columns_take_rows. by apply Hlabels.
  - intros lab Hlab [Hn' _]%list_elem_of_filter. done.
  - subst y.
    destruct (lookup_lt_is_Some_2 target 0) as [v Hv]; [lia|].
    pose proof (Hpresent _ _ Hv) as Hna.
    intros Hnil. apply (f_equal length) in Hnil. rewrite length_gather in Hnil.
    + apply length_zero_iff_nil in Hnil.
      assert (0%nat ∈ filter (fun i => default true (isna <$> target !! i) = false)
                             (row_indices df)) as Hin.
      { apply list_elem_of_filter. split; [by rewrite Hv|].
        apply elem_of_seq. lia. }
      rewrite Hnil in Hin. by apply elem_of_nil in Hin.
    + intros j [_ Hj%elem_of_seq]%list_elem_of_filter. lia.
  - exists df. split; [done|]. intros lab c Hc.
    destruct (HX lab c Hc) as (c0 & Hc0 & Hl & Hno & Hna & Hread).
    exists c0. split_and!; [done..|].
    intros i s Hs.
    destruct (lookup_lt_is_Some_2 target i) as [t Hi].
    { apply lookup_lt_Some in Hs. rewrite (wf_frame_length _ _ _ Hwf Hc0) in Hs. lia. }
    by apply (Hread target i t s Htg Hi (Hpresent _ _ Hi)).
Qed.

End TrainModel.

Section TrainingExamples.
Import Pandas DataLoader Features Models Server Predict Train Spec Example.

Lemma train_model_records_features_witness :
  ∃ fc X y cols,
    training_data world0 "xgboost" = Ok (Some (fc, X, y))
    ∧ feature_columns fc = Some cols
    ∧ ("occupancy_rate_lag_3" ∈ cols) ∧ ("free" ∉ cols) ∧ y ≠ [].
Proof.
  destruct (training_data world0 "xgboost") as [[[[fc X] y]|]|e] eqn:E;
    [|vm_compute in E; discriminate E..].
  destruct (train_model_records_features world0 "xgboost" fc X y E)
    as (cols & Hc & _ & _ & Hin & Hout & Hy & _).
  exists fc, X, y, cols. split_and!; [reflexivity|exact Hc| | |exact Hy].
  - apply Hin. apply (bool_decide_unpack _). vm_compute. exact I.
  - apply Hout. apply (bool_decide_unpack _). vm_compute. exact I.
Defined.

End TrainingExamples.

(** ** The features of predict.py and those of train.py and the server *)

Section ServedFeatures.
Import Pandas DataLoader Models Server Features Spec.
Context `{PyLib}.

Lemma mapR_app_inv {A B} (f : A → result B) l1 l2 r :
  mapR f (l1 ++ l2) = Ok r →
  ∃ r1 r2, mapR f l1 = Ok r1 ∧ mapR f l2 = Ok r2 ∧ r = r1 ++ r2.
Proof.
  revert r. induction l1 as [|x l1 IH]; intros r Hr; simpl in Hr.
  - by exists [], r.
  - apply bind_Ok in Hr as (y & Hy & Hr). apply bind_Ok in Hr as (ys & Hys & [= <-]).
    destruct (IH _ Hys) as (r1 & r2 & H1 & H2 & ->).
    exists (y :: r1), r2. simpl. by rewrite Hy, H1.
Qed.

Lemma mapR_ext {A B} (f g : A → result B) l :
  (∀ x, f x = g x) → mapR f l = mapR g l.
Proof. intros Hfg. induction l as [|x l IH]; simpl; [done|]. by rewrite Hfg, IH. Qed.

Lemma getitem_assign_same d e cols lab :
  getitem d lab = getitem e lab →
  getitem (assign d cols) lab = getitem (assign e cols) lab.
Proof.
  revert d e. induction cols as [|[l0 c0] cols IH]; intros d e Hde; [done|].
  simpl. apply IH. destruct (decide (l0 = lab)) as [->|Hne].
  - by rewrite !getitem_setitem_eq.
  - by rewrite !getitem_setitem_ne.
Qed.

Lemma rolling_columns_ext d e target_col g windows :
  getitem d g = getitem e g → getitem d target_col = getitem e target_col →
  rolling_columns d target_col (Some g) windows
  = rolling_columns e target_col (Some g) windows.
Proof.
  intros Hg Ht. unfold rolling_columns. apply mapR_ext. intros [w s].
  unfold rolling_column. destruct (truthy (Some g)) as [g'|] eqn:Htr.
  - assert (g' = g) as ->. { destruct g; simpl in Htr; congruence. }
    by rewrite Hg, Ht.
  - by rewrite Ht.
Qed.

(** X22: [create_all_features], which predict.py calls with the
    default lags and windows, extends the features that train.py and
    the server engineer (temporal features, lags 1, 2, 3, window 3, by
    [lot_id]): whenever it returns a frame, that pipeline returns one
    too, and the two frames agree on every column but the fifteen of
    the lags 6, 12, 24 and the windows 6, 12, 24, which
    [create_all_features] assigns and which the other pipeline leaves
    as they were in the input. *)
Theorem create_all_features_extends_served_features d d' :
  call (fun df => create_all_features df "occupancy_rate" "timestamp" (Some "lot_id")) d
  = Ok d' →
  ∃ e, engineer_features d = Ok e
       ∧ (∀ lab, lab ∉ (lag_label "occupancy_rate" <$> [6; 12; 24])
                        ++ (w ← [6; 12; 24]; window_labels "occupancy_rate" w) →
            getitem d' lab = getitem e lab)
       ∧ (∀ lab, lab ∈ (lag_label "occupancy_rate" <$> [6; 12; 24])
                        ++ (w ← [6; 12; 24]; window_labels "occupancy_rate" w) →
            lab ∈ columns d' ∧ getitem e lab = getitem d lab).
Proof.
  assert (truthy (Some "lot_id") = Some "lot_id") as Hg by reflexivity.
  assert (∀ (lags : list Z) n, n ∈ lags → lag_label "occupancy_rate" n ≠ "lot_id") as Hlag.
  { intros lags n _. unfold lag_label. cbv [String.append]. discriminate. }
  assert (∀ (windows : list Z) w s, w ∈ windows →
            rolling_label "occupancy_rate" (stat_name s) w ≠ "lot_id") as Hroll.
  { intros windows w s _. unfold rolling_label. cbv [String.append]. discriminate. }
  rewrite call_create_all_features. intros Hc.
  apply bind_Ok in Hc as (d1 & H1 & Hc). apply bind_Ok in Hc as (d2 & H2 & H3).
  rewrite (call_add_lag_features _ _ _ _ _ Hg (Hlag _)) in H2.
  apply bind_Ok in H2 as (cols & Hcols & [= <-]).
  rewrite (call_add_rolling_features _ _ _ _ _ Hg (Hroll _)) in H3.
  apply bind_Ok in H3 as (rcols & Hrcols & [= <-]).
  change default_lags with ([1; 2; 3] ++ [6; 12; 24]) in Hcols.
  unfold lag_columns in Hcols.
  apply mapR_app_inv in Hcols as (c1 & c2 & Hc1 & Hc2 & ->).
  change (lag_columns d1 "occupancy_rate" (Some "lot_id") [1; 2; 3] = Ok c1) in Hc1.
  change (lag_columns d1 "occupancy_rate" (Some "lot_id") [6; 12; 24] = Ok c2) in Hc2.
  unfold rolling_columns in Hrcols.
  change (default_windows ≫= (fun w => [(w, Mean); (w, Std); (w, Max); (w, Min)]))
    with (([3] ≫= (fun w => [(w, Mean); (w, Std); (w, Max); (w, Min)]))
          ++ ([6; 12; 24] ≫= (fun w => [(w, Mean); (w, Std); (w, Max); (w, Min)])))
    in Hrcols.
  apply mapR_app_inv in Hrcols as (r1 & r2 & Hr1 & Hr2 & ->).
  set (d2 := assign d1 (c1 ++ c2)) in *.
  change (rolling_columns d2 "occupancy_rate" (Some "lot_id") [3] = Ok r1) in Hr1.
  change (rolling_columns d2 "occupancy_rate" (Some "lot_id") [6; 12; 24] = Ok r2) in Hr2.
  pose proof (lag_columns_labels _ _ _ _ _ Hc2) as Hl2.
  pose proof (rolling_columns_labels _ _ _ _ _ Hr2) as Hl2'.
  assert (d2 = assign (assign d1 c1) c2) as Hd2.
  { unfold d2, assign. by rewrite foldl_app. }
  assert ("lot_id" ∉ lag_label "occupancy_rate" <$> [6; 12; 24]) as Hn1
    by (apply (bool_decide_unpack _); vm_compute; exact I).
  assert ("occupancy_rate" ∉ lag_label "occupancy_rate" <$> [6; 12; 24]) as Hn2
    by (apply (bool_decide_unpack _); vm_compute; exact I).
  assert (rolling_columns (assign d1 c1) "occupancy_rate" (Some "lot_id") [3] = Ok r1)
    as He3.
  { rewrite <- Hr1. symmetry. apply rolling_columns_ext.
    - rewrite Hd2. apply getitem_assign_notin. by rewrite Hl2.
    - rewrite Hd2. apply getitem_assign_notin. by rewrite Hl2. }
  exists (assign (assign d1 c1) r1). split_and!.
  - unfold engineer_features. rewrite H1. cbn [mbind result_bind].
    rewrite (call_add_lag_features _ _ _ _ _ Hg (Hlag _)), Hc1. cbn [mbind result_bind].
    by rewrite (call_add_rolling_features _ _ _ _ _ Hg (Hroll _)), He3.
  - intros lab [Hlab1 Hlab2]%not_elem_of_app.
    unfold assign at 1. rewrite foldl_app. fold (assign d2 r1).
    fold (assign (assign d2 r1) r2).
    rewrite getitem_assign_notin by by rewrite Hl2'.
    apply getitem_assign_same. rewrite Hd2.
    apply getitem_assign_notin. by rewrite Hl2.
  - intros lab Hlab. split.
    + unfold assign at 1. rewrite foldl_app. fold (assign d2 r1).
      fold (assign (assign d2 r1) r2).
      rewrite elem_of_columns_assign, Hl2'.
      apply elem_of_app in Hlab as [Hlab|Hlab]; [left|by right].
      rewrite elem_of_columns_assign. left.
      rewrite Hd2, elem_of_columns_assign, Hl2. by right.
    + assert (Forall (fun lab =>
                        (lab ∉ (w ← [3]; window_labels "occupancy_rate" w))
                        ∧ (lab ∉ (lag_label "occupancy_rate" <$> [1; 2; 3]))
                        ∧ (lab ∉ "timestamp" :: temporal_labels))
                     ((lag_label "occupancy_rate" <$> [6; 12; 24])
                      ++ (w ← [6; 12; 24]; window_labels "occupancy_rate" w)))
        as Hnew by (apply (bool_decide_unpack _); vm_compute; exact I).
      rewrite Forall_forall in Hnew. destruct (Hnew lab Hlab) as (Hw & Hl & Ht).
      rewrite getitem_assign_notin
        by by rewrite (rolling_columns_labels _ _ _ _ _ He3).
      rewrite getitem_assign_notin by by rewrite (lag_columns_labels _ _ _ _ _ Hc1).
      eapply keeps_getitem; [|exact Ht].
      apply temporal_result_keeps.
      exact (on_copy_call _ _ _ _ (add_temporal_features_spec "timestamp") H1).
Qed.

End ServedFeatures.

Section ServedFeaturesExamples.
Import Pandas DataLoader Features Models Server Predict Train Spec Example.

Lemma create_all_features_extends_served_features_witness :
  ∃ d' e,
    call (fun df => create_all_features df "occupancy_rate" "timestamp" (Some "lot_id"))
         readings_frame = Ok d'
    ∧ engineer_features readings_frame = Ok e
    ∧ getitem d' "occupancy_rate_lag_1" = getitem e "occupancy_rate_lag_1"
    ∧ ("occupancy_rate_lag_24" ∈ columns d')
    ∧ getitem e "occupancy_rate_lag_24" = Err (KeyError "occupancy_rate_lag_24").
Proof.
  assert ("occupancy_rate_lag_1"
            ∉ (lag_label "occupancy_rate" <$> [6; 12; 24])
              ++ (w ← [6; 12; 24]; window_labels "occupancy_rate" w)) as Hout
    by (apply (bool_decide_unpack _); vm_compute; exact I).
  assert ("occupancy_rate_lag_24"
            ∈ (lag_label "occupancy_rate" <$> [6; 12; 24])
              ++ (w ← [6; 12; 24]; window_labels "occupancy_rate" w)) as Hin
    by (apply (bool_decide_unpack _); vm_compute; exact I).
  destruct (call (fun df => create_all_features df "occupancy_rate" "timestamp"
                              (Some "lot_id")) readings_frame)
    as [d'|err] eqn:E; [|vm_compute in E; discriminate E].
  destruct (create_all_features_extends_served_features readings_frame d' E)
    as (e & He & Hsame & Hnew).
  exists d', e. split_and!; [reflexivity|exact He|exact (Hsame _ Hout)| |].
  - exact (proj1 (Hnew _ Hin)).
  - rewrite (proj2 (Hnew _ Hin)). reflexivity.
Defined.

End ServedFeaturesExamples.

(** ** The file of the model *)

Section ModelFile.
Import Pandas DataLoader Features Models Server Predict Train Spec.

Lemma length_append_string (s t : string) :
  String.length (s +:+ t) = (String.length s + String.length t)%nat.
Proof. induction s as [|a s IH]; simpl; [done|]. by rewrite IH. Qed.

Lemma append_inj_r (s1 s2 t : string) : s1 +:+ t = s2 +:+ t → s1 = s2.
Proof.
  revert s2. induction s1 as [|a s1 IH]; intros [|b s2] Heq.
  - done.
  - apply (f_equal String.length) in Heq.
    rewrite !length_append_string in Heq. simpl in Heq. lia.
  - apply (f_equal String.length) in Heq.
    rewrite !length_append_string in Heq. simpl in Heq. lia.
  - cbn in Heq. injection Heq as -> Heq. f_equal. by apply IH.
Qed.

Lemma model_file_inj mt : model_file mt = MODEL_PATH ↔ mt = "xgboost".
Proof.
  split; [|by intros ->].
  unfold model_file, MODEL_PATH. intros Heq.
  apply (inj (String.app "forecast/models/parking_forecaster_") _ "xgboost.pkl") in Heq.
  by apply (append_inj_r mt "xgboost" ".pkl").
Qed.

End ModelFile.

Section ServedModel.
Import Pandas DataLoader Features Models Server Predict Train Spec.

(** X26: the server loads the file that [train_model] saves for the
    model type [xgboost], and no other: after [save] to the file of a
    model type, [load_model] yields the saved forecaster and the
    modification time of the file when the type is [xgboost], and for
    any other type it does what it did before. *)
Theorem server_loads_the_xgboost_file w st mt fc mtime fs' :
  save fc (model_file mt) mtime (files w) = Ok fs' →
  let w' := {| files := fs'; databases := databases w; clock := clock w |} in
  (mt = "xgboost" →
   load_model w' st
   = {| final := {| forecaster := Some fc; data_loader := data_loader st;
                    model_path := Some MODEL_PATH;
                    model_last_modified := Some mtime |};
        raised := None; unpickled := [MODEL_PATH] |})
  ∧ (mt ≠ "xgboost" →
     files w' !! MODEL_PATH = files w !! MODEL_PATH
     ∧ load_model w' st = load_model w st).
Proof.
  unfold save. destruct (model fc) as [m|] eqn:Hm; [|done]. intros [= <-]. cbv zeta.
  split.
  - intros ->. unfold load_model. cbn [files].
    change (model_file "xgboost") with MODEL_PATH. rewrite lookup_insert_eq.
    cbn -[MODEL_PATH]. unfold load. rewrite lookup_insert_eq. cbn -[MODEL_PATH].
    destruct fc. simpl in *. by rewrite Hm.
  - intros Hne.
    assert (model_file mt ≠ MODEL_PATH) as Hp by by rewrite model_file_inj.
    split.
    + cbn [files]. by rewrite lookup_insert_ne.
    + unfold load_model, load. cbn [files]. by rewrite !lookup_insert_ne.
Qed.

End ServedModel.

Section ModelFileExamples.
Import Pandas DataLoader Features Models Server Predict Train Spec Example.

Lemma server_loads_the_xgboost_file_witness :
  ∃ fs,
    save small_forecaster (model_file "xgboost") 1000 (files empty_world) = Ok fs
    ∧ forecaster (final (load_model {| files := fs; databases := databases empty_world;
                                       clock := clock empty_world |} cold_state))
      = Some small_forecaster.
Proof.
  destruct (save small_forecaster (model_file "xgboost") 1000 (files empty_world))
    as [fs|e] eqn:E; [|discriminate E].
  exists fs. split; [reflexivity|].
  rewrite (proj1 (server_loads_the_xgboost_file empty_world cold_state "xgboost"
                    small_forecaster 1000 fs E) eq_refl).
  reflexivity.
Defined.

End ModelFileExamples.

(** ** The constructor of the forecaster *)

Section Constructor.
Import Pandas DataLoader Features Models Server Predict Train Spec.

(** X27: the constructor refuses an unknown model type and otherwise
    always sets a regressor, so the guards [Model not trained yet] of
    [predict], [save] and [get_feature_importance] never fire on a
    forecaster it made: before training [predict] fails in the
    regressor, and [save] writes a file from which [load] restores the
    untrained forecaster. *)
Theorem constructor_always_sets_a_model mt :
  (mt ∉ ["random_forest"; "xgboost"; "lightgbm"] →
   ParkingForecaster_init mt = Err (ValueError ("Unknown model type: " +:+ mt)))
  ∧ ∀ fc, ParkingForecaster_init mt = Ok fc →
      mt ∈ ["random_forest"; "xgboost"; "lightgbm"]
      ∧ model_type fc = mt ∧ feature_columns fc = None ∧ target_column fc = None
      ∧ is_Some (model fc)
      ∧ (∀ X, ¬ is_Ok (predict fc X)
              ∧ predict fc X ≠ Err (ValueError "Model not trained yet"))
      ∧ (∀ filepath mtime fs,
           ∃ fs', save fc filepath mtime fs = Ok fs'
                  ∧ ∀ other, load other filepath fs' = Ok fc)
      ∧ (∀ importances top_n,
           get_feature_importance fc importances top_n
           ≠ Err (ValueError "Model not trained yet")).
Proof.
  unfold ParkingForecaster_init. split.
  - intros Hn. by rewrite bool_decide_eq_false_2.
  - intros fc. destruct (bool_decide _) eqn:Hmt; [|done].
    apply bool_decide_eq_true in Hmt. intros [= <-].
    split; [done|]. split; [done|]. split; [done|]. split; [done|].
    split; [by eexists|]. split_and!.
    + intros X. split; [by intros [? ?]|done].
    + intros filepath mtime fs. eexists. split; [reflexivity|].
      intros other. unfold load. by rewrite lookup_insert_eq.
    + intros [imp|] top_n; simpl; [done|].
      intros [= Heq]. apply (f_equal (fun s => String.get 6 s)) in Heq.
      cbn in Heq. apply list_elem_of_In in Hmt. simpl in Hmt.
      destruct Hmt as [<-|[<-|[<-|[]]]]; discriminate Heq.
Qed.

End Constructor.

Section ConstructorExamples.
Import Pandas DataLoader Features Models Server Predict Train Spec Example.

Lemma constructor_always_sets_a_model_witness :
  ∃ fc fs, ParkingForecaster_init "lightgbm" = Ok fc
           ∧ save fc "model.pkl" 1 ∅ = Ok fs
           ∧ load small_forecaster "model.pkl" fs = Ok fc.
Proof.
  destruct (ParkingForecaster_init "lightgbm") as [fc|e] eqn:E; [|discriminate E].
  destruct (proj2 (constructor_always_sets_a_model "lightgbm") fc E)
    as (_ & _ & _ & _ & _ & _ & Hsave & _).
  destruct (Hsave "model.pkl" 1%Q ∅) as (fs & Hfs & Hload).
  exists fc, fs. split_and!; [reflexivity|exact Hfs|apply Hload].
Defined.

End ConstructorExamples.

(** ** The statuses of [GET /current] *)

Section CurrentLots.
Import Pandas DataLoader Features Models Server Predict Train Spec.
Context `{PyLib}.

Lemma NoDup_join_pairs lk rk : NoDup (join_pairs lk rk).
Proof.
  unfold join_pairs.
  assert (NoDup (seq 0 (length lk))) as Hnd by apply NoDup_seq.
  revert Hnd. generalize (seq 0 (length lk)). intros idxs Hnd.
  induction Hnd as [|i idxs Hi Hnd IH]; simpl; [constructor|].
  apply NoDup_app. split_and!.
  - apply NoDup_fmap_2; [by intros ?? [= ->]|]. apply NoDup_filter, NoDup_seq.
  - intros [i0 j0] (j & [= -> ->] & _)%list_elem_of_fmap Hin.
    apply list_elem_of_In, in_flat_map in Hin as (i' & Hi' & Hin).
    apply list_elem_of_In, list_elem_of_fmap in Hin as (j' & [= -> _] & _).
    by apply list_elem_of_In in Hi'.
  - exact IH.
Qed.

(** The lots of the rows of a merge of [left] with [right]. *)
Lemma merge_lookup_pair lk rk (c : column) p v :
  length c = length lk →
  gather (map fst (join_pairs lk rk)) c !! p = Some v →
  ∃ i j, join_pairs lk rk !! p = Some (i, j) ∧ c !! i = Some v.
Proof.
  intros Hlen Hv. rewrite gather_lookup in Hv.
  - rewrite list_lookup_fmap in Hv.
    destruct (join_pairs lk rk !! p) as [[i j]|] eqn:Hp; [|done].
    simpl in Hv. eauto.
  - intros i ([i' j] & -> & Hin)%list_elem_of_fmap.
    apply join_pairs_range in Hin as [Hi _]. simpl. lia.
Qed.

End CurrentLots.

Section CurrentStatusPerLot.
Import Pandas DataLoader Features Models Server Predict Train Spec.
Context `{PyLib}.

(** X28: when the ids of the table of lots are pairwise different,
    [GET /current] returns at most one status per lot, and every status
    is of a lot of the table: the latest reading of a lot that the
    table lacks is left out. *)
Theorem one_status_per_known_lot w st lot_id loader db lots ids statuses :
  data_loader st = Some loader →
  databases w !! db_path loader = Some db →
  load_parking_lots db = Ok lots → getitem lots "id" = Ok ids →
  (∀ j j', key_match (ids !! j) (ids !! j') = true → j = j') →
  get_current_status w st lot_id = Ok statuses →
  NoDup (cs_lot_id <$> statuses)
  ∧ ∀ cs, cs ∈ statuses → CStr (cs_lot_id cs) ∈ ids.
Proof.
  intros Hl Hdb Hlots Hids Huniq. unfold get_current_status, connect.
  rewrite Hl, Hdb. cbn [from_option mbind result_bind]. intros Hs.
  match type of Hs with except_500 _ ?r = _ => destruct r as [ss|e] eqn:Hr end;
    [|done].
  simpl in Hs. injection Hs as ->.
  apply bind_Ok in Hr as (merged & Hm & Hr).
  destruct merged as [merged|].
  2: { injection Hr as <-. split; [constructor|]. by intros cs ?%elem_of_nil. }
  unfold current_frame in Hm. apply bind_Ok in Hm as (latest & Hlatest & Hm).
  destruct latest as [latest|]; [|done]. rewrite Hlots in Hm.
  cbn [mbind result_bind] in Hm.
  apply bind_Ok in Hm as (right & Hsel & Hm).
  apply bind_Ok in Hm as (merged0 & Hmerge & Hd).
  apply fmap_Ok in Hd as (merged' & Hd & [= <-]).
  (* the lots of the latest readings *)
  unfold latest_readings in Hlatest.
  apply bind_Ok in Hlatest as (readings & _ & Hlatest).
  destruct (empty readings); [done|].
  apply bind_Ok in Hlatest as (sorted & _ & Hlatest).
  apply bind_Ok in Hlatest as (keys & Hkeys & [= <-]).
  set (lk := gather (groupby_tail1 keys) keys).
  assert (getitem (take_rows (groupby_tail1 keys) sorted) "lot_id" = Ok lk) as Hlk.
  { unfold take_rows. by rewrite getitem_map_columns, Hkeys. }
  (* the lot column of the merged frame *)
  pose proof (columns_select _ _ _ Hsel) as Hcols.
  destruct (merge_left_column _ _ _ _ _ _ "lot_id" lk Hmerge Hlk)
    as (lk' & rk & Hlk' & Hrk & Hcol).
  { rewrite Hcols. not_elem_of_labels. }
  assert (lk' = lk) as -> by congruence.
  rewrite (getitem_select _ _ _ "id" Hsel) in Hrk by elem_of_labels.
  assert (rk = ids) as -> by congruence.
  destruct (derive_occupancy_Ok _ _ Hd) as (? & ? & ? & _ & _ & _ & _ & Hkeep & _).
  rewrite <- (keeps_getitem _ _ _ "lot_id" Hkeep) in Hcol by not_elem_of_labels.
  (* a status and its pair of rows *)
  assert (∀ p cs, statuses !! p = Some cs →
            ∃ i j, join_pairs lk ids !! p = Some (i, j)
                   ∧ lk !! i = Some (CStr (cs_lot_id cs))) as Hpair.
  { intros p cs Hp.
    destruct (mapR_Ok_lookup_inv _ _ _ _ _ Hr Hp) as (p' & Hp' & Hrow).
    unfold row_indices in Hp'. apply lookup_seq in Hp' as [-> _]. simpl in Hrow.
    unfold current_status_of_row in Hrow.
    apply bind_Ok in Hrow as (s & (v & (c & Hc & Hv)%at_row_Ok & Hs)%bind_Ok & Hrow).
    apply bind_Ok in Hrow as (? & _ & Hrow). apply bind_Ok in Hrow as (? & _ & Hrow).
    apply bind_Ok in Hrow as (? & _ & Hrow). apply bind_Ok in Hrow as (? & _ & Hrow).
    apply bind_Ok in Hrow as (? & _ & Hrow). apply bind_Ok in Hrow as (? & _ & Hrow).
    injection Hrow as <-. simpl.
    destruct v; try discriminate Hs. injection Hs as ->.
    rewrite Hcol in Hc. injection Hc as <-.
    by apply merge_lookup_pair in Hv. }
  split.
  - apply NoDup_alt. intros p p' s Hp Hp'. rewrite list_lookup_fmap in Hp, Hp'.
    destruct (statuses !! p) as [cs|] eqn:Hcs; [|done].
    destruct (statuses !! p') as [cs'|] eqn:Hcs'; [|done].
    simpl in Hp, Hp'. injection Hp as Hp. injection Hp' as Hp'.
    destruct (Hpair _ _ Hcs) as (i & j & Hij & Hi).
    destruct (Hpair _ _ Hcs') as (i' & j' & Hij' & Hi').
    rewrite Hp in Hi. rewrite Hp' in Hi'.
    assert (i' = i) as ->.
    { symmetry. apply (tail_rows_distinct keys i i'); [by eexists|].
      fold lk. unfold lot_of. by rewrite Hi, Hi'. }
    pose proof (list_elem_of_lookup_2 _ _ _ Hij) as Hm1%elem_of_join_pairs.
    pose proof (list_elem_of_lookup_2 _ _ _ Hij') as Hm2%elem_of_join_pairs.
    assert (j' = j) as ->.
    { symmetry. apply Huniq. rewrite Hi in Hm1, Hm2.
      destruct (ids !! j) as [y|]; [|done]. destruct (ids !! j') as [y'|]; [|done].
      simpl in *. apply bool_decide_eq_true in Hm1, Hm2.
      apply bool_decide_eq_true. congruence. }
    eapply NoDup_lookup; [apply NoDup_join_pairs|exact Hij|exact Hij'].
  - intros cs [p Hp]%list_elem_of_lookup.
    destruct (Hpair _ _ Hp) as (i & j & Hij & Hi).
    pose proof (list_elem_of_lookup_2 _ _ _ Hij) as Hm%elem_of_join_pairs.
    rewrite Hi in Hm. destruct (ids !! j) as [y|] eqn:Hy; [|done].
    simpl in Hm. apply bool_decide_eq_true in Hm. simpl in Hm.
    assert (y = CStr (cs_lot_id cs)) as ->.
    { destruct y; simpl in Hm; congruence. }
    by eapply list_elem_of_lookup_2.
Qed.

End CurrentStatusPerLot.

Section CurrentStatusExamples.
Import Pandas DataLoader Features Models Server Predict Train Spec Example.

Lemma one_status_per_known_lot_witness :
  ∃ statuses,
    get_current_status world0 serving_state None = Ok statuses
    ∧ NoDup (cs_lot_id <$> statuses)
    ∧ ∀ cs, cs ∈ statuses → CStr (cs_lot_id cs) ∈ [CStr "A"; CStr "B"].
Proof.
  destruct (get_current_status world0 serving_state None) as [statuses|e] eqn:E;
    [|vm_compute in E; discriminate E].
  exists statuses. split; [reflexivity|].
  apply (one_status_per_known_lot world0 serving_state None {| db_path := DB_PATH |} db
           (frame_of_rows (t_columns lots_table) (t_rows lots_table))
           [CStr "A"; CStr "B"] statuses);
    [reflexivity|reflexivity|reflexivity|reflexivity| |exact E].
  intros [|[|j]] [|[|j']]; simpl; first [reflexivity|discriminate].
Defined.

End CurrentStatusExamples.
